(* ===== verification/_CoqProject ===== *)
-Q . S2P
Prelude.v
Sqlite.v
Sha256.v
Json.v
JsonParse.v
JsonRead.v
FailureRecovery.v
PyTime.v
Uuid.v
RuntimeBinding.v
Deployment.v
Policy.v
RepositoryPolicy.v
AuthorityBlock.v
DependencyPolicy.v
CanaryPolicy.v
CanaryExecution.v
Gates.v
DependencyReview.v
DependencyGraph.v
CanaryRestart.v
Handoff.v
NativeHost.v
HostedEvidence.v
Worktree.v
Migrations.v
StateDb.v
TaskState.v
Candidates.v
GateStore.v
GateRecords.v
GateHistory.v
ReviewStore.v
ReviewHistory.v
CodingState.v
FailureTables.v
FailureAdmission.v
FailureLedger.v
FailureHistory.v
RecoveryRoutes.v
RouteHistory.v
ProviderIntents.v
RoleBudgets.v
RoleCapabilities.v
RoleAdmission.v
RoleExecution.v
