(* ===== verification/Prelude.v ===== *)
(** * Roundwright: a verification development

    Roundwright coordinates coding agents over one repository.  Its own core
    logic is a set of fail-closed deciders and coordinators: code that reads
    typed evidence (receipts, policies, graphs, ledgers) and either authorizes
    exactly one bounded step or refuses.  This library translates that logic
    from the Python sources under [src/src/roundwright/] into executable
    definitions and proves what makes it correct.

    ** Files and the code they model

    - [Prelude]: Python exceptions as values ([py A]), dynamically typed
      arguments ([dyn A]), strings and patterns, dicts as association lists,
      shared lemmas, hint databases and tactics.
    - [Sha256], [Json], [PyTime], [Uuid]: the parts of the standard library
      that the sources use: [hashlib.sha256], [json.dumps] with sorted keys (its
      output determines the value), UTC [datetime] order and [isoformat], the
      text of a UUID.  [JsonParse]: [json.loads] of a text without numbers that
      have a fraction or an exponent.  [JsonRead]: parsing what [Json] printed
      gives the value back.
    - [RuntimeBinding] (runtime_binding.py): the configuration identity that
      receipts and contexts are bound to.
    - [Deployment] (deployment.py): [evaluate_deployment_authority].
    - [Policy] (policy.py): [evaluate_policy].
    - [RepositoryPolicy], [AuthorityBlock] (repository_policy.py): the mutation
      decision and the parser of the marked authority block of a document.
    - [DependencyPolicy] (dependency_policy.py): version ranges, policy
      transitions and the preflight before a dependency helper runs.
    - [CanaryPolicy] (canary_policy.py): bounded policies, the receipt chain and
      [authorize_canary_request].
    - [CanaryExecution] (canary_execution.py): the ledger and the orchestrator
      as a state machine over a world (ledger, owner host, trace of calls).  The
      owner host (lease and broker) is code of the deployment, not of this
      program: it is the interface [OwnerHost], arbitrary except that a value of
      class [CanarySemanticReadback] passed its constructor ([OwnerHostTyped]).
    - [CanaryRestart] (canary_execution.py): [sealed_state] and [hydrate], the
      restart of a coordinator, and lifetimes of commands and restarts.
    - [Gates] (gates.py): [decide_gates] and its helpers.
    - [DependencyReview] (dependency_review.py): the records of a dependency
      review, their digests, the strict parser of a proposal.
    - [DependencyGraph] (dependency_graph.py): validation of a proposed change,
      the next graph, the cycle search.
    - [HostedEvidence] (hosted_evidence.py): the verdict over a release's
      evidence bundle.
    - [Handoff] (deployment_handoff.py): the authority store and the operations
      of its coordinators; [protocol_step] is the protocol they implement, and
      [history] the sequences of operations of any coordinators.
    - [NativeHost] (native_host.py): the control store of a platform
      installation, its database explicit state and each operation one
      transaction that may fail as a whole, and the hosts that use it under the
      authority of [Handoff]; [system] is a machine with any number of hosts.
    - [Sqlite]: what the database engine does with a value or a uniqueness
      constraint.  [Worktree], [Migrations], [StateDb], [TaskState] (state.py,
      git_identity.py): the validation of text and of worktree keys, the schema
      check on opening, the tables as a record [Database], ownership and the
      transition leases, and the operations on tasks.  The tables that candidate
      evidence lives in belong to other components: [TaskState] is proved against
      the interface [EvidenceTables] with its laws [EvidenceTablesOk], which
      [GateStore.gate_tables] implements.
      [operation] is any call of any caller; [reachable] the states they reach.
    - [Candidates] (git_identity.py): the worktree of a task, the seal of its
      candidate, the evidence bound to it; [Readings] are the answers of git, the
      file system and the clock to one operation.  [GateStore] (gates.py,
      review_lifecycle.py): recording and reading gate evidence, the persisted
      decision, the owner blockers it reads, the final transition.  What it reads
      of the dependency-review and dependency-graph tables is the interface
      [LineageTables].  [GateRecords]: what is stored reads back.  [GateHistory]:
      [gate_reachable], the databases that any calls of any processes reach, and
      the final transition with [TaskState].
    - [ReviewStore] (review_lifecycle.py): review items and their provenance,
      worker objectives, the owner's commands and the grants they need.  What it
      reads of the attempts of providers is the interface [AttemptTables].
      [ReviewHistory]: [system_operation] is any call of any process on tasks,
      gates or reviews, and [run_systems] their histories.
    - [CodingState] (coding_worker_state.py): the records of coding events and
      the store they are kept in.  Its operations are not transactions: each is
      a [session], the sequence of its SQL statements, and [play] interleaves
      the sessions of any processes statement by statement.
    - [FailureRecovery], [FailureTables], [FailureAdmission], [FailureLedger],
      [FailureHistory], [RecoveryRoutes], [RouteHistory], [ProviderIntents]
      (failure_recovery.py): closed failure records, their texts and digests;
      the tables a failure, its decisions and its routes are stored in; the
      verified clearance or revocation of a stop; recording and reading
      failures; the histories of a database under any calls; one-use recovery
      routes and the intents of provider attempts that spend them.
    - [RoleBudgets], [RoleCapabilities], [RoleAdmission], [RoleExecution]
      (role_capability_policy.py): the budget file as an interface with its
      laws, the policy of each role, the admission of a role to a task, and the
      reservation, the execution and the refund of one effect.

    ** How the code is read

    A frozen dataclass is a record; the checks of its [__post_init__] are a
    function into [py unit], and a constructor that computes a field is a
    [make_] function.  A [StrEnum] is an inductive type with a value function.
    [raise] is [Err]; handlers test the class of the exception.  An argument the
    code tests with [type(x) is C] is a [dyn C].  Mutable objects are explicit
    state: the canary ledger is threaded through a state-and-exception monad in
    which an exception keeps the changes made before it, as in Python.  Python
    integers are [Z]; their conversion from text keeps the limit of 4300 digits.
    Strings are limited to code points up to U+00FF.

    ** What the theorems show

    - Exactness.  Each decider is proved to authorize exactly when an abstract
      specification of its evidence holds: [deployment_authority_exact],
      [repository_mutation_exact], [policy_activation_exact],
      [dependency_preflight_exact], [policy_transition_exact],
      [canary_request_exact], [gates_pass_exact], [graph_acceptance_exact],
      [roundwright_block_exact], [hosted_pass_exact], [admission_exact].
    - Binding.  One receipt authorizes one deployment, policy, mutation or chain
      position, unless SHA-256 collides on the texts involved (stated as a
      hypothesis on those texts): [single_authoritative_deployment],
      [receipt_pins_policy], [receipt_pins_mutation],
      [fence_identifies_chain_position], [decision_binding_is_exact].
    - Invariants over histories: [canary_transitions_safe] (for any commands and
      any owner host: valid chain within budget, at most one dispatch per claim
      plus one consumed retry, only after a granted lease),
      [receipt_chain_counts_calls], [upgrades_never_return],
      [lineage_graphs_acyclic], [policy_never_widens], and
      [restarts_keep_safety] (the canary invariant over restarts).
    - Tasks: [task_state_is_replay] (the stored state of a task is the replay of
      its recorded events), [ready_only_through_gates] (for any evidence store),
      [ready_is_final],
      [blocked_task_resumes], and [released_lease_is_dead] (a lease that was
      released or superseded never authorizes a transition again).
    - Candidates and gates: [gate_rows_follow_seal] (nothing stored about a
      candidate survives its seal), [recorded_evidence_reads_back],
      [ready_needs_persisted_gates] (the gates, the blockers, the lineage and the
      graph that the database holds when a task becomes ready).
    - Reviews: [ready_only_after_owner] (an open blocker is closed by its owner
      before its task can become ready), [owner_decisions_are_final] (each item
      is closed by exactly one command, for good).
    - Coding events: [effect_claimed_once] and [event_log_append_only] hold under
      every interleaving; [uncertain_submission_lost] is a defect: two processes
      that record the outcome of one submission can both succeed.
    - Failures: [records_are_classifications], [record_text_roundtrip],
      [record_digest_identifies] (what is stored is what was classified),
      [recorded_failure_reads_back], [denial_holds_until_cleared] (a stop
      denies work until a verified clearance, whatever else is called),
      [decisions_alternate], [moved_candidate_closes_scope],
      [recovery_needs_verified_evidence].
    - Routes: [reservations_balance], [admitted_route_stays_spent],
      [routes_are_justified] (an open route is one that a live decision issued).
    - Roles: [admitted_effect_is_granted], [effect_is_reserved_once],
      [budget_accounts] (what is spent is what was charged, less what was
      released, and within the limit), [refund_precedes_reopening] (a refund is
      committed before the route or intent it frees, and what a failure between
      the two commits leaves, and how it is completed).
    - Handing over authority: [handoff_refines_protocol] (every operation is a
      step of the protocol), [authority_moves_only_by_revocation],
      [handoff_completes].
    - Hosts: [one_live_child] (one running process per installation, whatever
      fails), [start_admits_exactly], [renewal_bounds] (64-bit lease times, and
      the defect that a huge lease raises).
    - Behaviour of operations: [execute_verifies_iff_applied],
      [duplicate_delivery_converges], [authorized_call_extends_chain],
      [helper_runs_only_when_trusted], [activation_is_local],
      [blocked_gates_stay_blocked], [gates_order_and_replay_irrelevant].
    - Termination and round trips: [cycle_search_decides],
      [dependency_preflight_decides], [proposal_parse_roundtrip],
      [rehydration_is_exact].
    - [preflight_raises_on_long_version] is a defect: an accepted observation on
      which the preflight raises instead of blocking.
    - [unlisted_identity_never_decides] is a defect: a task that is admitted but
      whose name the owner-blocker receipt refuses can never become ready.
    - [stale_reservation_blocks_restart] is a defect: a reachable ledger whose
      sealed state cannot be restored.
    - [unclaimed_expiry_blocks_store] is a defect: a receipt that expires before
      an orchestrator claims it blocks the store for good.

    ** Fuel and bounds

    The depth-first search of [DependencyGraph] has fuel: one nested call per
    node of the graph suffices ([cycle_search_decides]); the recursion limit of
    the interpreter is not modelled.  [Migrations.remove_all] has the length of
    its string as fuel, and each step shortens the string.  [JsonParse.loads]
    has twice the length of its text as fuel, and one more: every two nested
    calls consume a character ([loads_fuel] shows that more fuel changes
    nothing).  Everything else is structurally recursive.

    ** Not modelled

    Code whose work is I/O: processes and files (github_runtime.py, the git
    commands of git_identity.py, external_validation.py, configuration loading,
    Docker and CLI entry points, CI scripts), and the provider SDK adapters.
    Stores whose tables are not modelled: those of dependency_review.py,
    dependency_graph.py (both an interface of [GateStore]), the attempts, reviews
    and outputs of providers (an interface of [ReviewStore]) and the routing of
    reviews (plan_review.py, candidate_review.py).  Of git_identity.py: running
    git and parsing what it prints; within one operation the worktree answers as
    its [Readings] say, which separate the reads before and after the checks.
    Of failure_recovery.py: the routes that live in memory only, and the
    advice texts; a stored JSON text with a floating-point number counts as
    drifted, and scopes have no path outside Latin-1.  Of
    role_capability_policy.py: the launch context of the provider SDK and the
    reading of guidance files; the errors that its
    budget file raises outside a refund.  An error of a database engine (locked,
    full) rolls the transaction back and leaves the database as it was before the
    call; it is an outcome of [NativeHost] and of the two refunds, whose two files
    commit separately, and elsewhere a call that was not made.  A process that
    dies between those two commits leaves what a failed second commit leaves.
    Of modelled files: the SQL
    text of the migrations, the receipt of an exhausted review limit, the decoder
    of a serialized canary policy, the TOML and on-disk loaders.
    [Json.dumps] prints every integer, while [json.dumps] raises ValueError on
    one of more than 4300 digits.  A recorded role admission with a float or with
    text outside Latin-1 in a key that nothing reads is refused by the model only.
    Processes interleave inside an operation only in [CodingState].  Elsewhere an
    operation is one step: the lock of the authority store and the transactions
    of the databases make it one, except that [record_gate_evidence] of
    [GateStore] is several transactions and [record_durable_failure] of
    [FailureLedger] reads before its transaction.  The lock of the canary ledger
    covers each method of the ledger, not a whole command of the coordinator
    ([_begin], [retry], [reconcile], [_readback]): the theorems about it are about
    commands run one after another, by a host that does not call back into the
    coordinator. *)

From stdpp Require Export base tactics list strings gmap sorting option numbers.
From Stdlib Require Export Lia.
From Stdlib Require Export Ascii.
From Stdlib Require String.
#[export] Set Warnings "-clear-no-such-hyp,-level-tolerance".

(** ** Python exceptions as values

    Fallible code returns [py A]: either a value or a raised exception, that is
    its class and its message.  The class matters because the sources catch by
    class ([except CanaryPolicyError]). *)

Inductive exn_class :=
  | ValueError | KeyError | TypeError | AssertionError | AttributeError | IndexError
  | RuntimeBindingError | DeploymentAuthorityError | PolicyError
  | RepositoryPolicyError | DependencyPolicyError | CanaryPolicyError
  | CanaryExecutionError | GateError | DependencyGraphError
  | DependencyReviewError | NativeHostError | StateError
  | LifecycleObservationError | CodingWorkerStateError | DeploymentHandoffError | OverflowError | HostedEvidenceError
  | JSONDecodeError | FailureRecoveryError | ScopeAdmissionDenied | RoleCapabilityError
  | OSError | GitIdentityError | IntegrityError | WorkerPlanningError | CandidateReviewError | ReviewLifecycleError.

Record exn := Raised { exn_kind : exn_class; exn_message : string }.

Inductive result (E A : Type) := Ok (a : A) | Err (e : E).
Arguments Ok {E A} _.
Arguments Err {E A} _.

Abbreviation py := (result exn).

#[export] Instance exn_class_eq_dec : EqDecision exn_class.
Proof. solve_decision. Defined.
#[export] Instance exn_eq_dec : EqDecision exn.
Proof. solve_decision. Defined.

#[export] Instance result_ret {E} : MRet (result E) := λ A a, Ok a.
#[export] Instance result_bind {E} : MBind (result E) := λ A B f m,
  match m with Ok a => f a | Err e => Err e end.
#[export] Instance result_fmap {E} : FMap (result E) := λ A B f m,
  match m with Ok a => Ok (f a) | Err e => Err e end.

(** [raise cls msg] and [if not b: raise cls(msg)]. *)
Definition raise {A} (cls : exn_class) (msg : string) : py A := Err (Raised cls msg).

Definition require (b : bool) (cls : exn_class) (msg : string) : py unit :=
  if b then Ok () else raise cls msg.

Definition is_ok {E A} (r : result E A) : bool :=
  match r with Ok _ => true | Err _ => false end.

(** [for x in l: f(x)], stopping at the first exception. *)
Fixpoint for_each {A} (f : A → py unit) (l : list A) : py unit :=
  match l with
  | [] => Ok ()
  | x :: l => _ ← f x; for_each f l
  end.

(** ** Dynamically typed arguments

    An argument the source tests with [type(x) is C] is a [dyn C]: a value of
    exactly that class, or anything else ([None] included). *)

Inductive dyn (A : Type) := Typed (a : A) | Foreign.
Arguments Typed {A} _.
Arguments Foreign {A}.

#[export] Instance dyn_eq_dec `{EqDecision A} : EqDecision (dyn A).
Proof. solve_decision. Defined.

(** [type(x) is C and valid(x)], with the value in hand. *)
Definition checked {A} (valid : A → bool) (d : dyn A) : option A :=
  match d with
  | Typed a => if valid a then Some a else None
  | Foreign => None
  end.

(** ** Strings

    A Python [str] is modelled by [string], one 8-bit character per code point
    (so U+0000 to U+00FF); every pattern the sources match against is ASCII. *)

Declare Scope roundwright_scope.
Delimit Scope roundwright_scope with rw.
Open Scope roundwright_scope.

Definition chars : string → list ascii := String.list_ascii_of_string.

Definition str_all (p : ascii → bool) (s : string) : bool := forallb p (chars s).

Definition between (lo hi c : ascii) : bool :=
  (N_of_ascii lo <=? N_of_ascii c)%N && (N_of_ascii c <=? N_of_ascii hi)%N.

Definition one_of (s : string) (c : ascii) : bool :=
  existsb (Ascii.eqb c) (chars s).

Definition is_digit : ascii → bool := between "0"%char "9"%char.
Definition is_lower : ascii → bool := between "a"%char "z"%char.
Definition is_upper : ascii → bool := between "A"%char "Z"%char.
Definition is_alnum (c : ascii) : bool := is_digit c || is_lower c || is_upper c.
Definition is_lower_hex (c : ascii) : bool := is_digit c || between "a"%char "f"%char c.

(** [a == b] on any type with decidable equality. *)
Notation "a ==? b" := (bool_decide (a = b)) (at level 70, no associativity) : roundwright_scope.
Notation "a !=? b" := (negb (bool_decide (a = b))) (at level 70, no associativity) : roundwright_scope.
Notation "a 'in?' l" := (bool_decide (a ∈ l)) (at level 70, no associativity) : roundwright_scope.

(** The regular expression [[0-9a-f]{n}\Z] under [fullmatch]. *)
Definition match_hex (n : nat) (s : string) : bool :=
  (String.length s =? n)%nat && str_all is_lower_hex s.

(** [[first][rest]{0,n}\Z] under [fullmatch]. *)
Definition match_ident (first rest : ascii → bool) (n : nat) (s : string) : bool :=
  match s with
  | EmptyString => false
  | String c s' => first c && (String.length s' <=? n)%nat && str_all rest s'
  end.

(** [sha256:[0-9a-f]{64}\Z] under [fullmatch]. *)
Definition match_digest (s : string) : bool :=
  String.prefix "sha256:" s &&
  match_hex 64 (String.substring 7 (String.length s - 7) s).

(** [s * n] *)
Fixpoint str_repeat (s : string) (n : nat) : string :=
  match n with O => "" | S n => String.append s (str_repeat s n) end.

(** The longest prefix of characters satisfying [p], and the rest. *)
Fixpoint span (p : ascii → bool) (s : string) : string * string :=
  match s with
  | EmptyString => (EmptyString, EmptyString)
  | String c s' =>
      if p c then let r := span p s' in (String c r.1, r.2) else (EmptyString, s)
  end.

(** [s.split(c)] for a one-character separator. *)
Fixpoint split_on (c : ascii) (s : string) : list string :=
  match s with
  | EmptyString => [EmptyString]
  | String d s' =>
      if Ascii.eqb d c then EmptyString :: split_on c s'
      else match split_on c s' with
           | w :: ws => String d w :: ws
           | [] => [String d EmptyString]
           end
  end.

(** [s.startswith(p)] and [s.endswith(p)]. *)
Definition startswith (p s : string) : bool := String.prefix p s.

Definition endswith (p s : string) : bool :=
  (String.length p <=? String.length s)%nat &&
  bool_decide (String.substring (String.length s - String.length p) (String.length p) s = p).

(** [needle in s]. *)
Definition str_contains (needle s : string) : bool :=
  match String.index 0 needle s with Some _ => true | None => false end.

(** [0|[1-9][0-9]*\Z] under [fullmatch]. *)
Definition is_numeral (s : string) : bool :=
  bool_decide (s = "0") ||
  match s with
  | String c rest => between "1"%char "9"%char c && str_all is_digit rest
  | EmptyString => false
  end.

Definition digit_value (c : ascii) : Z := (Z.of_N (N_of_ascii c) - 48)%Z.

Definition digits_value (s : string) : Z := foldl (λ v c, v * 10 + digit_value c)%Z 0%Z (chars s).

(** [int(s)] of a decimal numeral; the interpreter refuses to convert more than
    4300 digits. *)
Definition py_int (s : string) : py Z :=
  _ ← require (String.length s <=? 4300)%nat ValueError
        "Exceeds the limit (4300 digits) for integer string conversion";
  Ok (digits_value s).

(** [a and b and ...] over a list of conditions. *)
Definition all_true (l : list bool) : bool := forallb id l.

(** [len(set(l)) == len(l)]. *)
Fixpoint no_dup `{EqDecision A} (l : list A) : bool :=
  match l with
  | [] => true
  | x :: l => negb (bool_decide (x ∈ l)) && no_dup l
  end.

(** [set(l1) == set(l2)]. *)
Definition same_elements `{EqDecision A} (l1 l2 : list A) : bool :=
  forallb (λ x, bool_decide (x ∈ l2)) l1 && forallb (λ x, bool_decide (x ∈ l1)) l2.

(** A dict as an association list in insertion order: [d.get(k)]. *)
Fixpoint assoc `{EqDecision K} {V} (k : K) (d : list (K * V)) : option V :=
  match d with
  | [] => None
  | (k', v) :: d => if decide (k = k') then Some v else assoc k d
  end.

(** First failing check of a tuple of [(passed, reason)] pairs. *)
Fixpoint first_failure (checks : list (bool * string)) : option string :=
  match checks with
  | [] => None
  | (passed, reason) :: checks => if passed then first_failure checks else Some reason
  end.

(** ** Sorting *)

(** The order of [sorted(..., key=lambda x: (k1, k2, ...))] on tuples of strings. *)
Fixpoint key_tuple_leb (a b : list string) : bool :=
  match a, b with
  | [], _ => true
  | _ :: _, [] => false
  | x :: a, y :: b => if x ==? y then key_tuple_leb a b else String.ltb x y
  end.

Definition by_key {A} (key : A → list string) (x y : A) : Prop := key_tuple_leb (key x) (key y) = true.

#[export] Instance by_key_dec {A} (key : A → list string) : RelDecision (by_key key).
Proof. intros x y. unfold by_key. apply _. Defined.

Definition sorted_by {A} (key : A → list string) (l : list A) : list A := merge_sort (by_key key) l.

Lemma sorted_by_perm {A} (key : A → list string) l : sorted_by key l ≡ₚ l.
Proof. apply merge_sort_Permutation. Qed.

(** ** Lemmas shared by the components *)

Create HintDb rw_db.

Lemma require_ok b cls msg u : require b cls msg = Ok u ↔ b = true.
Proof. unfold require, raise. destruct b, u; naive_solver. Qed.

Lemma bind_ok {E A B} (m : result E A) (f : A → result E B) b :
  m ≫= f = Ok b ↔ ∃ a, m = Ok a ∧ f a = Ok b.
Proof. destruct m; cbn; naive_solver. Qed.

Lemma is_ok_spec {E A} (r : result E A) : is_ok r = true ↔ ∃ a, r = Ok a.
Proof. destruct r; naive_solver. Qed.

Lemma for_each_ok {A} (f : A → py unit) l :
  for_each f l = Ok () ↔ Forall (λ x, f x = Ok ()) l.
Proof.
  induction l as [|x l IH]; cbn; [split; [constructor|done]|].
  rewrite Forall_cons_iff, <- IH. destruct (f x) as [[]|]; cbn; naive_solver.
Qed.

Lemma mapM_ok {E A B} (f : A → result E B) l k :
  mapM f l = Ok k ↔ Forall2 (λ x y, f x = Ok y) l k.
Proof.
  revert k. induction l as [|x l IH]; intros k; cbn.
  - split; [intros [= <-]; constructor|by inversion 1].
  - rewrite bind_ok. setoid_rewrite bind_ok. split.
    + intros (y & Hy & ys & Hys & [= <-]). constructor; [done|]. by apply IH.
    + inversion 1 as [|? y ? ys ? Hys]; subst. exists y. split; [done|]. exists ys.
      split; [by apply IH|done].
Qed.

Lemma mapM_total {E A B} (f : A → result E B) l :
  (∀ x, x ∈ l → ∃ y, f x = Ok y) → ∃ k, mapM f l = Ok k.
Proof.
  induction l as [|x l IH]; intros H; cbn; [by eexists|].
  destruct (H x) as [y Hy]; [constructor|]. destruct IH as [k Hk]; [intros; apply H; by constructor|].
  rewrite Hy. cbn. rewrite Hk. cbn. by eexists.
Qed.

Lemma mapM_elem_l {E A B} (f : A → result E B) l k x :
  mapM f l = Ok k → x ∈ l → ∃ y, y ∈ k ∧ f x = Ok y.
Proof.
  intros H%mapM_ok [i Hi]%list_elem_of_lookup. destruct (Forall2_lookup_l _ _ _ _ _ H Hi) as (y & Hy & ?).
  exists y. split; [by eapply list_elem_of_lookup_2|done].
Qed.

Lemma mapM_elem_r {E A B} (f : A → result E B) l k y :
  mapM f l = Ok k → y ∈ k → ∃ x, x ∈ l ∧ f x = Ok y.
Proof.
  intros H%mapM_ok [i Hi]%list_elem_of_lookup. destruct (Forall2_lookup_r _ _ _ _ _ H Hi) as (x & Hx & ?).
  exists x. split; [by eapply list_elem_of_lookup_2|done].
Qed.

(** Validators as Booleans. *)
Lemma is_ok_require b cls msg : is_ok (require b cls msg) = b.
Proof. by destruct b. Qed.

Lemma is_ok_bind {A} (m : py unit) (k : unit → py A) :
  is_ok (m ≫= k) = is_ok m && is_ok (k ()).
Proof. by destruct m as [[]|]. Qed.

Lemma is_ok_for_each {A} (f : A → py unit) l :
  is_ok (for_each f l) = forallb (λ x, is_ok (f x)) l.
Proof. induction l as [|x l IH]; [done|]. cbn [for_each forallb]. by rewrite is_ok_bind, IH. Qed.

Lemma is_ok_unit (m : py unit) : is_ok m = true ↔ m = Ok ().
Proof. destruct m as [[]|]; naive_solver. Qed.

Lemma all_true_spec l : all_true l = true ↔ ∀ b, b ∈ l → b = true.
Proof.
  unfold all_true. rewrite forallb_forall. unfold id. split; intros H b Hb.
  - by apply H, list_elem_of_In.
  - by apply H, list_elem_of_In.
Qed.

Lemma forallb_elem {A} (p : A → bool) l :
  forallb p l = true ↔ ∀ x, x ∈ l → p x = true.
Proof.
  rewrite forallb_forall. split; intros H x Hx; apply H; by apply list_elem_of_In.
Qed.

Lemma existsb_elem {A} (p : A → bool) l :
  existsb p l = true ↔ ∃ x, x ∈ l ∧ p x = true.
Proof.
  rewrite existsb_exists. split; intros (x & Hx & Hp); exists x; split; try done;
    by apply list_elem_of_In.
Qed.

Lemma existsb_elem_false {A} (p : A → bool) l :
  existsb p l = false ↔ ∀ x, x ∈ l → p x = false.
Proof.
  rewrite <- not_true_iff_false, existsb_elem. split.
  - intros H x Hx. destruct (p x) eqn:E; [|done]. exfalso; eauto.
  - intros H (x & Hx & Hp). rewrite H in Hp; done.
Qed.

Lemma checked_some {A} (valid : A → bool) d a :
  checked valid d = Some a ↔ d = Typed a ∧ valid a = true.
Proof. 
  destruct d as [b|]; cbn; [|by split; [|intros [? _]]].
  destruct (valid b) eqn:E; (split; [intros [= <-]|intros [[= <-] ?]]); congruence || done.
Qed.

Lemma no_dup_spec `{EqDecision A} (l : list A) : no_dup l = true ↔ NoDup l.
Proof.
  induction l as [|x l IH]; cbn; [split; [constructor|done]|].
  rewrite andb_true_iff, negb_true_iff, bool_decide_eq_false, IH, list.NoDup_cons. done.
Qed.

Lemma same_elements_spec `{EqDecision A} (l1 l2 : list A) :
  same_elements l1 l2 = true ↔ ∀ x, x ∈ l1 ↔ x ∈ l2.
Proof.
  unfold same_elements. rewrite andb_true_iff, !forallb_elem.
  setoid_rewrite bool_decide_eq_true. naive_solver.
Qed.

Lemma assoc_elem `{EqDecision K} {V} (k : K) (d : list (K * V)) v :
  assoc k d = Some v → (k, v) ∈ d.
Proof.
  induction d as [|[k' v'] d IH]; cbn; [done|].
  case_decide; intros; simplify_eq; [constructor|constructor; auto].
Qed.

Lemma assoc_is_Some `{EqDecision K} {V} (k : K) (d : list (K * V)) :
  is_Some (assoc k d) ↔ k ∈ d.*1.
Proof.
  induction d as [|[k' v'] d IH]; cbn.
  - split; [by intros []|by intros ?%elem_of_nil].
  - rewrite elem_of_cons. case_decide; subst; [by split; eauto|].
    rewrite IH. naive_solver.
Qed.

Lemma assoc_nodup `{EqDecision K} {V} (k : K) (d : list (K * V)) v :
  NoDup d.*1 → (k, v) ∈ d → assoc k d = Some v.
Proof.
  induction d as [|[k' v'] d IH]; cbn; [by intros _ ?%elem_of_nil|].
  intros [Hk Hd]%list.NoDup_cons [?|?]%elem_of_cons; simplify_eq.
  - by rewrite decide_True.
  - rewrite decide_False; [auto|]. intros ->. apply Hk. apply list_elem_of_fmap. by exists (k', v).
Qed.

Lemma all_true_cons b l : all_true (b :: l) = true ↔ b = true ∧ all_true l = true.
Proof. unfold all_true. cbn. apply andb_true_iff. Qed.

Lemma all_true_nil : all_true [] = true ↔ True.
Proof. done. Qed.

Lemma first_failure_none checks :
  first_failure checks = None ↔ Forall (λ c, c.1 = true) checks.
Proof.
  induction checks as [|[[] r] l IH]; cbn.
  - by split; [constructor|].
  - rewrite Forall_cons_iff, IH; naive_solver.
  - rewrite Forall_cons_iff. naive_solver.
Qed.

Fixpoint passes (checks : list (bool * string)) : Prop :=
  match checks with
  | [] => True
  | [c] => c.1 = true
  | c :: checks => c.1 = true ∧ passes checks
  end.

Lemma first_failure_passes checks : first_failure checks = None ↔ passes checks.
Proof.
  induction checks as [|[[] r] [|c l] IH]; cbn [first_failure passes fst] in *; [done|done| |done|].
  - rewrite IH. tauto.
  - naive_solver.
Qed.

(** ** Automation

    [breflect] turns the Boolean tests of the code into propositions;
    [walk] follows every branch of a decision procedure. *)

Create Rewrite HintDb breflect.

#[global] Hint Rewrite andb_true_iff orb_true_iff negb_true_iff
  andb_false_iff orb_false_iff negb_false_iff
  @bool_decide_eq_true @bool_decide_eq_false
  Z.leb_le Z.ltb_lt Z.eqb_eq Z.leb_gt Z.ltb_ge Z.eqb_neq
  Nat.leb_le Nat.ltb_lt Nat.eqb_eq Nat.leb_gt Nat.ltb_ge Nat.eqb_neq
  all_true_cons all_true_nil @forallb_elem @no_dup_spec @same_elements_spec @require_ok @bind_ok : breflect.

Create Rewrite HintDb is_ok.

#[global] Hint Rewrite @is_ok_require @is_ok_bind @is_ok_for_each : is_ok.

(** Compute the Boolean a validator returns [Ok] for, and reflect it. *)
Ltac validator :=
  autorewrite with is_ok; cbn [forallb fst snd]; autorewrite with is_ok;
  rewrite ?andb_true_r, ?andb_true_iff, ?negb_true_iff, ?bool_decide_eq_true.

Ltac breflect := autorewrite with breflect in *.

Ltac walk :=
  repeat match goal with
  | |- context [if ?b then _ else _] => destruct b eqn:?
  | |- context [match ?d with Typed _ => _ | Foreign => _ end] => destruct d eqn:?
  end.
