(* ===== verification/Sqlite.v ===== *)
(** * SQLite values

    What the stores of the program use of [sqlite3]: the range of an integer, and
    a table with a primary key as a finite map. *)

From S2P Require Import Prelude.
Open Scope Z_scope.

(** SQLite integers have 64 bits; binding a wider one raises. *)
Definition sqlite_int (z : Z) : py Z :=
  _ ← require ((-2 ^ 63 <=? z) && (z <? 2 ^ 63)) OverflowError "Python int too large to convert to SQLite INTEGER";
  Ok z.

Definition int64 (z : Z) : Prop := -2 ^ 63 ≤ z < 2 ^ 63.

Lemma sqlite_int_ok z z' : sqlite_int z = Ok z' ↔ z' = z ∧ int64 z.
Proof.
  unfold sqlite_int, int64. rewrite bind_ok. setoid_rewrite require_ok. split.
  - intros (_ & H & [= <-]). breflect. by split.
  - intros [-> H]. exists (). split; [breflect; lia|done].
Qed.

Lemma sqlite_int_fits z : -9223372036854775808 ≤ z < 9223372036854775808 → sqlite_int z = Ok z.
Proof. intros Hz. by apply sqlite_int_ok. Qed.

(** [INSERT] of a row whose key is already there raises. *)
Definition insert_row `{Countable K} {V} (k : K) (v : V) (table : gmap K V) : py (gmap K V) :=
  match table !! k with
  | Some _ => raise IntegrityError "UNIQUE constraint failed"
  | None => Ok (<[k := v]> table)
  end.

(** A [UNIQUE] column: no row has this value. *)
Definition unique_column `{Countable K} {V} `{EqDecision A} (column : V → A) (a : A) (table : gmap K V) : py unit :=
  require (forallb (λ kv, column kv.2 !=? a) (map_to_list table)) IntegrityError "UNIQUE constraint failed".

Lemma insert_row_ok `{Countable K} {V} (k : K) (v : V) (m m' : gmap K V) :
  insert_row k v m = Ok m' ↔ m !! k = None ∧ m' = <[k := v]> m.
Proof. unfold insert_row, raise. destruct (m !! k); naive_solver. Qed.

Lemma unique_column_ok `{Countable K} {V} `{EqDecision A} (column : V → A) a (m : gmap K V) u :
  unique_column column a m = Ok u ↔ ∀ k v, m !! k = Some v → column v ≠ a.
Proof.
  unfold unique_column. rewrite require_ok. breflect. split.
  - intros Hm k v Hk. specialize (Hm (k, v)). breflect. apply Hm. by apply elem_of_map_to_list.
  - intros Hm [k v] Hin%elem_of_map_to_list. breflect. by eapply Hm.
Qed.
