(* ===== verification/Sha256.v ===== *)
(** * SHA-256

    The standard library's [hashlib.sha256(...).hexdigest()], which every
    fingerprint and digest of the sources is built from, as an executable
    function on byte strings (FIPS 180-4).  The round constants are computed
    from their definition: the first 32 bits of the fractional parts of the
    square (initial state) and cube (round constants) roots of the primes. *)

From S2P Require Import Prelude.

Open Scope N_scope.

Definition mask32 (x : N) : N := N.land x (N.ones 32).
Definition add32 (x y : N) : N := mask32 (x + y).
Definition rotr (n x : N) : N :=
  N.lor (N.shiftr x n) (mask32 (N.shiftl x (32 - n))).

Definition primes64 : list N :=
  [2; 3; 5; 7; 11; 13; 17; 19; 23; 29; 31; 37; 41; 43; 47; 53; 59; 61; 67; 71;
   73; 79; 83; 89; 97; 101; 103; 107; 109; 113; 127; 131; 137; 139; 149; 151;
   157; 163; 167; 173; 179; 181; 191; 193; 197; 199; 211; 223; 227; 229; 233;
   239; 241; 251; 257; 263; 269; 271; 277; 281; 283; 293; 307; 311].

(** Integer cube root of a number below [2 ^ (3 * bits)], bit by bit. *)
Fixpoint cbrt_from (bits : nat) (n acc : N) : N :=
  match bits with
  | O => acc
  | S b =>
      let r := acc + 2 ^ N.of_nat b in
      cbrt_from b n (if r * r * r <=? n then r else acc)
  end.

Definition round_constants : list N :=
  Eval vm_compute in map (λ p, mask32 (cbrt_from 36 (p * 2 ^ 96) 0)) primes64.

Definition initial_state : list N :=
  Eval vm_compute in map (λ p, mask32 (N.sqrt (p * 2 ^ 64))) (take 8 primes64).

Fixpoint be_bytes (n : nat) (x : N) : list N :=
  match n with
  | O => []
  | S n => N.land (N.shiftr x (8 * N.of_nat n)) 255 :: be_bytes n x
  end.

Fixpoint be_words (l : list N) : list N :=
  match l with
  | a :: b :: c :: d :: l =>
      N.shiftl a 24 + N.shiftl b 16 + N.shiftl c 8 + d :: be_words l
  | _ => []
  end.

(** Message, the bit 1, zeros up to 56 modulo 64 bytes, the bit length. *)
Definition pad (msg : list N) : list N :=
  let len := N.of_nat (length msg) in
  let zeros := (119 - len mod 64) mod 64 in
  msg ++ 128 :: repeat 0 (N.to_nat zeros) ++ be_bytes 8 (8 * len).

(** The message schedule, newest word first. *)
Fixpoint schedule (n : nat) (w : list N) : list N :=
  match n with
  | O => w
  | S n =>
      let w2 := nth 1 w 0 in let w15 := nth 14 w 0 in
      let s0 := N.lxor (N.lxor (rotr 7 w15) (rotr 18 w15)) (N.shiftr w15 3) in
      let s1 := N.lxor (N.lxor (rotr 17 w2) (rotr 19 w2)) (N.shiftr w2 10) in
      schedule n (mask32 (nth 15 w 0 + s0 + nth 6 w 0 + s1) :: w)
  end.

Definition round_step (st : list N) (kw : N * N) : list N :=
  match st with
  | [a; b; c; d; e; f; g; h] =>
      let s1 := N.lxor (N.lxor (rotr 6 e) (rotr 11 e)) (rotr 25 e) in
      let ch := N.lxor (N.land e f) (N.land (N.lxor e (N.ones 32)) g) in
      let t1 := mask32 (h + s1 + ch + kw.1 + kw.2) in
      let s0 := N.lxor (N.lxor (rotr 2 a) (rotr 13 a)) (rotr 22 a) in
      let maj := N.lxor (N.lxor (N.land a b) (N.land a c)) (N.land b c) in
      [add32 t1 (add32 s0 maj); a; b; c; add32 d t1; e; f; g]
  | _ => st
  end.

Definition compress (st block : list N) : list N :=
  let w := rev (schedule 48 (rev block)) in
  zip_with add32 st (foldl round_step st (zip round_constants w)).

(** Blocks of sixteen words, as many as [n]. *)
Fixpoint absorb (n : nat) (st words : list N) : list N :=
  match n with
  | O => st
  | S n => absorb n (compress st (take 16 words)) (drop 16 words)
  end.

Definition sha256_words (msg : list N) : list N :=
  let words := be_words (pad msg) in
  absorb (length words / 16)%nat initial_state words.

Definition hex_digit (x : N) : ascii :=
  if x <? 10 then ascii_of_N (48 + x) else ascii_of_N (87 + x).

(** [n] lower-case hexadecimal digits, most significant first. *)
Fixpoint hex (n : nat) (x : N) : string :=
  match n with
  | O => EmptyString
  | S n => String (hex_digit (N.land (N.shiftr x (4 * N.of_nat n)) 15)) (hex n x)
  end.

(** [hashlib.sha256(data).hexdigest()]. *)
Definition sha256_hex (data : string) : string :=
  foldr (λ w s, String.append (hex 8 w) s) EmptyString
    (sha256_words (map N_of_ascii (chars data))).

Close Scope N_scope.
Example sha256_empty :
  sha256_hex "" = "e3b0c44298fc1c149afbf4c8996fb92427ae41e4649b934ca495991b7852b855".
Proof. vm_compute. reflexivity. Qed.
Example sha256_abc :
  sha256_hex "abc" = "ba7816bf8f01cfea414140de5dae2223b00361a396177a9cb410ff61f20015ad".
Proof. vm_compute. reflexivity. Qed.

(** ** Every digest is 64 lower-case hexadecimal characters *)

Lemma hex_digit_lower y : is_lower_hex (hex_digit (N.land y 15)) = true.
Proof.
  assert (N.land y 15 < 16)%N as H.
  { change 15%N with (N.ones 4). rewrite N.land_ones. by apply N.mod_lt. }
  destruct (N.land y 15) as [|p]; [done|]. do 4 (destruct p; try done; try lia).
Qed.

Lemma chars_append a b : chars (String.append a b) = chars a ++ chars b.
Proof. induction a as [|c a IH]; [done|]. unfold chars in *.
  change (c :: String.list_ascii_of_string (String.append a b) = c :: String.list_ascii_of_string a ++ String.list_ascii_of_string b).
  by rewrite IH.
Qed.

Lemma str_all_append p a b : str_all p (String.append a b) = str_all p a && str_all p b.
Proof. unfold str_all. by rewrite chars_append, forallb_app. Qed.

Lemma length_append a b : String.length (String.append a b) = (String.length a + String.length b)%nat.
Proof. induction a as [|c a IH]; [done|].
  change (S (String.length (String.append a b)) = S (String.length a + String.length b)). by rewrite IH.
Qed.

Lemma hex_shape n x : String.length (hex n x) = n ∧ str_all is_lower_hex (hex n x) = true.
Proof.
  induction n as [|n [IH1 IH2]]; [done|]. cbn [hex String.length]. split; [by rewrite IH1|].
  unfold str_all, chars in *. cbn. by rewrite hex_digit_lower, IH2.
Qed.

Lemma round_step_length st kw : length (round_step st kw) = length st.
Proof. by do 9 (destruct st as [|? st]; [done|]). Qed.

Lemma foldl_round_step_length l st : length (foldl round_step st l) = length st.
Proof. revert st. induction l as [|kw l IH]; intros st; [done|]. cbn. by rewrite IH, round_step_length. Qed.

Lemma absorb_length n st words : length st = 8 → length (absorb n st words) = 8.
Proof.
  revert st words. induction n as [|n IH]; intros st words H; [done|]. cbn [absorb]. apply IH.
  unfold compress. rewrite length_zip_with, foldl_round_step_length. lia.
Qed.

Lemma hex_words_shape ws :
  String.length (foldr (λ w s, String.append (hex 8 w) s) EmptyString ws) = (8 * length ws)%nat
  ∧ str_all is_lower_hex (foldr (λ w s, String.append (hex 8 w) s) EmptyString ws) = true.
Proof.
  induction ws as [|w ws [IH1 IH2]]; [done|]. cbn [foldr].
  destruct (hex_shape 8 w) as [H1 H2].
  rewrite length_append, str_all_append, H1, H2, IH1, IH2. split; [cbn [length]; lia|done].
Qed.

Lemma sha256_hex_match s : match_hex 64 (sha256_hex s) = true.
Proof.
  unfold match_hex, sha256_hex.
  destruct (hex_words_shape (sha256_words (map N_of_ascii (chars s)))) as [-> ->].
  unfold sha256_words. by rewrite absorb_length.
Qed.
