(* ===== verification/Json.v ===== *)
(** * Canonical JSON

    [json.dumps(value, sort_keys=True, separators=(",", ":"))] of the standard
    library, the preimage of every digest in the sources.  A Python value that
    is dumped is a [json]; a dict is an association list with distinct keys.
    The printer is split into sorting the keys of every object ([canon]) and
    printing ([print]); the main theorem is that printing is injective, so a
    canonical encoding determines the value. *)

From S2P Require Import Prelude Sha256.
From Stdlib Require Import DecimalN.

#[local] Set Warnings "-register-all".

Inductive json :=
  | JNull
  | JBool (b : bool)
  | JInt (z : Z)
  | JStr (s : string)
  | JArr (l : list json)
  | JObj (l : list (string * json)).

(** ** Printing *)

Fixpoint uint_chars (d : Decimal.uint) : list ascii :=
  match d with
  | Decimal.Nil => []
  | Decimal.D0 d => "0"%char :: uint_chars d | Decimal.D1 d => "1"%char :: uint_chars d
  | Decimal.D2 d => "2"%char :: uint_chars d | Decimal.D3 d => "3"%char :: uint_chars d
  | Decimal.D4 d => "4"%char :: uint_chars d | Decimal.D5 d => "5"%char :: uint_chars d
  | Decimal.D6 d => "6"%char :: uint_chars d | Decimal.D7 d => "7"%char :: uint_chars d
  | Decimal.D8 d => "8"%char :: uint_chars d | Decimal.D9 d => "9"%char :: uint_chars d
  end.

(** [str(n)] of an int. *)
Definition int_chars (z : Z) : list ascii :=
  match z with
  | Z0 => ["0"%char]
  | Zpos p => uint_chars (N.to_uint (Npos p))
  | Zneg p => "-"%char :: uint_chars (N.to_uint (Npos p))
  end.

(** One character of a string under [ensure_ascii=True]. *)
Definition escape (c : ascii) : list ascii :=
  let n := N_of_ascii c in
  if Ascii.eqb c "034"%char then ["\"%char; "034"%char]
  else if Ascii.eqb c "\"%char then ["\"%char; "\"%char]
  else if (n =? 8)%N then ["\"%char; "b"%char]
  else if (n =? 9)%N then ["\"%char; "t"%char]
  else if (n =? 10)%N then ["\"%char; "n"%char]
  else if (n =? 12)%N then ["\"%char; "f"%char]
  else if (n =? 13)%N then ["\"%char; "r"%char]
  else if between " "%char "~"%char c then [c]
  else ["\"%char; "u"%char; "0"%char; "0"%char;
        hex_digit (N.shiftr n 4); hex_digit (N.land n 15)].

Definition quote_mark : ascii := "034"%char.

Definition quoted (s : string) : list ascii :=
  quote_mark :: flat_map escape (chars s) ++ [quote_mark].

(** Items joined by commas, closed by [close]. *)
Fixpoint more_items (items : list (list ascii)) (close : ascii) : list ascii :=
  match items with
  | [] => [close]
  | x :: items => ","%char :: x ++ more_items items close
  end.

Definition all_items (items : list (list ascii)) (close : ascii) : list ascii :=
  match items with
  | [] => [close]
  | x :: items => x ++ more_items items close
  end.

Fixpoint print (j : json) : list ascii :=
  match j with
  | JNull => chars "null"
  | JBool true => chars "true"
  | JBool false => chars "false"
  | JInt z => int_chars z
  | JStr s => quoted s
  | JArr l => "["%char :: all_items (map print l) "]"%char
  | JObj l =>
      "{"%char :: all_items
        (map (λ kv, quoted kv.1 ++ ":"%char :: print kv.2) l) "}"%char
  end.

(** [sort_keys=True]: the items of every dict sorted by key. *)
Definition key_le {V} (x y : string * V) : Prop := String.le x.1 y.1.

#[export] Instance key_le_dec {V} : RelDecision (@key_le V).
Proof. intros x y. unfold key_le. apply _. Defined.

Fixpoint canon (j : json) : json :=
  match j with
  | JArr l => JArr (map canon l)
  | JObj l => JObj (merge_sort key_le (map (λ kv, (kv.1, canon kv.2)) l))
  | _ => j
  end.

Definition dumps_plain (j : json) : string := String.string_of_list_ascii (print j).
Definition dumps (j : json) : string := dumps_plain (canon j).

(** The two digest forms of the sources. *)
Definition sha256_json (j : json) : string := sha256_hex (dumps j).
Definition digest_json (j : json) : string := String.append "sha256:" (sha256_json j).

(** Optional values, dumped as [null] when absent. *)
Definition jopt (o : option string) : json :=
  match o with Some s => JStr s | None => JNull end.

Definition jstrs (l : list string) : json := JArr (map JStr l).

(** ** Reading decoded values

    [d[key]] of a decoded dict, as a value of one type. *)

Definition field (key : string) (d : list (string * json)) : option json := assoc key d.

Definition str_field (key : string) (d : list (string * json)) : option string :=
  match field key d with Some (JStr s) => Some s | _ => None end.

Definition optional_str_field (key : string) (d : list (string * json)) : option (option string) :=
  match field key d with Some (JStr s) => Some (Some s) | Some JNull => Some None | _ => None end.

Definition int_field (key : string) (d : list (string * json)) : option Z :=
  match field key d with Some (JInt z) => Some z | _ => None end.

Definition bool_field (key : string) (d : list (string * json)) : option bool :=
  match field key d with Some (JBool b) => Some b | _ => None end.

Definition list_field (key : string) (d : list (string * json)) : option (list json) :=
  match field key d with Some (JArr l) => Some l | _ => None end.

Definition dict_field (key : string) (d : list (string * json)) : option (list (string * json)) :=
  match field key d with Some (JObj l) => Some l | _ => None end.

Definition str_value (j : json) : option string := match j with JStr s => Some s | _ => None end.
Definition int_value (j : json) : option Z := match j with JInt z => Some z | _ => None end.

(** [if b] inside a partial function. *)
Definition guarded (b : bool) : option () := if b then Some () else None.

Definition to_option {E A} (r : result E A) : option A := match r with Ok a => Some a | Err _ => None end.

(** [Enum(value)]: the member with that value. *)
Definition of_value {A} (value : A → string) (all : list A) (s : string) : option A :=
  List.find (λ a, value a ==? s) all.

Example dumps_sorted :
  dumps (JObj [("b", JArr [JInt 10; JInt (-3); JNull]); ("a", JStr "x")])
  = String.append "{" (String.append (String.string_of_list_ascii (quoted "a"))
     (String.append ":" (String.append (String.string_of_list_ascii (quoted "x"))
     (String.append "," (String.append (String.string_of_list_ascii (quoted "b")) ":[10,-3,null]}"))))).
Proof. reflexivity. Qed.

(** ** Printing is injective *)

Section json_induction.
Context (P : json → Prop).
Context (Hnull : P JNull) (Hbool : ∀ b, P (JBool b)) (Hint : ∀ z, P (JInt z))
  (Hstr : ∀ s, P (JStr s)) (Harr : ∀ l, Forall P l → P (JArr l))
  (Hobj : ∀ l, Forall (λ kv, P kv.2) l → P (JObj l)).

Fixpoint json_nested_ind (j : json) : P j :=
  match j with
  | JNull => Hnull
  | JBool b => Hbool b
  | JInt z => Hint z
  | JStr s => Hstr s
  | JArr l => Harr l
      ((fix go l := match l return Forall P l with
        | [] => Forall_nil _
        | x :: l => Forall_cons _ _ _ (json_nested_ind x) (go l)
        end) l)
  | JObj l => Hobj l
      ((fix go l := match l return Forall (λ kv, P kv.2) l with
        | [] => Forall_nil _
        | x :: l => Forall_cons _ _ _ (json_nested_ind x.2) (go l)
        end) l)
  end.
End json_induction.

(** What may follow a printed value: nothing, or a character that cannot
    continue a number. *)
Definition delimited (r : list ascii) : Prop :=
  match r with [] => True | c :: _ => is_digit c = false end.

Lemma uint_chars_delimited d1 d2 r1 r2 :
  delimited r1 → delimited r2 →
  uint_chars d1 ++ r1 = uint_chars d2 ++ r2 → d1 = d2 ∧ r1 = r2.
Proof.
  intros Hr1 Hr2. revert d2.
  induction d1; intros []; cbn; intros Heq;
    try (injection Heq as Heq; destruct (IHd1 _ Heq); by subst);
    try discriminate; try done;
    try (subst r1; cbn in Hr1; discriminate);
    try (subst r2; cbn in Hr2; discriminate).
Qed.

Lemma uint_chars_head d : d ≠ Decimal.Nil →
  ∃ c l, uint_chars d = c :: l ∧ is_digit c = true.
Proof. destruct d; intros ?; try done; by eexists _, _. Qed.

#[local] Arguments N.to_uint : simpl never.

Lemma to_uint_cons n : N.to_uint n ≠ Decimal.Nil.
Proof.
  intros Hn. pose proof (DecimalN.Unsigned.of_to n) as Hof. rewrite Hn in Hof.
  cbn in Hof. by subst n.
Qed.

Lemma int_chars_head z :
  ∃ c l, int_chars z = c :: l ∧ (is_digit c || Ascii.eqb c "-"%char = true).
Proof.
  destruct z as [|p|p]; unfold int_chars; [by eexists _, _| |by eexists _, _].
  destruct (uint_chars_head _ (to_uint_cons (Npos p))) as (c & l & Hc & Hd).
  exists c, l. by rewrite Hc, Hd.
Qed.

Lemma int_chars_nonneg z : (0 ≤ z)%Z → int_chars z = uint_chars (N.to_uint (Z.to_N z)).
Proof. destruct z; cbn; done. Qed.

Lemma int_chars_delimited z1 z2 r1 r2 :
  delimited r1 → delimited r2 →
  int_chars z1 ++ r1 = int_chars z2 ++ r2 → z1 = z2 ∧ r1 = r2.
Proof.
  intros Hr1 Hr2.
  destruct (Z.neg_nonneg_cases z1) as [H1|H1], (Z.neg_nonneg_cases z2) as [H2|H2].
  - destruct z1, z2; try lia. unfold int_chars. cbn. injection 1 as Heq.
    apply uint_chars_delimited in Heq as [Hu ->]; try done.
    apply DecimalN.Unsigned.to_uint_inj in Hu. by simplify_eq.
  - rewrite (int_chars_nonneg z2) by done. destruct z1; try lia.
    destruct (uint_chars_head _ (to_uint_cons (Z.to_N z2))) as (c & l & -> & Hd).
    cbn. injection 1 as <- _. discriminate.
  - rewrite (int_chars_nonneg z1) by done. destruct z2; try lia.
    destruct (uint_chars_head _ (to_uint_cons (Z.to_N z1))) as (c & l & -> & Hd).
    cbn. injection 1 as -> _. discriminate.
  - rewrite !int_chars_nonneg by done. intros Heq.
    apply uint_chars_delimited in Heq as [Hu ->]; try done.
    apply DecimalN.Unsigned.to_uint_inj in Hu. split; [lia|done].
Qed.

(** Reading one escaped character back. *)
Definition hex_value (c : ascii) : N :=
  if is_digit c then (N_of_ascii c - 48)%N else (N_of_ascii c - 87)%N.

Definition unescape (l : list ascii) : option (ascii * list ascii) :=
  match l with
  | "\"%char :: "u"%char :: _ :: _ :: h :: l' :: r =>
      Some (ascii_of_N (16 * hex_value h + hex_value l'), r)
  | "\"%char :: "b"%char :: r => Some ("008"%char, r)
  | "\"%char :: "t"%char :: r => Some ("009"%char, r)
  | "\"%char :: "n"%char :: r => Some ("010"%char, r)
  | "\"%char :: "f"%char :: r => Some ("012"%char, r)
  | "\"%char :: "r"%char :: r => Some ("013"%char, r)
  | "\"%char :: c :: r => Some (c, r)
  | c :: r => Some (c, r)
  | [] => None
  end.

Lemma unescape_escape c r : unescape (escape c ++ r) = Some (c, r).
Proof. destruct c as [[] [] [] [] [] [] [] []]; reflexivity. Qed.

Lemma escape_head c : ∃ d l, escape c = d :: l ∧ d ≠ quote_mark.
Proof. destruct c as [[] [] [] [] [] [] [] []]; by eexists _, _. Qed.

Lemma escaped_delimited l1 l2 r1 r2 :
  flat_map escape l1 ++ quote_mark :: r1 = flat_map escape l2 ++ quote_mark :: r2 →
  l1 = l2 ∧ r1 = r2.
Proof.
  revert l2. induction l1 as [|c1 l1 IH]; intros [|c2 l2]; cbn [flat_map]; intros Heq.
  - by simplify_eq/=.
  - destruct (escape_head c2) as (d & l & Hc & Hd). rewrite Hc in Heq. by simplify_eq/=.
  - destruct (escape_head c1) as (d & l & Hc & Hd). rewrite Hc in Heq. by simplify_eq/=.
  - rewrite <- !app_assoc in Heq. apply (f_equal unescape) in Heq.
    rewrite !unescape_escape in Heq. injection Heq as -> Heq.
    by destruct (IH _ Heq) as [-> ->].
Qed.

Lemma chars_inj s1 s2 : chars s1 = chars s2 → s1 = s2.
Proof.
  intros H. apply (f_equal String.string_of_list_ascii) in H.
  by rewrite !String.string_of_list_ascii_of_string in H.
Qed.

Lemma quoted_delimited s1 s2 r1 r2 :
  quoted s1 ++ r1 = quoted s2 ++ r2 → s1 = s2 ∧ r1 = r2.
Proof.
  unfold quoted. cbn. rewrite <- !app_assoc. injection 1 as Heq.
  apply escaped_delimited in Heq as [Hs ->]. by apply chars_inj in Hs.
Qed.

(** The first character tells the constructor. *)
Definition json_head (j : json) (c : ascii) : Prop :=
  match j with
  | JNull => c = "n"%char
  | JBool b => c = if b then "t"%char else "f"%char
  | JInt _ => is_digit c || Ascii.eqb c "-"%char = true
  | JStr _ => c = quote_mark
  | JArr _ => c = "["%char
  | JObj _ => c = "{"%char
  end.

Lemma print_head j : ∃ c l, print j = c :: l ∧ json_head j c.
Proof.
  destruct j as [|[]|z|s|l|l]; try (by eexists _, _). apply int_chars_head.
Qed.

(** [f] prints values that can be told apart, also when followed by more. *)
Definition apart {A} (f : A → list ascii) (x : A) : Prop := ∀ y r1 r2,
  delimited r1 → delimited r2 → f x ++ r1 = f y ++ r2 → x = y ∧ r1 = r2.

Section items.
Context {A : Type} (f : A → list ascii) (close : ascii).
Context (Hdigit : is_digit close = false) (Hcomma : close ≠ ","%char).
Context (Hhead : ∀ x, ∃ c l, f x = c :: l ∧ c ≠ close).

Lemma more_items_delimited items r : delimited (more_items items close ++ r).
Proof. by destruct items. Qed.

Lemma more_items_apart l1 : Forall (apart f) l1 → ∀ l2 r1 r2,
  more_items (map f l1) close ++ r1 = more_items (map f l2) close ++ r2 →
  l1 = l2 ∧ r1 = r2.
Proof.
  induction 1 as [|x l1 Hx _ IH]; intros [|y l2] r1 r2; cbn; intros Heq;
    [by simplify_eq|by simplify_eq|by simplify_eq|].
  injection Heq as Heq. rewrite <- !app_assoc in Heq.
  apply Hx in Heq as [-> Heq]; [|apply more_items_delimited..].
  by destruct (IH _ _ _ Heq) as [-> ->].
Qed.

Lemma all_items_apart l1 : Forall (apart f) l1 → ∀ l2 r1 r2,
  all_items (map f l1) close ++ r1 = all_items (map f l2) close ++ r2 →
  l1 = l2 ∧ r1 = r2.
Proof.
  destruct l1 as [|x l1], l2 as [|y l2]; intros r1 r2; cbn; intros Heq.
  - by simplify_eq.
  - destruct (Hhead y) as (c & l & Hc & ?). rewrite Hc in Heq. by simplify_eq/=.
  - destruct (Hhead x) as (c & l & Hc & ?). rewrite Hc in Heq. by simplify_eq/=.
  - rewrite <- !app_assoc in Heq. apply Forall_cons_iff in H as [Hx Hl].
    apply Hx in Heq as [-> Heq]; [|apply more_items_delimited..].
    by destruct (more_items_apart l1 Hl _ _ _ Heq) as [-> ->].
Qed.
End items.

Definition print_item (kv : string * json) : list ascii :=
  quoted kv.1 ++ ":"%char :: print kv.2.

Lemma print_item_apart kv : apart print kv.2 → apart print_item kv.
Proof.
  destruct kv as [k1 v1]. cbn [fst snd]. intros Hv [k2 v2] r1 r2 Hr1 Hr2. unfold print_item. cbn [fst snd].
  rewrite <- !app_assoc. intros [-> Heq]%quoted_delimited. cbn in Heq.
  injection Heq as Heq. by apply Hv in Heq as [-> ->].
Qed.

Lemma json_head_same j1 j2 c : json_head j1 c → json_head j2 c →
  match j1, j2 with
  | JNull, JNull | JInt _, JInt _ | JStr _, JStr _ | JArr _, JArr _ | JObj _, JObj _ => True
  | JBool b1, JBool b2 => b1 = b2
  | _, _ => False
  end.
Proof.
  destruct j1 as [|[]| | | |], j2 as [|[]| | | |]; cbn; intros H1 H2; try done;
    subst; discriminate.
Qed.

Lemma print_apart j : apart print j.
Proof.
  induction j using json_nested_ind; intros j2 r1 r2 Hr1 Hr2 Heq;
    match type of Heq with print ?j1 ++ _ = _ =>
      destruct (print_head j1) as (c1 & l1 & Hp1 & Hh1);
      destruct (print_head j2) as (c2 & l2 & Hp2 & Hh2);
      assert (c1 = c2) as <- by (rewrite Hp1, Hp2 in Heq; by simplify_eq/=);
      pose proof (json_head_same _ _ _ Hh1 Hh2) as Hs;
      clear Hp1 Hp2 Hh1 Hh2
    end.
  - destruct j2; try done. by apply app_inv_head in Heq.
  - destruct j2; try done. subst. by apply app_inv_head in Heq.
  - destruct j2; try done. by apply int_chars_delimited in Heq as [-> ->].
  - destruct j2; try done. by apply quoted_delimited in Heq as [-> ->].
  - destruct j2; try done. cbn in Heq. injection Heq as Heq.
    apply all_items_apart in Heq as [-> ->]; try done.
    intros x. destruct (print_head x) as (c & l' & Hc & Hx). exists c, l'. split; [done|].
    intros ->. by destruct x as [|[]| | | |].
  - destruct j2; try done. cbn in Heq. injection Heq as Heq.
    apply (all_items_apart print_item) in Heq as [-> ->]; try done.
    + intros x. by eexists quote_mark, _.
    + eapply Forall_impl; [apply print_item_apart|done].
Qed.

Lemma print_inj j1 j2 : print j1 = print j2 → j1 = j2.
Proof.
  intros Heq. apply (print_apart j1 j2 [] []); [done|done|by rewrite Heq].
Qed.

Lemma dumps_plain_inj j1 j2 : dumps_plain j1 = dumps_plain j2 → j1 = j2.
Proof.
  unfold dumps_plain. intros H. apply (f_equal String.list_ascii_of_string) in H.
  rewrite !String.list_ascii_of_string_of_list_ascii in H. by apply print_inj.
Qed.

Lemma dumps_inj j1 j2 : dumps j1 = dumps j2 → canon j1 = canon j2.
Proof. apply dumps_plain_inj. Qed.

(** ** Objects with the same keys

    Two dicts built with the same keys and dumped to the same text have the
    same values: the way every "binding digest" of the sources is used. *)

Lemma permutation_same_keys {V} (l1 l2 : list (string * V)) :
  l1.*1 = l2.*1 → NoDup l1.*1 → l1 ≡ₚ l2 → l1 = l2.
Proof.
  intros Hk Hnd Hp.
  assert (∀ k v, (k, v) ∈ l1 → (k, v) ∈ l2) as Hsub by (intros; by rewrite <- Hp).
  clear Hp. revert l2 Hk Hsub. induction l1 as [|[k v] l1 IH]; intros [|[k2 v2] l2]; cbn; try done.
  intros [= -> Hk] Hsub. cbn in Hnd. apply list.NoDup_cons in Hnd as [Hnk Hnd].
  assert (v = v2) as ->.
  { assert ((k2, v) ∈ (k2, v2) :: l2) as Hin by (apply Hsub; left).
    apply elem_of_cons in Hin as [[= ->]|Hin]; [done|].
    destruct Hnk. rewrite Hk. apply list_elem_of_fmap. by exists (k2, v). }
  f_equal. apply IH; [done..|]. intros k v Hin.
  assert ((k, v) ∈ (k2, v2) :: l2) as Hin2 by (apply Hsub; by right).
  apply elem_of_cons in Hin2 as [[= -> ->]|]; [|done].
  destruct Hnk. apply list_elem_of_fmap. by exists (k2, v2).
Qed.

Lemma canon_items_keys l : (map (λ kv : string * json, (kv.1, canon kv.2)) l).*1 = l.*1.
Proof. induction l as [|[] l IH]; cbn; [done|]. by f_equal. Qed.

Lemma canon_items_values l : (map (λ kv : string * json, (kv.1, canon kv.2)) l).*2 = map canon l.*2.
Proof. induction l as [|[] l IH]; cbn; [done|]. by f_equal. Qed.

Lemma canon_object_inj (l1 l2 : list (string * json)) :
  l1.*1 = l2.*1 → NoDup l1.*1 → canon (JObj l1) = canon (JObj l2) →
  map canon l1.*2 = map canon l2.*2.
Proof.
  intros Hk Hnd [= Heq]. rewrite <- !canon_items_values.
  apply (f_equal (fmap snd)).
  apply permutation_same_keys; rewrite ?canon_items_keys; [done..|].
  by rewrite <- (merge_sort_Permutation key_le), Heq, merge_sort_Permutation.
Qed.

Lemma dumps_object_inj (l1 l2 : list (string * json)) :
  l1.*1 = l2.*1 → no_dup l1.*1 = true → dumps (JObj l1) = dumps (JObj l2) →
  map canon l1.*2 = map canon l2.*2.
Proof. intros Hk Hnd%no_dup_spec Heq%dumps_inj. by apply canon_object_inj. Qed.

Lemma canon_jstrs l : canon (jstrs l) = jstrs l.
Proof. unfold jstrs. cbn. rewrite map_map. done. Qed.

Lemma jstrs_inj l1 l2 : map JStr l1 = map JStr l2 → l1 = l2.
Proof.
  revert l2. induction l1 as [|x l1 IH]; intros [|y l2]; cbn; try done.
  intros [= -> H]. f_equal. auto.
Qed.

Lemma jopt_inj o1 o2 : jopt o1 = jopt o2 → o1 = o2.
Proof. destruct o1, o2; cbn; congruence. Qed.

Lemma jstr_inj a b : canon (JStr a) = canon (JStr b) → a = b.
Proof. cbn [canon]. congruence. Qed.
Lemma jint_inj a b : canon (JInt a) = canon (JInt b) → a = b.
Proof. cbn [canon]. congruence. Qed.
Lemma jbool_inj a b : canon (JBool a) = canon (JBool b) → a = b.
Proof. cbn [canon]. congruence. Qed.
Lemma canon_jstrs_inj l1 l2 : canon (jstrs l1) = canon (jstrs l2) → l1 = l2.
Proof. rewrite !canon_jstrs. unfold jstrs. intros [= H]. by apply jstrs_inj. Qed.
Lemma canon_jopt_inj o1 o2 : canon (jopt o1) = canon (jopt o2) → o1 = o2.
Proof. destruct o1, o2; cbn; congruence. Qed.
Lemma list_cons_inj {A} (x y : A) l k : x :: l = y :: k → x = y ∧ l = k.
Proof. by intros [= -> ->]. Qed.

(** From [dumps (payload a) = dumps (payload b)] to the equations between the
    fields, also of nested objects. *)
Ltac json_fields :=
  repeat match goal with
  | H : dumps (JObj _) = dumps (JObj _) |- _ =>
      apply dumps_object_inj in H; [|reflexivity|vm_compute; reflexivity];
      cbn [fmap list_fmap fst snd map] in H
  | H : canon (JObj _) = canon (JObj _) |- _ =>
      apply canon_object_inj in H; [|reflexivity|apply no_dup_spec; vm_compute; reflexivity];
      cbn [fmap list_fmap fst snd map] in H
  | H : canon _ :: _ = canon _ :: _ |- _ => apply list_cons_inj in H as [? H]
  | H : [] = [] |- _ => clear H
  | H : canon (JStr _) = canon (JStr _) |- _ => apply jstr_inj in H
  | H : canon (JInt _) = canon (JInt _) |- _ => apply jint_inj in H
  | H : canon (JBool _) = canon (JBool _) |- _ => apply jbool_inj in H
  | H : canon (jstrs _) = canon (jstrs _) |- _ => apply canon_jstrs_inj in H
  | H : canon (jopt _) = canon (jopt _) |- _ => apply canon_jopt_inj in H
  end.

(** ** Every digest is well-formed *)

Lemma digest_json_match j : match_digest (digest_json j) = true.
Proof.
  unfold digest_json, sha256_json. pose proof (sha256_hex_match (dumps j)) as H.
  revert H. generalize (sha256_hex (dumps j)). intros s H.
  unfold match_digest. assert (String.prefix "sha256:" (String.append "sha256:" s) = true) as ->
    by (destruct s; reflexivity).
  assert (String.substring 7 (String.length (String.append "sha256:" s) - 7) (String.append "sha256:" s) = s) as ->.
  { rewrite length_append. replace (String.length "sha256:" + String.length s - 7)%nat with (String.length s) by (cbn; lia).
    change (String.substring 0 (String.length s) s = s).
    clear. induction s as [|c s IH]; [done|]. cbn. by rewrite IH. }
  done.
Qed.
