(* ===== verification/JsonParse.v ===== *)
(** * Decoding JSON

    [json.loads] of the standard library, with which the stores read a text
    column back.  A decoded value is a [doc]: unlike a [json] it may hold the
    numbers and characters that the program never writes, a float (kept as its
    literal) and any Unicode code point.  The main theorem is that decoding what
    [json.dumps] wrote gives the value that was written. *)

From S2P Require Import Prelude Json.
From Stdlib Require Import DecimalN.

#[local] Set Warnings "-register-all".

Inductive doc :=
  | DNull
  | DBool (b : bool)
  | DInt (z : Z)
  | DFloat (literal : list ascii)
  | DStr (s : list N)
  | DArr (l : list doc)
  | DObj (l : list (list N * doc)).

(** A [str] of the program as code points. *)
Definition points (s : string) : list N := map N_of_ascii (chars s).

Fixpoint embed (j : json) : doc :=
  match j with
  | JNull => DNull
  | JBool b => DBool b
  | JInt z => DInt z
  | JStr s => DStr (points s)
  | JArr l => DArr (map embed l)
  | JObj l => DObj (map (λ kv, (points kv.1, embed kv.2)) l)
  end.

(** ** The scanner *)

Definition undecodable {A} : py A := raise JSONDecodeError "Expecting value".

Definition is_ws (c : ascii) : bool :=
  one_of " " c || (9 =? N_of_ascii c)%N || (10 =? N_of_ascii c)%N || (13 =? N_of_ascii c)%N.

Fixpoint skip_ws (l : list ascii) : list ascii :=
  match l with
  | c :: l' => if is_ws c then skip_ws l' else l
  | [] => []
  end.

Definition hex_point (c : ascii) : option N :=
  let n := N_of_ascii c in
  if is_digit c then Some (n - 48)%N
  else if between "a"%char "f"%char c then Some (n - 87)%N
  else if between "A"%char "F"%char c then Some (n - 55)%N
  else None.

Definition simple_escape (c : ascii) : option N :=
  match c with
  | "b"%char => Some 8%N
  | "t"%char => Some 9%N
  | "n"%char => Some 10%N
  | "f"%char => Some 12%N
  | "r"%char => Some 13%N
  | _ => if Ascii.eqb c quote_mark || Ascii.eqb c "\"%char || Ascii.eqb c "/"%char
         then Some (N_of_ascii c) else None
  end.

Definition with_point (n : N) (r : py (list N * list ascii)) : py (list N * list ascii) :=
  p ← r; Ok (n :: p.1, p.2).

(** The characters of a string up to its closing quotation mark. *)
Fixpoint scan_string (l : list ascii) : py (list N * list ascii) :=
  match l with
  | [] => undecodable
  | c :: l =>
      if Ascii.eqb c quote_mark then Ok ([], l)
      else if Ascii.eqb c "\"%char then
        match l with
        | "u"%char :: a :: b :: d :: e :: l' =>
            match hex_point a, hex_point b, hex_point d, hex_point e with
            | Some a, Some b, Some d, Some e =>
                with_point (4096 * a + 256 * b + 16 * d + e)%N (scan_string l')
            | _, _, _, _ => undecodable
            end
        | x :: l' =>
            match simple_escape x with
            | Some n => with_point n (scan_string l')
            | None => undecodable
            end
        | [] => undecodable
        end
      else if (N_of_ascii c <=? 31)%N then undecodable
      else with_point (N_of_ascii c) (scan_string l)
  end.

(** A high surrogate before a low one is one character. *)
Definition is_high (n : N) : bool := (55296 <=? n)%N && (n <=? 56319)%N.
Definition is_low (n : N) : bool := (56320 <=? n)%N && (n <=? 57343)%N.

Fixpoint join_surrogates (l : list N) : list N :=
  match l with
  | h :: (w :: l'') as l' =>
      if is_high h && is_low w
      then (65536 + 1024 * (h - 55296) + (w - 56320))%N :: join_surrogates l''
      else h :: join_surrogates l'
  | _ => l
  end.

Definition scan_text (l : list ascii) : py (list N * list ascii) :=
  p ← scan_string l; Ok (join_surrogates p.1, p.2).

(** ** Numbers *)

Fixpoint span_digits (l : list ascii) : list ascii * list ascii :=
  match l with
  | c :: l' => if is_digit c then let p := span_digits l' in (c :: p.1, p.2) else ([], l)
  | [] => ([], [])
  end.

Definition add_digit (c : ascii) (d : Decimal.uint) : Decimal.uint :=
  match c with
  | "0"%char => Decimal.D0 d | "1"%char => Decimal.D1 d | "2"%char => Decimal.D2 d
  | "3"%char => Decimal.D3 d | "4"%char => Decimal.D4 d | "5"%char => Decimal.D5 d
  | "6"%char => Decimal.D6 d | "7"%char => Decimal.D7 d | "8"%char => Decimal.D8 d
  | _ => Decimal.D9 d
  end.

Definition read_uint (l : list ascii) : Z := Z.of_N (N.of_uint (foldr add_digit Decimal.Nil l)).

(** The digits of an integer without its sign ([0] or a numeral that does not
    start with it), and the rest. *)
Definition scan_magnitude (l : list ascii) : option (list ascii * list ascii) :=
  match l with
  | "0"%char :: l => Some (["0"%char], l)
  | c :: _ => if is_digit c then Some (span_digits l) else None
  | [] => None
  end.

(** A point and at least one digit, if there. *)
Definition scan_fraction (l : list ascii) : list ascii * list ascii :=
  match l with
  | "."%char :: l' => let p := span_digits l' in
      match p.1 with [] => ([], l) | _ => ("."%char :: p.1, p.2) end
  | _ => ([], l)
  end.

(** An [e] or [E], an optional sign and at least one digit, if there. *)
Definition scan_exponent (l : list ascii) : list ascii * list ascii :=
  match l with
  | c :: l' =>
      if one_of "eE" c then
        let sign := match l' with s :: _ => if one_of "+-" s then [s] else [] | [] => [] end in
        let p := span_digits (drop (length sign) l') in
        match p.1 with [] => ([], l) | _ => (c :: sign ++ p.1, p.2) end
      else ([], l)
  | [] => ([], l)
  end.

Definition scan_number (l : list ascii) : py (doc * list ascii) :=
  let sign := match l with "-"%char :: _ => ["-"%char] | _ => [] end in
  match scan_magnitude (drop (length sign) l) with
  | None => undecodable
  | Some (digits, l1) =>
      let (frac, l2) := scan_fraction l1 in
      let (exponent, l3) := scan_exponent l2 in
      match frac ++ exponent with
      | [] =>
          _ ← require (length digits <=? 4300)%nat ValueError
                "Exceeds the limit (4300 digits) for integer string conversion";
          Ok (DInt (match sign with [] => read_uint digits | _ => (- read_uint digits)%Z end), l3)
      | fe => Ok (DFloat (sign ++ digits ++ fe), l3)
      end
  end.

(** ** Values *)

Fixpoint after_word (w l : list ascii) : option (list ascii) :=
  match w, l with
  | [], _ => Some l
  | c :: w, d :: l => if Ascii.eqb c d then after_word w l else None
  | _ :: _, [] => None
  end.

(** The dict of the scanned pairs: the last value of a key counts. *)
Fixpoint set_item {V} (k : list N) (v : V) (d : list (list N * V)) : list (list N * V) :=
  match d with
  | [] => [(k, v)]
  | (k', v') :: d => if k ==? k' then (k, v) :: d else (k', v') :: set_item k v d
  end.

Definition to_dict {V} (l : list (list N * V)) : list (list N * V) :=
  foldl (λ d kv, set_item kv.1 kv.2 d) [] l.

Definition constants : list (string * doc) :=
  [("null", DNull); ("true", DBool true); ("false", DBool false); ("NaN", DFloat (chars "NaN"));
   ("Infinity", DFloat (chars "Infinity")); ("-Infinity", DFloat (chars "-Infinity"))].

Definition scan_constant (l : list ascii) : option (doc * list ascii) :=
  foldr (λ kv rest, match after_word (chars kv.1) l with Some l' => Some (kv.2, l') | None => rest end)
    None constants.

(** The items after an opening bracket, unless it closes at once. *)
Definition opened {A} (close : ascii) (items : list ascii → py (list A * list ascii)) (l : list ascii) :
    py (list A * list ascii) :=
  match skip_ws l with
  | c :: l' => if Ascii.eqb c close then Ok ([], l') else items (c :: l')
  | [] => undecodable
  end.

(** After an item: the closing bracket, or a comma and more items. *)
Definition next_item {A} (close : ascii) (x : A) (more : list ascii → py (list A * list ascii)) (l : list ascii) :
    py (list A * list ascii) :=
  match skip_ws l with
  | c :: l' =>
      if Ascii.eqb c close then Ok ([x], l')
      else if Ascii.eqb c ","%char then q ← more (skip_ws l'); Ok (x :: q.1, q.2)
      else undecodable
  | [] => undecodable
  end.

Definition scan_key (l : list ascii) : py (list N * list ascii) :=
  match l with
  | c :: l =>
      if Ascii.eqb c quote_mark then
        k ← scan_text l;
        match skip_ws k.2 with
        | c :: l1 => if Ascii.eqb c ":"%char then Ok (k.1, skip_ws l1) else undecodable
        | [] => undecodable
        end
      else undecodable
  | [] => undecodable
  end.

(** The value that starts at [l]; each call needs a unit of fuel. *)
Fixpoint scan_value (fuel : nat) (l : list ascii) : py (doc * list ascii) :=
  match fuel with
  | O => undecodable
  | S fuel =>
      match l with
      | [] => undecodable
      | c :: l' =>
          if Ascii.eqb c quote_mark then p ← scan_text l'; Ok (DStr p.1, p.2)
          else if Ascii.eqb c "["%char then p ← opened "]"%char (scan_items fuel) l'; Ok (DArr p.1, p.2)
          else if Ascii.eqb c "{"%char then p ← opened "}"%char (scan_pairs fuel) l'; Ok (DObj (to_dict p.1), p.2)
          else match scan_constant l with
               | Some p => Ok p
               | None => scan_number l
               end
      end
  end
with scan_items (fuel : nat) (l : list ascii) : py (list doc * list ascii) :=
  match fuel with
  | O => undecodable
  | S fuel => p ← scan_value fuel l; next_item "]"%char p.1 (scan_items fuel) p.2
  end
with scan_pairs (fuel : nat) (l : list ascii) : py (list (list N * doc) * list ascii) :=
  match fuel with
  | O => undecodable
  | S fuel => k ← scan_key l; v ← scan_value fuel k.2; next_item "}"%char (k.1, v.1) (scan_pairs fuel) v.2
  end.

(** [json.loads(text)].  A character costs at most two calls, so twice the
    length of the text is fuel enough. *)
Definition loads (text : string) : py doc :=
  let l := skip_ws (chars text) in
  p ← scan_value (S (2 * length l)) l;
  match skip_ws p.2 with
  | [] => Ok p.1
  | _ => raise JSONDecodeError "Extra data"
  end.

(** ** Decoding what was printed *)

#[local] Arguments N.to_uint : simpl never.

Lemma points_inj a b : points a = points b → a = b.
Proof.
  unfold points. intros H. apply chars_inj. revert H. generalize (chars a), (chars b).
  induction l as [|x l IH]; intros [|y k]; cbn; try done. intros [= Hxy H].
  apply (f_equal ascii_of_N) in Hxy. rewrite !ascii_N_embedding in Hxy. subst. f_equal. auto.
Qed.

(** Values whose decoding is exact: the keys of a dict are distinct and no
    integer exceeds the conversion limit. *)
Fixpoint storable (j : json) : bool :=
  match j with
  | JInt z => (length (int_chars z) <=? 4300)%nat
  | JArr l => forallb storable l
  | JObj l => no_dup l.*1 && forallb (λ kv, storable kv.2) l
  | _ => true
  end.

(** Integers of machine width are far from the limit. *)
Lemma uint_chars_revapp d d' :
  length (uint_chars (Decimal.revapp d d')) = (length (uint_chars d) + length (uint_chars d'))%nat.
Proof. revert d'. induction d; intros d'; cbn; rewrite ?IHd; cbn; lia. Qed.

Lemma little_double_length d :
  (length (uint_chars (Decimal.Little.double d)) ≤ S (length (uint_chars d)))%nat ∧
  (length (uint_chars (Decimal.Little.succ_double d)) ≤ S (length (uint_chars d)))%nat.
Proof. induction d as [| d [] | d [] | d [] | d [] | d [] | d [] | d [] | d [] | d [] | d []]; cbn in *; split; lia. Qed.

Lemma pos_chars_length p : (length (uint_chars (Pos.to_uint p)) ≤ Pos.size_nat p)%nat.
Proof.
  unfold Pos.to_uint, Decimal.rev. rewrite uint_chars_revapp. cbn.
  assert (length (uint_chars (Pos.to_little_uint p)) ≤ Pos.size_nat p)%nat; [|lia].
  induction p as [p IH|p IH|]; cbn; [| |done].
  - pose proof (proj2 (little_double_length (Pos.to_little_uint p))). lia.
  - pose proof (proj1 (little_double_length (Pos.to_little_uint p))). lia.
Qed.

Lemma pos_size_bound p n : (Z.pos p < 2 ^ Z.of_nat n)%Z → (Pos.size_nat p ≤ n)%nat.
Proof.
  revert n. induction p as [p IH|p IH|]; intros [|n]; cbn [Pos.size_nat]; intros H; try lia.
  - apply le_n_S, IH. rewrite Nat2Z.inj_succ, Z.pow_succ_r in H by lia. lia.
  - apply le_n_S, IH. rewrite Nat2Z.inj_succ, Z.pow_succ_r in H by lia. lia.
Qed.

Lemma int_chars_length z : (- 2 ^ 64 < z < 2 ^ 64)%Z → (length (int_chars z) ≤ 4300)%nat.
Proof.
  intros Hz. assert (∀ p, (Z.pos p < 2 ^ 64)%Z → (length (uint_chars (N.to_uint (N.pos p))) ≤ 64)%nat) as H.
  { intros p Hp. change (N.to_uint (N.pos p)) with (Pos.to_uint p).
    pose proof (pos_chars_length p). pose proof (pos_size_bound p 64 Hp). lia. }
  destruct z as [|p|p]; cbn [int_chars length]; [lia|specialize (H p)..]; lia.
Qed.

(** What follows a value does not continue a number. *)
Definition follows (r : list ascii) : Prop :=
  match r with [] => True | c :: _ => is_digit c || one_of ".eE" c = false end.

Lemma follows_delimited r : follows r → delimited r.
Proof. destruct r as [|c r]; [done|]. cbn. by intros [? _]%orb_false_iff. Qed.

Lemma scan_string_escape c r :
  scan_string (escape c ++ r) = with_point (N_of_ascii c) (scan_string r).
Proof. destruct c as [[] [] [] [] [] [] [] []]; reflexivity. Qed.

Lemma scan_string_quoted s r :
  scan_string (flat_map escape (chars s) ++ quote_mark :: r) = Ok (points s, r).
Proof.
  unfold points. induction (chars s) as [|c l IH]; [done|].
  cbn [flat_map map]. rewrite <- app_assoc, scan_string_escape, IH. done.
Qed.

Lemma join_points s : join_surrogates (points s) = points s.
Proof.
  unfold points. assert (∀ c, is_high (N_of_ascii c) = false) as Hh.
  { intros c. unfold is_high. pose proof (N_ascii_bounded c).
    apply andb_false_iff. left. apply N.leb_gt. lia. }
  induction (chars s) as [|c [|d l] IH]; [done..|]. cbn [map join_surrogates] in *. by rewrite Hh, IH.
Qed.

Lemma scan_text_quoted s r : scan_text (flat_map escape (chars s) ++ quote_mark :: r) = Ok (points s, r).
Proof. unfold scan_text. rewrite scan_string_quoted. cbn. by rewrite join_points. Qed.

Lemma span_uint d r : delimited r → span_digits (uint_chars d ++ r) = (uint_chars d, r).
Proof.
  intros Hr. induction d; cbn in *; rewrite ?IHd; try done.
  destruct r as [|c r]; [done|]. cbn in *. by rewrite Hr.
Qed.

Lemma read_uint_chars n : read_uint (uint_chars (N.to_uint n)) = Z.of_N n.
Proof.
  unfold read_uint. assert (∀ d, foldr add_digit Decimal.Nil (uint_chars d) = d) as ->.
  { induction d; cbn; by rewrite ?IHd. }
  by rewrite DecimalN.Unsigned.of_to.
Qed.

Lemma to_uint_no_zero n d : N.to_uint n = Decimal.D0 d → n = 0%N.
Proof.
  intros H. pose proof (DecimalN.Unsigned.to_of (N.to_uint n)) as Ht.
  rewrite DecimalN.Unsigned.of_to, H in Ht. unfold Decimal.unorm in Ht.
  assert (∀ u v, Decimal.nzhead u ≠ Decimal.D0 v) as Hz by (induction u; cbn; congruence).
  destruct (Decimal.nzhead (Decimal.D0 d)) eqn:E; try congruence; [|by apply Hz in E].
  injection Ht as ->. apply (f_equal N.of_uint) in H. by rewrite DecimalN.Unsigned.of_to in H.
Qed.

Lemma scan_magnitude_uint n r : delimited r →
  scan_magnitude (uint_chars (N.to_uint n) ++ r) = Some (uint_chars (N.to_uint n), r).
Proof.
  intros Hr. pose proof (span_uint (N.to_uint n) r Hr) as Hs.
  pose proof (to_uint_cons n) as Hc. pose proof (to_uint_no_zero n) as Hz.
  destruct (N.to_uint n) as [|d|d|d|d|d|d|d|d|d|d] eqn:E; [done| |unfold scan_magnitude; cbn in *; by rewrite Hs..].
  specialize (Hz _ eq_refl). subst n. injection E as <-. done.
Qed.

Lemma no_fraction r : follows r → scan_fraction r = ([], r).
Proof.
  destruct r as [|c r]; [done|]. intros [_ H]%orb_false_iff. unfold scan_fraction.
  by destruct c as [[] [] [] [] [] [] [] []].
Qed.

Lemma no_exponent r : follows r → scan_exponent r = ([], r).
Proof.
  destruct r as [|c r]; [done|]. intros [_ H]%orb_false_iff. unfold scan_exponent.
  by destruct c as [[] [] [] [] [] [] [] []].
Qed.

Lemma scan_number_int z r : (length (int_chars z) ≤ 4300)%nat → follows r →
  scan_number (int_chars z ++ r) = Ok (DInt z, r).
Proof.
  intros Hl Hr. pose proof (follows_delimited _ Hr) as Hd. unfold scan_number.
  destruct (Z.neg_nonneg_cases z) as [Hz|Hz].
  - destruct z as [| |p]; try lia. cbn [int_chars app length drop].
    rewrite drop_0, (scan_magnitude_uint (Npos p)) by done. rewrite (no_fraction r), (no_exponent r) by done. cbn [app].
    rewrite (proj2 (require_ok _ _ _ tt)) by (apply Nat.leb_le; cbn in Hl; lia).
    cbn. by rewrite read_uint_chars.
  - assert (∃ n, z = Z.of_N n) as [n ->] by (exists (Z.to_N z); lia).
    rewrite int_chars_nonneg, N2Z.id in Hl |- * by lia.
    assert (∃ c l, uint_chars (N.to_uint n) = c :: l ∧ is_digit c = true) as (c & l & Hc & Hdig)
      by apply uint_chars_head, to_uint_cons.
    assert (match uint_chars (N.to_uint n) ++ r with "-"%char :: _ => ["-"%char] | _ => [] end = []) as ->.
    { rewrite Hc. by destruct c as [[] [] [] [] [] [] [] []]. }
    cbn [length]. rewrite drop_0, scan_magnitude_uint by done. rewrite (no_fraction r), (no_exponent r) by done. cbn [app].
    rewrite (proj2 (require_ok _ _ _ tt)) by (apply Nat.leb_le; lia).
    cbn. by rewrite read_uint_chars.
Qed.

(** Where a printed value starts: neither white space nor a closing bracket. *)
Lemma json_head_visible j c : json_head j c → is_ws c = false ∧ c ≠ "]"%char.
Proof.
  destruct j as [|[]| | | |]; cbn; intros Hc; subst; try done.
  destruct c as [[] [] [] [] [] [] [] []]; done.
Qed.

Lemma skip_ws_visible c l : is_ws c = false → skip_ws (c :: l) = c :: l.
Proof. intros H. cbn. by rewrite H. Qed.

Lemma skip_ws_print j r : skip_ws (print j ++ r) = print j ++ r.
Proof.
  destruct (print_head j) as (c & l & -> & Hc). cbn.
  by rewrite (proj1 (json_head_visible _ _ Hc)).
Qed.

Lemma set_item_fresh {V} k (v : V) d : k ∉ d.*1 → set_item k v d = d ++ [(k, v)].
Proof.
  induction d as [|[k' v'] d IH]; cbn; [done|]. intros [Hk Hd]%not_elem_of_cons.
  rewrite bool_decide_false by done. by rewrite IH.
Qed.

Lemma to_dict_distinct {V} (l : list (list N * V)) : NoDup l.*1 → to_dict l = l.
Proof.
  unfold to_dict. intros Hnd. assert (∀ d : list (list N * V), NoDup (d ++ l).*1 →
    foldl (λ d kv, set_item kv.1 kv.2 d) d l = d ++ l) as H; [|by apply (H [])].
  clear Hnd. induction l as [|[k v] l IH]; intros d Hd; cbn; [by rewrite app_nil_r|].
  rewrite fmap_app in Hd. apply list.NoDup_app in Hd as (H1 & H2 & H3). cbn in *.
  rewrite set_item_fresh.
  - rewrite IH, <- app_assoc; [done|]. rewrite !fmap_app. cbn. rewrite <- app_assoc. apply list.NoDup_app. done.
  - intros Hk. apply (H2 _ Hk). by left.
Qed.

(** ** The round trip *)

(** Scanning a printed value in front of [r] gives the value and [r]. *)
Definition rescans (j : json) : Prop := ∀ fuel r,
  (length (print j) ≤ fuel)%nat → follows r → scan_value fuel (print j ++ r) = Ok (embed j, r).

Lemma next_last {A} close (x : A) more r : is_ws close = false →
  next_item close x more (close :: r) = Ok ([x], r).
Proof. intros H. unfold next_item. rewrite skip_ws_visible by done. by rewrite Ascii.eqb_refl. Qed.

Lemma next_comma {A} close (x : A) more r : close ≠ ","%char →
  next_item close x more (","%char :: r) = q ← more (skip_ws r); Ok (x :: q.1, q.2).
Proof.
  intros H. unfold next_item. rewrite skip_ws_visible by done.
  destruct (Ascii.eqb_spec ","%char close); [by subst|done].
Qed.

Lemma rescan_items l : Forall rescans l → ∀ fuel r j,
  (length (print j) + length (more_items (map print l) "]"%char) ≤ fuel)%nat → rescans j →
  scan_items fuel (print j ++ more_items (map print l) "]"%char ++ r) = Ok (map embed (j :: l), r).
Proof.
  induction 1 as [|k l Hk _ IH]; intros [|fuel] r j Hf Hj; cbn [map more_items] in *; try (cbn in Hf; lia);
    cbn [scan_items].
  - rewrite Hj; [|cbn in Hf; lia|done]. by apply next_last.
  - rewrite Hj; [|cbn in Hf; rewrite length_app in Hf; lia|done]. cbn [mbind result_bind fst snd app].
    rewrite next_comma, <- app_assoc, skip_ws_print, (IH fuel r k); [done| |done..].
    cbn in Hf. rewrite length_app in Hf. destruct (print_head j) as (c & t & Hc & _). rewrite Hc in Hf. cbn in Hf. lia.
Qed.

Lemma scan_key_quoted k l : scan_key (quoted k ++ ":"%char :: l) = Ok (points k, skip_ws l).
Proof.
  unfold quoted. rewrite <- app_comm_cons, <- app_assoc. cbn [app]. unfold scan_key.
  rewrite Ascii.eqb_refl, scan_text_quoted. cbn [mbind result_bind fst snd].
  by rewrite skip_ws_visible, Ascii.eqb_refl.
Qed.

Lemma skip_ws_item kv r : skip_ws (print_item kv ++ r) = print_item kv ++ r.
Proof. done. Qed.

Lemma length_item kv : length (print_item kv) = (length (quoted kv.1) + 1 + length (print kv.2))%nat.
Proof. unfold print_item. rewrite length_app. cbn. lia. Qed.

Lemma rescan_pairs l : Forall (λ kv, rescans kv.2) l → ∀ fuel r kv,
  (length (print_item kv) + length (more_items (map print_item l) "}"%char) ≤ fuel)%nat → rescans kv.2 →
  scan_pairs fuel (print_item kv ++ more_items (map print_item l) "}"%char ++ r) =
    Ok (map (λ kv, (points kv.1, embed kv.2)) (kv :: l), r).
Proof.
  induction 1 as [|kv2 l Hk _ IH]; intros [|fuel] r kv Hf Hj; cbn [map more_items fst snd length] in *; try lia;
    rewrite length_item in Hf; cbn [scan_pairs]; unfold print_item at 1; rewrite <- app_assoc, <- app_comm_cons,
    scan_key_quoted; cbn [mbind result_bind fst snd]; rewrite skip_ws_print.
  - rewrite Hj; [|lia|done]. by apply next_last.
  - rewrite length_app in Hf. rewrite Hj; [|lia|done]. cbn [mbind result_bind fst snd app].
    rewrite next_comma, <- app_assoc, skip_ws_item, (IH fuel r kv2); [done|lia|done..].
Qed.

Lemma scan_constant_int z r : scan_constant (int_chars z ++ r) = None.
Proof.
  destruct (int_chars_head z) as (c & l & Hc & Hd).
  destruct (Z.neg_nonneg_cases z) as [Hz|Hz].
  - destruct z as [| |p]; try lia. cbn [int_chars].
    destruct (uint_chars_head _ (to_uint_cons (Npos p))) as (d & k & -> & Hk).
    by destruct d as [[] [] [] [] [] [] [] []].
  - rewrite int_chars_nonneg by done.
    destruct (uint_chars_head _ (to_uint_cons (Z.to_N z))) as (d & k & -> & Hk).
    by destruct d as [[] [] [] [] [] [] [] []].
Qed.

Lemma storable_keys (l : list (string * json)) :
  no_dup l.*1 = true → NoDup (map (λ kv, (points kv.1, embed kv.2)) l).*1.
Proof.
  intros H%no_dup_spec. rewrite map_map. cbn.
  assert (map (λ kv : string * json, points kv.1) l = points <$> l.*1) as ->
    by (rewrite <- list_fmap_compose; done).
  apply NoDup_fmap_2_strong; [|done]. intros a b _ _. apply points_inj.
Qed.

Lemma print_rescans j : storable j = true → rescans j.
Proof.
  induction j as [|b|z|s|l IH|l IH] using json_nested_ind; intros Hs [|fuel] r Hf Hr;
    try (exfalso; match type of Hf with (length (print ?j) ≤ 0)%nat =>
      destruct (print_head j) as (c & t & Hc & _); rewrite Hc in Hf; cbn in Hf; lia end).
  - done.
  - by destruct b.
  - cbn [print] in *. cbn [scan_value]. destruct (int_chars_head z) as (c & t & Hc & Hd).
    rewrite Hc. cbn [app].
    assert (Ascii.eqb c quote_mark = false ∧ Ascii.eqb c "["%char = false ∧ Ascii.eqb c "{"%char = false) as (-> & -> & ->)
      by (clear -Hd; destruct c as [[] [] [] [] [] [] [] []]; vm_compute in Hd; try discriminate Hd; done).
    change (c :: t ++ r) with ((c :: t) ++ r). rewrite <- Hc, scan_constant_int.
    apply scan_number_int; [|done]. by apply Nat.leb_le in Hs.
  - cbn [print]. unfold quoted. rewrite <- app_comm_cons, <- app_assoc. cbn [scan_value app].
    replace (Ascii.eqb quote_mark quote_mark) with true by done. by rewrite scan_text_quoted.
  - cbn [print app scan_value]. change (Ascii.eqb "["%char quote_mark) with false.
    change (Ascii.eqb "["%char "["%char) with true. cbn iota.
    cbn [storable] in Hs. rewrite forallb_forall in Hs.
    assert (Forall rescans l) as Hl.
    { apply List.Forall_forall. intros x Hx. rewrite List.Forall_forall in IH. by apply IH, Hs. }
    destruct l as [|k l]; [done|]. cbn [map all_items].
    apply Forall_cons_iff in Hl as [Hk Hl]. rewrite <- app_assoc. unfold opened. rewrite skip_ws_print.
    assert (scan_items fuel (print k ++ more_items (map print l) "]"%char ++ r) = Ok (map embed (k :: l), r)) as Hi.
    { apply rescan_items; [done| |done]. cbn in Hf. rewrite length_app in Hf. lia. }
    destruct (print_head k) as (c & t & Hc & Hh). apply json_head_visible in Hh as [_ Hh].
    rewrite Hc in Hi |- *. cbn [app] in Hi |- *.
    destruct (Ascii.eqb_spec c "]"%char); [done|]. by rewrite Hi.
  - cbn [print app scan_value]. change (Ascii.eqb "{"%char quote_mark) with false.
    change (Ascii.eqb "{"%char "["%char) with false. change (Ascii.eqb "{"%char "{"%char) with true. cbn iota.
    cbn [storable] in Hs. apply andb_true_iff in Hs as [Hn Hs]. rewrite forallb_forall in Hs.
    assert (Forall (λ kv : string * json, rescans kv.2) l) as Hl.
    { apply List.Forall_forall. intros x Hx. rewrite List.Forall_forall in IH. by apply IH, Hs. }
    destruct l as [|kv l]; [done|]. apply Forall_cons_iff in Hl as [Hk Hl].
    assert (scan_pairs fuel (print_item kv ++ more_items (map print_item l) "}"%char ++ r) =
      Ok (map (λ kv, (points kv.1, embed kv.2)) (kv :: l), r)) as Hi.
    { apply rescan_pairs; [done| |done].
      assert (length (print (JObj (kv :: l))) =
        S (length (print_item kv ++ more_items (map print_item l) "}"%char))) as Hlen by done.
      rewrite Hlen, length_app in Hf. lia. }
    change (map (λ kv, quoted kv.1 ++ ":"%char :: print kv.2) (kv :: l)) with (map print_item (kv :: l)).
    cbn [map all_items] in *. rewrite <- app_assoc.
    unfold opened. rewrite skip_ws_item. unfold print_item at 1, quoted at 1. cbn [app].
    change (Ascii.eqb quote_mark "}"%char) with false. cbn iota.
    unfold print_item at 1, quoted at 1 in Hi. cbn [app] in Hi. rewrite Hi. cbn [mbind result_bind fst snd embed].
    rewrite to_dict_distinct; [done|]. by apply (storable_keys (kv :: l)).
Qed.

Lemma storable_canon j : storable j = true → storable (canon j) = true.
Proof.
  induction j as [| | | |l IH|l IH] using json_nested_ind; cbn [storable canon]; try done.
  - rewrite !forallb_forall. intros H x [y [<- Hy]]%in_map_iff. rewrite List.Forall_forall in IH. auto.
  - intros [Hn H]%andb_true_iff. rewrite forallb_forall in H. rewrite List.Forall_forall in IH.
    apply andb_true_iff. split.
    + apply no_dup_spec. apply no_dup_spec in Hn. rewrite merge_sort_Permutation. by rewrite canon_items_keys.
    + apply forallb_forall. intros x Hx.
      assert (x ∈ map (λ kv : string * json, (kv.1, canon kv.2)) l) as Hx'
        by (rewrite <- (merge_sort_Permutation key_le); by apply list_elem_of_In).
      apply list_elem_of_In, in_map_iff in Hx' as (y & <- & Hy). cbn. auto.
Qed.

Lemma loads_plain j : storable j = true → loads (dumps_plain j) = Ok (embed j).
Proof.
  intros Hs. unfold loads, dumps_plain, chars. rewrite String.list_ascii_of_string_of_list_ascii.
  pose proof (skip_ws_print j []) as Hw. rewrite app_nil_r in Hw. rewrite Hw.
  pose proof (print_rescans j Hs (S (2 * length (print j))) []) as H. rewrite app_nil_r in H.
  by rewrite H; [|lia|].
Qed.

(** Decoding the text a value was stored as gives the value back, its dicts in
    key order. *)
Theorem loads_dumps j : storable j = true → loads (dumps j) = Ok (embed (canon j)).
Proof. intros H. apply loads_plain. by apply storable_canon. Qed.

(** ** The fuel is enough

    Every scanner consumes at least one character, so more fuel than the text
    has characters changes nothing. *)

Definition consumes {A} (l : list ascii) (r : py (A * list ascii)) : Prop :=
  ∀ a l', r = Ok (a, l') → (length l' < length l)%nat.

Lemma skip_ws_length l : (length (skip_ws l) ≤ length l)%nat.
Proof. induction l as [|c l IH]; cbn; [done|]. destruct (is_ws c); cbn; lia. Qed.

Lemma span_digits_length l : length l = (length (span_digits l).1 + length (span_digits l).2)%nat.
Proof. induction l as [|c l IH]; cbn; [done|]. destruct (is_digit c); cbn; lia. Qed.

Lemma with_point_consumes c n l r : consumes l r → consumes (c :: l) (with_point n r).
Proof.
  intros H a l' E. destruct r as [[b m]|]; [|done]. injection E as <- <-.
  specialize (H _ _ eq_refl). cbn. lia.
Qed.

Lemma consumes_more {A} c l (r : py (A * list ascii)) : consumes l r → consumes (c :: l) r.
Proof. intros H a l' E. specialize (H _ _ E). cbn. lia. Qed.

Lemma scan_string_consumes l : consumes l (scan_string l).
Proof.
  induction l as [l Hk] using (well_founded_induction (well_founded_ltof _ (@length ascii))).
  unfold ltof in Hk. destruct l as [|c l]; [done|]. cbn [scan_string].
  destruct (Ascii.eqb c quote_mark); [intros a l' [= <- <-]; cbn; lia|].
  destruct (Ascii.eqb c "\"%char).
  - destruct l as [|x l]; [done|].
    assert (consumes (c :: x :: l) match simple_escape x with
      Some n => with_point n (scan_string l) | None => undecodable end) as Hs.
    { destruct (simple_escape x); [|done]. apply consumes_more, with_point_consumes, Hk. cbn. lia. }
    destruct l as [|a [|b [|d [|e l]]]]; try (destruct x as [[] [] [] [] [] [] [] []]; exact Hs).
    assert (consumes (c :: x :: a :: b :: d :: e :: l)
      match hex_point a, hex_point b, hex_point d, hex_point e with
      | Some a, Some b, Some d, Some e => with_point (4096 * a + 256 * b + 16 * d + e)%N (scan_string l)
      | _, _, _, _ => undecodable end) as Hu.
    { destruct (hex_point a), (hex_point b), (hex_point d), (hex_point e); try done.
      do 5 apply consumes_more. apply with_point_consumes, Hk. cbn. lia. }
    destruct x as [[] [] [] [] [] [] [] []]; first [exact Hs | exact Hu].
  - destruct (N_of_ascii c <=? 31)%N; [done|]. apply with_point_consumes, Hk. cbn. lia.
Qed.

Lemma scan_text_consumes l : consumes l (scan_text l).
Proof.
  intros a l' E. unfold scan_text in E. apply bind_ok in E as ([s r] & E & [= <- <-]).
  by apply scan_string_consumes in E.
Qed.

Lemma after_word_length w l l' : after_word w l = Some l' → length l = (length w + length l')%nat.
Proof.
  revert l. induction w as [|c w IH]; intros l; cbn; [by intros [= ->]|].
  destruct l as [|d l]; [done|]. destruct (Ascii.eqb c d); [|done]. intros E. apply IH in E. cbn. lia.
Qed.

Lemma scan_constant_length l d l' : scan_constant l = Some (d, l') → (length l' < length l)%nat.
Proof.
  unfold scan_constant, constants. cbn [foldr fst snd].
  repeat match goal with
  | |- match after_word ?w l with _ => _ end = _ → _ =>
      destruct (after_word w l) eqn:E; [apply after_word_length in E; intros [= <- <-]; cbn in E; lia|clear E]
  end. done.
Qed.

Lemma scan_magnitude_length l d l' : scan_magnitude l = Some (d, l') → (length l' < length l)%nat.
Proof.
  intros H. destruct l as [|c l]; [done|].
  assert (is_digit c = true → (length (span_digits (c :: l)).2 < length (c :: l))%nat) as Hs.
  { intros Hd. cbn. rewrite Hd. cbn. pose proof (span_digits_length l). lia. }
  revert H. unfold scan_magnitude. destruct (ascii_dec c "0"%char) as [->|Hz]; [intros [= <- <-]; cbn; lia|].
  intros H. assert ((if is_digit c then Some (span_digits (c :: l)) else None) = Some (d, l')) as H'
    by (by destruct c as [[] [] [] [] [] [] [] []]).
  destruct (is_digit c); [|done]. specialize (Hs eq_refl).
  revert H' Hs. generalize (span_digits (c :: l)). intros [? ?] [= <- <-]. done.
Qed.

Lemma scan_fraction_length l : (length (scan_fraction l).2 ≤ length l)%nat.
Proof.
  destruct l as [|c l]; [done|]. unfold scan_fraction.
  assert ((length (match (span_digits l).1 with [] => ([], c :: l) | _ => ("."%char :: (span_digits l).1, (span_digits l).2) end).2
    ≤ length (c :: l))%nat) as H.
  { pose proof (span_digits_length l). destruct (span_digits l).1; cbn in *; lia. }
  destruct (ascii_dec c "."%char) as [->|]; [done|].
  by destruct c as [[] [] [] [] [] [] [] []].
Qed.

Lemma scan_exponent_length l : (length (scan_exponent l).2 ≤ length l)%nat.
Proof.
  destruct l as [|c l]; [done|]. unfold scan_exponent. destruct (one_of "eE" c); [|done].
  set (sign := match l with s :: _ => _ | [] => [] end). pose proof (span_digits_length (drop (length sign) l)) as H.
  rewrite length_drop in H. destruct (span_digits _) as [[|x d] r]; cbn in *; lia.
Qed.

Lemma scan_number_consumes l : consumes l (scan_number l).
Proof.
  intros a l' E. unfold scan_number in E.
  set (sign := match l with "-"%char :: _ => _ | _ => [] end) in E. clearbody sign.
  destruct (scan_magnitude _) as [[d l1]|] eqn:Hm; [|done]. apply scan_magnitude_length in Hm.
  rewrite length_drop in Hm. pose proof (scan_fraction_length l1). destruct (scan_fraction l1) as [f l2].
  pose proof (scan_exponent_length l2). destruct (scan_exponent l2) as [e l3]. cbn in *.
  destruct (f ++ e); [|injection E as <- <-; lia]. apply bind_ok in E as (? & _ & [= <- <-]). lia.
Qed.


Lemma opened_consumes {A} close items l :
  (∀ l : list ascii, consumes l (items l)) → consumes l (@opened A close items l).
Proof.
  intros Hi a l' E. unfold opened in E. pose proof (skip_ws_length l).
  destruct (skip_ws l) as [|c k]; [done|]. destruct (Ascii.eqb c close).
  - injection E as <- <-. cbn in *. lia.
  - apply Hi in E. lia.
Qed.

Lemma next_item_consumes {A} close x more l :
  (∀ l : list ascii, consumes l (more l)) → consumes l (@next_item A close x more l).
Proof.
  intros Hi a l' E. unfold next_item in E. pose proof (skip_ws_length l).
  destruct (skip_ws l) as [|c k]; [done|]. destruct (Ascii.eqb c close); [|destruct (Ascii.eqb c ","%char)]; [| |done].
  - injection E as <- <-. cbn in *. lia.
  - apply bind_ok in E as ([q r] & E & [= <- <-]). apply Hi in E. pose proof (skip_ws_length k). cbn in *. lia.
Qed.

Lemma scan_key_consumes l : consumes l (scan_key l).
Proof.
  intros a l' E. destruct l as [|c l]; [done|]. cbn in E. destruct (Ascii.eqb c quote_mark); [|done].
  apply bind_ok in E as ([k r] & E & E'). apply scan_text_consumes in E. cbn in E'.
  pose proof (skip_ws_length r). destruct (skip_ws r) as [|d m]; [done|]. destruct (Ascii.eqb d ":"%char); [|done].
  injection E' as <- <-. pose proof (skip_ws_length m). cbn in *. lia.
Qed.

Lemma scans_consume fuel :
  (∀ l, consumes l (scan_value fuel l)) ∧ (∀ l, consumes l (scan_items fuel l)) ∧
  (∀ l, consumes l (scan_pairs fuel l)).
Proof.
  induction fuel as [|fuel (IHv & IHi & IHp)]; [done|]. repeat split; cbn [scan_value scan_items scan_pairs].
  - intros [|c l]; [done|]. destruct (Ascii.eqb c quote_mark); [|destruct (Ascii.eqb c "["%char)];
      [| |destruct (Ascii.eqb c "{"%char)].
    1, 2, 3: intros a l' E; apply bind_ok in E as ([s r] & E & [= <- <-]); cbn;
      first [apply scan_text_consumes in E|apply opened_consumes in E; [|done]]; lia.
    destruct (scan_constant _) as [[d r]|] eqn:E; [|apply scan_number_consumes].
    intros a l' [= <- <-]. by apply scan_constant_length in E.
  - intros l a l' E. apply bind_ok in E as ([v r] & E & E'). apply IHv in E. apply next_item_consumes in E'; [|done].
    cbn in E'. lia.
  - intros l a l' E. apply bind_ok in E as ([k r] & E & E'). apply scan_key_consumes in E.
    apply bind_ok in E' as ([v r'] & E' & E''). apply IHv in E'. apply next_item_consumes in E''; [|done].
    cbn in *. lia.
Qed.

Lemma bind_ext {A B C} (m : py (A * B)) (f g : A * B → py C) :
  (∀ a b, m = Ok (a, b) → f (a, b) = g (a, b)) → m ≫= f = m ≫= g.
Proof. intros H. destruct m as [[a b]|]; [by apply H|done]. Qed.

Lemma opened_ext {A} close (f g : list ascii → py (list A * list ascii)) l :
  (∀ k, (length k ≤ length l)%nat → f k = g k) → opened close f l = opened close g l.
Proof.
  intros H. unfold opened. pose proof (skip_ws_length l). destruct (skip_ws l) as [|c k]; [done|].
  destruct (Ascii.eqb c close); [done|]. by apply H.
Qed.

Lemma next_item_ext {A} close x (f g : list ascii → py (list A * list ascii)) l :
  (∀ k, (length k < length l)%nat → f k = g k) → next_item close x f l = next_item close x g l.
Proof.
  intros H. unfold next_item. pose proof (skip_ws_length l). destruct (skip_ws l) as [|c k]; [done|].
  destruct (Ascii.eqb c close); [done|]. destruct (Ascii.eqb c ","%char); [|done].
  rewrite H; [done|]. pose proof (skip_ws_length k). cbn in *. lia.
Qed.

(** Any two fuels that are enough scan alike. *)
Lemma fuel_irrelevant m : ∀ n,
  (∀ l, (2 * length l < m)%nat → (2 * length l < n)%nat → scan_value m l = scan_value n l) ∧
  (∀ l, (S (2 * length l) < m)%nat → (S (2 * length l) < n)%nat → scan_items m l = scan_items n l) ∧
  (∀ l, (S (2 * length l) < m)%nat → (S (2 * length l) < n)%nat → scan_pairs m l = scan_pairs n l).
Proof.
  induction m as [|m IH]; [repeat split; lia|]. intros [|n]; [repeat split; lia|].
  destruct (IH n) as (IHv & IHi & IHp). clear IH. repeat split; intros l Hm Hn;
    cbn [scan_value scan_items scan_pairs].
  - destruct l as [|c l]; [done|]. cbn in Hm, Hn. destruct (Ascii.eqb c quote_mark); [done|].
    rewrite (opened_ext _ (scan_items m) (scan_items n)) by (intros; apply IHi; lia).
    by rewrite (opened_ext _ (scan_pairs m) (scan_pairs n)) by (intros; apply IHp; lia).
  - rewrite IHv by lia. apply bind_ext. intros v r Hv%scans_consume. cbn.
    apply next_item_ext. intros k Hk. apply IHi; lia.
  - apply bind_ext. intros k r Hk%scan_key_consumes. cbn. rewrite IHv by lia.
    apply bind_ext. intros v r' Hv%scans_consume. cbn. apply next_item_ext. intros x Hx. apply IHp; lia.
Qed.

(** Decoding with any larger fuel gives the same value or error. *)
Theorem loads_fuel text fuel : (2 * length (skip_ws (chars text)) < fuel)%nat →
  loads text = p ← scan_value fuel (skip_ws (chars text));
    match skip_ws p.2 with [] => Ok p.1 | _ => raise JSONDecodeError "Extra data" end.
Proof.
  intros H. unfold loads. destruct (fuel_irrelevant (S (2 * length (skip_ws (chars text)))) fuel) as [Hv _].
  by rewrite Hv by lia.
Qed.
