(* ===== verification/JsonRead.v ===== *)
(** * Reading decoded JSON

    How the parsers of stored records take a decoded value apart, and what they
    find in a value that the program itself wrote. *)

From S2P Require Import Prelude Json JsonParse.

Definition dict := list (list N * doc).

Definition get (key : string) (d : dict) : option doc := assoc (points key) d.

(** A [str] whose characters the program can write; any other value is refused
    by the ASCII patterns and names that every field is compared with. *)
Definition narrow (p : list N) : option string :=
  if forallb (λ n, (n <? 256)%N) p then Some (String.string_of_list_ascii (map ascii_of_N p)) else None.

Definition keys_are (keys : list string) (d : dict) : bool := same_elements d.*1 (map points keys).

(** [{...}[value]] of an unhashable value raises. *)
Definition hashable (v : doc) : py unit :=
  match v with DArr _ | DObj _ => raise TypeError "unhashable type" | _ => Ok () end.

Definition item (key : string) (d : dict) : py doc :=
  match get key d with Some v => Ok v | None => raise KeyError key end.

(** [str] fields and enumerations read from a field.  A value of another type
    raises [TypeError] or [ValueError] in the code; the handler of the parser
    treats all of them alike. *)
Definition str_item (key : string) (d : dict) : py string :=
  v ← item key d;
  match v with
  | DStr p => match narrow p with Some s => Ok s | None => raise ValueError key end
  | _ => raise TypeError key
  end.

Definition enum_item {A} (value : A → string) (all : list A) (key : string) (d : dict) : py A :=
  v ← item key d;
  match v with
  | DStr p =>
      match narrow p ≫= of_value value all with Some a => Ok a | None => raise ValueError key end
  | _ => raise ValueError key
  end.

(** Python's [==] on decoded values; a float is compared by its literal. *)
Fixpoint doc_eqb (a b : doc) : bool :=
  match a, b with
  | DNull, DNull => true
  | DBool x, DBool y => Bool.eqb x y
  | DInt x, DInt y => Z.eqb x y
  | DBool x, DInt y | DInt y, DBool x => Z.eqb y (if x then 1 else 0)
  | DFloat x, DFloat y => x ==? y
  | DStr x, DStr y => x ==? y
  | DArr l, DArr k =>
      (fix all (l k : list doc) : bool := match l, k with
       | [], [] => true
       | x :: l, y :: k => doc_eqb x y && all l k
       | _, _ => false
       end) l k
  | DObj l, DObj k =>
      (length l =? length k)%nat &&
      forallb (λ kv, match assoc kv.1 k with Some v => doc_eqb kv.2 v | None => false end) l
  | _, _ => false
  end.

(** ** Reading back what was written *)

(** The decoded form of a dict that was stored. *)
Definition stored (l : list (string * json)) : dict :=
  map (λ kv, (points kv.1, embed kv.2)) (merge_sort key_le (map (λ kv, (kv.1, canon kv.2)) l)).

Lemma embed_canon_object l : embed (canon (JObj l)) = DObj (stored l).
Proof. done. Qed.

Lemma assoc_permutation `{EqDecision K} {V} (l1 l2 : list (K * V)) k :
  NoDup l1.*1 → l1 ≡ₚ l2 → assoc k l1 = assoc k l2.
Proof.
  intros Hn Hp. assert (NoDup l2.*1) as Hn2 by (by rewrite <- Hp).
  destruct (assoc k l1) as [v|] eqn:E.
  - symmetry. apply assoc_nodup; [done|]. rewrite <- Hp. by apply assoc_elem.
  - destruct (assoc k l2) as [v|] eqn:E2; [|done]. apply assoc_elem in E2. rewrite <- Hp in E2.
    by rewrite (assoc_nodup _ _ _ Hn E2) in E.
Qed.

Lemma assoc_map {V W} (f : V → W) (l : list (string * V)) k :
  assoc (points k) (map (λ kv, (points kv.1, f kv.2)) l) = f <$> assoc k l.
Proof.
  induction l as [|[k' v] l IH]; cbn; [done|]. destruct (decide (k = k')) as [->|Hk].
  - by rewrite decide_True.
  - rewrite decide_False; [done|]. by intros ?%points_inj.
Qed.

Lemma assoc_map_values `{EqDecision K} {V W} (f : V → W) (l : list (K * V)) k :
  assoc k (map (λ kv, (kv.1, f kv.2)) l) = f <$> assoc k l.
Proof. induction l as [|[k' v] l IH]; cbn; [done|]. by destruct (decide (k = k')). Qed.

Lemma get_stored l key : no_dup l.*1 = true → get key (stored l) = (λ v, embed (canon v)) <$> assoc key l.
Proof.
  intros Hn%no_dup_spec. unfold get, stored. rewrite assoc_map.
  rewrite (assoc_permutation _ (map (λ kv, (kv.1, canon kv.2)) l)).
  - rewrite assoc_map_values. by destruct (assoc key l).
  - by rewrite merge_sort_Permutation, canon_items_keys.
  - apply merge_sort_Permutation.
Qed.

Lemma keys_stored l ks : same_elements l.*1 ks = true → keys_are ks (stored l) = true.
Proof.
  unfold keys_are. rewrite !same_elements_spec. intros H k.
  assert ((stored l).*1 ≡ₚ points <$> l.*1) as ->.
  { unfold stored. rewrite merge_sort_Permutation, map_map. rewrite <- !list_fmap_compose. done. }
  change (map points ks) with (points <$> ks). rewrite !list_elem_of_fmap.
  split; intros (x & -> & Hx); exists x; split; try done; by apply H.
Qed.

Lemma item_stored l key v : no_dup l.*1 = true → assoc key l = Some v → item key (stored l) = Ok (embed (canon v)).
Proof. intros Hn Hv. unfold item. by rewrite get_stored, Hv. Qed.

Lemma narrow_points s : narrow (points s) = Some s.
Proof.
  unfold narrow, points. assert (forallb (λ n, (n <? 256)%N) (map N_of_ascii (chars s)) = true) as ->.
  { apply forallb_forall. intros n [c [<- _]]%in_map_iff. apply N.ltb_lt, N_ascii_bounded. }
  f_equal. rewrite map_map. rewrite (map_ext _ id) by apply ascii_N_embedding. rewrite map_id.
  apply String.string_of_list_ascii_of_string.
Qed.

Lemma narrow_some p s : narrow p = Some s → p = points s.
Proof.
  unfold narrow. destruct (forallb _ p) eqn:E; [|done]. intros [= <-]. unfold points, chars.
  rewrite String.list_ascii_of_string_of_list_ascii, map_map. rewrite forallb_forall in E.
  symmetry. rewrite <- (map_id p) at 2. apply map_ext_in. intros n Hn%E. apply N_ascii_embedding. by apply N.ltb_lt.
Qed.

Lemma str_item_stored l key s : no_dup l.*1 = true → assoc key l = Some (JStr s) → str_item key (stored l) = Ok s.
Proof. intros Hn Hv. unfold str_item. rewrite (item_stored _ _ _ Hn Hv). cbn. by rewrite narrow_points. Qed.

Lemma enum_item_stored {A} (value : A → string) all l key a :
  no_dup l.*1 = true → assoc key l = Some (JStr (value a)) → of_value value all (value a) = Some a →
  enum_item value all key (stored l) = Ok a.
Proof.
  intros Hn Hv Ha. unfold enum_item. rewrite (item_stored _ _ _ Hn Hv). cbn. rewrite narrow_points. cbn. by rewrite Ha.
Qed.

Lemma str_item_ok key d s : str_item key d = Ok s → get key d = Some (DStr (points s)).
Proof.
  unfold str_item, item. destruct (get key d) as [[]|]; try done. cbn.
  destruct (narrow _) eqn:E; [|done]. intros [= ->]. by rewrite (narrow_some _ _ E).
Qed.

Lemma of_value_some {A} (value : A → string) all s a : of_value value all s = Some a → value a = s ∧ a ∈ all.
Proof.
  unfold of_value. intros [H1 H2]%List.find_some. apply bool_decide_eq_true in H2. split; [done|].
  by apply list_elem_of_In.
Qed.

Lemma enum_item_ok {A} (value : A → string) all key d a :
  enum_item value all key d = Ok a → get key d = Some (DStr (points (value a))).
Proof.
  unfold enum_item, item. destruct (get key d) as [[]|]; try done. cbn.
  destruct (narrow s) as [t|] eqn:E; [|done]. cbn. destruct (of_value value all t) eqn:Ev; [|done]. intros [= ->].
  apply of_value_some in Ev as [-> _]. by rewrite (narrow_some _ _ E).
Qed.

(** A stored value equals, as Python compares, the value it was made from. *)
Lemma doc_eqb_canon j : storable j = true → doc_eqb (embed j) (embed (canon j)) = true.
Proof.
  induction j as [|b|z|s|l IH|l IH] using json_nested_ind; intros Hs.
  - done.
  - by destruct b.
  - apply Z.eqb_refl.
  - cbn. by apply bool_decide_eq_true.
  - cbn [storable] in Hs. rewrite forallb_forall in Hs. rewrite List.Forall_forall in IH. cbn.
    induction l as [|x l IHl]; [done|]. cbn. apply andb_true_iff. split; [apply IH, Hs; by left|].
    apply IHl; intros y Hy; [apply IH|apply Hs]; by right.
  - cbn [storable] in Hs. apply andb_true_iff in Hs as [Hn Hs]. rewrite forallb_forall in Hs.
    rewrite List.Forall_forall in IH. rewrite embed_canon_object. cbn [embed doc_eqb].
    apply andb_true_iff. split.
    + apply Nat.eqb_eq. unfold stored. rewrite !length_map.
      rewrite (Permutation_length (merge_sort_Permutation key_le _)). by rewrite length_map.
    + apply forallb_forall. intros [k v] [[k' v'] [[= <- <-] Hi]]%in_map_iff. cbn [fst snd].
      change (assoc (points k') (stored l)) with (get k' (stored l)). rewrite get_stored by done.
      assert (assoc k' l = Some v') as ->.
      { apply assoc_nodup; [by apply no_dup_spec|]. by apply list_elem_of_In. }
      cbn. apply (IH _ Hi), (Hs _ Hi).
Qed.
