(* ===== verification/FailureRecovery.v ===== *)
(** * Failure decisions (src/roundwright/failure_recovery.py)

    The closed taxonomy of failures, the matrix that gives each failure its only
    recovery, the records of decisions and their canonical text.  Nothing here
    touches a database; [FailureLedger] does. *)

From S2P Require Import Prelude Sha256 Json JsonParse JsonRead.
Open Scope Z_scope.

Definition recovery_error {A} (why : string) : py A := raise FailureRecoveryError why.
Definition recovery_ensure (b : bool) (why : string) : py unit := require b FailureRecoveryError why.

(** ** Patterns *)

Definition match_commit (s : string) : bool := match_hex 40 s.

Definition is_token_char (c : ascii) : bool := is_alnum c || one_of "._:/-" c.

(** [^[A-Za-z0-9][A-Za-z0-9._:/-]*$] under [fullmatch]. *)
Definition match_token (s : string) : bool :=
  match s with
  | EmptyString => false
  | String c s' => is_alnum c && str_all is_token_char s'
  end.

(** ** The taxonomy *)

Inductive FailureRole := WORKER | SUPERVISOR | DEPENDENCY_REVIEW.

Inductive FailureClass :=
  | PARTIAL_INCREMENT | ORDINARY_REVIEW_HANDOFF | VALIDATION_RUNNING | NO_PROGRESS | SESSION_TERMINATED
  | FORMAT_INVALID | MISSING_OUTPUT | TOPOLOGY_VIOLATION | HOST_SECURITY_DENIAL | TRANSIENT_SERVICE
  | CREDENTIAL_FAILURE | MISSING_OWNER_SCOPE | BUDGET_EXHAUSTED | AMBIGUOUS_EFFECT | UNKNOWN.

Inductive EvidenceSource :=
  | VERIFIED_OUTPUT | VERIFIED_HOST | VERIFIED_LIFECYCLE | VERIFIED_TOPOLOGY | VERIFIED_SERVICE
  | MODEL_SELF_REPORT | UNAVAILABLE.

Inductive EvidenceConfidence := C_VERIFIED | C_UNAVAILABLE.

Inductive RecoveryAction := CONTINUE_SAME_SESSION | RECONCILE | STOP_SCOPE | PREBOUND_FALLBACK.

#[export] Instance FailureRole_eq_dec : EqDecision FailureRole.
Proof. solve_decision. Defined.
#[export] Instance FailureClass_eq_dec : EqDecision FailureClass.
Proof. solve_decision. Defined.
#[export] Instance EvidenceSource_eq_dec : EqDecision EvidenceSource.
Proof. solve_decision. Defined.
#[export] Instance EvidenceConfidence_eq_dec : EqDecision EvidenceConfidence.
Proof. solve_decision. Defined.
#[export] Instance RecoveryAction_eq_dec : EqDecision RecoveryAction.
Proof. solve_decision. Defined.

Definition FailureRole_value (r : FailureRole) : string :=
  match r with WORKER => "worker" | SUPERVISOR => "supervisor" | DEPENDENCY_REVIEW => "dependency-review" end.

Definition FailureClass_value (f : FailureClass) : string :=
  match f with
  | PARTIAL_INCREMENT => "partial-increment" | ORDINARY_REVIEW_HANDOFF => "ordinary-review-handoff"
  | VALIDATION_RUNNING => "validation-running" | NO_PROGRESS => "no-progress"
  | SESSION_TERMINATED => "session-terminated" | FORMAT_INVALID => "format-invalid"
  | MISSING_OUTPUT => "missing-output" | TOPOLOGY_VIOLATION => "topology-violation"
  | HOST_SECURITY_DENIAL => "host-security-denial" | TRANSIENT_SERVICE => "transient-service"
  | CREDENTIAL_FAILURE => "credential-failure" | MISSING_OWNER_SCOPE => "missing-owner-scope"
  | BUDGET_EXHAUSTED => "budget-exhausted" | AMBIGUOUS_EFFECT => "ambiguous-effect" | UNKNOWN => "unknown"
  end.

Definition EvidenceSource_value (e : EvidenceSource) : string :=
  match e with
  | VERIFIED_OUTPUT => "verified-output" | VERIFIED_HOST => "verified-host"
  | VERIFIED_LIFECYCLE => "verified-lifecycle" | VERIFIED_TOPOLOGY => "verified-topology"
  | VERIFIED_SERVICE => "verified-service" | MODEL_SELF_REPORT => "model-self-report"
  | UNAVAILABLE => "unavailable"
  end.

Definition EvidenceConfidence_value (c : EvidenceConfidence) : string :=
  match c with C_VERIFIED => "verified" | C_UNAVAILABLE => "unavailable" end.

Definition RecoveryAction_value (a : RecoveryAction) : string :=
  match a with
  | CONTINUE_SAME_SESSION => "continue-same-session" | RECONCILE => "reconcile"
  | STOP_SCOPE => "stop-scope" | PREBOUND_FALLBACK => "prebound-fallback"
  end.

Definition FAILURE_ROLES : list FailureRole := [WORKER; SUPERVISOR; DEPENDENCY_REVIEW].
Definition FAILURE_CLASSES : list FailureClass :=
  [PARTIAL_INCREMENT; ORDINARY_REVIEW_HANDOFF; VALIDATION_RUNNING; NO_PROGRESS; SESSION_TERMINATED;
   FORMAT_INVALID; MISSING_OUTPUT; TOPOLOGY_VIOLATION; HOST_SECURITY_DENIAL; TRANSIENT_SERVICE;
   CREDENTIAL_FAILURE; MISSING_OWNER_SCOPE; BUDGET_EXHAUSTED; AMBIGUOUS_EFFECT; UNKNOWN].
Definition EVIDENCE_SOURCES : list EvidenceSource :=
  [VERIFIED_OUTPUT; VERIFIED_HOST; VERIFIED_LIFECYCLE; VERIFIED_TOPOLOGY; VERIFIED_SERVICE; MODEL_SELF_REPORT;
   UNAVAILABLE].
Definition EVIDENCE_CONFIDENCES : list EvidenceConfidence := [C_VERIFIED; C_UNAVAILABLE].
Definition RECOVERY_ACTIONS : list RecoveryAction := [CONTINUE_SAME_SESSION; RECONCILE; STOP_SCOPE; PREBOUND_FALLBACK].

(** The sources that are no evidence. *)
Definition untrusted (e : EvidenceSource) : bool := e in? [MODEL_SELF_REPORT; UNAVAILABLE].

Record FailureEvidence := { source : EvidenceSource; confidence : EvidenceConfidence }.

Definition check_FailureEvidence (e : FailureEvidence) : py unit :=
  recovery_ensure (negb (untrusted (source e) && (confidence e !=? C_UNAVAILABLE)))
    "untrusted evidence cannot be verified".

Record ClearanceConditionSet := { cc_schema : string; conditions : list string }.

#[export] Instance ClearanceConditionSet_eq_dec : EqDecision ClearanceConditionSet.
Proof. solve_decision. Defined.

Definition CLEARANCE_CONDITIONS : list string :=
  ["dedicated-denial-authority"; "exact-denial-target"; "current-candidate-seal"; "verified-host-result";
   "single-use-command"].

(** [ClearanceConditionSet()], the only one that passes its constructor. *)
Definition clearance_condition_set : ClearanceConditionSet :=
  {| cc_schema := "roundwright-denial-clearance-conditions/v1"; conditions := CLEARANCE_CONDITIONS |}.

Definition check_ClearanceConditionSet (c : ClearanceConditionSet) : py unit :=
  recovery_ensure ((cc_schema c ==? "roundwright-denial-clearance-conditions/v1") &&
    (conditions c ==? CLEARANCE_CONDITIONS)) "clearance conditions are invalid".

Record FailureCompatibility := {
  evidence_sources : list EvidenceSource;
  fc_action : RecoveryAction;
  fc_retryable : bool;
  fc_clearance_required : bool;
}.

Definition compatible (sources : list EvidenceSource) (a : RecoveryAction) (retry clear : bool) : FailureCompatibility :=
  {| evidence_sources := sources; fc_action := a; fc_retryable := retry; fc_clearance_required := clear |}.

Definition FAILURE_COMPATIBILITY_MATRIX (f : FailureClass) : FailureCompatibility :=
  match f with
  | PARTIAL_INCREMENT => compatible [VERIFIED_OUTPUT] CONTINUE_SAME_SESSION false false
  | ORDINARY_REVIEW_HANDOFF => compatible [VERIFIED_OUTPUT] CONTINUE_SAME_SESSION false false
  | VALIDATION_RUNNING => compatible [VERIFIED_LIFECYCLE] CONTINUE_SAME_SESSION false false
  | NO_PROGRESS => compatible [VERIFIED_OUTPUT] CONTINUE_SAME_SESSION false false
  | SESSION_TERMINATED => compatible [VERIFIED_LIFECYCLE] PREBOUND_FALLBACK true false
  | FORMAT_INVALID => compatible [VERIFIED_OUTPUT] PREBOUND_FALLBACK true false
  | MISSING_OUTPUT => compatible [VERIFIED_OUTPUT] RECONCILE false false
  | TOPOLOGY_VIOLATION => compatible [VERIFIED_TOPOLOGY] RECONCILE false false
  | HOST_SECURITY_DENIAL => compatible [VERIFIED_HOST] STOP_SCOPE false true
  | TRANSIENT_SERVICE => compatible [VERIFIED_SERVICE] PREBOUND_FALLBACK true false
  | CREDENTIAL_FAILURE => compatible [VERIFIED_HOST] RECONCILE false true
  | MISSING_OWNER_SCOPE => compatible [VERIFIED_LIFECYCLE] STOP_SCOPE false true
  | BUDGET_EXHAUSTED => compatible [VERIFIED_SERVICE] RECONCILE false true
  | AMBIGUOUS_EFFECT => compatible [VERIFIED_OUTPUT] RECONCILE false false
  | UNKNOWN => compatible EVIDENCE_SOURCES RECONCILE false false
  end.

(** ** Bindings and records *)

Record FailureBinding := {
  candidate_sha : string;
  policy_digest : string;
  configuration_digest : string;
  authority_scope : string;
  role : FailureRole;
  profile_identity : string;
  session_identity : string;
  attempt_identity : string;
}.

#[export] Instance FailureBinding_eq_dec : EqDecision FailureBinding.
Proof. solve_decision. Defined.

Definition check_FailureBinding (b : FailureBinding) : py unit :=
  recovery_ensure (all_true
    [match_commit (candidate_sha b); match_digest (policy_digest b); match_digest (configuration_digest b);
     match_token (authority_scope b); match_digest (profile_identity b); match_token (session_identity b);
     match_token (attempt_identity b)]) "failure binding is invalid".

Record FailureRecord := {
  binding : FailureBinding;
  failure : FailureClass;
  evidence : EvidenceSource;
  retryable : bool;
  action : RecoveryAction;
  clearance_required : bool;
  evidence_confidence : EvidenceConfidence;
  record_schema : string;
  clearance_conditions : option ClearanceConditionSet;
  clearance_provenance : option FailureBinding;
}.

#[export] Instance FailureRecord_eq_dec : EqDecision FailureRecord.
Proof. solve_decision. Defined.

Definition V1 : string := "roundwright-failure-recovery/v1".
Definition V2 : string := "roundwright-failure-recovery/v2".
Definition V3 : string := "roundwright-failure-recovery/v3".

(** The recovery part of a record is the one of the matrix. *)
Definition recovers_as (r : FailureRecord) (e : FailureCompatibility) : bool :=
  all_true [action r ==? fc_action e; retryable r ==? fc_retryable e;
            clearance_required r ==? fc_clearance_required e].

Definition require_failure_compatibility (r : FailureRecord) : py unit :=
  let expected := FAILURE_COMPATIBILITY_MATRIX (failure r) in
  if record_schema r ==? V1 then
    recovery_ensure (recovers_as r expected) "legacy failure recovery category is incompatible"
  else
    _ ← recovery_ensure (evidence r in? evidence_sources expected) "failure evidence taxonomy is incompatible";
    _ ← recovery_ensure (negb ((failure r !=? UNKNOWN) && (evidence_confidence r !=? C_VERIFIED)))
          "authenticated failure evidence is unavailable";
    recovery_ensure (recovers_as r expected) "failure recovery category is incompatible".

Definition check_FailureRecord (r : FailureRecord) : py unit :=
  _ ← recovery_ensure (record_schema r in? [V1; V2; V3]) "failure record is invalid";
  _ ← recovery_ensure (negb ((record_schema r ==? V1) && (evidence_confidence r !=? C_UNAVAILABLE)))
        "legacy failure evidence confidence is unavailable";
  _ ← recovery_ensure (negb (untrusted (evidence r) && (evidence_confidence r !=? C_UNAVAILABLE)))
        "untrusted failure evidence cannot be verified";
  _ ← recovery_ensure (negb ((failure r ==? HOST_SECURITY_DENIAL) &&
          (retryable r || (action r !=? STOP_SCOPE) || negb (clearance_required r))))
        "security denial must stop its scope";
  _ ← (if record_schema r ==? V3 then
         recovery_ensure (clearance_required r ==?
             match clearance_conditions r with
             | Some _ => clearance_provenance r ==? Some (binding r)
             | None => false
             end) "security denial clearance provenance is invalid"
       else recovery_ensure ((clearance_conditions r ==? None) && (clearance_provenance r ==? None))
              "legacy failure clearance provenance is invalid");
  _ ← recovery_ensure (negb ((failure r in? [UNKNOWN; MISSING_OUTPUT; AMBIGUOUS_EFFECT]) &&
          (retryable r || (action r !=? RECONCILE))))
        "unverified outcome must reconcile";
  require_failure_compatibility r.

(** A constructor: the value, if its checks pass. *)
Definition checked_by {A} (check : A → py unit) (a : A) : py A := _ ← check a; Ok a.

(** ** Canonical text *)

Definition binding_payload (b : FailureBinding) : json :=
  JObj [("candidate_sha", JStr (candidate_sha b)); ("policy_digest", JStr (policy_digest b));
        ("configuration_digest", JStr (configuration_digest b)); ("authority_scope", JStr (authority_scope b));
        ("role", JStr (FailureRole_value (role b))); ("profile_identity", JStr (profile_identity b));
        ("session_identity", JStr (session_identity b)); ("attempt_identity", JStr (attempt_identity b))].

Definition conditions_payload (c : ClearanceConditionSet) : json :=
  JObj [("schema", JStr (cc_schema c)); ("conditions", jstrs (conditions c))].

Definition jmaybe {A} (f : A → json) (o : option A) : json := match o with Some a => f a | None => JNull end.

(** The assertion in [_payload]; every record that passed its constructor
    satisfies it ([constructed_payload]). *)
Definition payload_assertion (r : FailureRecord) : bool :=
  negb (record_schema r ==? V3) || negb (clearance_conditions r ==? None) || negb (clearance_required r).

Definition payload (r : FailureRecord) : json :=
  JObj ([("schema", JStr (record_schema r)); ("binding", binding_payload (binding r));
         ("failure", JStr (FailureClass_value (failure r))); ("evidence", JStr (EvidenceSource_value (evidence r)));
         ("retryable", JBool (retryable r)); ("action", JStr (RecoveryAction_value (action r)));
         ("clearance_required", JBool (clearance_required r))] ++
        (if record_schema r in? [V2; V3]
         then [("evidence_confidence", JStr (EvidenceConfidence_value (evidence_confidence r)))] else []) ++
        (if record_schema r ==? V3
         then [("clearance_conditions", jmaybe conditions_payload (clearance_conditions r));
               ("clearance_provenance", jmaybe binding_payload (clearance_provenance r))] else [])).

Definition record_digest (r : FailureRecord) : string := digest_json (payload r).

(** The text of the [record_json] column. *)
Definition record_text (r : FailureRecord) : string := dumps (payload r).

(** ** Reading a stored record *)

Definition malformed {A} : py A := recovery_error "durable failure record is malformed".

Definition bool_item (key : string) (d : dict) : py bool :=
  v ← item key d;
  match v with DBool b => Ok b | _ => recovery_error "failure record is invalid" end.

Definition BINDING_KEYS : list string :=
  ["candidate_sha"; "policy_digest"; "configuration_digest"; "authority_scope"; "role"; "profile_identity";
   "session_identity"; "attempt_identity"].

Definition parse_binding (d : dict) : py FailureBinding :=
  sha ← str_item "candidate_sha" d;
  policy ← str_item "policy_digest" d;
  configuration ← str_item "configuration_digest" d;
  scope ← str_item "authority_scope" d;
  who ← enum_item FailureRole_value FAILURE_ROLES "role" d;
  profile ← str_item "profile_identity" d;
  session ← str_item "session_identity" d;
  attempt ← str_item "attempt_identity" d;
  checked_by check_FailureBinding
    {| candidate_sha := sha; policy_digest := policy; configuration_digest := configuration;
       authority_scope := scope; role := who; profile_identity := profile; session_identity := session;
       attempt_identity := attempt |}.

(** The conditions of a set are compared with a tuple of strings, which no other
    value equals. *)
Definition parse_conditions (v : doc) : py (option ClearanceConditionSet) :=
  match v with
  | DNull => Ok None
  | DObj d =>
      _ ← require (keys_are ["schema"; "conditions"] d) FailureRecoveryError "durable failure record is malformed";
      match get "conditions" d with
      | Some (DArr l) =>
          schema ← str_item "schema" d;
          cs ← mapM (λ v, match v with
                          | DStr p => match narrow p with Some s => Ok s | None => raise ValueError "conditions" end
                          | _ => recovery_error "clearance conditions are invalid"
                          end) l;
          c ← checked_by check_ClearanceConditionSet {| cc_schema := schema; conditions := cs |};
          Ok (Some c)
      | _ => malformed
      end
  | _ => malformed
  end.

Definition parse_provenance (v : doc) : py (option FailureBinding) :=
  match v with
  | DNull => Ok None
  | DObj d =>
      _ ← require (keys_are BINDING_KEYS d) FailureRecoveryError "durable failure record is malformed";
      b ← parse_binding d; Ok (Some b)
  | _ => malformed
  end.

Definition RECORD_KEYS : list string :=
  ["schema"; "binding"; "failure"; "evidence"; "retryable"; "action"; "clearance_required"].

(** [except (KeyError, TypeError, ValueError)] *)
Definition parse_guard {A} (m : py A) : py A :=
  match m with
  | Err (Raised (KeyError | TypeError | ValueError | FailureRecoveryError | JSONDecodeError) _) => malformed
  | _ => m
  end.

Definition parse_failure_record (value : doc) : py FailureRecord :=
  match value with
  | DObj d =>
      match get "binding" d with
      | Some (DObj bd) =>
          let schema := default DNull (get "schema" d) in
          _ ← hashable schema;
          match schema with
          | DStr s =>
              let at_least_v2 := s in? [points V2; points V3] in
              let v3 := s ==? points V3 in
              _ ← require ((s in? [points V1; points V2; points V3]) &&
                    keys_are (RECORD_KEYS ++ (if at_least_v2 then ["evidence_confidence"] else []) ++
                              (if v3 then ["clearance_conditions"; "clearance_provenance"] else [])) d &&
                    keys_are BINDING_KEYS bd)
                  FailureRecoveryError "durable failure record is malformed";
              record ← parse_guard
                (b ← parse_binding bd;
                 cs ← (if v3 then v ← item "clearance_conditions" d; parse_conditions v else Ok None);
                 provenance ← (if v3 then v ← item "clearance_provenance" d; parse_provenance v else Ok None);
                 f ← enum_item FailureClass_value FAILURE_CLASSES "failure" d;
                 e ← enum_item EvidenceSource_value EVIDENCE_SOURCES "evidence" d;
                 a ← enum_item RecoveryAction_value RECOVERY_ACTIONS "action" d;
                 c ← (if at_least_v2
                      then enum_item EvidenceConfidence_value EVIDENCE_CONFIDENCES "evidence_confidence" d
                      else Ok C_UNAVAILABLE);
                 retry ← bool_item "retryable" d;
                 clear ← bool_item "clearance_required" d;
                 schema ← str_item "schema" d;
                 checked_by check_FailureRecord
                   {| binding := b; failure := f; evidence := e; retryable := retry; action := a;
                      clearance_required := clear; evidence_confidence := c; record_schema := schema;
                      clearance_conditions := cs; clearance_provenance := provenance |});
              _ ← recovery_ensure (doc_eqb (embed (payload record)) value) "durable failure record is non-canonical";
              Ok record
          | _ => malformed
          end
      | _ => malformed
      end
  | _ => malformed
  end.

(** ** Classification *)

(** The errors of the native SDK (provider_health.py). *)
Inductive CodexFailure :=
  | AUTH_MISSING | AUTH_EXPIRED | AUTH_REJECTED | RATE_LIMITED | QUOTA_LIMITED | QUOTA_OR_RATE_LIMIT
  | MODEL_UNAVAILABLE | UNSUPPORTED_CAPABILITY | SDK_INCOMPATIBLE | SANDBOX_OR_APPROVAL_DENIED
  | PROVIDER_OUTAGE | TRANSPORT_OR_PROVIDER_OUTAGE | MALFORMED_RESPONSE | N_UNKNOWN.

Definition CodexFailure_value (n : CodexFailure) : string :=
  match n with
  | AUTH_MISSING => "auth-missing" | AUTH_EXPIRED => "auth-expired" | AUTH_REJECTED => "auth-rejected"
  | RATE_LIMITED => "rate-limited" | QUOTA_LIMITED => "quota-limited" | QUOTA_OR_RATE_LIMIT => "quota-or-rate-limit"
  | MODEL_UNAVAILABLE => "model-unavailable" | UNSUPPORTED_CAPABILITY => "unsupported-capability"
  | SDK_INCOMPATIBLE => "sdk-incompatible" | SANDBOX_OR_APPROVAL_DENIED => "sandbox-or-approval-denied"
  | PROVIDER_OUTAGE => "provider-outage" | TRANSPORT_OR_PROVIDER_OUTAGE => "transport-or-provider-outage"
  | MALFORMED_RESPONSE => "malformed-response" | N_UNKNOWN => "unknown"
  end.

Definition native_failure_class (value : dyn CodexFailure) : FailureClass * EvidenceSource :=
  match value with
  | Foreign => (UNKNOWN, UNAVAILABLE)
  | Typed n =>
      let native := CodexFailure_value n in
      if native ==? "sandbox-or-approval-denied" then (HOST_SECURITY_DENIAL, VERIFIED_HOST)
      else if native in? ["provider-outage"; "transport-or-provider-outage"] then (TRANSIENT_SERVICE, VERIFIED_SERVICE)
      else if native in? ["auth-missing"; "auth-expired"; "auth-rejected"] then (CREDENTIAL_FAILURE, VERIFIED_HOST)
      else if native ==? "missing-owner-scope" then (MISSING_OWNER_SCOPE, VERIFIED_LIFECYCLE)
      else if native in? ["rate-limited"; "quota-limited"; "quota-or-rate-limit"] then (BUDGET_EXHAUSTED, VERIFIED_SERVICE)
      else (UNKNOWN, UNAVAILABLE)
  end.

(** The evidence argument of [classify]: a bare source, or one with its
    confidence, which passed its constructor. *)
Inductive evidence_argument := Bare (e : EvidenceSource) | Closed (e : FailureEvidence).

Definition evidence_of (a : evidence_argument) : EvidenceSource * EvidenceConfidence :=
  match a with
  | Bare e => (e, if untrusted e then C_UNAVAILABLE else C_VERIFIED)
  | Closed e => (source e, confidence e)
  end.

Definition classify (b : dyn FailureBinding) (f : dyn FailureClass) (a : dyn evidence_argument) : py FailureRecord :=
  match b, f, a with
  | Typed b, Typed f, Typed a =>
      let (e, c) := evidence_of a in
      let f := if (c !=? C_VERIFIED) || untrusted e then UNKNOWN else f in
      let f := if e in? evidence_sources (FAILURE_COMPATIBILITY_MATRIX f) then f else UNKNOWN in
      let expected := FAILURE_COMPATIBILITY_MATRIX f in
      checked_by check_FailureRecord
        {| binding := b; failure := f; evidence := e; retryable := fc_retryable expected;
           action := fc_action expected; clearance_required := fc_clearance_required expected;
           evidence_confidence := c; record_schema := V3;
           clearance_conditions := if fc_clearance_required expected then Some clearance_condition_set else None;
           clearance_provenance := if fc_clearance_required expected then Some b else None |}
  | _, _, _ => recovery_error "failure classification inputs are invalid"
  end.

Definition classify_for_role (r : dyn FailureRole) (b : dyn FailureBinding) (f : dyn FailureClass)
    (e : dyn evidence_argument) : py FailureRecord :=
  match r, b with
  | Typed r, Typed b' =>
      if role b' ==? r then classify b f e else recovery_error "failure role binding is invalid"
  | _, _ => recovery_error "failure role binding is invalid"
  end.

Definition classify_native_failure (r : dyn FailureRole) (b : dyn FailureBinding) (n : dyn CodexFailure) :
    py FailureRecord :=
  let (f, e) := native_failure_class n in classify_for_role r b (Typed f) (Typed (Bare e)).

(** The identity that stands for a session that was never opened. *)
Definition nul : string := String.String "000"%char "".

Definition pre_dispatch_failure_identity (r : dyn FailureRole) (attempt : dyn string) : py string :=
  match r, attempt with
  | Typed r, Typed attempt =>
      _ ← recovery_ensure (match_token attempt) "pre-dispatch failure identity is invalid";
      let material := String.concat nul ["roundwright-pre-dispatch-failure/v1"; FailureRole_value r; attempt] in
      Ok (String.concat "" ["pre-dispatch-"; FailureRole_value r; "-"; String.substring 0 32 (sha256_hex material)])
  | _, _ => recovery_error "pre-dispatch failure identity is invalid"
  end.

(** ** Theorems *)

Lemma checked_by_ok {A} (check : A → py unit) a a' :
  checked_by check a = Ok a' ↔ a' = a ∧ check a = Ok ().
Proof.
  unfold checked_by. rewrite bind_ok. split.
  - intros ([] & H & [= ->]). done.
  - intros [-> H]. by exists ().
Qed.

Lemma constructed_payload r : check_FailureRecord r = Ok () → payload_assertion r = true.
Proof.
  unfold check_FailureRecord, payload_assertion, recovery_ensure. rewrite <- is_ok_unit. autorewrite with is_ok.
  rewrite !andb_true_iff. intros (_ & _ & _ & _ & H & _).
  case_bool_decide as E; [|done]. autorewrite with is_ok in H. cbn [negb orb].
  destruct (clearance_conditions r); [done|]. apply bool_decide_eq_true in H. by rewrite H.
Qed.

(** Two records that decide the same, whatever clearance they carry. *)
Definition same_decision (r r' : FailureRecord) : Prop :=
  binding r = binding r' ∧ failure r = failure r' ∧ evidence r = evidence r' ∧
  evidence_confidence r = evidence_confidence r' ∧ retryable r = retryable r' ∧ action r = action r' ∧
  clearance_required r = clearance_required r' ∧ record_schema r = record_schema r'.

(** An evidence argument that passed its constructor. *)
Definition evidence_constructed (a : evidence_argument) : Prop :=
  match a with Bare _ => True | Closed e => check_FailureEvidence e = Ok () end.

Lemma evidence_constructed_untrusted a :
  evidence_constructed a → untrusted (evidence_of a).1 = true → (evidence_of a).2 = C_UNAVAILABLE.
Proof.
  destruct a as [e|[e c]]; cbn; [by intros _ ->|].
  unfold check_FailureEvidence, recovery_ensure. cbn. rewrite <- is_ok_unit, is_ok_require.
  destruct (untrusted e); [|done]. by destruct c.
Qed.

(** The record the matrix gives a class of failure. *)
Definition matrix_record (b : FailureBinding) (f : FailureClass) (e : EvidenceSource) (c : EvidenceConfidence) :
    FailureRecord :=
  let expected := FAILURE_COMPATIBILITY_MATRIX f in
  {| binding := b; failure := f; evidence := e; retryable := fc_retryable expected;
     action := fc_action expected; clearance_required := fc_clearance_required expected;
     evidence_confidence := c; record_schema := V3;
     clearance_conditions := if fc_clearance_required expected then Some clearance_condition_set else None;
     clearance_provenance := if fc_clearance_required expected then Some b else None |}.

(** The class that evidence supports. *)
Definition supported (f : FailureClass) (e : EvidenceSource) (c : EvidenceConfidence) : bool :=
  (c ==? C_VERIFIED) && (e in? evidence_sources (FAILURE_COMPATIBILITY_MATRIX f)).

Lemma matrix_record_constructed b f e c :
  (untrusted e = true → c = C_UNAVAILABLE) → f = UNKNOWN ∨ supported f e c = true →
  check_FailureRecord (matrix_record b f e c) = Ok ().
Proof.
  intros Hu Hf. apply is_ok_unit. unfold check_FailureRecord, require_failure_compatibility, recovery_ensure, matrix_record.
  assert ((e, c) ∈ match f with
    | UNKNOWN => [(VERIFIED_OUTPUT, c); (VERIFIED_HOST, c); (VERIFIED_LIFECYCLE, c); (VERIFIED_TOPOLOGY, c);
                  (VERIFIED_SERVICE, c); (MODEL_SELF_REPORT, C_UNAVAILABLE); (UNAVAILABLE, C_UNAVAILABLE)]
    | _ => (λ e, (e, C_VERIFIED)) <$> evidence_sources (FAILURE_COMPATIBILITY_MATRIX f)
    end) as H.
  { unfold supported in Hf. rewrite andb_true_iff, !bool_decide_eq_true in Hf.
    assert (f = UNKNOWN → (e, c) ∈ [(VERIFIED_OUTPUT, c); (VERIFIED_HOST, c); (VERIFIED_LIFECYCLE, c);
      (VERIFIED_TOPOLOGY, c); (VERIFIED_SERVICE, c); (MODEL_SELF_REPORT, C_UNAVAILABLE); (UNAVAILABLE, C_UNAVAILABLE)])
      as Hunk by (intros _; destruct e; try rewrite (Hu eq_refl); set_solver).
    destruct f; try (destruct Hf as [?|[-> ?]]; [done|]; by apply list_elem_of_fmap; eexists); auto. }
  clear Hu Hf. destruct f, c; cbn -[bool_decide] in H |- *; rewrite ?elem_of_cons, elem_of_nil in H;
    repeat (destruct H as [H|H]; [try discriminate H; injection H as ->|]); try done;
    autorewrite with is_ok; by rewrite (bool_decide_true (Some b = Some b)).
Qed.

Lemma classify_matrix b f a : evidence_constructed a →
  let (e, c) := evidence_of a in
  classify (Typed b) (Typed f) (Typed a) = Ok (matrix_record b (if supported f e c then f else UNKNOWN) e c).
Proof.
  intros Ha. pose proof (evidence_constructed_untrusted a Ha) as Hu. clear Ha. unfold classify. destruct (evidence_of a) as [e c]. cbn [fst snd] in *.
  assert ((let f := if (c !=? C_VERIFIED) || untrusted e then UNKNOWN else f in
    if e in? evidence_sources (FAILURE_COMPATIBILITY_MATRIX f) then f else UNKNOWN) =
    if supported f e c then f else UNKNOWN) as Hf.
  { destruct f, e, c; try done; specialize (Hu eq_refl); discriminate. }
  cbn zeta in *. rewrite Hf. apply checked_by_ok. split; [done|].
  apply (matrix_record_constructed b); [done|]. destruct (supported f e c) eqn:E; [by right|by left].
Qed.

Lemma in_sources_supported r : check_FailureRecord r = Ok () → record_schema r = V3 →
  (untrusted (evidence r) = true → evidence_confidence r = C_UNAVAILABLE) ∧
  (failure r = UNKNOWN ∨ supported (failure r) (evidence r) (evidence_confidence r) = true) ∧
  same_decision r (matrix_record (binding r) (failure r) (evidence r) (evidence_confidence r)) ∧
  (clearance_required r = true → ∃ c, clearance_conditions r = Some c ∧ clearance_provenance r = Some (binding r)).
Proof.
  unfold check_FailureRecord, require_failure_compatibility, recovery_ensure, recovers_as, supported, same_decision.
  intros H Hs. rewrite Hs in H |- *. revert H. rewrite <- is_ok_unit. autorewrite with is_ok.
  rewrite (bool_decide_true (V3 = V3)) by done. rewrite (bool_decide_false (V3 = V1)) by done.
  autorewrite with is_ok. rewrite !andb_true_iff, !negb_true_iff, !andb_false_iff, !all_true_cons, !bool_decide_eq_true.
  intros (_ & _ & Hu & _ & Hc & _ & He & Hv & Ha & Hr & Hq & _).
  rewrite !negb_false_iff, !bool_decide_eq_true in *. split; [|split; [|split]].
  - intros E. destruct Hu as [Hu|Hu]; congruence.
  - destruct Hv as [Hv|Hv]; [left; by destruct (failure r)|right]. done.
  - cbn. repeat split; done.
  - intros Hreq. rewrite Hreq in Hc. destruct (clearance_conditions r) as [c|]; [|done].
    exists c. split; [done|]. symmetry in Hc. by apply bool_decide_eq_true in Hc.
Qed.

(** C36 : The records of the current schema are the classifications: classifying
    any typed observation succeeds with a record that passes its constructor, and
    every such record is, up to clearance fields that it does not require, the
    classification of its own class, source and confidence.  So no record holds
    a recovery that the matrix does not give its class. *)
Theorem records_are_classifications :
  (∀ b f a, evidence_constructed a →
     ∃ r, classify (Typed b) (Typed f) (Typed a) = Ok r ∧ check_FailureRecord r = Ok () ∧ record_schema r = V3 ∧
       binding r = b) ∧
  (∀ r, check_FailureRecord r = Ok () → record_schema r = V3 →
     let a := Closed {| source := evidence r; confidence := evidence_confidence r |} in
     evidence_constructed a ∧
     ∃ r', classify (Typed (binding r)) (Typed (failure r)) (Typed a) = Ok r' ∧ same_decision r r' ∧
       (clearance_required r = true → ∃ c, clearance_conditions r = Some c ∧
          clearance_provenance r = clearance_provenance r')).
Proof.
  split.
  - intros b f a Ha. pose proof (classify_matrix b f a Ha) as Hc.
    pose proof (evidence_constructed_untrusted a Ha) as Hu. destruct (evidence_of a) as [e c].
    eexists. split; [done|]. split; [|done]. apply matrix_record_constructed; [done|].
    destruct (supported f e c) eqn:E; [by right|by left].
  - intros r Hr Hs. destruct (in_sources_supported r Hr Hs) as (Hu & Hf & Hd & Hq). cbn zeta.
    set (a := Closed {| source := evidence r; confidence := evidence_confidence r |}).
    assert (evidence_constructed a) as Ha.
    { unfold a. cbn. unfold check_FailureEvidence, recovery_ensure. cbn. apply is_ok_unit.
      rewrite is_ok_require. destruct (untrusted (evidence r)); [|done]. by rewrite Hu. }
    split; [done|]. pose proof (classify_matrix (binding r) (failure r) a Ha) as Hc.
    change (evidence_of a) with (evidence r, evidence_confidence r) in Hc. cbn iota beta in Hc.
    assert ((if supported (failure r) (evidence r) (evidence_confidence r) then failure r else UNKNOWN) = failure r) as Hf'.
    { destruct Hf as [E|E]; rewrite E; [|done].
      by destruct (supported UNKNOWN (evidence r) (evidence_confidence r)). }
    rewrite Hf' in Hc. eexists. split; [exact Hc|]. split; [done|].
    intros Hreq. destruct (Hq Hreq) as (c & Hc1 & Hc2). exists c. split; [done|].
    destruct Hd as (_ & _ & _ & _ & _ & _ & Hcl & _). cbn in Hcl |- *. by rewrite <- Hcl, Hreq, Hc2.
Qed.

(** Only evidence that a host, output, lifecycle, topology or service
    verified can move a failure out of reconciliation: a record of the current
    schema that retries, stops its scope, continues a session or demands a
    clearance has verified evidence of a source that the matrix names for its
    class; what a model reports about itself always gives [UNKNOWN], a
    reconciliation without retry. *)
Theorem recovery_needs_verified_evidence r :
  check_FailureRecord r = Ok () → record_schema r = V3 →
  (failure r ≠ UNKNOWN → evidence_confidence r = C_VERIFIED ∧ untrusted (evidence r) = false ∧
     evidence r ∈ evidence_sources (FAILURE_COMPATIBILITY_MATRIX (failure r))) ∧
  (evidence_confidence r = C_UNAVAILABLE → failure r = UNKNOWN) ∧
  (failure r = UNKNOWN → action r = RECONCILE ∧ retryable r = false ∧ clearance_required r = false) ∧
  (retryable r = true → action r = PREBOUND_FALLBACK ∧ clearance_required r = false).
Proof.
  intros Hr Hs. destruct (in_sources_supported r Hr Hs) as (Hu & Hf & Hd & _).
  destruct Hd as (_ & _ & _ & _ & Hretry & Haction & Hclear & _). cbn in Hretry, Haction, Hclear.
  unfold supported in Hf. rewrite andb_true_iff, !bool_decide_eq_true in Hf.
  split; [|split; [|split]].
  - intros Hn. destruct Hf as [?|[Hv Hi]]; [done|]. split; [done|]. split; [|done].
    destruct (untrusted (evidence r)); [|done]. by rewrite Hu in Hv.
  - intros Hv. destruct Hf as [?|[Hv' ?]]; [done|]. by rewrite Hv in Hv'.
  - intros H. by rewrite H in Hretry, Haction, Hclear.
  - intros H. rewrite H in Hretry. rewrite Haction, Hclear. by destruct (failure r).
Qed.

(** ** The stored text of a record *)

Lemma enum_of_value_role r : of_value FailureRole_value FAILURE_ROLES (FailureRole_value r) = Some r.
Proof. by destruct r. Qed.
Lemma enum_of_value_failure f : of_value FailureClass_value FAILURE_CLASSES (FailureClass_value f) = Some f.
Proof. by destruct f. Qed.
Lemma enum_of_value_evidence e : of_value EvidenceSource_value EVIDENCE_SOURCES (EvidenceSource_value e) = Some e.
Proof. by destruct e. Qed.
Lemma enum_of_value_action a : of_value RecoveryAction_value RECOVERY_ACTIONS (RecoveryAction_value a) = Some a.
Proof. by destruct a. Qed.
Lemma enum_of_value_confidence c :
  of_value EvidenceConfidence_value EVIDENCE_CONFIDENCES (EvidenceConfidence_value c) = Some c.
Proof. by destruct c. Qed.

Definition binding_fields (b : FailureBinding) : list (string * json) :=
  match binding_payload b with JObj l => l | _ => [] end.

Lemma parse_binding_stored b : check_FailureBinding b = Ok () → parse_binding (stored (binding_fields b)) = Ok b.
Proof.
  intros Hb. unfold parse_binding.
  repeat (erewrite str_item_stored; [|reflexivity|reflexivity]; cbn [mbind result_bind]).
  erewrite enum_item_stored; [|reflexivity|reflexivity|apply enum_of_value_role]. cbn [mbind result_bind].
  repeat (erewrite str_item_stored; [|reflexivity|reflexivity]; cbn [mbind result_bind]).
  unfold checked_by. replace (Build_FailureBinding _ _ _ _ _ _ _ _) with b by (by destruct b).
  by rewrite Hb.
Qed.

Lemma storable_strs l : forallb storable (map JStr l) = true.
Proof. by induction l. Qed.

Lemma storable_payload r : storable (payload r) = true.
Proof.
  assert (∀ o, storable (jmaybe conditions_payload o) = true) as Hc
    by (intros [[cs l]|]; [cbn; by rewrite storable_strs|done]).
  assert (∀ o, storable (jmaybe binding_payload o) = true) as Hp by (by intros []).
  unfold payload. generalize (clearance_conditions r), (clearance_provenance r). intros o p.
  specialize (Hc o). specialize (Hp p). revert Hc Hp.
  generalize (jmaybe conditions_payload o), (jmaybe binding_payload p). intros x y Hx Hy.
  case_bool_decide; case_bool_decide; cbn; by rewrite ?Hx, ?Hy.
Qed.

Definition constructed_parts (r : FailureRecord) : Prop :=
  check_FailureBinding (binding r) = Ok () ∧
  (∀ p, clearance_provenance r = Some p → check_FailureBinding p = Ok ()) ∧
  (∀ c, clearance_conditions r = Some c → check_ClearanceConditionSet c = Ok ()).

Lemma condition_set_unique c : check_ClearanceConditionSet c = Ok () → c = clearance_condition_set.
Proof.
  unfold check_ClearanceConditionSet, recovery_ensure. rewrite require_ok, andb_true_iff, !bool_decide_eq_true.
  destruct c; cbn. by intros [-> ->].
Qed.

Lemma parse_conditions_stored o : (∀ c, o = Some c → check_ClearanceConditionSet c = Ok ()) →
  parse_conditions (embed (canon (jmaybe conditions_payload o))) = Ok o.
Proof.
  intros H. destruct o as [c|]; [|done]. rewrite (condition_set_unique c) by auto. vm_compute. reflexivity.
Qed.

Lemma parse_provenance_stored o : (∀ p, o = Some p → check_FailureBinding p = Ok ()) →
  parse_provenance (embed (canon (jmaybe binding_payload o))) = Ok o.
Proof.
  intros H. destruct o as [p|]; [|done]. cbn [jmaybe].
  change (embed (canon (binding_payload p))) with (DObj (stored (binding_fields p))). unfold parse_provenance.
  rewrite (keys_stored (binding_fields p)) by reflexivity. cbn [require mbind result_bind].
  by rewrite parse_binding_stored by auto.
Qed.

(** The fields of a record of each schema. *)
Definition record_fields (r : FailureRecord) : list (string * json) :=
  match payload r with JObj l => l | _ => [] end.

Lemma bool_item_stored l key b :
  no_dup l.*1 = true → assoc key l = Some (JBool b) → bool_item key (stored l) = Ok b.
Proof. intros Hn Hv. unfold bool_item. by rewrite (item_stored _ _ _ Hn Hv). Qed.

(** Evaluate a test on the schema; read one field. *)
Ltac schema_tests :=
  repeat match goal with
  | |- context [bool_decide (points ?x ∈ ?l)] =>
      let v := eval vm_compute in (bool_decide (points x ∈ l)) in change (bool_decide (points x ∈ l)) with v
  | |- context [bool_decide (points ?x = points ?y)] =>
      let v := eval vm_compute in (bool_decide (points x = points y)) in
      change (bool_decide (points x = points y)) with v
  end; cbn [app].

Ltac read_field :=
  match goal with
  | |- context [str_item ?k (stored ?l)] => erewrite (str_item_stored l k) by reflexivity
  | |- context [enum_item FailureClass_value ?all ?k (stored ?l)] =>
      erewrite (enum_item_stored FailureClass_value all l k) by first [reflexivity|apply enum_of_value_failure]
  | |- context [enum_item EvidenceSource_value ?all ?k (stored ?l)] =>
      erewrite (enum_item_stored EvidenceSource_value all l k) by first [reflexivity|apply enum_of_value_evidence]
  | |- context [enum_item RecoveryAction_value ?all ?k (stored ?l)] =>
      erewrite (enum_item_stored RecoveryAction_value all l k) by first [reflexivity|apply enum_of_value_action]
  | |- context [enum_item EvidenceConfidence_value ?all ?k (stored ?l)] =>
      erewrite (enum_item_stored EvidenceConfidence_value all l k) by first [reflexivity|apply enum_of_value_confidence]
  | |- context [bool_item ?k (stored ?l)] => erewrite (bool_item_stored l k) by reflexivity
  | |- context [item ?k (stored ?l)] => erewrite (item_stored l k) by reflexivity
  | |- context [parse_conditions (embed _)] => rewrite parse_conditions_stored by done
  | |- context [parse_provenance (embed _)] => rewrite parse_provenance_stored by done
  end; cbn [mbind result_bind].

Lemma parse_record_stored r : check_FailureRecord r = Ok () → constructed_parts r →
  parse_failure_record (embed (canon (payload r))) = Ok r.
Proof.
  intros Hr (Hb & Hp & Hc). pose proof (doc_eqb_canon _ (storable_payload r)) as Heq.
  assert (record_schema r ∈ [V1; V2; V3]) as Hs.
  { unfold check_FailureRecord, recovery_ensure in Hr. apply bind_ok in Hr as (u & Hr & _).
    by rewrite require_ok, bool_decide_eq_true in Hr. }
  change (embed (canon (payload r))) with (DObj (stored (record_fields r))) in *.
  destruct r as [b f e rt a cr c s cs cp]. cbn [binding failure evidence retryable action clearance_required
    evidence_confidence record_schema clearance_conditions clearance_provenance] in *.
  set (r := Build_FailureRecord _ _ _ _ _ _ _ _ _ _) in *.
  assert (s = V3 ∨ (cs = None ∧ cp = None)) as Hv.
  { unfold check_FailureRecord, recovery_ensure in Hr. rewrite <- is_ok_unit in Hr. autorewrite with is_ok in Hr.
    rewrite !andb_true_iff in Hr. destruct Hr as (_ & _ & _ & _ & Hr & _). cbn in Hr.
    case_bool_decide; [by left|right]. by rewrite is_ok_require, andb_true_iff, !bool_decide_eq_true in Hr. }
  assert (s = V1 → c = C_UNAVAILABLE) as Hv1.
  { intros Hs1. unfold check_FailureRecord, recovery_ensure in Hr. rewrite <- is_ok_unit in Hr. autorewrite with is_ok in Hr.
    rewrite !andb_true_iff in Hr. destruct Hr as (_ & Hr & _). cbn in Hr. subst s. by destruct c. }
  assert (checked_by check_FailureRecord r = Ok r) as Hck by (unfold checked_by; by rewrite Hr).
  rewrite !elem_of_cons in Hs. destruct Hs as [-> |[-> |[-> |[]%elem_of_nil]]];
    [destruct Hv as [?|[-> ->]]; [done|]; specialize (Hv1 eq_refl); subst c | destruct Hv as [?|[-> ->]]; [done|] | clear Hv];
    unfold parse_failure_record; rewrite get_stored by reflexivity;
    replace (assoc "binding" (record_fields r)) with (Some (binding_payload b)) by reflexivity;
    cbn [fmap option_fmap option_map]; change (embed (canon (binding_payload b))) with (DObj (stored (binding_fields b)));
    rewrite get_stored by reflexivity;
    match goal with r := Build_FailureRecord _ _ _ _ _ _ _ ?s _ _ |- _ =>
      replace (assoc "schema" (record_fields r)) with (Some (JStr s)) by reflexivity end;
    cbn [fmap option_fmap option_map default canon embed hashable mbind result_bind id]; schema_tests;
    rewrite !keys_stored by reflexivity; cbn [andb require mbind result_bind]; rewrite parse_binding_stored by done;
    cbn [mbind result_bind]; repeat read_field;
    change (checked_by check_FailureRecord _) with (checked_by check_FailureRecord r); rewrite Hck;
    cbn [parse_guard mbind result_bind]; rewrite Heq; done.
Qed.

Lemma record_text_parses r : check_FailureRecord r = Ok () → constructed_parts r →
  loads (record_text r) ≫= parse_failure_record = Ok r.
Proof.
  intros Hr Hp. unfold record_text. rewrite loads_dumps by apply storable_payload. cbn [mbind result_bind].
  by apply parse_record_stored.
Qed.

(** A record survives storage: decoding and parsing the text that a
    constructed record is stored as gives that record, for every schema. *)
Theorem record_text_roundtrip r : check_FailureRecord r = Ok () → constructed_parts r →
  loads (record_text r) ≫= parse_failure_record = Ok r.
Proof. apply record_text_parses. Qed.

(** What the parser accepts passed every constructor and is canonical. *)
Lemma parse_guard_ok {A} (m : py A) a : parse_guard m = Ok a → m = Ok a.
Proof. by destruct m as [|[[] ?]]. Qed.

Lemma parse_binding_ok d b : parse_binding d = Ok b → check_FailureBinding b = Ok ().
Proof.
  unfold parse_binding. do 8 (intros (? & _ & H)%bind_ok; revert H). by intros [-> ?]%checked_by_ok.
Qed.

Lemma parse_record_ok v r : parse_failure_record v = Ok r →
  check_FailureRecord r = Ok () ∧ check_FailureBinding (binding r) = Ok () ∧ doc_eqb (embed (payload r)) v = true.
Proof.
  unfold parse_failure_record. destruct v as [| | | | | |d]; try done.
  destruct (get "binding" d) as [[| | | | | |bd]|]; try done. cbn zeta.
  intros (? & _ & H)%bind_ok. destruct (default DNull (get "schema" d)) as [| | | |s| |]; try done.
  apply bind_ok in H as (? & _ & H). apply bind_ok in H as (r' & H & H').
  apply bind_ok in H' as ([] & Hc & [= <-]). apply require_ok in Hc.
  apply parse_guard_ok, bind_ok in H as (b & Hb & H). apply parse_binding_ok in Hb. revert H.
  do 9 (intros (? & _ & H)%bind_ok; revert H). by intros [-> ?]%checked_by_ok.
Qed.

(** A digest names one record: two constructed records with the same
    digest are equal, unless SHA-256 collides on their two texts. *)
Theorem record_digest_identifies r r' :
  check_FailureRecord r = Ok () → check_FailureRecord r' = Ok () → constructed_parts r → constructed_parts r' →
  (sha256_hex (record_text r) = sha256_hex (record_text r') → record_text r = record_text r') →
  record_digest r = record_digest r' → r = r'.
Proof.
  intros Hr Hr' Hp Hp' Hsha Hd. unfold record_digest, digest_json, sha256_json in Hd.
  assert (record_text r = record_text r') as Ht by (apply Hsha; by injection Hd).
  pose proof (record_text_parses r Hr Hp) as H. rewrite Ht, (record_text_parses r') in H by done. congruence.
Qed.

Module Sample.

Definition denied : FailureBinding :=
  {| candidate_sha := str_repeat "c" 40; policy_digest := String.append "sha256:" (str_repeat "1" 64);
     configuration_digest := String.append "sha256:" (str_repeat "2" 64);
     authority_scope := "dependency-review:task-1"; role := DEPENDENCY_REVIEW;
     profile_identity := String.append "sha256:" (str_repeat "3" 64);
     session_identity := "session-1"; attempt_identity := "attempt-1" |}.

Definition denial : FailureRecord := matrix_record denied HOST_SECURITY_DENIAL VERIFIED_HOST C_VERIFIED.

Lemma denial_parts : constructed_parts denial.
Proof. split; [reflexivity|]. split; by intros ? [= <-]. Qed.

Lemma recovery_needs_verified_evidence_witness : evidence_confidence denial = C_VERIFIED ∧ untrusted (evidence denial) = false.
Proof.
  destruct (recovery_needs_verified_evidence denial eq_refl eq_refl) as [H _]. destruct H as (? & ? & _); [discriminate|].
  by split.
Defined.

Lemma record_text_roundtrip_witness : loads (record_text denial) ≫= parse_failure_record = Ok denial.
Proof. exact (record_text_roundtrip denial eq_refl denial_parts). Defined.

Lemma record_digest_identifies_witness : denial = denial.
Proof.
  apply (record_digest_identifies denial denial eq_refl eq_refl denial_parts denial_parts); [done|reflexivity].
Defined.

End Sample.
