(* ===== verification/PyTime.v ===== *)
(** * Timestamps

    [datetime.datetime] as the sources use it: the calendar fields, whether the
    value is in [timezone.utc], the order of UTC values and [isoformat]. *)

From S2P Require Import Prelude.
Open Scope Z_scope.

Inductive tzinfo := TzUtc | TzOther | TzNone.

#[export] Instance tzinfo_eq_dec : EqDecision tzinfo.
Proof. solve_decision. Defined.

Record datetime := DateTime {
  dt_year : Z; dt_month : Z; dt_day : Z;
  dt_hour : Z; dt_minute : Z; dt_second : Z; dt_microsecond : Z;
  dt_tzinfo : tzinfo;
}.

#[export] Instance datetime_eq_dec : EqDecision datetime.
Proof. solve_decision. Defined.

Definition is_leap (y : Z) : bool :=
  (y mod 4 =? 0) && (negb (y mod 100 =? 0) || (y mod 400 =? 0)).

Definition days_in_month (y m : Z) : Z :=
  if m =? 2 then (if is_leap y then 29 else 28)
  else if (m =? 4) || (m =? 6) || (m =? 9) || (m =? 11) then 30 else 31.

(** The range checks of the [datetime] constructor: every [datetime] object
    satisfies them. *)
Definition datetime_in_range (d : datetime) : bool :=
  (1 <=? dt_year d) && (dt_year d <=? 9999)
  && (1 <=? dt_month d) && (dt_month d <=? 12)
  && (1 <=? dt_day d) && (dt_day d <=? days_in_month (dt_year d) (dt_month d))
  && (0 <=? dt_hour d) && (dt_hour d <=? 23)
  && (0 <=? dt_minute d) && (dt_minute d <=? 59)
  && (0 <=? dt_second d) && (dt_second d <=? 59)
  && (0 <=? dt_microsecond d) && (dt_microsecond d <=? 999999).

(** [value.tzinfo is timezone.utc] *)
Definition is_utc (d : datetime) : bool := dt_tzinfo d ==? TzUtc.

Definition dt_fields (d : datetime) : list Z :=
  [dt_year d; dt_month d; dt_day d; dt_hour d; dt_minute d; dt_second d; dt_microsecond d].

Fixpoint lex_ltb (l1 l2 : list Z) : bool :=
  match l1, l2 with
  | x :: l1, y :: l2 => (x <? y) || ((x =? y) && lex_ltb l1 l2)
  | [], _ :: _ => true
  | _, [] => false
  end.

(** [a < b] and [a <= b] of two UTC values. *)
Definition dt_ltb (a b : datetime) : bool := lex_ltb (dt_fields a) (dt_fields b).
Definition dt_leb (a b : datetime) : bool := negb (dt_ltb b a).

(** [n] decimal digits, zero padded. *)
Fixpoint pad_digits (n : nat) (z : Z) : list ascii :=
  match n with
  | O => []
  | S n => pad_digits n (z / 10) ++ [ascii_of_N (Z.to_N (48 + z mod 10))]
  end.

(** [value.isoformat()] of a UTC value. *)
Definition isoformat_chars (d : datetime) : list ascii :=
  pad_digits 4 (dt_year d) ++ "-"%char :: pad_digits 2 (dt_month d)
  ++ "-"%char :: pad_digits 2 (dt_day d) ++ "T"%char :: pad_digits 2 (dt_hour d)
  ++ ":"%char :: pad_digits 2 (dt_minute d) ++ ":"%char :: pad_digits 2 (dt_second d)
  ++ (if dt_microsecond d =? 0 then [] else "."%char :: pad_digits 6 (dt_microsecond d))
  ++ chars "+00:00".

Definition isoformat (d : datetime) : string := String.string_of_list_ascii (isoformat_chars d).

Example isoformat_ex :
  isoformat (DateTime 2026 8 6 9 30 0 0 TzUtc) = "2026-08-06T09:30:00+00:00".
Proof. reflexivity. Qed.

(** ** [isoformat] determines a UTC value *)

(** Lists compare like Python tuples: a total order. *)
Lemma lex_ltb_irrefl l : lex_ltb l l = false.
Proof. induction l as [|x l IH]; cbn; [done|]. by rewrite IH, Z.ltb_irrefl, andb_false_r. Qed.

Lemma lex_ltb_asym l1 l2 : lex_ltb l1 l2 = true → lex_ltb l2 l1 = false.
Proof.
  revert l2. induction l1 as [|x l1 IH]; intros [|y l2]; cbn; try done.
  breflect. intros [H|[-> H]]; (split; [lia|]); [left; lia|right; auto].
Qed.

Lemma lex_le_lt_trans l1 l2 l3 :
  lex_ltb l2 l1 = false → lex_ltb l2 l3 = true → lex_ltb l1 l3 = true.
Proof.
  revert l2 l3. induction l1 as [|x l1 IH]; intros [|y l2] [|z l3]; cbn; try done.
  breflect. intros [H1 H1'] [H|[-> H]]; [left; lia|].
  destruct (decide (x = z)) as [->|]; [right; split; [done|]|left; lia].
  apply (IH l2 l3); try done. destruct H1' as [?|?]; [lia|done].
Qed.

Lemma lex_lt_le_trans l1 l2 l3 :
  lex_ltb l1 l2 = true → lex_ltb l3 l2 = false → lex_ltb l1 l3 = true.
Proof.
  revert l2 l3. induction l1 as [|x l1 IH]; intros [|y l2] [|z l3]; cbn; try done.
  breflect. intros [H|[-> H]] [H1 H1']; [left; lia|].
  destruct (decide (y = z)) as [->|]; [right; split; [done|]|left; lia].
  apply (IH l2 l3); try done. destruct H1' as [?|?]; [lia|done].
Qed.

Lemma lex_le_trans l1 l2 l3 :
  lex_ltb l2 l1 = false → lex_ltb l3 l2 = false → lex_ltb l3 l1 = false.
Proof.
  intros H1 H2. destruct (lex_ltb l3 l1) eqn:H; [|done].
  by rewrite (lex_lt_le_trans l3 l1 l2) in H2.
Qed.

(** A window that contains a time is not empty. *)
Lemma dt_window a now b : dt_leb a now = true → dt_ltb now b = true → dt_ltb a b = true.
Proof.
  unfold dt_leb, dt_ltb. rewrite negb_true_iff. apply lex_le_lt_trans.
Qed.

Lemma digit_char_inj x y : 0 ≤ x < 10 → 0 ≤ y < 10 →
  ascii_of_N (Z.to_N (48 + x)) = ascii_of_N (Z.to_N (48 + y)) → x = y.
Proof.
  intros Hx Hy H. apply (f_equal N_of_ascii) in H.
  rewrite !N_ascii_embedding in H by lia. lia.
Qed.

Lemma length_pad_digits n z : length (pad_digits n z) = n.
Proof. revert z. induction n; intros z; cbn; [done|]. rewrite length_app, IHn; cbn. lia. Qed.

Lemma pad_digits_inj n x y : 0 ≤ x < 10 ^ Z.of_nat n → 0 ≤ y < 10 ^ Z.of_nat n →
  pad_digits n x = pad_digits n y → x = y.
Proof.
  revert x y. induction n as [|n IH]; intros x y Hx Hy; [cbn in *; lia|].
  cbn [pad_digits]. rewrite Nat2Z.inj_succ, Z.pow_succ_r in Hx, Hy by lia.
  intros [Hh Ht]%app_inj_tail.
  apply digit_char_inj in Ht; [|apply Z.mod_pos_bound; lia..].
  apply IH in Hh; [|split; [apply Z.div_pos; lia|apply Z.div_lt_upper_bound; lia]..].
  rewrite (Z.div_mod x 10), (Z.div_mod y 10) by lia. congruence.
Qed.

Lemma pad_digits_field n x y r1 r2 :
  0 ≤ x < 10 ^ Z.of_nat n → 0 ≤ y < 10 ^ Z.of_nat n →
  pad_digits n x ++ r1 = pad_digits n y ++ r2 → x = y ∧ r1 = r2.
Proof.
  intros Hx Hy Heq. apply app_inj_1 in Heq as [Hd ->]; [|by rewrite !length_pad_digits].
  by apply pad_digits_inj in Hd.
Qed.

Lemma days_in_month_bound y m : days_in_month y m ≤ 31.
Proof. unfold days_in_month. repeat case_match; lia. Qed.

Lemma isoformat_inj d1 d2 :
  datetime_in_range d1 = true → datetime_in_range d2 = true →
  is_utc d1 = true → is_utc d2 = true → isoformat d1 = isoformat d2 → d1 = d2.
Proof.
  unfold datetime_in_range, is_utc. breflect. intros H1 H2 U1 U2 Heq.
  pose proof (days_in_month_bound (dt_year d1) (dt_month d1)).
  pose proof (days_in_month_bound (dt_year d2) (dt_month d2)).
  apply (f_equal String.list_ascii_of_string) in Heq. unfold isoformat in Heq.
  rewrite !String.list_ascii_of_string_of_list_ascii in Heq. unfold isoformat_chars in Heq.
  destruct d1 as [y1 m1 a1 h1 i1 s1 u1 t1], d2 as [y2 m2 a2 h2 i2 s2 u2 t2]. cbn -[pad_digits] in *.
  destruct_and!. subst.
  apply pad_digits_field in Heq as [-> Heq]; [|cbn; lia..].
  do 5 (apply (f_equal tail) in Heq; cbn [tail] in Heq;
        apply pad_digits_field in Heq as [-> Heq]; [|cbn; lia..]).
  destruct (Z.eqb_spec u1 0), (Z.eqb_spec u2 0); subst; try done.
  apply (f_equal tail) in Heq. cbn [tail app] in Heq.
  by apply pad_digits_field in Heq as [-> _]; [|cbn; lia..].
Qed.

(** ** Differences of UTC values *)

Definition days_before_year (y : Z) : Z := (y - 1) * 365 + (y - 1) / 4 - (y - 1) / 100 + (y - 1) / 400.

(** Days of the first [n] months of the year. *)
Fixpoint days_before_month (y : Z) (n : nat) : Z :=
  match n with O => 0 | S n => days_before_month y n + days_in_month y (Z.of_nat n + 1) end.

(** [d.toordinal()] *)
Definition toordinal (d : datetime) : Z :=
  days_before_year (dt_year d) + days_before_month (dt_year d) (Z.to_nat (dt_month d - 1)) + dt_day d.

(** The microseconds from [datetime(1970, 1, 1, tzinfo=timezone.utc)] to a UTC
    value. *)
Definition epoch_microseconds (d : datetime) : Z :=
  (((toordinal d - 719163) * 24 + dt_hour d) * 60 + dt_minute d) * 60000000 + dt_second d * 1000000 + dt_microsecond d.

Example epoch_ex : epoch_microseconds (DateTime 2026 8 6 9 30 0 5 TzUtc) = 1786008600000005.
Proof. reflexivity. Qed.

(** [datetime.timedelta], as its exact number of microseconds. *)
Record timedelta := { td_microseconds : Z }.

(** The range checks of the [timedelta] constructor. *)
Definition timedelta_in_range (t : timedelta) : bool :=
  (-86399999913600000000 <=? td_microseconds t) && (td_microseconds t <=? 86399999999999999999).

Lemma days_before_month_bound y m : 1 ≤ m ≤ 12 →
  0 ≤ days_before_month y (Z.to_nat (m - 1)) ≤ 335 ∧
  days_before_month y (Z.to_nat (m - 1)) + days_in_month y m ≤ 366.
Proof.
  intros Hm. assert (m = 1 ∨ m = 2 ∨ m = 3 ∨ m = 4 ∨ m = 5 ∨ m = 6 ∨ m = 7 ∨ m = 8 ∨ m = 9 ∨ m = 10 ∨ m = 11 ∨ m = 12) as H by lia.
  repeat destruct H as [->|H]; [..|subst];
    match goal with |- context [Z.to_nat ?x] => let n := eval vm_compute in (Z.to_nat x) in change (Z.to_nat x) with n end;
    cbn [days_before_month]; unfold days_in_month; destruct (is_leap y); vm_compute; repeat split; discriminate.
Qed.

(** Every UTC value is a 64-bit number of microseconds, with room for leases. *)
Lemma epoch_microseconds_bound d : datetime_in_range d = true →
  -62135596800000000 ≤ epoch_microseconds d < 253410940800000000.
Proof.
  unfold datetime_in_range, epoch_microseconds, toordinal. breflect. intros H. destruct_and!.
  destruct (days_before_month_bound (dt_year d) (dt_month d)) as [[? ?] ?]; [lia|].
  assert (0 ≤ days_before_year (dt_year d) ≤ 3651793) as Hy.
  { unfold days_before_year. set (y := dt_year d - 1).
    assert (0 ≤ y ≤ 9998) as Hy0 by lia. clearbody y.
    assert (0 ≤ y / 4 < 2500) by (split; [apply Z.div_pos; lia|apply Z.div_lt_upper_bound; lia]).
    assert (0 ≤ y / 100 ≤ y) by (split; [apply Z.div_pos; lia|apply Z.div_le_upper_bound; lia]).
    assert (0 ≤ y / 400 < 25) by (split; [apply Z.div_pos; lia|apply Z.div_lt_upper_bound; lia]). lia. }
  lia.
Qed.
