(* ===== verification/Uuid.v ===== *)
(** * UUIDs

    [uuid.UUID]: a 128-bit integer, and its hyphenated rendering [str(u)]. *)

From S2P Require Import Prelude Sha256.
Open Scope N_scope.

Record UUID := { uuid_int : N }.

#[export] Instance UUID_eq_dec : EqDecision UUID.
Proof. solve_decision. Defined.

(** The range check of the [UUID] constructor. *)
Definition uuid_in_range (u : UUID) : bool := uuid_int u <? 2 ^ 128.

(** [str(u)] *)
Definition uuid_str (u : UUID) : string :=
  let x := uuid_int u in
  let part (n : nat) (shift : N) := hex n (N.shiftr x shift) in
  String.append (part 8%nat 96) (String.append "-" (String.append (part 4%nat 80)
    (String.append "-" (String.append (part 4%nat 64) (String.append "-"
    (String.append (part 4%nat 48) (String.append "-" (part 12%nat 0)))))))).

Example uuid_str_ex :
  uuid_str {| uuid_int := 0x12345678123456781234567812345678 |}
  = "12345678-1234-5678-1234-567812345678".
Proof. reflexivity. Qed.

(** ** Rendering determines the UUID *)

Lemma hex_digit_inj x y : x < 16 → y < 16 → hex_digit x = hex_digit y → x = y.
Proof.
  intros Hx Hy. unfold hex_digit.
  destruct (N.ltb_spec x 10), (N.ltb_spec y 10); intros Heq;
    apply (f_equal N_of_ascii) in Heq; rewrite !N_ascii_embedding in Heq by lia; lia.
Qed.

Lemma land_15_bound x : N.land x 15 < 16.
Proof. change 15 with (N.ones 4). rewrite N.land_ones. apply N.mod_lt. done. Qed.

Lemma hex_inj n x y s1 s2 :
  String.append (hex n x) s1 = String.append (hex n y) s2 →
  (∀ i, i < 4 * N.of_nat n → N.testbit x i = N.testbit y i) ∧ s1 = s2.
Proof.
  induction n as [|n IH]; cbn [hex]; intros Heq; [split; [lia|done]|].
  cbn [String.append] in Heq. injection Heq as Hd Heq.
  apply hex_digit_inj in Hd; [|apply land_15_bound..].
  destruct (IH Heq) as [Hlow ->]. split; [|done]. intros i Hi.
  destruct (N.lt_ge_cases i (4 * N.of_nat n)) as [|Hge]; [auto|].
  apply (f_equal (λ w, N.testbit w (i - 4 * N.of_nat n))) in Hd.
  change 15 with (N.ones 4) in Hd.
  rewrite !N.land_spec, !N.shiftr_spec', N.ones_spec_low in Hd by lia.
  rewrite !andb_true_r in Hd. by replace (i - 4 * N.of_nat n + 4 * N.of_nat n) with i in Hd by lia.
Qed.

Lemma append_nil_r s : String.append s "" = s.
Proof. induction s as [|c s IH]; [done|].
  change (String c (String.append s "") = String c s). by rewrite IH. Qed.

(** One hexadecimal group of [n] digits at bit [shift]. *)
Lemma hex_group_inj n shift x y s1 s2 :
  String.append (hex n (N.shiftr x shift)) s1 = String.append (hex n (N.shiftr y shift)) s2 →
  (∀ i, shift ≤ i → i < shift + 4 * N.of_nat n → N.testbit x i = N.testbit y i) ∧ s1 = s2.
Proof.
  intros [Hb ->]%hex_inj. split; [|done]. intros i Hlo Hhi.
  specialize (Hb (i - shift)). rewrite !N.shiftr_spec' in Hb.
  replace (i - shift + shift) with i in Hb by lia. apply Hb. lia.
Qed.

Lemma testbit_above x i : x < 2 ^ 128 → 128 ≤ i → N.testbit x i = false.
Proof.
  intros Hx Hi. rewrite <- (N.mod_small x (2 ^ 128)) by done.
  by apply N.mod_pow2_bits_high.
Qed.

Lemma uuid_str_inj u v :
  uuid_in_range u = true → uuid_in_range v = true → uuid_str u = uuid_str v → u = v.
Proof.
  destruct u as [x], v as [y]. unfold uuid_in_range, uuid_str. cbn [uuid_int].
  rewrite !N.ltb_lt. intros Hx Hy Heq. f_equal.
  rewrite <- (append_nil_r (hex 12 (N.shiftr x 0))), <- (append_nil_r (hex 12 (N.shiftr y 0))) in Heq.
  apply hex_group_inj in Heq as [H1 Heq]. apply (inj (String.append "-")) in Heq.
  apply hex_group_inj in Heq as [H2 Heq]. apply (inj (String.append "-")) in Heq.
  apply hex_group_inj in Heq as [H3 Heq]. apply (inj (String.append "-")) in Heq.
  apply hex_group_inj in Heq as [H4 Heq]. apply (inj (String.append "-")) in Heq.
  apply hex_group_inj in Heq as [H5 _].
  apply N.bits_inj. intros i.
  destruct (N.lt_ge_cases i 128); [|by rewrite !testbit_above].
  destruct (N.lt_ge_cases i 48); [apply H5; lia|].
  destruct (N.lt_ge_cases i 64); [apply H4; lia|].
  destruct (N.lt_ge_cases i 80); [apply H3; lia|].
  destruct (N.lt_ge_cases i 96); [apply H2; lia|apply H1; lia].
Qed.
