(* ===== verification/RuntimeBinding.v ===== *)
(** * Runtime binding (src/roundwright/runtime_binding.py)

    The public-safe identity of one resolved runtime configuration: the
    dataclass, its validation, its canonical payload and fingerprint, and the
    exact comparison [require_matches].  Dataclass equality ([==]) ignores the
    review-policy fields (they are declared with [compare=False]);
    [require_matches] compares all nine. *)

From S2P Require Import Prelude Sha256 Json.
Open Scope Z_scope.

Record RuntimeBinding := {
  schema_version : string;
  resolved_digest : string;
  worker_profile_identity : string;
  supervisor_profile_identities : list string;
  review_complete_rounds : Z;
  review_max_rounds : Z;
  review_max_supervisor_attempts_per_round : Z;
  review_on_final_findings : string;
  review_policy_digest : string;
}.

#[export] Instance RuntimeBinding_eq_dec : EqDecision RuntimeBinding.
Proof. solve_decision. Defined.

Definition SCHEMA : string := "roundwright-runtime/v1".

(** The five review-policy fields all have their defaults. *)
Definition review_policy_defaulted (b : RuntimeBinding) : bool :=
  all_true [review_complete_rounds b =? 0; review_max_rounds b =? 0;
            review_max_supervisor_attempts_per_round b =? 0;
            review_on_final_findings b ==? ""; review_policy_digest b ==? ""].

Definition RuntimeBinding_post_init (b : RuntimeBinding) : py unit :=
  _ ← require ((schema_version b ==? SCHEMA) && match_digest (resolved_digest b))
        RuntimeBindingError "resolved configuration binding is invalid";
  _ ← require
        (match_digest (worker_profile_identity b)
         && (supervisor_profile_identities b !=? [])
         && no_dup (supervisor_profile_identities b)
         && forallb match_digest (supervisor_profile_identities b))
        RuntimeBindingError "resolved configuration profile identity is invalid";
  if review_policy_defaulted b then Ok ()
  else
    require
      ((1 <=? review_complete_rounds b)
       && (review_complete_rounds b <=? review_max_rounds b)
       && (review_max_supervisor_attempts_per_round b
           =? Z.of_nat (length (supervisor_profile_identities b)))
       && (review_on_final_findings b ==? "worker-final-repair-then-merge")
       && match_digest (String.append "sha256:" (review_policy_digest b)))
      RuntimeBindingError "resolved review policy binding is invalid".

Definition canonical_payload (b : RuntimeBinding) : json :=
  JObj [("schema_version", JStr (schema_version b));
        ("resolved_digest", JStr (resolved_digest b));
        ("worker_profile_identity", JStr (worker_profile_identity b));
        ("supervisor_profile_identities", jstrs (supervisor_profile_identities b));
        ("review_complete_rounds", JInt (review_complete_rounds b));
        ("review_max_rounds", JInt (review_max_rounds b));
        ("review_max_supervisor_attempts_per_round",
          JInt (review_max_supervisor_attempts_per_round b));
        ("review_on_final_findings", JStr (review_on_final_findings b));
        ("review_policy_digest", JStr (review_policy_digest b))].

Definition canonical_material (b : RuntimeBinding) : string := dumps (canonical_payload b).

(** The same nine fields are hashed by the [fingerprint] property. *)
Definition fingerprint (b : RuntimeBinding) : string := sha256_json (canonical_payload b).

Definition require_matches (self : RuntimeBinding) (other : dyn RuntimeBinding) : py unit :=
  match other with
  | Foreign => raise RuntimeBindingError "resolved configuration binding has drifted"
  | Typed other =>
      require
        (all_true
          [schema_version other ==? schema_version self;
           resolved_digest other ==? resolved_digest self;
           worker_profile_identity other ==? worker_profile_identity self;
           supervisor_profile_identities other ==? supervisor_profile_identities self;
           review_complete_rounds other =? review_complete_rounds self;
           review_max_rounds other =? review_max_rounds self;
           review_max_supervisor_attempts_per_round other
             =? review_max_supervisor_attempts_per_round self;
           review_on_final_findings other ==? review_on_final_findings self;
           review_policy_digest other ==? review_policy_digest self])
        RuntimeBindingError "resolved configuration binding has drifted"
  end.

(** Dataclass equality: only the fields declared with [compare=True]. *)
Definition RuntimeBinding_eq (a b : RuntimeBinding) : bool :=
  all_true
    [schema_version a ==? schema_version b; resolved_digest a ==? resolved_digest b;
     worker_profile_identity a ==? worker_profile_identity b;
     supervisor_profile_identities a ==? supervisor_profile_identities b].

Definition has_review_policy (b : RuntimeBinding) : bool := negb (review_complete_rounds b =? 0).

(** [_runtime_bindings_match] of deployment.py and gates.py: [require_matches]
    with its exception turned into [False]. *)
Definition runtime_bindings_match (expected : RuntimeBinding) (actual : dyn RuntimeBinding) : bool :=
  is_ok (require_matches expected actual).

(** ** Lemmas *)

Lemma require_matches_iff a b : require_matches a (Typed b) = Ok () ↔ b = a.
Proof.
  unfold require_matches. rewrite require_ok, all_true_spec. split.
  - intros H. destruct a, b; cbn in *.
    repeat match goal with
    | H : ∀ x, x ∈ ?c :: ?l → _ |- _ =>
        assert (c = true) by (apply H; left);
        assert (∀ x, x ∈ l → x = true) by (intros; apply H; by right); clear H
    end.
    breflect. by subst.
  - intros ->. rewrite Z.eqb_refl, Z.eqb_refl, Z.eqb_refl.
    rewrite !bool_decide_eq_true_2 by done.
    intros b Hb. repeat apply elem_of_cons in Hb as [->|Hb]; try done. by apply elem_of_nil in Hb.
Qed.

Lemma runtime_bindings_match_iff a b : runtime_bindings_match a (Typed b) = true ↔ b = a.
Proof.
  unfold runtime_bindings_match. rewrite is_ok_spec, <- require_matches_iff.
  split; [intros [[] ?]; done|eauto].
Qed.

(** The canonical material of a binding determines all of its fields. *)
Lemma canonical_material_inj a b : canonical_material a = canonical_material b → a = b.
Proof.
  unfold canonical_material, canonical_payload. intros H. json_fields.
  destruct a, b; cbn in *. by subst.
Qed.
