(* ===== verification/Deployment.v ===== *)
(** * Deployment authority (src/roundwright/deployment.py)

    The pure preflight that decides whether one exact, repository-external
    authority receipt is current for a deployment. *)

From S2P Require Import Prelude Sha256 Json PyTime Uuid RuntimeBinding.

Inductive DeploymentMode := READ_ONLY | TEST_ONLY | AUTHORITATIVE | BLOCKED.

Definition DeploymentMode_value (m : DeploymentMode) : string :=
  match m with
  | READ_ONLY => "read-only" | TEST_ONLY => "test-only"
  | AUTHORITATIVE => "authoritative" | BLOCKED => "blocked"
  end.

Inductive AuthorityReceiptStatus := FRESH | MISSING | EXPIRED | COPIED | CONFLICTING | REVOKED.

#[export] Instance DeploymentMode_eq_dec : EqDecision DeploymentMode.
Proof. solve_decision. Defined.
#[export] Instance AuthorityReceiptStatus_eq_dec : EqDecision AuthorityReceiptStatus.
Proof. solve_decision. Defined.

Record DeploymentIdentity := {
  repository_fingerprint : string;
  canonical_checkout_fingerprint : string;
  state_fingerprint : string;
  state_id : UUID;
  deployment_fingerprint : string;
  runtime_binding : RuntimeBinding;
}.

Record DeploymentAuthorityReceipt := {
  receipt_fingerprint : string;
  receipt_identity : DeploymentIdentity;
  receipt_mode : DeploymentMode;
  issued_at : datetime;
  expires_at : datetime;
}.

Record AuthorityReceiptVerification := {
  v_receipt_fingerprint : string;
  v_receipt_binding_fingerprint : string;
  v_repository_fingerprint : string;
  v_state_id : UUID;
  v_authoritative_deployment_fingerprint : string;
  v_status : AuthorityReceiptStatus;
  v_runtime_binding : RuntimeBinding;
}.

Record DeploymentAuthorityDecision := {
  d_mode : DeploymentMode;
  d_authorized : bool;
  d_reason : string;
  d_receipt_fingerprint : option string;
}.

#[export] Instance DeploymentIdentity_eq_dec : EqDecision DeploymentIdentity.
Proof. solve_decision. Defined.

(** ** Validation *)

Definition require_fingerprint (value description : string) : py unit :=
  require (match_hex 64 value) DeploymentAuthorityError
    (String.append "the " (String.append description " fingerprint is invalid")).

Definition require_utc (value : datetime) (description : string) : py unit :=
  require (is_utc value) DeploymentAuthorityError
    (String.append "the " (String.append description " is invalid")).

Definition validate_identity (identity : DeploymentIdentity) : py unit :=
  for_each (λ vd, require_fingerprint vd.1 vd.2)
    [(repository_fingerprint identity, "repository identity");
     (canonical_checkout_fingerprint identity, "canonical checkout identity");
     (state_fingerprint identity, "state identity");
     (deployment_fingerprint identity, "deployment identity")].

Definition identity_is_valid (identity : DeploymentIdentity) : bool :=
  is_ok (validate_identity identity).

Definition validate_receipt (receipt : DeploymentAuthorityReceipt) : py unit :=
  _ ← require_fingerprint (receipt_fingerprint receipt) "authority receipt";
  _ ← require (identity_is_valid (receipt_identity receipt)) DeploymentAuthorityError
        "the authority receipt identity is invalid";
  _ ← require (receipt_mode receipt ==? AUTHORITATIVE) DeploymentAuthorityError
        "the authority receipt mode is invalid";
  _ ← require_utc (issued_at receipt) "authority receipt issue time";
  _ ← require_utc (expires_at receipt) "authority receipt expiry";
  require (negb (dt_leb (expires_at receipt) (issued_at receipt))) DeploymentAuthorityError
    "the authority receipt validity window is invalid".

Definition receipt_is_valid (receipt : DeploymentAuthorityReceipt) : bool :=
  is_ok (validate_receipt receipt).

Definition validate_verification (verification : AuthorityReceiptVerification) : py unit :=
  for_each (λ vd, require_fingerprint vd.1 vd.2)
    [(v_receipt_fingerprint verification, "verified receipt");
     (v_receipt_binding_fingerprint verification, "verified receipt binding");
     (v_repository_fingerprint verification, "verified repository");
     (v_authoritative_deployment_fingerprint verification, "verified deployment")].

Definition verification_is_valid (verification : AuthorityReceiptVerification) : bool :=
  is_ok (validate_verification verification).

(** ** The receipt binding *)

Definition canonical_receipt (receipt : DeploymentAuthorityReceipt) : json :=
  let identity := receipt_identity receipt in
  JObj
    [("expires_at", JStr (isoformat (expires_at receipt)));
     ("identity", JObj
       [("canonical_checkout_fingerprint", JStr (canonical_checkout_fingerprint identity));
        ("deployment_fingerprint", JStr (deployment_fingerprint identity));
        ("repository_fingerprint", JStr (repository_fingerprint identity));
        ("state_fingerprint", JStr (state_fingerprint identity));
        ("state_id", JStr (uuid_str (state_id identity)));
        ("runtime_binding", JStr (fingerprint (runtime_binding identity)))]);
     ("issued_at", JStr (isoformat (issued_at receipt)));
     ("mode", JStr (DeploymentMode_value (receipt_mode receipt)));
     ("receipt_fingerprint", JStr (receipt_fingerprint receipt))].

Definition receipt_binding_fingerprint (receipt : DeploymentAuthorityReceipt) : string :=
  sha256_json (canonical_receipt receipt).

Definition identities_match (left right : DeploymentIdentity) : bool :=
  (repository_fingerprint left ==? repository_fingerprint right)
  && (canonical_checkout_fingerprint left ==? canonical_checkout_fingerprint right)
  && (state_fingerprint left ==? state_fingerprint right)
  && (state_id left ==? state_id right)
  && (deployment_fingerprint left ==? deployment_fingerprint right)
  && runtime_bindings_match (runtime_binding left) (Typed (runtime_binding right)).

(** ** The decision *)

Definition blocked (reason : string) (receipt : dyn DeploymentAuthorityReceipt) :
    DeploymentAuthorityDecision :=
  {| d_mode := BLOCKED; d_authorized := false; d_reason := reason;
     d_receipt_fingerprint :=
       match receipt with
       | Typed r => if receipt_is_valid r then Some (receipt_fingerprint r) else None
       | Foreign => None
       end |}.

(** The checks after the structural ones, on evidence of the right types, in
    the order of the [if not ...: return _blocked(reason, receipt)] lines. *)
Definition evidence_checks (identity : DeploymentIdentity)
    (receipt : DeploymentAuthorityReceipt) (verification : AuthorityReceiptVerification)
    (now : datetime) : list (bool * string) :=
  [(receipt_mode receipt ==? AUTHORITATIVE,
    "the deployment authority receipt is not authoritative");
   (identities_match identity (receipt_identity receipt),
    "the deployment authority receipt does not match this deployment identity");
   (v_status verification ==? FRESH,
    "the repository-external authority receipt is not fresh");
   (v_receipt_fingerprint verification ==? receipt_fingerprint receipt,
    "the repository-external receipt identity does not match");
   (v_receipt_binding_fingerprint verification ==? receipt_binding_fingerprint receipt,
    "the repository-external receipt binding does not match");
   (v_repository_fingerprint verification ==? repository_fingerprint identity,
    "the repository-external repository identity does not match");
   (v_state_id verification ==? state_id identity,
    "the repository-external state identity does not match");
   (v_authoritative_deployment_fingerprint verification ==? deployment_fingerprint identity,
    "a different deployment is authoritative for this repository state");
   (runtime_bindings_match (runtime_binding identity) (Typed (v_runtime_binding verification)),
    "the repository-external runtime configuration binding does not match");
   (dt_leb (issued_at receipt) now && dt_ltb now (expires_at receipt),
    "the deployment authority receipt is expired or not yet active")].

Definition evaluate_evidence (identity : DeploymentIdentity)
    (receipt : DeploymentAuthorityReceipt) (verification : AuthorityReceiptVerification)
    (now : datetime) : DeploymentAuthorityDecision :=
  match first_failure (evidence_checks identity receipt verification now) with
  | Some reason => blocked reason (Typed receipt)
  | None =>
      {| d_mode := AUTHORITATIVE; d_authorized := true;
         d_reason := "one exact repository-external authority receipt is current";
         d_receipt_fingerprint := Some (receipt_fingerprint receipt) |}
  end.

Definition evaluate_deployment_authority (identity : dyn DeploymentIdentity)
    (receipt : dyn DeploymentAuthorityReceipt)
    (verification : dyn AuthorityReceiptVerification)
    (mode : dyn DeploymentMode) (now : dyn datetime) : DeploymentAuthorityDecision :=
  match mode with
  | Foreign => blocked "the deployment mode is invalid" Foreign
  | Typed READ_ONLY =>
      {| d_mode := READ_ONLY; d_authorized := false;
         d_reason := "read-only inspection does not require dispatch authority";
         d_receipt_fingerprint := None |}
  | Typed TEST_ONLY =>
      {| d_mode := TEST_ONLY; d_authorized := false;
         d_reason := "test-only mode cannot dispatch work"; d_receipt_fingerprint := None |}
  | Typed BLOCKED => blocked "the deployment is explicitly blocked" Foreign
  | Typed AUTHORITATIVE =>
      match identity with
      | Typed i =>
          if negb (identity_is_valid i) then
            blocked "deployment identity evidence is unavailable or invalid" Foreign
          else
          match receipt with
          | Typed r =>
              if negb (receipt_is_valid r) then
                blocked "deployment authority receipt evidence is unavailable or invalid" Foreign
              else
              match verification with
              | Typed v =>
                  if negb (verification_is_valid v) then
                    blocked "repository-external authority verification is unavailable or invalid" Foreign
                  else
                  match now with
                  | Typed t =>
                      if is_utc t then evaluate_evidence i r v t
                      else blocked "the authority evaluation time is unavailable or invalid" Foreign
                  | Foreign => blocked "the authority evaluation time is unavailable or invalid" Foreign
                  end
              | Foreign =>
                  blocked "repository-external authority verification is unavailable or invalid" Foreign
              end
          | Foreign =>
              blocked "deployment authority receipt evidence is unavailable or invalid" Foreign
          end
      | Foreign => blocked "deployment identity evidence is unavailable or invalid" Foreign
      end
  end.

(** [now] is the wall clock, which the result does not depend on. *)
Definition blocked_command_shell_preflight (now : datetime) : DeploymentAuthorityDecision :=
  evaluate_deployment_authority Foreign Foreign Foreign (Typed AUTHORITATIVE) (Typed now).

(** ** Specification *)

(** Structural validity, as a proposition. *)
Record well_formed_identity (i : DeploymentIdentity) : Prop := {
  wfi_repository : match_hex 64 (repository_fingerprint i) = true;
  wfi_checkout : match_hex 64 (canonical_checkout_fingerprint i) = true;
  wfi_state : match_hex 64 (state_fingerprint i) = true;
  wfi_deployment : match_hex 64 (deployment_fingerprint i) = true;
}.

(** What an authorized decision promises: the receipt is for exactly this
    deployment and is current, and the external observation designates exactly
    this receipt, repository, state, deployment and runtime configuration. *)
Record authority_is_current (i : DeploymentIdentity) (r : DeploymentAuthorityReceipt)
    (v : AuthorityReceiptVerification) (now : datetime) : Prop := {
  ac_identity : well_formed_identity i;
  ac_receipt_for_identity : receipt_identity r = i;
  ac_receipt_fingerprint : match_hex 64 (receipt_fingerprint r) = true;
  ac_mode : receipt_mode r = AUTHORITATIVE;
  ac_times_utc : is_utc (issued_at r) = true ∧ is_utc (expires_at r) = true ∧ is_utc now = true;
  ac_window : dt_leb (issued_at r) now = true ∧ dt_ltb now (expires_at r) = true;
  ac_fresh : v_status v = FRESH;
  ac_v_receipt : v_receipt_fingerprint v = receipt_fingerprint r;
  ac_v_binding : v_receipt_binding_fingerprint v = receipt_binding_fingerprint r
                 ∧ match_hex 64 (receipt_binding_fingerprint r) = true;
  ac_v_repository : v_repository_fingerprint v = repository_fingerprint i;
  ac_v_state : v_state_id v = state_id i;
  ac_v_deployment : v_authoritative_deployment_fingerprint v = deployment_fingerprint i;
  ac_v_runtime : v_runtime_binding v = runtime_binding i;
}.

(** ** Lemmas *)

Lemma identity_is_valid_iff i : identity_is_valid i = true ↔ well_formed_identity i.
Proof.
  unfold identity_is_valid, validate_identity, require_fingerprint. validator.
  split; [intros; destruct_and!; by constructor|intros []; done].
Qed.

Lemma identities_match_iff i j : identities_match i j = true ↔ j = i.
Proof.
  unfold identities_match. breflect. rewrite runtime_bindings_match_iff.
  destruct i, j; cbn. naive_solver.
Qed.

Lemma evaluate_evidence_authorized i r v now :
  d_authorized (evaluate_evidence i r v now) = true ↔
  first_failure (evidence_checks i r v now) = None.
Proof. unfold evaluate_evidence. by destruct first_failure. Qed.

Lemma evidence_checks_pass i r v now :
  first_failure (evidence_checks i r v now) = None ↔
  receipt_mode r = AUTHORITATIVE ∧ receipt_identity r = i ∧ v_status v = FRESH
  ∧ v_receipt_fingerprint v = receipt_fingerprint r
  ∧ v_receipt_binding_fingerprint v = receipt_binding_fingerprint r
  ∧ v_repository_fingerprint v = repository_fingerprint i
  ∧ v_state_id v = state_id i
  ∧ v_authoritative_deployment_fingerprint v = deployment_fingerprint i
  ∧ v_runtime_binding v = runtime_binding i
  ∧ dt_leb (issued_at r) now = true ∧ dt_ltb now (expires_at r) = true.
Proof.
  rewrite first_failure_none. unfold evidence_checks.
  rewrite !Forall_cons_iff. cbn [fst].
  rewrite identities_match_iff, runtime_bindings_match_iff, andb_true_iff, !bool_decide_eq_true.
  intuition auto using Forall_nil.
Qed.

(** Structural validity of a receipt. *)
Lemma receipt_is_valid_iff r : receipt_is_valid r = true ↔
  match_hex 64 (receipt_fingerprint r) = true ∧ well_formed_identity (receipt_identity r)
  ∧ receipt_mode r = AUTHORITATIVE ∧ is_utc (issued_at r) = true ∧ is_utc (expires_at r) = true
  ∧ dt_ltb (issued_at r) (expires_at r) = true.
Proof.
  unfold receipt_is_valid, validate_receipt, require_fingerprint, require_utc, dt_leb.
  validator. rewrite negb_false_iff, identity_is_valid_iff. tauto.
Qed.

Lemma verification_is_valid_iff v : verification_is_valid v = true ↔
  match_hex 64 (v_receipt_fingerprint v) = true
  ∧ match_hex 64 (v_receipt_binding_fingerprint v) = true
  ∧ match_hex 64 (v_repository_fingerprint v) = true
  ∧ match_hex 64 (v_authoritative_deployment_fingerprint v) = true.
Proof.
  unfold verification_is_valid, validate_verification, require_fingerprint. validator. tauto.
Qed.

Lemma authority_is_current_iff i r v now :
  authority_is_current i r v now ↔
  identity_is_valid i = true ∧ receipt_is_valid r = true ∧ verification_is_valid v = true
  ∧ is_utc now = true ∧ first_failure (evidence_checks i r v now) = None.
Proof.
  rewrite identity_is_valid_iff, receipt_is_valid_iff, verification_is_valid_iff, evidence_checks_pass.
  split.
  - intros [Hi <- ? ? (?&?&?) [??] ? -> [-> ?] -> ? -> ?]. destruct Hi.
    split_and!; try done. by eapply dt_window.
  - intros (? & (?&?&?&?&?&?) & (?&?&?&?) & ? & ? & ? & ? & ? & Hb & ? & ? & ? & ? & ? & ?).
    rewrite Hb in *. by constructor.
Qed.

(** ** Theorems *)

(** Every decision is authorized exactly when it is in authoritative mode. *)
Lemma decision_mode_authorized identity receipt verification mode now :
  let d := evaluate_deployment_authority identity receipt verification mode now in
  d_authorized d = true ↔ d_mode d = AUTHORITATIVE.
Proof.
  cbn zeta. unfold evaluate_deployment_authority, evaluate_evidence.
  repeat case_match; cbn; done.
Qed.

Lemma deployment_authority_iff identity receipt verification mode now :
  d_authorized (evaluate_deployment_authority identity receipt verification mode now) = true ↔
  mode = Typed AUTHORITATIVE ∧
  ∃ i r v t, identity = Typed i ∧ receipt = Typed r ∧ verification = Typed v ∧ now = Typed t
    ∧ authority_is_current i r v t.
Proof.
  setoid_rewrite authority_is_current_iff. setoid_rewrite <- evaluate_evidence_authorized.
  unfold evaluate_deployment_authority.
  split.
  - repeat case_match; cbn; try done; breflect; eauto 20.
  - intros [-> (i & r & v & t & -> & -> & -> & -> & Hi & Hr & Hv & Ht & Ha)].
    by rewrite Hi, Hr, Hv, Ht.
Qed.

(** C11 : the preflight authorizes dispatch exactly when authoritative mode is
    requested and well-typed, structurally valid evidence establishes
    [authority_is_current]: one receipt for exactly this deployment, fresh,
    inside its validity window, and independently designated by the external
    verification down to the receipt-binding digest. *)
Theorem deployment_authority_exact identity receipt verification mode now :
  d_authorized (evaluate_deployment_authority identity receipt verification mode now) = true ↔
  mode = Typed AUTHORITATIVE ∧
  ∃ i r v t, identity = Typed i ∧ receipt = Typed r ∧ verification = Typed v ∧ now = Typed t
    ∧ authority_is_current i r v t.
Proof. apply deployment_authority_iff. Qed.

(** Two receipts with the same canonical text bind the same values. *)
Lemma canonical_receipt_inj r1 r2 :
  datetime_in_range (issued_at r1) = true → datetime_in_range (expires_at r1) = true →
  datetime_in_range (issued_at r2) = true → datetime_in_range (expires_at r2) = true →
  receipt_is_valid r1 = true → receipt_is_valid r2 = true →
  runtime_binding (receipt_identity r1) = runtime_binding (receipt_identity r2) →
  state_id (receipt_identity r1) = state_id (receipt_identity r2) →
  dumps (canonical_receipt r1) = dumps (canonical_receipt r2) → r1 = r2.
Proof.
  intros I1 E1 I2 E2 V1%receipt_is_valid_iff V2%receipt_is_valid_iff Hrt Hst H.
  unfold canonical_receipt in H. json_fields. destruct_and!.
  repeat match goal with Hiso : isoformat _ = isoformat _ |- _ =>
    apply isoformat_inj in Hiso; [|done..] end.
  destruct r1 as [f1 [] m1 ??], r2 as [f2 [] m2 ??]; cbn in *. by subst.
Qed.

(** the external verification designates one deployment.  If two
    deployments are authorized against the same verification, then they are
    the same deployment under the same receipt, unless SHA-256 collides on the
    two canonical receipt encodings. *)
Theorem single_authoritative_deployment i1 i2 r1 r2 v t1 t2
    (Hd1 : datetime_in_range (issued_at r1) = true ∧ datetime_in_range (expires_at r1) = true)
    (Hd2 : datetime_in_range (issued_at r2) = true ∧ datetime_in_range (expires_at r2) = true)
    (Ha1 : d_authorized (evaluate_deployment_authority (Typed i1) (Typed r1) (Typed v)
             (Typed AUTHORITATIVE) (Typed t1)) = true)
    (Ha2 : d_authorized (evaluate_deployment_authority (Typed i2) (Typed r2) (Typed v)
             (Typed AUTHORITATIVE) (Typed t2)) = true)
    (Hsha : receipt_binding_fingerprint r1 = receipt_binding_fingerprint r2 →
            dumps (canonical_receipt r1) = dumps (canonical_receipt r2)) :
  i1 = i2 ∧ r1 = r2.
Proof.
  apply deployment_authority_iff in Ha1 as [_ (? & ? & ? & ? & [= <-] & [= <-] & [= <-] & [= <-] & A1)].
  apply deployment_authority_iff in Ha2 as [_ (? & ? & ? & ? & [= <-] & [= <-] & [= <-] & [= <-] & A2)].
  pose proof A1 as B1. pose proof A2 as B2.
  apply authority_is_current_iff in A1 as (_ & V1 & _). apply authority_is_current_iff in A2 as (_ & V2 & _).
  assert (r1 = r2) as <-.
  { destruct Hd1, Hd2. apply canonical_receipt_inj; try done.
    - rewrite (ac_receipt_for_identity _ _ _ _ B1), (ac_receipt_for_identity _ _ _ _ B2).
      by rewrite <- (ac_v_runtime _ _ _ _ B1), <- (ac_v_runtime _ _ _ _ B2).
    - rewrite (ac_receipt_for_identity _ _ _ _ B1), (ac_receipt_for_identity _ _ _ _ B2).
      by rewrite <- (ac_v_state _ _ _ _ B1), <- (ac_v_state _ _ _ _ B2).
    - apply Hsha. destruct (ac_v_binding _ _ _ _ B1) as [<- _]. by destruct (ac_v_binding _ _ _ _ B2) as [<- _]. }
  split; [|done]. by rewrite <- (ac_receipt_for_identity _ _ _ _ B1), (ac_receipt_for_identity _ _ _ _ B2).
Qed.

(** ** Witnesses *)

Definition sample_binding : RuntimeBinding := {|
  schema_version := SCHEMA;
  resolved_digest := String.append "sha256:" (str_repeat "a" 64);
  worker_profile_identity := String.append "sha256:" (str_repeat "b" 64);
  supervisor_profile_identities := [String.append "sha256:" (str_repeat "c" 64)];
  review_complete_rounds := 0; review_max_rounds := 0;
  review_max_supervisor_attempts_per_round := 0;
  review_on_final_findings := ""; review_policy_digest := "";
|}.

Definition sample_identity : DeploymentIdentity := {|
  repository_fingerprint := str_repeat "1" 64;
  canonical_checkout_fingerprint := str_repeat "2" 64;
  state_fingerprint := str_repeat "3" 64;
  state_id := {| uuid_int := 7 |};
  deployment_fingerprint := str_repeat "4" 64;
  runtime_binding := sample_binding;
|}.

Definition sample_receipt : DeploymentAuthorityReceipt := {|
  receipt_fingerprint := str_repeat "5" 64;
  receipt_identity := sample_identity;
  receipt_mode := AUTHORITATIVE;
  issued_at := DateTime 2026 8 6 0 0 0 0 TzUtc;
  expires_at := DateTime 2026 8 7 0 0 0 0 TzUtc;
|}.

Definition sample_verification : AuthorityReceiptVerification := {|
  v_receipt_fingerprint := str_repeat "5" 64;
  v_receipt_binding_fingerprint := receipt_binding_fingerprint sample_receipt;
  v_repository_fingerprint := str_repeat "1" 64;
  v_state_id := {| uuid_int := 7 |};
  v_authoritative_deployment_fingerprint := str_repeat "4" 64;
  v_status := FRESH;
  v_runtime_binding := sample_binding;
|}.

Lemma single_authoritative_deployment_witness :
  sample_identity = sample_identity ∧ sample_receipt = sample_receipt.
Proof.
  apply (single_authoritative_deployment sample_identity sample_identity sample_receipt
    sample_receipt sample_verification (DateTime 2026 8 6 12 0 0 0 TzUtc)
    (DateTime 2026 8 6 13 0 0 0 TzUtc)); try (vm_compute; reflexivity); try done.
Defined.
