(* ===== verification/Policy.v ===== *)
(** * Trusted-policy activation (src/roundwright/policy.py)

    The pure evaluator that activates one reviewed policy document for one task
    candidate, and that can only narrow the standing authority. *)

From S2P Require Import Prelude Sha256 Json PyTime RuntimeBinding.
Open Scope Z_scope.

Definition POLICY_SCHEMA_VERSION : Z := 1.

Inductive PolicyAction := ISSUE_COMMENT | PULL_REQUEST_READY | MERGE_PULL_REQUEST | RELEASE.

Definition PolicyAction_value (a : PolicyAction) : string :=
  match a with
  | ISSUE_COMMENT => "issue-comment" | PULL_REQUEST_READY => "pull-request-ready"
  | MERGE_PULL_REQUEST => "merge-pull-request" | RELEASE => "release"
  end.

(** [PolicyAction(value)], which raises [ValueError] on another value. *)
Definition PolicyAction_of (value : string) : option PolicyAction :=
  list_find (λ a, PolicyAction_value a = value)
    [ISSUE_COMMENT; PULL_REQUEST_READY; MERGE_PULL_REQUEST; RELEASE] ≫= λ p, Some p.2.

Inductive ReceiptStatus := FRESH | CONSUMED | CONFLICTING | REVOKED.

#[export] Instance PolicyAction_eq_dec : EqDecision PolicyAction.
Proof. solve_decision. Defined.
#[export] Instance ReceiptStatus_eq_dec : EqDecision ReceiptStatus.
Proof. solve_decision. Defined.
#[export] Instance PolicyAction_countable : Countable PolicyAction.
Proof.
  refine (inj_countable' PolicyAction_value
    (λ s, default RELEASE (PolicyAction_of s)) _); by intros [].
Defined.

Record TrustedControlSource := {
  source_fingerprint : string;
  revision_fingerprint : string;
}.

Record PolicyDocument := {
  document_schema_version : Z;
  document_allowed_actions : gset PolicyAction;
}.

(** A dataclass without validation: its fields can hold anything. *)
Record TrustedPolicySnapshot := {
  snapshot_source : dyn TrustedControlSource;
  snapshot_document : dyn PolicyDocument;
}.

Record StandingAuthority := { standing_allowed_actions : gset PolicyAction }.

Record ActivationReceipt := {
  owner_fingerprint : string;
  r_receipt_fingerprint : string;
  r_source_fingerprint : string;
  r_revision_fingerprint : string;
  r_policy_digest : string;
  r_schema_version : Z;
  r_task_fingerprint : string;
  r_candidate_sha : string;
  activated_at : datetime;
  r_expires_at : datetime;
  r_runtime_binding : RuntimeBinding;
  selected_supervisor_profile_identity : string;
}.

Record PolicyDecision := {
  authorized : bool;
  reason : string;
  p_schema_version : option Z;
  p_source_fingerprint : option string;
  p_policy_digest : option string;
  p_receipt_fingerprint : option string;
  p_activated_at : option datetime;
  p_allowed_actions : gset PolicyAction;
}.

(** ** Validation *)

Definition require_fingerprint (value description : string) : py unit :=
  require (match_hex 64 value) PolicyError
    (String.append "the " (String.append description " fingerprint is invalid")).

Definition is_commit_sha (value : string) : bool := match_hex 40 value || match_hex 64 value.

Definition require_commit_sha (value description : string) : py unit :=
  require (is_commit_sha value) PolicyError
    (String.append "the " (String.append description " commit identity is invalid")).

Definition require_utc (value : dyn datetime) (description : string) : py unit :=
  require (match value with Typed v => is_utc v | Foreign => false end) PolicyError
    (String.append "the " (String.append description " must use UTC")).

Definition trusted_control_source_is_structurally_valid (source : TrustedControlSource) : bool :=
  is_ok (_ ← require_fingerprint (source_fingerprint source) "control source";
         require_fingerprint (revision_fingerprint source) "control revision").

Definition policy_document_is_structurally_valid (document : PolicyDocument) : bool :=
  document_schema_version document =? POLICY_SCHEMA_VERSION.

Definition receipt_fields_check (receipt : ActivationReceipt) : py unit :=
  _ ← for_each (λ vd, require_fingerprint vd.1 vd.2)
        [(owner_fingerprint receipt, "owner receipt");
         (r_receipt_fingerprint receipt, "activation receipt");
         (r_source_fingerprint receipt, "receipt source");
         (r_revision_fingerprint receipt, "receipt revision");
         (r_policy_digest receipt, "receipt policy digest");
         (r_task_fingerprint receipt, "receipt task")];
  _ ← require_commit_sha (r_candidate_sha receipt) "receipt candidate";
  _ ← require (r_schema_version receipt =? POLICY_SCHEMA_VERSION) PolicyError
        "the receipt schema version is unsupported";
  _ ← require_utc (Typed (activated_at receipt)) "activation timestamp";
  _ ← require_utc (Typed (r_expires_at receipt)) "receipt expiry";
  require (negb (dt_leb (r_expires_at receipt) (activated_at receipt))) PolicyError
    "the activation receipt has an invalid lifetime".

(** Construction also checks the selected supervisor profile. *)
Definition ActivationReceipt_post_init (receipt : ActivationReceipt) : py unit :=
  _ ← receipt_fields_check receipt;
  require (selected_supervisor_profile_identity receipt
           in? supervisor_profile_identities (r_runtime_binding receipt))
    PolicyError "the activation receipt selected supervisor profile is invalid".

Definition receipt_is_structurally_valid (receipt : ActivationReceipt) : bool :=
  is_ok (receipt_fields_check receipt).

(** ** The policy digest *)

Definition canonical_policy (document : PolicyDocument) : json :=
  JObj [("allowed_actions",
         jstrs (merge_sort String.le
           (map PolicyAction_value (elements (document_allowed_actions document)))));
        ("schema_version", JInt (document_schema_version document))].

Definition policy_digest (document : PolicyDocument) : string :=
  sha256_json (canonical_policy document).

Definition snapshot_is_structurally_valid (snapshot : TrustedPolicySnapshot) : bool :=
  match snapshot_source snapshot, snapshot_document snapshot with
  | Typed source, Typed document =>
      trusted_control_source_is_structurally_valid source
      && policy_document_is_structurally_valid document
  | _, _ => false
  end.

(** ** Parsing

    [parse_policy_document] after [json.loads]: [raw] is the parsed value, a
    dict having distinct keys. *)
Definition parse_policy_document (raw : json) : py PolicyDocument :=
  match raw with
  | JObj fields =>
      if negb (same_elements fields.*1 ["schema_version"; "allowed_actions"]) then
        raise PolicyError "the policy document contains unsupported fields"
      else
      match assoc "schema_version" fields, assoc "allowed_actions" fields with
      | Some (JInt version), Some (JArr actions) =>
          match mapM (λ v, match v with JStr s => Some s | _ => None end) actions with
          | None => raise PolicyError "the policy actions are invalid"
          | Some values =>
              match mapM PolicyAction_of values with
              | None => raise PolicyError "the policy contains an unknown authority action"
              | Some typed =>
                  _ ← require (size (list_to_set typed : gset PolicyAction) =? length actions)%nat
                        PolicyError "the policy contains duplicate authority actions";
                  _ ← require (version =? POLICY_SCHEMA_VERSION) PolicyError
                        "the policy schema version is unsupported";
                  Ok {| document_schema_version := version;
                        document_allowed_actions := list_to_set typed |}
              end
          end
      | Some (JInt _), _ => raise PolicyError "the policy actions are invalid"
      | _, _ => raise PolicyError "the policy schema version is invalid"
      end
  | _ => raise PolicyError "the policy document contains unsupported fields"
  end.

(** ** The decision *)

Definition valid_snapshot (snapshot : dyn TrustedPolicySnapshot) :
    option (TrustedControlSource * PolicyDocument) :=
  match snapshot with
  | Typed s =>
      match snapshot_source s, snapshot_document s with
      | Typed source, Typed document =>
          if snapshot_is_structurally_valid s then Some (source, document) else None
      | _, _ => None
      end
  | Foreign => None
  end.

Definition valid_receipt (receipt : dyn ActivationReceipt) : option ActivationReceipt :=
  match receipt with
  | Typed r => if receipt_is_structurally_valid r then Some r else None
  | Foreign => None
  end.

Definition denied (reason : string) (snapshot : dyn TrustedPolicySnapshot)
    (receipt : dyn ActivationReceipt) : PolicyDecision :=
  let snap := valid_snapshot snapshot in
  let rec := valid_receipt receipt in
  {| authorized := false;
     reason := reason;
     p_schema_version := (λ sd, document_schema_version sd.2) <$> snap;
     p_source_fingerprint := (λ sd, source_fingerprint sd.1) <$> snap;
     p_policy_digest := (λ sd, policy_digest sd.2) <$> snap;
     p_receipt_fingerprint := r_receipt_fingerprint <$> rec;
     p_activated_at := activated_at <$> rec;
     p_allowed_actions := ∅ |}.

(** The [try] block: the call arguments. *)
Definition require_call (task_fingerprint candidate_sha : string) (now : dyn datetime)
    (receipt_status : dyn ReceiptStatus) : py unit :=
  _ ← require_fingerprint task_fingerprint "candidate task";
  _ ← require_commit_sha candidate_sha "candidate";
  _ ← require_utc now "evaluation timestamp";
  match receipt_status with
  | Typed _ => Ok ()
  | Foreign => raise PolicyError "verified activation receipt status is unavailable"
  end.

Definition binding_checks (source : TrustedControlSource) (document : PolicyDocument)
    (receipt : ActivationReceipt) (standing : StandingAuthority)
    (task_fingerprint candidate_sha : string) (now : datetime) (status : ReceiptStatus) :
    list (bool * string) :=
  [(r_source_fingerprint receipt ==? source_fingerprint source,
    "the control source does not match the activation receipt");
   (r_revision_fingerprint receipt ==? revision_fingerprint source,
    "the control revision does not match the activation receipt");
   (r_policy_digest receipt ==? policy_digest document,
    "the policy digest does not match the activation receipt");
   (r_schema_version receipt =? document_schema_version document,
    "the policy schema does not match the activation receipt");
   (r_task_fingerprint receipt ==? task_fingerprint,
    "the activation receipt is not bound to this task");
   (r_candidate_sha receipt ==? candidate_sha,
    "the activation receipt is not bound to this candidate");
   (dt_leb (activated_at receipt) now && dt_ltb now (r_expires_at receipt),
    "the activation receipt is stale or not yet active");
   (status ==? FRESH, "the activation receipt is replayed, conflicting, or revoked");
   (bool_decide (document_allowed_actions document ⊆ standing_allowed_actions standing),
    "the policy would widen standing authority")].

Definition evaluate_policy (snapshot : dyn TrustedPolicySnapshot)
    (receipt : dyn ActivationReceipt) (task_fingerprint candidate_sha : string)
    (standing_authority : dyn StandingAuthority) (now : dyn datetime)
    (receipt_status : dyn ReceiptStatus) : PolicyDecision :=
  let denied reason := denied reason snapshot receipt in
  match snapshot with
  | Foreign => denied "trusted policy evidence is unavailable"
  | Typed snap =>
    match snapshot_source snap with
    | Foreign => denied "trusted policy source evidence is unavailable"
    | Typed source =>
      match snapshot_document snap with
      | Foreign => denied "trusted policy document evidence is unavailable"
      | Typed document =>
        if negb (snapshot_is_structurally_valid snap) then
          denied "trusted policy evidence is invalid"
        else
        match receipt with
        | Foreign => denied "activation receipt evidence is unavailable"
        | Typed r =>
          if negb (receipt_is_structurally_valid r) then
            denied "activation receipt evidence is invalid"
          else
          match standing_authority with
          | Foreign => denied "standing authority evidence is unavailable"
          | Typed standing =>
            match require_call task_fingerprint candidate_sha now receipt_status, now, receipt_status with
            | Err e, _, _ => denied (exn_message e)
            | Ok _, Typed now, Typed status =>
              match first_failure (binding_checks source document r standing
                      task_fingerprint candidate_sha now status) with
              | Some why => denied why
              | None =>
                {| authorized := true;
                   reason := "policy activation is valid";
                   p_schema_version := Some (document_schema_version document);
                   p_source_fingerprint := Some (source_fingerprint source);
                   p_policy_digest := Some (policy_digest document);
                   p_receipt_fingerprint := Some (r_receipt_fingerprint r);
                   p_activated_at := Some (activated_at r);
                   p_allowed_actions := document_allowed_actions document |}
              end
            | Ok _, _, _ => denied "the evaluation timestamp must use UTC"
            end
          end
        end
      end
    end
  end.

(** ** Specification *)

Record policy_is_active (source : TrustedControlSource) (document : PolicyDocument)
    (r : ActivationReceipt) (standing : StandingAuthority)
    (task candidate : string) (now : datetime) : Prop := {
  pa_source : match_hex 64 (source_fingerprint source) = true
              ∧ match_hex 64 (revision_fingerprint source) = true;
  pa_schema : document_schema_version document = POLICY_SCHEMA_VERSION;
  pa_receipt : receipt_is_structurally_valid r = true;
  pa_call : match_hex 64 task = true ∧ is_commit_sha candidate = true ∧ is_utc now = true;
  pa_from_source : r_source_fingerprint r = source_fingerprint source
                   ∧ r_revision_fingerprint r = revision_fingerprint source;
  pa_pins_policy : r_policy_digest r = policy_digest document;
  pa_receipt_schema : r_schema_version r = document_schema_version document;
  pa_for_task : r_task_fingerprint r = task ∧ r_candidate_sha r = candidate;
  pa_window : dt_leb (activated_at r) now = true ∧ dt_ltb now (r_expires_at r) = true;
  pa_narrows : document_allowed_actions document ⊆ standing_allowed_actions standing;
}.

(** ** Lemmas *)

Lemma snapshot_valid_iff s source document :
  snapshot_source s = Typed source → snapshot_document s = Typed document →
  snapshot_is_structurally_valid s = true ↔
  match_hex 64 (source_fingerprint source) = true
  ∧ match_hex 64 (revision_fingerprint source) = true
  ∧ document_schema_version document = POLICY_SCHEMA_VERSION.
Proof.
  intros Hs Hd. unfold snapshot_is_structurally_valid. rewrite Hs, Hd.
  unfold trusted_control_source_is_structurally_valid, policy_document_is_structurally_valid,
    require_fingerprint.
  validator. rewrite Z.eqb_eq. tauto.
Qed.

Lemma require_call_ok task candidate now status :
  require_call task candidate now status = Ok () ↔
  match_hex 64 task = true ∧ is_commit_sha candidate = true
  ∧ (∃ t, now = Typed t ∧ is_utc t = true) ∧ (∃ st, status = Typed st).
Proof.
  rewrite <- is_ok_unit. unfold require_call, require_fingerprint, require_commit_sha, require_utc.
  validator. destruct now, status; cbn; naive_solver.
Qed.

Lemma binding_checks_pass source document r standing task candidate now status :
  first_failure (binding_checks source document r standing task candidate now status) = None ↔
  r_source_fingerprint r = source_fingerprint source
  ∧ r_revision_fingerprint r = revision_fingerprint source
  ∧ r_policy_digest r = policy_digest document
  ∧ r_schema_version r = document_schema_version document
  ∧ r_task_fingerprint r = task ∧ r_candidate_sha r = candidate
  ∧ (dt_leb (activated_at r) now = true ∧ dt_ltb now (r_expires_at r) = true)
  ∧ status = FRESH
  ∧ document_allowed_actions document ⊆ standing_allowed_actions standing.
Proof.
  rewrite first_failure_none. unfold binding_checks. rewrite !Forall_cons_iff. cbn [fst].
  rewrite andb_true_iff, Z.eqb_eq, !bool_decide_eq_true. intuition auto using Forall_nil.
Qed.

Lemma denied_no_actions why snapshot receipt :
  authorized (denied why snapshot receipt) = false
  ∧ p_allowed_actions (denied why snapshot receipt) = ∅.
Proof. done. Qed.

Lemma evaluate_policy_authorized snapshot receipt task candidate standing now status :
  authorized (evaluate_policy snapshot receipt task candidate standing now status) = true ↔
  ∃ snap source document r st t, snapshot = Typed snap ∧ snapshot_source snap = Typed source
    ∧ snapshot_document snap = Typed document ∧ receipt = Typed r ∧ standing = Typed st
    ∧ now = Typed t ∧ status = Typed FRESH
    ∧ policy_is_active source document r st task candidate t.
Proof.
  split.
  - unfold evaluate_policy. repeat case_match; cbn; try done. intros _.
    destruct (proj1 (require_call_ok task candidate _ _)
      ltac:(match goal with H : require_call _ _ _ _ = Ok ?u |- _ => destruct u; exact H end))
      as (Ht & Hc & (? & [= <-] & Hu) & _).
    rewrite negb_false_iff in *.
    match goal with H : first_failure _ = None |- _ => apply binding_checks_pass in H end.
    match goal with H : snapshot_is_structurally_valid _ = true |- _ =>
      eapply snapshot_valid_iff in H; [|done..] end.
    destruct_and!; subst. do 6 eexists. split_and!; try done; constructor; done.
  - intros (snap & source & document & r & st & t & -> & Hs & Hd & -> & -> & -> & -> & A).
    unfold evaluate_policy. rewrite Hs, Hd. destruct A as [[] ? ? (?&?&?) [] ? ? [] [] ?].
    rewrite (proj2 (snapshot_valid_iff snap source document Hs Hd)) by done. cbn [negb].
    match goal with H : receipt_is_structurally_valid r = true |- _ => rewrite H end. cbn [negb].
    rewrite (proj2 (require_call_ok task candidate (Typed t) (Typed FRESH))) by eauto 10.
    rewrite (proj2 (binding_checks_pass source document r st task candidate t FRESH)) by done.
    done.
Qed.

(** C22 : a policy is activated exactly when a trusted source, a supported
    document and a valid receipt agree on source, revision, policy digest,
    schema, task and candidate, the receipt is fresh and inside its window, and
    the document only narrows the standing authority. *)
Theorem policy_activation_exact snapshot receipt task candidate standing now status :
  authorized (evaluate_policy snapshot receipt task candidate standing now status) = true ↔
  ∃ snap source document r st t, snapshot = Typed snap ∧ snapshot_source snap = Typed source
    ∧ snapshot_document snap = Typed document ∧ receipt = Typed r ∧ standing = Typed st
    ∧ now = Typed t ∧ status = Typed FRESH
    ∧ policy_is_active source document r st task candidate t.
Proof. apply evaluate_policy_authorized. Qed.

Lemma evaluate_policy_actions snapshot receipt task candidate standing now status :
  let d := evaluate_policy snapshot receipt task candidate standing now status in
  authorized d = false ∧ p_allowed_actions d = ∅ ∨
  authorized d = true ∧ ∃ snap document, snapshot = Typed snap
    ∧ snapshot_document snap = Typed document
    ∧ p_allowed_actions d = document_allowed_actions document.
Proof.
  cbn zeta. unfold evaluate_policy.
  repeat case_match; try (left; apply denied_no_actions); try (left; done).
  right. split; [done|]. do 2 eexists. split; [done|]. by split.
Qed.

(** whatever the evidence, the actions a decision grants never exceed the
    standing authority, and a denied decision grants none. *)
Theorem policy_never_widens snapshot receipt task candidate standing now status :
  let d := evaluate_policy snapshot receipt task candidate (Typed standing) now status in
  p_allowed_actions d ⊆ standing_allowed_actions standing
  ∧ (authorized d = false → p_allowed_actions d = ∅).
Proof.
  cbn zeta.
  destruct (evaluate_policy_actions snapshot receipt task candidate (Typed standing) now status)
    as [[Ha ->]|[Ha (snap & document & -> & Hd & ->)]].
  - split; [set_solver|done].
  - split; [|congruence].
    apply evaluate_policy_authorized in Ha
      as (? & source & document' & r & st & t & [= <-] & _ & Hd' & -> & [= <-] & -> & -> & A).
    rewrite Hd in Hd'. injection Hd' as <-. apply (pa_narrows _ _ _ _ _ _ _ A).
Qed.

(** ** The digest pins the document *)

#[export] Instance PolicyAction_value_inj : Inj (=) (=) PolicyAction_value.
Proof. by intros [] []. Qed.

Lemma canonical_policy_inj d1 d2 :
  dumps (canonical_policy d1) = dumps (canonical_policy d2) → d1 = d2.
Proof.
  unfold canonical_policy. intros H. json_fields.
  match goal with E : merge_sort _ _ = merge_sort _ _ |- _ => rename E into Hs end.
  destruct d1 as [v1 a1], d2 as [v2 a2]; cbn in *. subst. f_equal.
  assert (map PolicyAction_value (elements a1) ≡ₚ map PolicyAction_value (elements a2)) as Hp.
  { rewrite <- (merge_sort_Permutation String.le (map _ (elements a1))), Hs.
    apply merge_sort_Permutation. }
  apply set_eq. intros x. rewrite <- !elem_of_elements.
  rewrite <- (list_elem_of_fmap_inj PolicyAction_value (elements a1) x).
  rewrite <- (list_elem_of_fmap_inj PolicyAction_value (elements a2) x).
  change (PolicyAction_value <$> elements a1) with (map PolicyAction_value (elements a1)).
  change (PolicyAction_value <$> elements a2) with (map PolicyAction_value (elements a2)).
  by rewrite Hp.
Qed.

(** an activation receipt pins the policy document: two documents that
    one receipt activates (at any time, for any standing authority) are equal,
    unless SHA-256 collides on their canonical texts. *)
Theorem receipt_pins_policy s1 s2 d1 d2 r task candidate st1 st2 now1 now2 status1 status2
    (H1 : authorized (evaluate_policy
            (Typed {| snapshot_source := Typed s1; snapshot_document := Typed d1 |})
            (Typed r) task candidate st1 now1 status1) = true)
    (H2 : authorized (evaluate_policy
            (Typed {| snapshot_source := Typed s2; snapshot_document := Typed d2 |})
            (Typed r) task candidate st2 now2 status2) = true)
    (Hsha : policy_digest d1 = policy_digest d2 →
            dumps (canonical_policy d1) = dumps (canonical_policy d2)) :
  s1 = s2 ∧ d1 = d2.
Proof.
  apply evaluate_policy_authorized in H1
    as (? & ? & ? & ? & ? & ? & [= <-] & [= <-] & [= <-] & [= <-] & _ & _ & _ & A1).
  apply evaluate_policy_authorized in H2
    as (? & ? & ? & ? & ? & ? & [= <-] & [= <-] & [= <-] & [= <-] & _ & _ & _ & A2).
  destruct (pa_from_source _ _ _ _ _ _ _ A1) as [E1 E2].
  destruct (pa_from_source _ _ _ _ _ _ _ A2) as [E3 E4].
  pose proof (pa_pins_policy _ _ _ _ _ _ _ A1) as P1.
  pose proof (pa_pins_policy _ _ _ _ _ _ _ A2) as P2.
  split.
  - destruct s1, s2; cbn in *; congruence.
  - apply canonical_policy_inj, Hsha. congruence.
Qed.

(** ** Witnesses *)

Definition sample_source : TrustedControlSource :=
  {| source_fingerprint := str_repeat "1" 64; revision_fingerprint := str_repeat "2" 64 |}.

Definition sample_document : PolicyDocument :=
  {| document_schema_version := 1; document_allowed_actions := {[ISSUE_COMMENT; RELEASE]} |}.

Definition sample_receipt : ActivationReceipt := {|
  owner_fingerprint := str_repeat "3" 64;
  r_receipt_fingerprint := str_repeat "4" 64;
  r_source_fingerprint := str_repeat "1" 64;
  r_revision_fingerprint := str_repeat "2" 64;
  r_policy_digest := policy_digest sample_document;
  r_schema_version := 1;
  r_task_fingerprint := str_repeat "5" 64;
  r_candidate_sha := str_repeat "6" 40;
  activated_at := DateTime 2026 8 6 0 0 0 0 TzUtc;
  r_expires_at := DateTime 2026 8 7 0 0 0 0 TzUtc;
  r_runtime_binding := {| schema_version := ""; resolved_digest := "";
    worker_profile_identity := ""; supervisor_profile_identities := [];
    review_complete_rounds := 0; review_max_rounds := 0;
    review_max_supervisor_attempts_per_round := 0;
    review_on_final_findings := ""; review_policy_digest := "" |};
  selected_supervisor_profile_identity := "";
|}.

Definition sample_standing : StandingAuthority :=
  {| standing_allowed_actions := {[ISSUE_COMMENT; RELEASE; MERGE_PULL_REQUEST]} |}.

Lemma receipt_pins_policy_witness : sample_source = sample_source ∧ sample_document = sample_document.
Proof.
  apply (receipt_pins_policy sample_source sample_source sample_document sample_document
    sample_receipt (str_repeat "5" 64) (str_repeat "6" 40) (Typed sample_standing)
    (Typed sample_standing) (Typed (DateTime 2026 8 6 12 0 0 0 TzUtc))
    (Typed (DateTime 2026 8 6 13 0 0 0 TzUtc)) (Typed FRESH) (Typed FRESH));
    try (vm_compute; reflexivity); done.
Defined.
