(* ===== verification/RepositoryPolicy.v ===== *)
(** * Repository-mutation policy (src/roundwright/repository_policy.py)

    The evaluator that decides whether one repository mutation may be attempted:
    an exact Boolean policy from a trusted source, an owner receipt, a reviewed
    ceiling, evidence that Roundlet has stopped dispatching, and an external
    observation of the receipt.  Also the mutation vocabulary. *)

From S2P Require Import Prelude Sha256 Json PyTime.
Open Scope Z_scope.

Definition REPOSITORY_POLICY_SCHEMA_VERSION : Z := 2.

Definition POLICY_ACTION_KEYS : list string :=
  ["allow_issue_comment"; "allow_create_remote_branch"; "allow_update_remote_branch";
   "allow_delete_remote_branch"; "allow_create_draft_pr"; "allow_request_review";
   "allow_mark_pr_ready"; "allow_merge_pr"; "allow_close_leaf_issue";
   "allow_delete_local_branch"; "allow_remove_worktree"].

Definition POLICY_KEYS : list string := "schema_version" :: "enabled" :: POLICY_ACTION_KEYS.

Inductive RepositoryMutationOperation :=
  | ISSUE_COMMENT | CREATE_REMOTE_BRANCH | UPDATE_REMOTE_BRANCH | DELETE_REMOTE_BRANCH
  | CREATE_DRAFT_PR | REQUEST_REVIEW | MARK_PR_READY | MERGE_PR | CLOSE_LEAF_ISSUE
  | DELETE_LOCAL_BRANCH | REMOVE_WORKTREE.

Inductive RepositoryReceiptStatus := FRESH | MISSING | STALE | REPLAYED | CONFLICTING | REVOKED.

Definition RepositoryReceiptStatus_value (s : RepositoryReceiptStatus) : string :=
  match s with
  | FRESH => "fresh" | MISSING => "missing" | STALE => "stale"
  | REPLAYED => "replayed" | CONFLICTING => "conflicting" | REVOKED => "revoked"
  end.

(** github.py *)
Inductive GitHubMutationOperation :=
  | GH_CREATE_BRANCH | GH_UPDATE_BRANCH | GH_CREATE_PULL_REQUEST | GH_COMMENT
  | GH_REQUEST_REVIEW | GH_MARK_READY | GH_MERGE_PULL_REQUEST | GH_CLOSE_ISSUE
  | GH_DELETE_BRANCH.

#[export] Instance RepositoryMutationOperation_eq_dec : EqDecision RepositoryMutationOperation.
Proof. solve_decision. Defined.
#[export] Instance RepositoryReceiptStatus_eq_dec : EqDecision RepositoryReceiptStatus.
Proof. solve_decision. Defined.
#[export] Instance GitHubMutationOperation_eq_dec : EqDecision GitHubMutationOperation.
Proof. solve_decision. Defined.

Definition all_operations : list RepositoryMutationOperation :=
  [ISSUE_COMMENT; CREATE_REMOTE_BRANCH; UPDATE_REMOTE_BRANCH; DELETE_REMOTE_BRANCH;
   CREATE_DRAFT_PR; REQUEST_REVIEW; MARK_PR_READY; MERGE_PR; CLOSE_LEAF_ISSUE;
   DELETE_LOCAL_BRANCH; REMOVE_WORKTREE].

Definition all_github_operations : list GitHubMutationOperation :=
  [GH_CREATE_BRANCH; GH_UPDATE_BRANCH; GH_CREATE_PULL_REQUEST; GH_COMMENT;
   GH_REQUEST_REVIEW; GH_MARK_READY; GH_MERGE_PULL_REQUEST; GH_CLOSE_ISSUE; GH_DELETE_BRANCH].

Record RepositoryPolicySource := {
  s_source_fingerprint : string;
  s_revision_fingerprint : string;
}.

Record RepositoryMutationPolicy := {
  schema_version : Z;
  enabled : bool;
  allow_issue_comment : bool;
  allow_create_remote_branch : bool;
  allow_update_remote_branch : bool;
  allow_delete_remote_branch : bool;
  allow_create_draft_pr : bool;
  allow_request_review : bool;
  allow_mark_pr_ready : bool;
  allow_merge_pr : bool;
  allow_close_leaf_issue : bool;
  allow_delete_local_branch : bool;
  allow_remove_worktree : bool;
}.

(** A dataclass without validation: its fields can hold anything. *)
Record TrustedRepositoryPolicySnapshot := {
  source : dyn RepositoryPolicySource;
  document : dyn RepositoryMutationPolicy;
}.

Record StandingRepositoryAuthority := { standing_policy : dyn RepositoryMutationPolicy }.

Record RepositoryMutationContext := {
  c_repository_fingerprint : string;
  c_deployment_fingerprint : string;
  c_task_fingerprint : string;
  c_candidate_sha : string;
}.

Record RepositoryDispatcherTransition := {
  t_evidence_fingerprint : string;
  t_repository_fingerprint : string;
  t_deployment_fingerprint : string;
  t_candidate_sha : string;
  roundlet_mutation_capable : bool;
  roundlet_reconciled : bool;
  roundwright_mutation_capable : bool;
}.

Record RepositoryActivationReceipt := {
  r_owner_fingerprint : string;
  r_receipt_fingerprint : string;
  r_source_fingerprint : string;
  r_revision_fingerprint : string;
  r_policy_digest : string;
  r_schema_version : Z;
  r_repository_fingerprint : string;
  r_deployment_fingerprint : string;
  r_task_fingerprint : string;
  r_candidate_sha : string;
  r_dispatcher_transition_digest : string;
  r_activated_at : datetime;
  r_expires_at : datetime;
}.

Record RepositoryReceiptVerification := {
  v_verification_fingerprint : string;
  v_receipt_fingerprint : string;
  v_receipt_binding_digest : string;
  v_status : RepositoryReceiptStatus;
}.

Record RepositoryMutationBinding := {
  b_source_fingerprint : string;
  b_revision_fingerprint : string;
  b_policy_digest : string;
  b_schema_version : Z;
  b_owner_fingerprint : string;
  b_receipt_fingerprint : string;
  b_repository_fingerprint : string;
  b_deployment_fingerprint : string;
  b_task_fingerprint : string;
  b_candidate_sha : string;
  b_dispatcher_transition_fingerprint : string;
  b_dispatcher_transition_digest : string;
  b_receipt_verification_fingerprint : string;
  b_receipt_binding_digest : string;
  b_receipt_status : RepositoryReceiptStatus;
}.

Record RepositoryMutationDecision := {
  d_operation : option RepositoryMutationOperation;
  d_authorized : bool;
  d_reason : string;
  d_policy_digest : option string;
  d_source_fingerprint : option string;
  d_receipt_fingerprint : option string;
  d_enabled : bool;
  d_action_enabled : bool;
  d_next_action : string;
  d_binding : option RepositoryMutationBinding;
}.

(** ** The mutation vocabulary *)

Definition REPOSITORY_OPERATION_SWITCH : list (RepositoryMutationOperation * string) :=
  [(ISSUE_COMMENT, "allow_issue_comment");
   (CREATE_REMOTE_BRANCH, "allow_create_remote_branch");
   (UPDATE_REMOTE_BRANCH, "allow_update_remote_branch");
   (DELETE_REMOTE_BRANCH, "allow_delete_remote_branch");
   (CREATE_DRAFT_PR, "allow_create_draft_pr");
   (REQUEST_REVIEW, "allow_request_review");
   (MARK_PR_READY, "allow_mark_pr_ready");
   (MERGE_PR, "allow_merge_pr");
   (CLOSE_LEAF_ISSUE, "allow_close_leaf_issue");
   (DELETE_LOCAL_BRANCH, "allow_delete_local_branch");
   (REMOVE_WORKTREE, "allow_remove_worktree")].

Definition GITHUB_REPOSITORY_OPERATION : list (GitHubMutationOperation * RepositoryMutationOperation) :=
  [(GH_CREATE_BRANCH, CREATE_REMOTE_BRANCH);
   (GH_UPDATE_BRANCH, UPDATE_REMOTE_BRANCH);
   (GH_DELETE_BRANCH, DELETE_REMOTE_BRANCH);
   (GH_CREATE_PULL_REQUEST, CREATE_DRAFT_PR);
   (GH_COMMENT, ISSUE_COMMENT);
   (GH_REQUEST_REVIEW, REQUEST_REVIEW);
   (GH_MARK_READY, MARK_PR_READY);
   (GH_MERGE_PULL_REQUEST, MERGE_PR);
   (GH_CLOSE_ISSUE, CLOSE_LEAF_ISSUE)].

(** A mapping whose keys and values may be of any type. *)
Definition typed_only {A} (l : list (dyn A)) : option (list A) :=
  mapM (λ d, match d with Typed a => Some a | Foreign => None end) l.

Definition validate_total_mapping `{EqDecision K, EqDecision V}
    (mapping : dyn (list (dyn K * dyn V))) (required_keys : list K) (allowed_values : list V)
    (description : string) (require_all_values : bool) : py unit :=
  match mapping with
  | Foreign => raise RepositoryPolicyError (String.append description " mapping is unavailable")
  | Typed items =>
      require
        (match typed_only items.*1, typed_only items.*2 with
         | Some keys, Some values =>
             same_elements keys required_keys
             && forallb (λ v, v in? allowed_values) values
             && no_dup values
             && (negb require_all_values || same_elements values allowed_values)
         | _, _ => false
         end)
        RepositoryPolicyError (String.append description " mapping is not total and one-to-one")
  end.

Definition validate_repository_mutation_vocabulary
    (repository_switches : dyn (list (dyn RepositoryMutationOperation * dyn string)))
    (github_operations : dyn (list (dyn GitHubMutationOperation * dyn RepositoryMutationOperation))) :
    py unit :=
  _ ← validate_total_mapping repository_switches all_operations POLICY_ACTION_KEYS
        "repository operation/Boolean" true;
  validate_total_mapping github_operations all_github_operations all_operations
    "GitHub/repository operation" false.

Definition repository_operation_for_github (operation : dyn GitHubMutationOperation) :
    py RepositoryMutationOperation :=
  match operation with
  | Foreign => raise RepositoryPolicyError "GitHub mutation operation is invalid"
  | Typed op =>
      match assoc op GITHUB_REPOSITORY_OPERATION with
      | Some r => Ok r
      | None => raise KeyError ""
      end
  end.

(** [getattr(policy, name)] of a Boolean attribute. *)
Definition getattr (p : RepositoryMutationPolicy) (name : string) : option bool :=
  assoc name
    [("enabled", enabled p);
     ("allow_issue_comment", allow_issue_comment p);
     ("allow_create_remote_branch", allow_create_remote_branch p);
     ("allow_update_remote_branch", allow_update_remote_branch p);
     ("allow_delete_remote_branch", allow_delete_remote_branch p);
     ("allow_create_draft_pr", allow_create_draft_pr p);
     ("allow_request_review", allow_request_review p);
     ("allow_mark_pr_ready", allow_mark_pr_ready p);
     ("allow_merge_pr", allow_merge_pr p);
     ("allow_close_leaf_issue", allow_close_leaf_issue p);
     ("allow_delete_local_branch", allow_delete_local_branch p);
     ("allow_remove_worktree", allow_remove_worktree p)].

Definition action_switch_is_enabled (p : RepositoryMutationPolicy)
    (operation : RepositoryMutationOperation) : py bool :=
  match assoc operation REPOSITORY_OPERATION_SWITCH with
  | None => raise KeyError ""
  | Some name =>
      match getattr p name with
      | Some b => Ok b
      | None => raise AttributeError name
      end
  end.

(** [RepositoryMutationPolicy.allows]. *)
Definition allows (p : RepositoryMutationPolicy) (operation : dyn RepositoryMutationOperation) : py bool :=
  match operation with
  | Foreign => raise RepositoryPolicyError "repository mutation operation is invalid"
  | Typed op => action_switch_is_enabled p op
  end.

(** ** Validation *)

Definition require_fingerprint (value description : string) : py unit :=
  require (match_hex 64 value) RepositoryPolicyError
    (String.append description " fingerprint is invalid").

Definition is_commit_sha (value : string) : bool := match_hex 40 value || match_hex 64 value.

Definition require_commit_sha (value description : string) : py unit :=
  require (is_commit_sha value) RepositoryPolicyError
    (String.append description " commit identity is invalid").

Definition policy_post_init (p : RepositoryMutationPolicy) : py unit :=
  require (schema_version p =? REPOSITORY_POLICY_SCHEMA_VERSION) RepositoryPolicyError
    "repository policy schema version is unsupported".

Definition policy_is_valid (p : RepositoryMutationPolicy) : bool := is_ok (policy_post_init p).

Definition source_is_valid (s : RepositoryPolicySource) : bool :=
  is_ok (_ ← require_fingerprint (s_source_fingerprint s) "policy source";
         require_fingerprint (s_revision_fingerprint s) "policy source revision").

(** The source and the document of a valid snapshot. *)
Definition valid_snapshot (snapshot : dyn TrustedRepositoryPolicySnapshot) :
    option (RepositoryPolicySource * RepositoryMutationPolicy) :=
  match snapshot with
  | Typed s =>
      match checked source_is_valid (source s), checked policy_is_valid (document s) with
      | Some src, Some doc => Some (src, doc)
      | _, _ => None
      end
  | Foreign => None
  end.

Definition valid_standing (authority : dyn StandingRepositoryAuthority) :
    option RepositoryMutationPolicy :=
  match authority with
  | Typed a => checked policy_is_valid (standing_policy a)
  | Foreign => None
  end.

Definition context_post_init (c : RepositoryMutationContext) : py unit :=
  _ ← for_each (λ vd, require_fingerprint vd.1 vd.2)
        [(c_repository_fingerprint c, "repository");
         (c_deployment_fingerprint c, "deployment");
         (c_task_fingerprint c, "task")];
  require_commit_sha (c_candidate_sha c) "candidate".

Definition context_is_valid (c : RepositoryMutationContext) : bool := is_ok (context_post_init c).

Definition validate_dispatcher_transition (t : RepositoryDispatcherTransition) : py unit :=
  _ ← for_each (λ vd, require_fingerprint vd.1 vd.2)
        [(t_evidence_fingerprint t, "dispatcher transition evidence");
         (t_repository_fingerprint t, "dispatcher transition repository");
         (t_deployment_fingerprint t, "dispatcher transition deployment")];
  _ ← require_commit_sha (t_candidate_sha t) "dispatcher transition candidate";
  _ ← require (negb (roundlet_mutation_capable t && roundwright_mutation_capable t))
        RepositoryPolicyError "Roundlet and Roundwright cannot both be mutation-capable";
  require (negb (roundwright_mutation_capable t && negb (roundlet_reconciled t)))
    RepositoryPolicyError
    "Roundlet must be reconciled before Roundwright becomes mutation-capable".

Definition dispatcher_transition_is_valid (t : RepositoryDispatcherTransition) : bool :=
  is_ok (validate_dispatcher_transition t).

Definition validate_receipt (r : RepositoryActivationReceipt) : py unit :=
  _ ← for_each (λ vd, require_fingerprint vd.1 vd.2)
        [(r_owner_fingerprint r, "owner"); (r_receipt_fingerprint r, "activation receipt");
         (r_source_fingerprint r, "receipt source"); (r_revision_fingerprint r, "receipt revision");
         (r_policy_digest r, "receipt policy digest"); (r_repository_fingerprint r, "receipt repository");
         (r_deployment_fingerprint r, "receipt deployment"); (r_task_fingerprint r, "receipt task");
         (r_dispatcher_transition_digest r, "receipt dispatcher transition")];
  _ ← require (r_schema_version r =? REPOSITORY_POLICY_SCHEMA_VERSION) RepositoryPolicyError
        "repository policy receipt schema version is unsupported";
  _ ← require_commit_sha (r_candidate_sha r) "receipt candidate";
  _ ← require (is_utc (r_activated_at r)) RepositoryPolicyError
        "repository policy receipt activation time is invalid";
  require (is_utc (r_expires_at r) && negb (dt_leb (r_expires_at r) (r_activated_at r)))
    RepositoryPolicyError "repository policy receipt validity window is invalid".

Definition receipt_is_valid (r : RepositoryActivationReceipt) : bool := is_ok (validate_receipt r).

Definition validate_receipt_verification (v : RepositoryReceiptVerification) : py unit :=
  for_each (λ vd, require_fingerprint vd.1 vd.2)
    [(v_verification_fingerprint v, "receipt lifecycle verification");
     (v_receipt_fingerprint v, "verified receipt");
     (v_receipt_binding_digest v, "verified receipt binding")].

Definition receipt_verification_is_valid (v : RepositoryReceiptVerification) : bool :=
  is_ok (validate_receipt_verification v).

Definition validate_binding (b : RepositoryMutationBinding) : py unit :=
  _ ← for_each (λ vd, require_fingerprint vd.1 vd.2)
        [(b_source_fingerprint b, "binding policy source");
         (b_revision_fingerprint b, "binding policy revision");
         (b_policy_digest b, "binding policy digest");
         (b_owner_fingerprint b, "binding owner");
         (b_receipt_fingerprint b, "binding receipt");
         (b_repository_fingerprint b, "binding repository");
         (b_deployment_fingerprint b, "binding deployment");
         (b_task_fingerprint b, "binding task");
         (b_dispatcher_transition_fingerprint b, "binding dispatcher transition evidence");
         (b_dispatcher_transition_digest b, "binding dispatcher transition");
         (b_receipt_verification_fingerprint b, "binding receipt lifecycle verification");
         (b_receipt_binding_digest b, "binding receipt identity")];
  _ ← require (b_schema_version b =? REPOSITORY_POLICY_SCHEMA_VERSION) RepositoryPolicyError
        "repository policy binding schema version is unsupported";
  require_commit_sha (b_candidate_sha b) "binding candidate".

Definition binding_is_valid (b : RepositoryMutationBinding) : bool := is_ok (validate_binding b).

(** ** Canonical encodings and digests *)

Definition canonical_policy (p : RepositoryMutationPolicy) : json :=
  JObj [("allow_close_leaf_issue", JBool (allow_close_leaf_issue p));
        ("allow_create_draft_pr", JBool (allow_create_draft_pr p));
        ("allow_create_remote_branch", JBool (allow_create_remote_branch p));
        ("allow_delete_local_branch", JBool (allow_delete_local_branch p));
        ("allow_delete_remote_branch", JBool (allow_delete_remote_branch p));
        ("allow_issue_comment", JBool (allow_issue_comment p));
        ("allow_mark_pr_ready", JBool (allow_mark_pr_ready p));
        ("allow_merge_pr", JBool (allow_merge_pr p));
        ("allow_remove_worktree", JBool (allow_remove_worktree p));
        ("allow_request_review", JBool (allow_request_review p));
        ("allow_update_remote_branch", JBool (allow_update_remote_branch p));
        ("enabled", JBool (enabled p));
        ("schema_version", JInt (schema_version p))].

Definition policy_digest (p : RepositoryMutationPolicy) : string := sha256_json (canonical_policy p).

Definition canonical_transition (t : RepositoryDispatcherTransition) : json :=
  JObj [("evidence_fingerprint", JStr (t_evidence_fingerprint t));
        ("repository_fingerprint", JStr (t_repository_fingerprint t));
        ("deployment_fingerprint", JStr (t_deployment_fingerprint t));
        ("candidate_sha", JStr (t_candidate_sha t));
        ("roundlet_mutation_capable", JBool (roundlet_mutation_capable t));
        ("roundlet_reconciled", JBool (roundlet_reconciled t));
        ("roundwright_mutation_capable", JBool (roundwright_mutation_capable t))].

Definition transition_digest (t : RepositoryDispatcherTransition) : string :=
  sha256_json (canonical_transition t).

Definition canonical_receipt (r : RepositoryActivationReceipt) : json :=
  JObj [("owner_fingerprint", JStr (r_owner_fingerprint r));
        ("receipt_fingerprint", JStr (r_receipt_fingerprint r));
        ("source_fingerprint", JStr (r_source_fingerprint r));
        ("revision_fingerprint", JStr (r_revision_fingerprint r));
        ("policy_digest", JStr (r_policy_digest r));
        ("schema_version", JInt (r_schema_version r));
        ("repository_fingerprint", JStr (r_repository_fingerprint r));
        ("deployment_fingerprint", JStr (r_deployment_fingerprint r));
        ("task_fingerprint", JStr (r_task_fingerprint r));
        ("candidate_sha", JStr (r_candidate_sha r));
        ("dispatcher_transition_digest", JStr (r_dispatcher_transition_digest r));
        ("activated_at", JStr (isoformat (r_activated_at r)));
        ("expires_at", JStr (isoformat (r_expires_at r)))].

Definition receipt_binding_digest (r : RepositoryActivationReceipt) : string :=
  sha256_json (canonical_receipt r).

Definition canonical_binding (b : RepositoryMutationBinding) : json :=
  JObj [("source_fingerprint", JStr (b_source_fingerprint b));
        ("revision_fingerprint", JStr (b_revision_fingerprint b));
        ("policy_digest", JStr (b_policy_digest b));
        ("schema_version", JInt (b_schema_version b));
        ("owner_fingerprint", JStr (b_owner_fingerprint b));
        ("receipt_fingerprint", JStr (b_receipt_fingerprint b));
        ("repository_fingerprint", JStr (b_repository_fingerprint b));
        ("deployment_fingerprint", JStr (b_deployment_fingerprint b));
        ("task_fingerprint", JStr (b_task_fingerprint b));
        ("candidate_sha", JStr (b_candidate_sha b));
        ("dispatcher_transition_fingerprint", JStr (b_dispatcher_transition_fingerprint b));
        ("dispatcher_transition_digest", JStr (b_dispatcher_transition_digest b));
        ("receipt_verification_fingerprint", JStr (b_receipt_verification_fingerprint b));
        ("receipt_binding_digest", JStr (b_receipt_binding_digest b));
        ("receipt_status", JStr (RepositoryReceiptStatus_value (b_receipt_status b)))].

Definition binding_digest (b : RepositoryMutationBinding) : string := sha256_json (canonical_binding b).

Definition matches_context (b : RepositoryMutationBinding)
    (context : dyn RepositoryMutationContext)
    (verification : dyn RepositoryReceiptVerification) : bool :=
  binding_is_valid b &&
  match checked context_is_valid context, checked receipt_verification_is_valid verification with
  | Some c, Some v =>
      (b_repository_fingerprint b ==? c_repository_fingerprint c)
      && (b_deployment_fingerprint b ==? c_deployment_fingerprint c)
      && (b_task_fingerprint b ==? c_task_fingerprint c)
      && (b_candidate_sha b ==? c_candidate_sha c)
      && (b_receipt_verification_fingerprint b ==? v_verification_fingerprint v)
      && (b_receipt_fingerprint b ==? v_receipt_fingerprint v)
      && (b_receipt_binding_digest b ==? v_receipt_binding_digest v)
      && (b_receipt_status b ==? v_status v)
  | _, _ => false
  end.

(** ** The decision *)

(** A decision's evidence: each part may be missing. *)
Record Evidence := {
  e_snapshot : dyn TrustedRepositoryPolicySnapshot;
  e_receipt : dyn RepositoryActivationReceipt;
  e_operation : dyn RepositoryMutationOperation;
  e_context : dyn RepositoryMutationContext;
  e_transition : dyn RepositoryDispatcherTransition;
  e_verification : dyn RepositoryReceiptVerification;
}.

Definition no_evidence (operation : dyn RepositoryMutationOperation) : Evidence :=
  {| e_snapshot := Foreign; e_receipt := Foreign; e_operation := operation;
     e_context := Foreign; e_transition := Foreign; e_verification := Foreign |}.

Definition binding_of (src : RepositoryPolicySource) (doc : RepositoryMutationPolicy)
    (r : RepositoryActivationReceipt) (c : RepositoryMutationContext)
    (t : RepositoryDispatcherTransition) (v : RepositoryReceiptVerification) :
    RepositoryMutationBinding :=
  {| b_source_fingerprint := s_source_fingerprint src;
     b_revision_fingerprint := s_revision_fingerprint src;
     b_policy_digest := policy_digest doc;
     b_schema_version := schema_version doc;
     b_owner_fingerprint := r_owner_fingerprint r;
     b_receipt_fingerprint := r_receipt_fingerprint r;
     b_repository_fingerprint := c_repository_fingerprint c;
     b_deployment_fingerprint := c_deployment_fingerprint c;
     b_task_fingerprint := c_task_fingerprint c;
     b_candidate_sha := c_candidate_sha c;
     b_dispatcher_transition_fingerprint := t_evidence_fingerprint t;
     b_dispatcher_transition_digest := transition_digest t;
     b_receipt_verification_fingerprint := v_verification_fingerprint v;
     b_receipt_binding_digest := v_receipt_binding_digest v;
     b_receipt_status := v_status v |}.

(** Constructing the binding validates it and can raise. *)
Definition binding_from_evidence (e : Evidence) : py (option RepositoryMutationBinding) :=
  match valid_snapshot (e_snapshot e), checked receipt_is_valid (e_receipt e),
        checked context_is_valid (e_context e),
        checked dispatcher_transition_is_valid (e_transition e),
        checked receipt_verification_is_valid (e_verification e) with
  | Some (src, doc), Some r, Some c, Some t, Some v =>
      let b := binding_of src doc r c t v in
      _ ← validate_binding b; Ok (Some b)
  | _, _, _, _, _ => Ok None
  end.

Definition denied (reason : string) (e : Evidence) : py RepositoryMutationDecision :=
  let snapshot := valid_snapshot (e_snapshot e) in
  let receipt := checked receipt_is_valid (e_receipt e) in
  let operation := match e_operation e with Typed op => Some op | Foreign => None end in
  action ← match snapshot, operation with
           | Some (_, policy), Some op => action_switch_is_enabled policy op
           | _, _ => Ok false
           end;
  binding ← binding_from_evidence e;
  Ok {| d_operation := operation;
        d_authorized := false;
        d_reason := reason;
        d_policy_digest := (λ sd, policy_digest sd.2) <$> snapshot;
        d_source_fingerprint := (λ sd, s_source_fingerprint sd.1) <$> snapshot;
        d_receipt_fingerprint := r_receipt_fingerprint <$> receipt;
        d_enabled := match snapshot with Some (_, policy) => enabled policy | None => false end;
        d_action_enabled := action;
        d_next_action := "resolve-policy-or-owner-receipt";
        d_binding := binding |}.

Definition policy_narrows (policy ceiling : RepositoryMutationPolicy) : bool :=
  forallb (λ name,
    match getattr policy name, getattr ceiling name with
    | Some p, Some c => negb p || c
    | _, _ => false
    end) ("enabled" :: POLICY_ACTION_KEYS).

Definition binding_checks (src : RepositoryPolicySource) (doc : RepositoryMutationPolicy)
    (r : RepositoryActivationReceipt) (c : RepositoryMutationContext)
    (t : RepositoryDispatcherTransition) (v : RepositoryReceiptVerification) (now : datetime) :
    list (bool * string) :=
  [(r_source_fingerprint r ==? s_source_fingerprint src,
    "repository policy source does not match activation receipt");
   (r_revision_fingerprint r ==? s_revision_fingerprint src,
    "repository policy revision does not match activation receipt");
   (r_policy_digest r ==? policy_digest doc,
    "repository policy digest does not match activation receipt");
   (r_schema_version r =? schema_version doc,
    "repository policy schema does not match activation receipt");
   (r_repository_fingerprint r ==? c_repository_fingerprint c,
    "activation receipt is not bound to this repository");
   (r_deployment_fingerprint r ==? c_deployment_fingerprint c,
    "activation receipt is not bound to this deployment");
   (r_task_fingerprint r ==? c_task_fingerprint c,
    "activation receipt is not bound to this task");
   (r_candidate_sha r ==? c_candidate_sha c,
    "activation receipt is not bound to this candidate");
   (r_dispatcher_transition_digest r ==? transition_digest t,
    "activation receipt is not bound to this dispatcher transition");
   (t_repository_fingerprint t ==? c_repository_fingerprint c,
    "dispatcher transition is not bound to this repository");
   (t_deployment_fingerprint t ==? c_deployment_fingerprint c,
    "dispatcher transition is not bound to this deployment");
   (t_candidate_sha t ==? c_candidate_sha c,
    "dispatcher transition is not bound to this candidate");
   (negb (roundlet_mutation_capable t), "Roundlet remains mutation-capable");
   (roundlet_reconciled t, "Roundlet has not been reconciled");
   (roundwright_mutation_capable t,
    "Roundwright is not the selected mutation-capable dispatcher");
   (dt_leb (r_activated_at r) now && dt_ltb now (r_expires_at r),
    "repository policy activation receipt is stale or not yet active");
   (v_receipt_fingerprint v ==? r_receipt_fingerprint r,
    "repository policy lifecycle verification is not bound to this receipt");
   (v_receipt_binding_digest v ==? receipt_binding_digest r,
    "repository policy lifecycle verification does not match this receipt binding");
   (v_status v ==? FRESH, "repository policy activation receipt is not fresh")].

Definition evaluate_repository_mutation_policy (e : Evidence)
    (standing_authority : dyn StandingRepositoryAuthority) (now : dyn datetime) :
    py RepositoryMutationDecision :=
  match e_operation e with
  | Foreign => denied "repository mutation operation is unavailable" e
  | Typed operation =>
  match valid_snapshot (e_snapshot e) with
  | None => denied "trusted repository policy evidence is unavailable or invalid" e
  | Some (src, doc) =>
  match checked receipt_is_valid (e_receipt e) with
  | None => denied "repository policy activation receipt is unavailable or invalid" e
  | Some r =>
  match checked context_is_valid (e_context e) with
  | None => denied "repository mutation context is unavailable or invalid" e
  | Some c =>
  match valid_standing standing_authority with
  | None => denied "standing repository authority is unavailable or invalid" e
  | Some ceiling =>
  match checked dispatcher_transition_is_valid (e_transition e) with
  | None => denied "exclusive dispatcher transition evidence is unavailable or invalid" e
  | Some t =>
  match checked receipt_verification_is_valid (e_verification e) with
  | None => denied "repository policy receipt lifecycle verification is unavailable or invalid" e
  | Some v =>
  match checked is_utc now with
  | None => denied "repository policy evaluation time is unavailable or invalid" e
  | Some now =>
    if negb (policy_narrows doc ceiling) then
      denied "repository policy would widen standing authority" e
    else
    match first_failure (binding_checks src doc r c t v now) with
    | Some why => denied why e
    | None =>
      if negb (enabled doc) then denied "repository mutation policy is disabled" e
      else
        action ← action_switch_is_enabled doc operation;
        if negb action then denied "repository mutation action is disabled" e
        else
          binding ← binding_from_evidence e;
          Ok {| d_operation := Some operation;
                d_authorized := true;
                d_reason := "repository mutation policy is active for this exact operation";
                d_policy_digest := Some (policy_digest doc);
                d_source_fingerprint := Some (s_source_fingerprint src);
                d_receipt_fingerprint := Some (r_receipt_fingerprint r);
                d_enabled := true;
                d_action_enabled := true;
                d_next_action := "mutation-adapter-may-attempt-readback";
                d_binding := binding |}
    end
  end end end end end end end end.

Definition evaluate_shadow_mutation_policy (operation : dyn RepositoryMutationOperation) :
    py RepositoryMutationDecision :=
  match operation with
  | Foreign => denied "shadow mutation operation is unavailable" (no_evidence operation)
  | Typed op =>
      Ok {| d_operation := Some op; d_authorized := false;
            d_reason := "shadow replay is read-only and all repository mutation switches are disabled";
            d_policy_digest := None; d_source_fingerprint := None; d_receipt_fingerprint := None;
            d_enabled := false; d_action_enabled := false;
            d_next_action := "retain-zero-mutation-evidence"; d_binding := None |}
  end.

(** ** Specification *)

(** The switch that governs an operation, field by field. *)
Definition permits (p : RepositoryMutationPolicy) (op : RepositoryMutationOperation) : bool :=
  match op with
  | ISSUE_COMMENT => allow_issue_comment p
  | CREATE_REMOTE_BRANCH => allow_create_remote_branch p
  | UPDATE_REMOTE_BRANCH => allow_update_remote_branch p
  | DELETE_REMOTE_BRANCH => allow_delete_remote_branch p
  | CREATE_DRAFT_PR => allow_create_draft_pr p
  | REQUEST_REVIEW => allow_request_review p
  | MARK_PR_READY => allow_mark_pr_ready p
  | MERGE_PR => allow_merge_pr p
  | CLOSE_LEAF_ISSUE => allow_close_leaf_issue p
  | DELETE_LOCAL_BRANCH => allow_delete_local_branch p
  | REMOVE_WORKTREE => allow_remove_worktree p
  end.

(** The mutation target a receipt, a transition and a context agree on. *)
Record mutation_is_active (src : RepositoryPolicySource) (doc ceiling : RepositoryMutationPolicy)
    (r : RepositoryActivationReceipt) (c : RepositoryMutationContext)
    (t : RepositoryDispatcherTransition) (v : RepositoryReceiptVerification)
    (op : RepositoryMutationOperation) (now : datetime) : Prop := {
  ma_fingerprints :
    match_hex 64 (s_source_fingerprint src) = true ∧ match_hex 64 (s_revision_fingerprint src) = true
    ∧ match_hex 64 (c_repository_fingerprint c) = true
    ∧ match_hex 64 (c_deployment_fingerprint c) = true
    ∧ match_hex 64 (c_task_fingerprint c) = true ∧ is_commit_sha (c_candidate_sha c) = true
    ∧ match_hex 64 (t_evidence_fingerprint t) = true
    ∧ match_hex 64 (r_owner_fingerprint r) = true ∧ match_hex 64 (r_receipt_fingerprint r) = true
    ∧ match_hex 64 (v_verification_fingerprint v) = true;
  ma_schema : schema_version doc = 2 ∧ schema_version ceiling = 2 ∧ r_schema_version r = 2;
  ma_source : r_source_fingerprint r = s_source_fingerprint src
              ∧ r_revision_fingerprint r = s_revision_fingerprint src;
  ma_policy : r_policy_digest r = policy_digest doc;
  ma_target : r_repository_fingerprint r = c_repository_fingerprint c
              ∧ r_deployment_fingerprint r = c_deployment_fingerprint c
              ∧ r_task_fingerprint r = c_task_fingerprint c
              ∧ r_candidate_sha r = c_candidate_sha c;
  ma_transition : r_dispatcher_transition_digest r = transition_digest t
                  ∧ t_repository_fingerprint t = c_repository_fingerprint c
                  ∧ t_deployment_fingerprint t = c_deployment_fingerprint c
                  ∧ t_candidate_sha t = c_candidate_sha c;
  ma_exclusive : roundlet_mutation_capable t = false ∧ roundlet_reconciled t = true
                 ∧ roundwright_mutation_capable t = true;
  ma_times : is_utc (r_activated_at r) = true ∧ is_utc (r_expires_at r) = true ∧ is_utc now = true;
  ma_window : dt_leb (r_activated_at r) now = true ∧ dt_ltb now (r_expires_at r) = true;
  ma_verified : v_receipt_fingerprint v = r_receipt_fingerprint r
                ∧ v_receipt_binding_digest v = receipt_binding_digest r ∧ v_status v = FRESH;
  ma_permitted : enabled doc = true ∧ permits doc op = true;
  ma_narrows : enabled ceiling = true ∧ ∀ op', permits doc op' = true → permits ceiling op' = true;
}.

(** ** Lemmas *)

Lemma action_switch_is_enabled_eq p op : action_switch_is_enabled p op = Ok (permits p op).
Proof. by destruct op. Qed.

Lemma impl_b a b : negb a || b = true ↔ (a = true → b = true).
Proof. destruct a, b; naive_solver. Qed.

Lemma policy_narrows_iff p c : policy_narrows p c = true ↔
  (enabled p = true → enabled c = true) ∧ ∀ op, permits p op = true → permits c op = true.
Proof.
  assert (policy_narrows p c =
    (negb (enabled p) || enabled c)
    && forallb (λ op, negb (permits p op) || permits c op) all_operations) as ->
    by (vm_compute; reflexivity).
  rewrite andb_true_iff, impl_b, forallb_elem. setoid_rewrite impl_b.
  assert (∀ op, op ∈ all_operations) by (intros []; apply (bool_decide_unpack _); exact I).
  naive_solver.
Qed.

Lemma source_valid_iff s : source_is_valid s = true ↔
  match_hex 64 (s_source_fingerprint s) = true ∧ match_hex 64 (s_revision_fingerprint s) = true.
Proof. unfold source_is_valid, require_fingerprint. by validator. Qed.

Lemma policy_valid_iff p : policy_is_valid p = true ↔ schema_version p = 2.
Proof. unfold policy_is_valid, policy_post_init. validator. apply Z.eqb_eq. Qed.

Lemma context_valid_iff c : context_is_valid c = true ↔
  match_hex 64 (c_repository_fingerprint c) = true ∧ match_hex 64 (c_deployment_fingerprint c) = true
  ∧ match_hex 64 (c_task_fingerprint c) = true ∧ is_commit_sha (c_candidate_sha c) = true.
Proof. unfold context_is_valid, context_post_init, require_fingerprint, require_commit_sha. validator. tauto. Qed.

Lemma transition_valid_iff t : dispatcher_transition_is_valid t = true ↔
  match_hex 64 (t_evidence_fingerprint t) = true ∧ match_hex 64 (t_repository_fingerprint t) = true
  ∧ match_hex 64 (t_deployment_fingerprint t) = true ∧ is_commit_sha (t_candidate_sha t) = true
  ∧ (roundwright_mutation_capable t = true →
     roundlet_mutation_capable t = false ∧ roundlet_reconciled t = true).
Proof.
  unfold dispatcher_transition_is_valid, validate_dispatcher_transition, require_fingerprint, require_commit_sha.
  validator.
  destruct (roundlet_mutation_capable t), (roundwright_mutation_capable t), (roundlet_reconciled t);
    cbn; intuition congruence.
Qed.

Lemma receipt_valid_iff r : receipt_is_valid r = true ↔
  (match_hex 64 (r_owner_fingerprint r) = true ∧ match_hex 64 (r_receipt_fingerprint r) = true
   ∧ match_hex 64 (r_source_fingerprint r) = true ∧ match_hex 64 (r_revision_fingerprint r) = true
   ∧ match_hex 64 (r_policy_digest r) = true ∧ match_hex 64 (r_repository_fingerprint r) = true
   ∧ match_hex 64 (r_deployment_fingerprint r) = true ∧ match_hex 64 (r_task_fingerprint r) = true
   ∧ match_hex 64 (r_dispatcher_transition_digest r) = true)
  ∧ r_schema_version r = 2 ∧ is_commit_sha (r_candidate_sha r) = true
  ∧ is_utc (r_activated_at r) = true ∧ is_utc (r_expires_at r) = true
  ∧ dt_ltb (r_activated_at r) (r_expires_at r) = true.
Proof.
  unfold receipt_is_valid, validate_receipt, require_fingerprint, require_commit_sha, dt_leb.
  validator. rewrite Z.eqb_eq, negb_false_iff. unfold REPOSITORY_POLICY_SCHEMA_VERSION. tauto.
Qed.

Lemma verification_valid_iff v : receipt_verification_is_valid v = true ↔
  match_hex 64 (v_verification_fingerprint v) = true ∧ match_hex 64 (v_receipt_fingerprint v) = true
  ∧ match_hex 64 (v_receipt_binding_digest v) = true.
Proof. unfold receipt_verification_is_valid, validate_receipt_verification, require_fingerprint. by validator. Qed.

Lemma mutation_checks_pass src doc r c t v now :
  first_failure (binding_checks src doc r c t v now) = None ↔
  (r_source_fingerprint r = s_source_fingerprint src
   ∧ r_revision_fingerprint r = s_revision_fingerprint src)
  ∧ r_policy_digest r = policy_digest doc ∧ r_schema_version r = schema_version doc
  ∧ (r_repository_fingerprint r = c_repository_fingerprint c
     ∧ r_deployment_fingerprint r = c_deployment_fingerprint c
     ∧ r_task_fingerprint r = c_task_fingerprint c ∧ r_candidate_sha r = c_candidate_sha c)
  ∧ (r_dispatcher_transition_digest r = transition_digest t
     ∧ t_repository_fingerprint t = c_repository_fingerprint c
     ∧ t_deployment_fingerprint t = c_deployment_fingerprint c
     ∧ t_candidate_sha t = c_candidate_sha c)
  ∧ (roundlet_mutation_capable t = false ∧ roundlet_reconciled t = true
     ∧ roundwright_mutation_capable t = true)
  ∧ (dt_leb (r_activated_at r) now = true ∧ dt_ltb now (r_expires_at r) = true)
  ∧ (v_receipt_fingerprint v = r_receipt_fingerprint r
     ∧ v_receipt_binding_digest v = receipt_binding_digest r ∧ v_status v = FRESH).
Proof.
  rewrite first_failure_passes. unfold binding_checks. cbn [passes fst].
  rewrite andb_true_iff, negb_true_iff, Z.eqb_eq, !bool_decide_eq_true. tauto.
Qed.

(** A binding built from valid evidence is valid. *)
Lemma binding_of_valid src doc r c t v :
  source_is_valid src = true → policy_is_valid doc = true → receipt_is_valid r = true →
  context_is_valid c = true → dispatcher_transition_is_valid t = true →
  receipt_verification_is_valid v = true →
  validate_binding (binding_of src doc r c t v) = Ok ().
Proof.
  rewrite source_valid_iff, policy_valid_iff, receipt_valid_iff, context_valid_iff,
    transition_valid_iff, verification_valid_iff, <- is_ok_unit.
  intros. destruct_and!. unfold validate_binding, require_fingerprint, require_commit_sha. validator.
  cbn [binding_of b_source_fingerprint b_revision_fingerprint b_policy_digest b_owner_fingerprint
    b_receipt_fingerprint b_repository_fingerprint b_deployment_fingerprint b_task_fingerprint
    b_dispatcher_transition_fingerprint b_dispatcher_transition_digest b_schema_version
    b_receipt_verification_fingerprint b_receipt_binding_digest b_candidate_sha].
  rewrite Z.eqb_eq. unfold policy_digest, transition_digest, sha256_json.
  split_and!; auto using sha256_hex_match.
Qed.

Lemma valid_snapshot_some s src doc : valid_snapshot s = Some (src, doc) ↔
  s = Typed {| source := Typed src; document := Typed doc |}
  ∧ source_is_valid src = true ∧ policy_is_valid doc = true.
Proof.
  destruct s as [[s d]|]; cbn; [|by split; [|intros [? _]]].
  destruct (checked source_is_valid s) eqn:E1, (checked policy_is_valid d) eqn:E2;
    rewrite ?checked_some in *; split; intros; destruct_and?; simplify_eq; auto;
    cbn in *; repeat case_match; congruence.
Qed.

Lemma binding_from_evidence_ok e : ∃ b, binding_from_evidence e = Ok b.
Proof.
  unfold binding_from_evidence.
  destruct (valid_snapshot (e_snapshot e)) as [[src doc]|] eqn:E1; [|eauto].
  destruct (checked receipt_is_valid (e_receipt e)) eqn:E2; [|eauto].
  destruct (checked context_is_valid (e_context e)) eqn:E3; [|eauto].
  destruct (checked dispatcher_transition_is_valid (e_transition e)) eqn:E4; [|eauto].
  destruct (checked receipt_verification_is_valid (e_verification e)) eqn:E5; [|eauto].
  apply valid_snapshot_some in E1 as (_ & ? & ?). apply checked_some in E2 as [_ ?].
  apply checked_some in E3 as [_ ?]. apply checked_some in E4 as [_ ?]. apply checked_some in E5 as [_ ?].
  rewrite binding_of_valid by done. cbn. eauto.
Qed.

Lemma denied_ok why e : ∃ d, denied why e = Ok d ∧ d_authorized d = false.
Proof.
  unfold denied. destruct (binding_from_evidence_ok e) as [b Hb].
  destruct (valid_snapshot (e_snapshot e)) as [[src doc]|], (e_operation e);
    rewrite ?action_switch_is_enabled_eq; cbn [mbind result_bind]; rewrite Hb; cbn; eauto.
Qed.

Lemma valid_standing_some a p : valid_standing a = Some p ↔
  a = Typed {| standing_policy := Typed p |} ∧ policy_is_valid p = true.
Proof.
  destruct a as [[q]|]; cbn; [|by split; [|intros [? _]]].
  rewrite checked_some. naive_solver.
Qed.

Lemma mutation_is_active_iff src doc ceiling r c t v op now :
  mutation_is_active src doc ceiling r c t v op now ↔
  source_is_valid src = true ∧ policy_is_valid doc = true ∧ receipt_is_valid r = true
  ∧ context_is_valid c = true ∧ policy_is_valid ceiling = true
  ∧ dispatcher_transition_is_valid t = true ∧ receipt_verification_is_valid v = true
  ∧ is_utc now = true ∧ policy_narrows doc ceiling = true
  ∧ first_failure (binding_checks src doc r c t v now) = None
  ∧ enabled doc = true ∧ permits doc op = true.
Proof.
  rewrite source_valid_iff, !policy_valid_iff, receipt_valid_iff, context_valid_iff,
    transition_valid_iff, verification_valid_iff, policy_narrows_iff, mutation_checks_pass.
  split.
  - intros [Hf (?&?&Hrs) [Es1 Es2] Ep (Et1&Et2&Et3&Et4) (Ed&Ed2&Ed3&Ed4) ? (?&?&?) [??] (Ev&Eb&?) [??] [??]].
    destruct_and!.
    rewrite Es1, Es2, Ep, Et1, Et2, Et3, Et4, Ed, Ed2, Ed3, Ed4, Ev, Eb, Hrs.
    split_and!; auto; try congruence; try apply sha256_hex_match. by eapply dt_window.
  - intros H. destruct_and!. constructor; split_and?; auto; congruence.
Qed.

(** Any evaluation returns a decision; this is the shape of an authorized one. *)
Definition granted (src : RepositoryPolicySource) (doc : RepositoryMutationPolicy)
    (r : RepositoryActivationReceipt) (c : RepositoryMutationContext)
    (t : RepositoryDispatcherTransition) (v : RepositoryReceiptVerification)
    (op : RepositoryMutationOperation) : RepositoryMutationDecision :=
  {| d_operation := Some op; d_authorized := true;
     d_reason := "repository mutation policy is active for this exact operation";
     d_policy_digest := Some (policy_digest doc);
     d_source_fingerprint := Some (s_source_fingerprint src);
     d_receipt_fingerprint := Some (r_receipt_fingerprint r);
     d_enabled := true; d_action_enabled := true;
     d_next_action := "mutation-adapter-may-attempt-readback";
     d_binding := Some (binding_of src doc r c t v) |}.

Definition evidence_of (src : RepositoryPolicySource) (doc : RepositoryMutationPolicy)
    (r : RepositoryActivationReceipt) (c : RepositoryMutationContext)
    (t : RepositoryDispatcherTransition) (v : RepositoryReceiptVerification)
    (op : RepositoryMutationOperation) : Evidence :=
  {| e_snapshot := Typed {| source := Typed src; document := Typed doc |};
     e_receipt := Typed r; e_operation := Typed op; e_context := Typed c;
     e_transition := Typed t; e_verification := Typed v |}.

Lemma evaluate_granted src doc ceiling r c t v op now :
  mutation_is_active src doc ceiling r c t v op now →
  evaluate_repository_mutation_policy (evidence_of src doc r c t v op)
    (Typed {| standing_policy := Typed ceiling |}) (Typed now) = Ok (granted src doc r c t v op).
Proof.
  intros (Hs&Hd&Hr&Hc&Hl&Ht&Hv&Hn&Hw&Hk&He&Hp)%mutation_is_active_iff.
  unfold evaluate_repository_mutation_policy, evidence_of, valid_snapshot, valid_standing,
    binding_from_evidence; cbn [checked e_snapshot e_receipt e_operation e_context e_transition
    e_verification source document standing_policy valid_snapshot].
  rewrite Hs, Hd, Hr, Hc, Hl, Ht, Hv, Hn, Hw, Hk, He, action_switch_is_enabled_eq, Hp.
  cbn [negb mbind result_bind]. by rewrite binding_of_valid.
Qed.

Lemma evaluate_denied_or_granted e standing now :
  (∃ why, evaluate_repository_mutation_policy e standing now = denied why e) ∨
  ∃ src doc ceiling r c t v op tm,
    e = evidence_of src doc r c t v op ∧ standing = Typed {| standing_policy := Typed ceiling |}
    ∧ now = Typed tm ∧ mutation_is_active src doc ceiling r c t v op tm.
Proof.
  unfold evaluate_repository_mutation_policy.
  destruct (e_operation e) as [op|] eqn:E0; [|eauto].
  destruct (valid_snapshot (e_snapshot e)) as [[src doc]|] eqn:E1; [|eauto].
  destruct (checked receipt_is_valid (e_receipt e)) as [r|] eqn:E2; [|eauto].
  destruct (checked context_is_valid (e_context e)) as [c|] eqn:E3; [|eauto].
  destruct (valid_standing standing) as [ceiling|] eqn:E4; [|eauto].
  destruct (checked dispatcher_transition_is_valid (e_transition e)) as [t|] eqn:E5; [|eauto].
  destruct (checked receipt_verification_is_valid (e_verification e)) as [v|] eqn:E6; [|eauto].
  destruct (checked is_utc now) as [tm|] eqn:E7; [|eauto].
  destruct (policy_narrows doc ceiling) eqn:E8; cbn [negb]; [|eauto].
  destruct (first_failure (binding_checks src doc r c t v tm)) eqn:E9; [eauto|].
  destruct (enabled doc) eqn:E10; cbn [negb]; [|eauto].
  rewrite action_switch_is_enabled_eq. cbn [mbind result_bind].
  destruct (permits doc op) eqn:E11; cbn [negb]; [|eauto].
  right. exists src, doc, ceiling, r, c, t, v, op, tm.
  apply valid_snapshot_some in E1 as (? & ? & ?). apply valid_standing_some in E4 as [-> ?].
  apply checked_some in E2 as [? ?]. apply checked_some in E3 as [? ?]. apply checked_some in E5 as [? ?].
  apply checked_some in E6 as [? ?]. apply checked_some in E7 as [-> ?].
  split_and!; [|done|done|by apply mutation_is_active_iff].
  destruct e. unfold evidence_of. cbn [e_snapshot e_receipt e_operation e_context e_transition e_verification] in *.
  congruence.
Qed.

Lemma evaluate_authorized e standing now d :
  evaluate_repository_mutation_policy e standing now = Ok d → d_authorized d = true →
  ∃ src doc ceiling r c t v op tm,
    e = evidence_of src doc r c t v op ∧ standing = Typed {| standing_policy := Typed ceiling |}
    ∧ now = Typed tm ∧ mutation_is_active src doc ceiling r c t v op tm
    ∧ d = granted src doc r c t v op.
Proof.
  intros He Ha. destruct (evaluate_denied_or_granted e standing now)
    as [[why Hd]|(src&doc&ceiling&r&c&t&v&op&tm&->&->&->&A)].
  - destruct (denied_ok why e) as (d' & Hd' & Hf). congruence.
  - exists src, doc, ceiling, r, c, t, v, op, tm. rewrite evaluate_granted in He; [|done]. naive_solver.
Qed.

(** C21 : the evaluator always returns a decision (no validation it repeats can
    raise), and the decision authorizes exactly when a trusted source, an exact
    schema-2 policy, a fresh owner receipt and its external observation agree
    on source, policy, target and dispatcher transition, Roundlet has stopped
    and is reconciled, the policy and the operation's own switch are on, and the
    policy only narrows the reviewed ceiling. *)
Theorem repository_mutation_exact e standing now :
  ∃ d, evaluate_repository_mutation_policy e standing now = Ok d
  ∧ (d_authorized d = true ↔
     ∃ src doc ceiling r c t v op tm,
       e = evidence_of src doc r c t v op ∧ standing = Typed {| standing_policy := Typed ceiling |}
       ∧ now = Typed tm ∧ mutation_is_active src doc ceiling r c t v op tm).
Proof.
  destruct (evaluate_denied_or_granted e standing now)
    as [[why Hd]|(src&doc&ceiling&r&c&t&v&op&tm&->&->&->&A)].
  - destruct (denied_ok why e) as (d & Hok & Hf). exists d. split; [congruence|].
    split; [congruence|]. intros (src&doc&ceiling&r&c&t&v&op&tm&->&->&->&A).
    rewrite evaluate_granted in Hd; [|done]. rewrite Hok in Hd. by injection Hd as <-.
  - exists (granted src doc r c t v op). split; [by apply evaluate_granted|]. naive_solver.
Qed.

(** ** The binding retained with a decision *)

Lemma matches_context_iff b c v : matches_context b (Typed c) (Typed v) = true ↔
  (binding_is_valid b = true ∧ context_is_valid c = true ∧ receipt_verification_is_valid v = true)
  ∧ (b_repository_fingerprint b = c_repository_fingerprint c
     ∧ b_deployment_fingerprint b = c_deployment_fingerprint c
     ∧ b_task_fingerprint b = c_task_fingerprint c ∧ b_candidate_sha b = c_candidate_sha c)
  ∧ (b_receipt_verification_fingerprint b = v_verification_fingerprint v
     ∧ b_receipt_fingerprint b = v_receipt_fingerprint v
     ∧ b_receipt_binding_digest b = v_receipt_binding_digest v ∧ b_receipt_status b = v_status v).
Proof.
  unfold matches_context. cbn [checked].
  destruct (binding_is_valid b), (context_is_valid c), (receipt_verification_is_valid v);
    cbn [andb]; rewrite ?andb_true_iff, ?bool_decide_eq_true; intuition congruence.
Qed.

(** an authorized decision names its operation and carries a binding of
    the evidence, and that binding matches the evaluated context and receipt
    observation and no other. *)
Theorem decision_binding_is_exact src doc r c t v op standing now d
    (Hd : evaluate_repository_mutation_policy (evidence_of src doc r c t v op) standing now = Ok d)
    (Ha : d_authorized d = true) :
  d_operation d = Some op ∧ d_binding d = Some (binding_of src doc r c t v)
  ∧ ∀ c' v', matches_context (binding_of src doc r c t v) (Typed c') (Typed v') = true ↔
             c' = c ∧ v' = v.
Proof.
  destruct (evaluate_authorized _ _ _ _ Hd Ha)
    as (src'&doc'&ceiling&r'&c0&t'&v0&op'&tm&[= <- <- <- <- <- <- <-]&->&->&A&->).
  split_and!; [done|done|]. intros c' v'. rewrite matches_context_iff.
  pose proof A as (Hs&Hdoc&Hr&Hc&_&Ht&Hv&_&_&Hk&_)%mutation_is_active_iff.
  apply mutation_checks_pass in Hk. split.
  - intros (_ & Hc' & Hv'). destruct Hk as (_&_&_&_&_&_&_&Hf&_). clear -Hc' Hv' Hf.
    destruct c, c', v, v', Hc' as (?&?&?&?), Hv' as (?&?&?&?). cbn in *. split; congruence.
  - intros [-> ->]. unfold binding_is_valid. rewrite binding_of_valid by done.
    split_and!; try done; cbn; destruct_and!; congruence.
Qed.

Lemma canonical_mutation_policy_inj p q : dumps (canonical_policy p) = dumps (canonical_policy q) → p = q.
Proof. unfold canonical_policy. intros H. json_fields. destruct p, q; cbn in *. by subst. Qed.

Lemma canonical_transition_inj t u :
  dumps (canonical_transition t) = dumps (canonical_transition u) → t = u.
Proof. unfold canonical_transition. intros H. json_fields. destruct t, u; cbn in *. by subst. Qed.

(** an owner receipt pins everything it activates.  Two mutations that
    are ever authorized under one receipt have the same source, policy,
    dispatcher transition and target, unless SHA-256 collides on the canonical
    texts of the two policies or of the two transitions. *)
Theorem receipt_pins_mutation src1 src2 doc1 doc2 r c1 c2 t1 t2 v1 v2 op1 op2 st1 st2 now1 now2 d1 d2
    (E1 : evaluate_repository_mutation_policy (evidence_of src1 doc1 r c1 t1 v1 op1) st1 now1 = Ok d1)
    (E2 : evaluate_repository_mutation_policy (evidence_of src2 doc2 r c2 t2 v2 op2) st2 now2 = Ok d2)
    (A1 : d_authorized d1 = true) (A2 : d_authorized d2 = true)
    (Hsha : policy_digest doc1 = policy_digest doc2 →
            dumps (canonical_policy doc1) = dumps (canonical_policy doc2))
    (Hsha' : transition_digest t1 = transition_digest t2 →
             dumps (canonical_transition t1) = dumps (canonical_transition t2)) :
  src1 = src2 ∧ doc1 = doc2 ∧ c1 = c2 ∧ t1 = t2.
Proof.
  destruct (evaluate_authorized _ _ _ _ E1 A1)
    as (?&?&?&?&?&?&?&?&?&[= <- <- <- <- <- <- <-]&_&_&B1&_).
  destruct (evaluate_authorized _ _ _ _ E2 A2)
    as (?&?&?&?&?&?&?&?&?&[= <- <- <- <- <- <- <-]&_&_&B2&_).
  destruct B1 as [_ _ [S1 R1] P1 (T1&T2&T3&T4) (D1&_) _ _ _ _ _ _].
  destruct B2 as [_ _ [S2 R2] P2 (U1&U2&U3&U4) (D2&_) _ _ _ _ _ _].
  split_and!.
  - clear -S1 S2 R1 R2. destruct src1, src2; cbn in *; congruence.
  - apply canonical_mutation_policy_inj, Hsha. congruence.
  - clear -T1 T2 T3 T4 U1 U2 U3 U4. destruct c1, c2; cbn in *; congruence.
  - apply canonical_transition_inj, Hsha'. congruence.
Qed.

(** ** The vocabulary *)

Lemma typed_only_typed {A} (l : list A) : typed_only (Typed <$> l) = Some l.
Proof. induction l as [|x l IH]; [done|]. unfold typed_only in *. cbn. by rewrite IH. Qed.

(** the vocabulary check accepts a mapping of distinct keys exactly when
    it is a function on the required keys that is one-to-one into the allowed
    values (and onto them, when asked): no operation is left without its
    switch, no switch governs two operations.  The two mappings of the module
    pass. *)
Theorem vocabulary_one_to_one :
  (∀ (K V : Type) (eqK : EqDecision K) (eqV : EqDecision V) (items : list (K * V))
     (required : list K) (allowed : list V) description all_values,
     validate_total_mapping (Typed (prod_map Typed Typed <$> items)) required allowed
       description all_values = Ok () ↔
     (∀ k, k ∈ items.*1 ↔ k ∈ required) ∧ (∀ v, v ∈ items.*2 → v ∈ allowed) ∧ NoDup items.*2
     ∧ (all_values = true → ∀ v, v ∈ items.*2 ↔ v ∈ allowed))
  ∧ validate_repository_mutation_vocabulary
      (Typed (prod_map Typed Typed <$> REPOSITORY_OPERATION_SWITCH))
      (Typed (prod_map Typed Typed <$> GITHUB_REPOSITORY_OPERATION)) = Ok ().
Proof.
  split; [|vm_compute; reflexivity]. intros K V eqK eqV items required allowed description all_values.
  unfold validate_total_mapping. rewrite require_ok.
  assert ((prod_map Typed Typed <$> items).*1 = Typed <$> items.*1) as ->
    by (rewrite <- !list_fmap_compose; by apply list_fmap_ext).
  assert ((prod_map Typed Typed <$> items).*2 = Typed <$> items.*2) as ->
    by (rewrite <- !list_fmap_compose; by apply list_fmap_ext).
  rewrite !typed_only_typed, !andb_true_iff, impl_b, !same_elements_spec, no_dup_spec, forallb_elem.
  setoid_rewrite bool_decide_eq_true. tauto.
Qed.

(** ** Witnesses *)

Definition sample_source : RepositoryPolicySource :=
  {| s_source_fingerprint := str_repeat "1" 64; s_revision_fingerprint := str_repeat "2" 64 |}.

Definition sample_policy : RepositoryMutationPolicy :=
  {| schema_version := 2; enabled := true; allow_issue_comment := true;
     allow_create_remote_branch := true; allow_update_remote_branch := false;
     allow_delete_remote_branch := false; allow_create_draft_pr := true;
     allow_request_review := false; allow_mark_pr_ready := false; allow_merge_pr := false;
     allow_close_leaf_issue := false; allow_delete_local_branch := false;
     allow_remove_worktree := false |}.

Definition sample_context : RepositoryMutationContext :=
  {| c_repository_fingerprint := str_repeat "3" 64; c_deployment_fingerprint := str_repeat "4" 64;
     c_task_fingerprint := str_repeat "5" 64; c_candidate_sha := str_repeat "6" 40 |}.

Definition sample_transition : RepositoryDispatcherTransition :=
  {| t_evidence_fingerprint := str_repeat "7" 64; t_repository_fingerprint := str_repeat "3" 64;
     t_deployment_fingerprint := str_repeat "4" 64; t_candidate_sha := str_repeat "6" 40;
     roundlet_mutation_capable := false; roundlet_reconciled := true;
     roundwright_mutation_capable := true |}.

Definition sample_receipt : RepositoryActivationReceipt :=
  {| r_owner_fingerprint := str_repeat "8" 64; r_receipt_fingerprint := str_repeat "9" 64;
     r_source_fingerprint := str_repeat "1" 64; r_revision_fingerprint := str_repeat "2" 64;
     r_policy_digest := policy_digest sample_policy; r_schema_version := 2;
     r_repository_fingerprint := str_repeat "3" 64; r_deployment_fingerprint := str_repeat "4" 64;
     r_task_fingerprint := str_repeat "5" 64; r_candidate_sha := str_repeat "6" 40;
     r_dispatcher_transition_digest := transition_digest sample_transition;
     r_activated_at := DateTime 2026 8 6 0 0 0 0 TzUtc;
     r_expires_at := DateTime 2026 8 7 0 0 0 0 TzUtc |}.

Definition sample_verification : RepositoryReceiptVerification :=
  {| v_verification_fingerprint := str_repeat "a" 64; v_receipt_fingerprint := str_repeat "9" 64;
     v_receipt_binding_digest := receipt_binding_digest sample_receipt; v_status := FRESH |}.

Definition sample_evidence (op : RepositoryMutationOperation) : Evidence :=
  evidence_of sample_source sample_policy sample_receipt sample_context sample_transition
    sample_verification op.

Definition sample_standing : dyn StandingRepositoryAuthority :=
  Typed {| standing_policy := Typed sample_policy |}.

Definition sample_now : dyn datetime := Typed (DateTime 2026 8 6 12 0 0 0 TzUtc).

Definition sample_granted (op : RepositoryMutationOperation) : RepositoryMutationDecision :=
  granted sample_source sample_policy sample_receipt sample_context sample_transition
    sample_verification op.

Lemma decision_binding_is_exact_witness :
  d_operation (sample_granted ISSUE_COMMENT) = Some ISSUE_COMMENT.
Proof.
  apply (decision_binding_is_exact sample_source sample_policy sample_receipt sample_context
    sample_transition sample_verification ISSUE_COMMENT sample_standing sample_now
    (sample_granted ISSUE_COMMENT)); vm_compute; reflexivity.
Defined.

Lemma receipt_pins_mutation_witness :
  sample_source = sample_source ∧ sample_policy = sample_policy
  ∧ sample_context = sample_context ∧ sample_transition = sample_transition.
Proof.
  apply (receipt_pins_mutation sample_source sample_source sample_policy sample_policy
    sample_receipt sample_context sample_context sample_transition sample_transition
    sample_verification sample_verification ISSUE_COMMENT CREATE_DRAFT_PR sample_standing
    sample_standing sample_now sample_now (sample_granted ISSUE_COMMENT)
    (sample_granted CREATE_DRAFT_PR)); try (vm_compute; reflexivity); done.
Defined.
