(* ===== verification/AuthorityBlock.v ===== *)
(** * Authority blocks and policy documents (src/roundwright/repository_policy.py)

    The parser of the marked authority blocks of a repository document, the
    policy document built from one, and the dispatcher exclusivity check. *)

From S2P Require Import Prelude Sha256 Json RepositoryPolicy.
Open Scope Z_scope.

(** ** Marked authority blocks *)

Definition ROUNDLET_AUTHORITY_START : string := "# roundlet:repository-authority".
Definition ROUNDLET_AUTHORITY_END : string := "# roundlet:end-repository-authority".
Definition ROUNDWRIGHT_AUTHORITY_START : string := "# roundwright:repository-authority".
Definition ROUNDWRIGHT_AUTHORITY_END : string := "# roundwright:end-repository-authority".

(** The line boundaries of [str.splitlines] among the code points modelled. *)
Definition is_line_break (c : ascii) : bool :=
  existsb (N.eqb (N_of_ascii c)) [10; 11; 12; 13; 28; 29; 30; 133]%N.

(** [str.splitlines()]; [acc] holds the current line reversed. *)
Fixpoint splitlines_from (acc s : list ascii) : list (list ascii) :=
  match s with
  | [] => match acc with [] => [] | _ => [rev acc] end
  | c :: s' =>
      if is_line_break c then
        rev acc ::
        match s' with
        | d :: s'' => if Ascii.eqb c "013"%char && Ascii.eqb d "010"%char
                      then splitlines_from [] s'' else splitlines_from [] s'
        | [] => []
        end
      else splitlines_from (c :: acc) s'
  end.

Definition splitlines (text : string) : list string :=
  map String.string_of_list_ascii (splitlines_from [] (chars text)).

(** [[index for index, line in enumerate(lines) if line == marker]]. *)
Fixpoint indices_from (n : nat) (marker : string) (lines : list string) : list nat :=
  match lines with
  | [] => []
  | l :: lines =>
      if l ==? marker then n :: indices_from (S n) marker lines
      else indices_from (S n) marker lines
  end.

Definition is_key_char (c : ascii) : bool := is_lower c || is_digit c || Ascii.eqb c "_"%char.

Definition is_authority_token (token : string) : bool :=
  (token ==? "true") || (token ==? "false") || is_numeral token.

(** [_AUTHORITY_VALUE.fullmatch(line)]: the key and the token.  The key class
    excludes [:], so the longest prefix is the only candidate. *)
Definition authority_value (line : string) : option (string * string) :=
  match line with
  | String " " (String " " body) =>
      let (key, rest) := span is_key_char body in
      match key, rest with
      | String c _, String ":" (String " " token) =>
          if is_lower c && is_authority_token token then Some (key, token) else None
      | _, _ => None
      end
  | _ => None
  end.

(** [token == "true" if token in {"true", "false"} else int(token)]. *)
Definition token_value (token : string) : py json :=
  if (token ==? "true") || (token ==? "false") then Ok (JBool (token ==? "true"))
  else z ← py_int token; Ok (JInt z).

(** The loop over the block's lines, [result] in insertion order. *)
Fixpoint authority_values (root_key : string) (lines : list string) (result : list (string * json)) :
    py (list (string * json)) :=
  match lines with
  | [] => Ok result
  | line :: lines =>
      match authority_value line with
      | None => raise RepositoryPolicyError (String.append root_key " authority value is malformed")
      | Some (key, token) =>
          if key in? result.*1 then
            raise RepositoryPolicyError
              (String.append root_key " authority block contains duplicate keys")
          else
            value ← token_value token;
            authority_values root_key lines (result ++ [(key, value)])
      end
  end.

(** [contents] that is neither text nor decodable bytes is [Foreign]. *)
Definition parse_marked_authority_block (contents : dyn string)
    (start_marker end_marker root_key : string) : py (list (string * json)) :=
  match contents with
  | Foreign => raise RepositoryPolicyError "repository authority document is malformed"
  | Typed text =>
      let lines := splitlines text in
      match indices_from 0 start_marker lines, indices_from 0 end_marker lines with
      | [s], [e] =>
          if (e <=? s + 1)%nat then
            raise RepositoryPolicyError
              (String.append root_key " authority markers are missing, duplicated, or malformed")
          else
          match take (e - (s + 1)) (drop (s + 1) lines) with
          | root :: block =>
              if root ==? String.append root_key ":" then authority_values root_key block []
              else raise RepositoryPolicyError
                     (String.append root_key " authority root is malformed")
          | [] => raise RepositoryPolicyError (String.append root_key " authority root is malformed")
          end
      | _, _ =>
          raise RepositoryPolicyError
            (String.append root_key " authority markers are missing, duplicated, or malformed")
      end
  end.

(** A keyword argument of the constructor that must be a Boolean. *)
Definition dict_switch (raw : list (string * json)) (name : string) : py bool :=
  match assoc name raw with
  | Some (JBool b) => Ok b
  | Some _ => raise RepositoryPolicyError "repository policy Boolean switch is invalid"
  | None => raise TypeError "missing a required argument"
  end.

Definition dict_version (raw : list (string * json)) : py Z :=
  match assoc "schema_version" raw with
  | Some (JInt z) =>
      _ ← require (z =? REPOSITORY_POLICY_SCHEMA_VERSION) RepositoryPolicyError
            "repository policy schema version is unsupported";
      Ok z
  | Some _ => raise RepositoryPolicyError "repository policy schema version is unsupported"
  | None => raise TypeError "missing a required argument"
  end.

(** The constructor applied to a dict of keyword arguments: exactly these keys,
    an int version and Boolean switches. *)
Definition policy_of_dict (raw : list (string * json)) : py RepositoryMutationPolicy :=
  let switch := dict_switch raw in
  version ← dict_version raw;
  b0 ← switch "enabled";
  b1 ← switch "allow_issue_comment"; b2 ← switch "allow_create_remote_branch";
  b3 ← switch "allow_update_remote_branch"; b4 ← switch "allow_delete_remote_branch";
  b5 ← switch "allow_create_draft_pr"; b6 ← switch "allow_request_review";
  b7 ← switch "allow_mark_pr_ready"; b8 ← switch "allow_merge_pr";
  b9 ← switch "allow_close_leaf_issue"; b10 ← switch "allow_delete_local_branch";
  b11 ← switch "allow_remove_worktree";
  Ok {| schema_version := version; enabled := b0; allow_issue_comment := b1;
        allow_create_remote_branch := b2; allow_update_remote_branch := b3;
        allow_delete_remote_branch := b4; allow_create_draft_pr := b5;
        allow_request_review := b6; allow_mark_pr_ready := b7; allow_merge_pr := b8;
        allow_close_leaf_issue := b9; allow_delete_local_branch := b10;
        allow_remove_worktree := b11 |}.

Record RoundletAuthorityState := { rl_enabled : bool; rl_block_digest : string }.

Definition is_JBool (j : json) : bool := match j with JBool _ => true | _ => false end.

Definition parse_roundlet_authority_state (contents : dyn string) : py RoundletAuthorityState :=
  raw ← parse_marked_authority_block contents ROUNDLET_AUTHORITY_START ROUNDLET_AUTHORITY_END
          "roundlet";
  match assoc "enabled" raw with
  | Some (JBool on) =>
      _ ← require (forallb is_JBool raw.*2) RepositoryPolicyError
            "Roundlet authority block contains an unsupported value";
      let digest := sha256_json (JObj raw) in
      _ ← require_fingerprint digest "Roundlet authority block";
      Ok {| rl_enabled := on; rl_block_digest := digest |}
  | _ => raise RepositoryPolicyError "Roundlet authority block has no strict enabled state"
  end.

Definition parse_roundwright_authority_block (contents : dyn string) : py RepositoryMutationPolicy :=
  raw ← parse_marked_authority_block contents ROUNDWRIGHT_AUTHORITY_START
          ROUNDWRIGHT_AUTHORITY_END "roundwright";
  _ ← require (same_elements raw.*1 POLICY_KEYS) RepositoryPolicyError
        "Roundwright authority block has missing or unsupported keys";
  match policy_of_dict raw with
  | Ok p => Ok p
  | Err _ => raise RepositoryPolicyError "Roundwright authority block is invalid"
  end.

Definition validate_dispatcher_exclusivity (roundlet : dyn RoundletAuthorityState)
    (roundwright : dyn RepositoryMutationPolicy) (roundlet_reconciled : dyn bool) : py unit :=
  match roundlet, roundwright, roundlet_reconciled with
  | Typed rl, Typed rw, Typed reconciled =>
      _ ← require (negb (rl_enabled rl && enabled rw)) RepositoryPolicyError
            "Roundlet and Roundwright cannot both be mutation-capable";
      require (negb (enabled rw && negb reconciled)) RepositoryPolicyError
        "Roundlet must be stopped and reconciled before Roundwright activation"
  | _, _, _ => raise RepositoryPolicyError "dispatcher exclusivity evidence is invalid"
  end.

(** [_reject_duplicate_keys], the hook that builds every object of the document. *)
Fixpoint reject_duplicate_keys (pairs result : list (string * json)) : py (list (string * json)) :=
  match pairs with
  | [] => Ok result
  | (key, value) :: pairs =>
      if key in? result.*1 then
        raise RepositoryPolicyError "repository policy document contains duplicate keys"
      else reject_duplicate_keys pairs (result ++ [(key, value)])
  end.

(** After the hook: [raw] is the decoded document. *)
Definition parse_repository_mutation_policy (raw : json) : py RepositoryMutationPolicy :=
  match raw with
  | JObj fields =>
      _ ← require (same_elements fields.*1 POLICY_KEYS) RepositoryPolicyError
            "repository policy document has missing or unsupported keys";
      match policy_of_dict fields with
      | Ok p => Ok p
      | Err _ => raise RepositoryPolicyError "repository policy document is invalid"
      end
  | _ => raise RepositoryPolicyError "repository policy document has missing or unsupported keys"
  end.

(** ** Authority blocks *)

(** One line of a block as a key and its value. *)
Definition block_entry (line : string) : option (string * json) :=
  match authority_value line with
  | Some (key, token) =>
      match token_value token with Ok value => Some (key, value) | Err _ => None end
  | None => None
  end.

Lemma authority_values_ok root lines acc raw :
  NoDup acc.*1 →
  authority_values root lines acc = Ok raw ↔
  ∃ entries, mapM block_entry lines = Some entries ∧ raw = acc ++ entries ∧ NoDup raw.*1.
Proof.
  revert acc. induction lines as [|line lines IH]; intros acc Hacc.
  - cbn. split; [intros [= <-]; exists []; by rewrite app_nil_r|].
    intros (? & [= <-] & -> & _). by rewrite app_nil_r.
  - cbn [authority_values mapM]. pose proof (eq_refl (block_entry line)) as B.
    unfold block_entry in B at 2. revert B.
    destruct (authority_value line) as [[key token]|]; intros B; rewrite B; cbn [mbind option_bind];
      [|split; [done|by intros (? & ? & _)]].
    case_bool_decide as Hin.
    + split; [done|]. intros (entries & Hm & -> & Hnd). exfalso.
      destruct (token_value token); cbn in Hm; [|done].
      destruct (mapM block_entry lines) eqn:Em; cbn in Hm; [|done]. injection Hm as <-.
      rewrite fmap_app in Hnd. cbn in Hnd.
      apply list.NoDup_app in Hnd as (_ & Hdis & _). apply (Hdis key Hin). constructor.
    + destruct (token_value token) as [value|]; cbn [mbind result_bind];
        [|split; [done|by intros (? & ? & _)]].
      rewrite IH.
      2:{ rewrite fmap_app. apply list.NoDup_app. split_and!; [done| |apply list.NoDup_cons; split; [set_solver|constructor]].
          intros k Hk. cbn. rewrite list_elem_of_singleton. by intros ->. }
      destruct (mapM block_entry lines) as [es|]; cbn; [|split; [by intros (?&?&_)|by intros (?&?&_)]].
      split.
      * intros (? & [= <-] & -> & Hnd). eexists. split; [done|]. by rewrite <- app_assoc in *.
      * intros (? & [= <-] & -> & Hnd). eexists. split; [done|]. by rewrite <- app_assoc.
Qed.

Lemma indices_none n m lines : m ∉ lines → indices_from n m lines = [].
Proof.
  revert n. induction lines as [|l lines IH]; intros n H; [done|]. cbn.
  rewrite bool_decide_eq_false_2 by set_solver. apply IH. set_solver.
Qed.

Lemma indices_app n m l1 l2 :
  indices_from n m (l1 ++ l2) = indices_from n m l1 ++ indices_from (n + length l1) m l2.
Proof.
  revert n. induction l1 as [|l l1 IH]; intros n; cbn; [by rewrite Nat.add_0_r|].
  rewrite IH. replace (S n + length l1)%nat with (n + S (length l1))%nat by lia. by case_bool_decide.
Qed.

Lemma indices_one m lines i : indices_from 0 m lines = [i] →
  ∃ pre post, lines = pre ++ m :: post ∧ length pre = i ∧ m ∉ pre ∧ m ∉ post.
Proof.
  intros H. destruct (decide (m ∈ lines)) as [Hin|Hn]; [|by rewrite indices_none in H].
  apply list_elem_of_split_l in Hin as (pre & post & -> & Hpre).
  rewrite indices_app in H. cbn in H. rewrite (indices_none _ _ pre Hpre), bool_decide_eq_true_2 in H by done.
  injection H as <- Hpost. exists pre, post. split_and!; try done. intros Hin.
  apply list_elem_of_split_l in Hin as (p1 & p2 & -> & Hp1).
  rewrite indices_app, (indices_none _ _ p1 Hp1) in Hpost. cbn in Hpost.
  by rewrite bool_decide_eq_true_2 in Hpost.
Qed.

(** The lines of a document with exactly one block: nothing else in it may
    look like a marker. *)
Record marked_block (lines : list string) (start_marker end_marker root_key : string)
    (body : list string) : Prop := {
  mb_lines : ∃ pre post, lines = pre ++ start_marker :: String.append root_key ":" ::
                                 body ++ end_marker :: post
             ∧ start_marker ∉ pre ∧ end_marker ∉ pre
             ∧ start_marker ∉ body ∧ end_marker ∉ body
             ∧ start_marker ∉ post ∧ end_marker ∉ post;
}.

Section marked.
Context (start_marker end_marker root_key : string).
Context (Hse : start_marker ≠ end_marker)
        (Hrs : String.append root_key ":" ≠ start_marker)
        (Hre : String.append root_key ":" ≠ end_marker).

Lemma parse_marked_ok text raw :
  parse_marked_authority_block (Typed text) start_marker end_marker root_key = Ok raw ↔
  ∃ body, marked_block (splitlines text) start_marker end_marker root_key body
    ∧ mapM block_entry body = Some raw ∧ NoDup raw.*1.
Proof using Hre Hrs Hse.
  assert (Hav : ∀ body, authority_values root_key body [] = Ok raw ↔
            mapM block_entry body = Some raw ∧ NoDup raw.*1).
  { intros body. rewrite authority_values_ok by constructor. split.
    - by intros (? & ? & -> & ?).
    - intros [??]. by exists raw. }
  unfold parse_marked_authority_block. split.
  - destruct (indices_from 0 start_marker (splitlines text)) as [|s [|]] eqn:Es; try done.
    destruct (indices_from 0 end_marker (splitlines text)) as [|e [|]] eqn:Ee; try done.
    apply indices_one in Es as (pre & post & Hl & <- & Hp1 & Hp2).
    apply indices_one in Ee as (pre' & post' & Hl' & <- & Hq1 & Hq2).
    destruct (Nat.leb_spec (length pre') (length pre + 1)) as [|Hlt]; [done|].
    rewrite Hl in Hl'. rewrite Hl.
    assert (∃ body, pre' = pre ++ start_marker :: body) as [body ->].
    { rewrite cons_middle, app_assoc in Hl'. symmetry in Hl'.
      apply app_eq_inv in Hl' as [(k & -> & Hk)|(k & Hk & _)].
      - exists k. by rewrite <- app_assoc.
      - exfalso. apply (f_equal length) in Hk. rewrite !length_app in Hk. cbn in Hk. lia. }
    rewrite <- app_assoc in Hl'. cbn in Hl'. apply app_inj_1 in Hl' as [_ Hl']; [|done].
    injection Hl' as ->.
    rewrite length_app, cons_middle, app_assoc. cbn [length].
    rewrite drop_app_length' by (rewrite length_app; cbn; lia).
    rewrite take_app_length' by lia.
    destruct body as [|root body]; [done|]. case_bool_decide as Hroot; [|done]. subst root.
    intros Ha%Hav. exists body. split; [|done]. constructor. exists pre, post'.
    split; [by rewrite <- app_assoc|]. set_solver.
  - intros (body & [(pre & post & -> & H1 & H2 & H3 & H4 & H5 & H6)] & Hm).
    assert (indices_from 0 start_marker (pre ++ start_marker :: String.append root_key ":" ::
              body ++ end_marker :: post) = [length pre]) as ->.
    { rewrite indices_app, (indices_none _ _ pre) by done. cbn.
      rewrite bool_decide_eq_true_2, bool_decide_eq_false_2 by done. f_equal.
      apply indices_none. set_solver. }
    assert (indices_from 0 end_marker (pre ++ start_marker :: String.append root_key ":" ::
              body ++ end_marker :: post) = [length pre + 2 + length body]%nat) as ->.
    { replace (pre ++ start_marker :: String.append root_key ":" :: body ++ end_marker :: post)
        with ((pre ++ start_marker :: String.append root_key ":" :: body) ++ end_marker :: post)
        by by rewrite <- app_assoc.
      rewrite indices_app, indices_none by set_solver. cbn.
      rewrite bool_decide_eq_true_2 by done. rewrite indices_none by done.
      rewrite length_app. cbn. f_equal. lia. }
    replace (length pre + 2 + length body <=? length pre + 1)%nat with false
      by (symmetry; apply Nat.leb_gt; lia).
    rewrite cons_middle, app_assoc.
    rewrite drop_app_length' by (rewrite length_app; cbn; lia).
    rewrite app_comm_cons, take_app_length' by (cbn; lia).
    rewrite bool_decide_eq_true_2 by done. by apply Hav.
Qed.
End marked.

(** The entries of a policy, one per attribute. *)
Definition policy_entries (p : RepositoryMutationPolicy) : list (string * json) :=
  [("schema_version", JInt (schema_version p));
   ("enabled", JBool (enabled p));
   ("allow_issue_comment", JBool (allow_issue_comment p));
   ("allow_create_remote_branch", JBool (allow_create_remote_branch p));
   ("allow_update_remote_branch", JBool (allow_update_remote_branch p));
   ("allow_delete_remote_branch", JBool (allow_delete_remote_branch p));
   ("allow_create_draft_pr", JBool (allow_create_draft_pr p));
   ("allow_request_review", JBool (allow_request_review p));
   ("allow_mark_pr_ready", JBool (allow_mark_pr_ready p));
   ("allow_merge_pr", JBool (allow_merge_pr p));
   ("allow_close_leaf_issue", JBool (allow_close_leaf_issue p));
   ("allow_delete_local_branch", JBool (allow_delete_local_branch p));
   ("allow_remove_worktree", JBool (allow_remove_worktree p))].

Lemma dict_switch_ok raw name b : dict_switch raw name = Ok b ↔ assoc name raw = Some (JBool b).
Proof. unfold dict_switch. destruct (assoc name raw) as [[]|]; cbn; naive_solver. Qed.

Lemma dict_version_ok raw z : dict_version raw = Ok z ↔ assoc "schema_version" raw = Some (JInt z) ∧ z = 2.
Proof.
  unfold dict_version. destruct (assoc "schema_version" raw) as [[| |w| | |]|]; try naive_solver.
  rewrite bind_ok. setoid_rewrite require_ok. setoid_rewrite Z.eqb_eq.
  unfold REPOSITORY_POLICY_SCHEMA_VERSION. split; [intros (?&->&[= <-])|intros [[= ->] ->]]; eauto using tt.
Qed.

Lemma policy_of_dict_ok raw p : policy_of_dict raw = Ok p ↔
  schema_version p = 2 ∧ Forall (λ kv, assoc kv.1 raw = Some kv.2) (policy_entries p).
Proof.
  unfold policy_of_dict, policy_entries. rewrite !Forall_cons_iff. cbn [fst snd]. split.
  - rewrite bind_ok. intros (z & [Hz ->]%dict_version_ok & H).
    repeat (rewrite bind_ok in H; destruct H as (? & ?%dict_switch_ok & H)).
    injection H as <-. cbn. naive_solver.
  - intros H. destruct_and!.
    rewrite (proj2 (dict_version_ok raw (schema_version p))) by done. cbn [mbind result_bind].
    destruct p; cbn in *.
    repeat (erewrite (proj2 (dict_switch_ok raw _ _)); [|eassumption]; cbn [mbind result_bind]).
    by f_equal.
Qed.

Lemma policy_entries_keys p : (policy_entries p).*1 = POLICY_KEYS.
Proof. done. Qed.

Lemma POLICY_KEYS_nodup : NoDup POLICY_KEYS.
Proof. apply no_dup_spec. vm_compute. reflexivity. Qed.

#[local] Opaque policy_entries.

(** A dict with exactly the policy keys decodes to [p] when it lists the
    attributes of [p] in some order. *)
Lemma policy_of_dict_exact raw p : NoDup raw.*1 →
  (∀ k, k ∈ raw.*1 ↔ k ∈ POLICY_KEYS) ∧ policy_of_dict raw = Ok p ↔
  schema_version p = 2 ∧ raw ≡ₚ policy_entries p.
Proof.
  intros Hnd. rewrite policy_of_dict_ok. split.
  - intros (Hk & Hv & Hall). split; [done|]. rewrite list.Forall_forall in Hall.
    assert (NoDup (policy_entries p).*1) as Hnp by apply POLICY_KEYS_nodup.
    apply NoDup_Permutation; [by apply NoDup_fmap_1 in Hnd|by apply NoDup_fmap_1 in Hnp|].
    intros [k v]. split; intros Hin.
    + assert (k ∈ (policy_entries p).*1) as Hk'.
      { rewrite policy_entries_keys. apply Hk. apply list_elem_of_fmap. by exists (k, v). }
      apply list_elem_of_fmap in Hk' as ([k' v'] & -> & Hin'). cbn in *.
      pose proof (Hall _ Hin') as Ha. cbn in Ha. rewrite (assoc_nodup k' raw v) in Ha by done.
      by injection Ha as ->.
    + apply assoc_elem. apply (Hall _ Hin).
  - intros [Hv Hp]. split_and!; [|done|].
    + intros k. rewrite Hp. by rewrite policy_entries_keys.
    + apply list.Forall_forall. intros [k v] Hin. apply assoc_nodup; [done|]. by rewrite Hp.
Qed.

(** a Roundwright proposal is read from a document exactly when the
    document has one start marker and one end marker, the block between them
    opens with the root key, and its lines are the thirteen attributes of the
    policy, each once, in any order, with schema version 2. *)
Theorem roundwright_block_exact text p :
  parse_roundwright_authority_block (Typed text) = Ok p ↔
  schema_version p = 2 ∧
  ∃ body entries,
    marked_block (splitlines text) ROUNDWRIGHT_AUTHORITY_START ROUNDWRIGHT_AUTHORITY_END
      "roundwright" body
    ∧ mapM block_entry body = Some entries ∧ entries ≡ₚ policy_entries p.
Proof.
  unfold parse_roundwright_authority_block. rewrite bind_ok.
  setoid_rewrite parse_marked_ok; [|by apply (bool_decide_unpack _); vm_compute..].
  split.
  - intros (raw & (body & Hb & Hm & Hnd) & H). apply bind_ok in H as (? & Hk & H).
    apply require_ok in Hk. rewrite same_elements_spec in Hk.
    destruct (policy_of_dict raw) as [q|] eqn:Eq; [|done]. injection H as ->.
    destruct (proj1 (policy_of_dict_exact raw p Hnd)) as [Hv Hp]; [done|].
    split; [done|]. by exists body, raw.
  - intros (Hv & body & raw & Hb & Hm & Hp). exists raw.
    assert (NoDup raw.*1) as Hnd by (rewrite Hp; apply POLICY_KEYS_nodup).
    split; [by exists body|].
    destruct (proj2 (policy_of_dict_exact raw p Hnd)) as [Hk ->]; [done|].
    rewrite (proj2 (same_elements_spec _ _)) by done. done.
Qed.

(** When both proposals are read from their documents and the dispatcher
    check passes, at most one of the two dispatchers is enabled, and an enabled
    Roundwright implies a reconciled Roundlet; and every other combination is
    refused. *)
Lemma dispatchers_exclusive rl rw reconciled :
  validate_dispatcher_exclusivity (Typed rl) (Typed rw) (Typed reconciled) = Ok () ↔
  (enabled rw = true → rl_enabled rl = false ∧ reconciled = true).
Proof.
  rewrite <- is_ok_unit. unfold validate_dispatcher_exclusivity. validator.
  destruct (rl_enabled rl), (enabled rw), reconciled; cbn; naive_solver.
Qed.
