(* ===== verification/DependencyPolicy.v ===== *)
(** * Dependency trust gates (src/roundwright/dependency_policy.py)

    The preflight every helper stage must pass before it runs: a candidate-bound
    policy that is fresh and was admitted by an authority receipt (as the first
    policy of a lineage or as a reviewed change of the previous one), and one
    fresh observation of each component the stage needs, whose identity,
    digests and version the policy accepts. *)

From S2P Require Import Prelude Sha256 Json PyTime.
Open Scope Z_scope.

Inductive DependencyComponent :=
  | PACKAGE | PROVIDER_RUNTIME | GITHUB_CLI | BUILD_BACKEND | GIT_EXECUTABLE | OPTIONAL_ADAPTER.

Definition DependencyComponent_value (c : DependencyComponent) : string :=
  match c with
  | PACKAGE => "package" | PROVIDER_RUNTIME => "provider-runtime" | GITHUB_CLI => "github-cli"
  | BUILD_BACKEND => "build-backend" | GIT_EXECUTABLE => "git-executable"
  | OPTIONAL_ADAPTER => "optional-adapter"
  end.

Inductive DependencyStage :=
  | DISPATCH | GITHUB_READ | GITHUB_MUTATION | PACKAGE_BUILD | PROVIDER_QUALIFICATION
  | STAGE_OPTIONAL_ADAPTER | GIT_ENTRYPOINT.

Inductive PolicyTransitionKind := INITIAL | BOOTSTRAP | UPGRADE | ROLLBACK.

Inductive DependencyDecisionOutcome := PASS | BLOCKED.

Inductive DependencyDecisionCode :=
  | AUTHORIZED | INVALID_CONTEXT | POLICY_UNAVAILABLE | POLICY_STALE | CANDIDATE_MISMATCH
  | PROVENANCE_UNAVAILABLE | PROVENANCE_INVALID | DUPLICATE_PROVENANCE
  | POLICY_COVERAGE_MISSING | PROVENANCE_MISSING | PROVENANCE_STALE | IDENTITY_MISMATCH
  | EXECUTABLE_MISMATCH | VERSION_UNSUPPORTED | POLICY_TRANSITION_INVALID.

Definition DependencyDecisionCode_value (c : DependencyDecisionCode) : string :=
  match c with
  | AUTHORIZED => "authorized" | INVALID_CONTEXT => "invalid-context"
  | POLICY_UNAVAILABLE => "policy-unavailable" | POLICY_STALE => "policy-stale"
  | CANDIDATE_MISMATCH => "candidate-mismatch"
  | PROVENANCE_UNAVAILABLE => "provenance-unavailable"
  | PROVENANCE_INVALID => "provenance-invalid"
  | DUPLICATE_PROVENANCE => "duplicate-provenance"
  | POLICY_COVERAGE_MISSING => "policy-coverage-missing"
  | PROVENANCE_MISSING => "provenance-missing" | PROVENANCE_STALE => "provenance-stale"
  | IDENTITY_MISMATCH => "identity-mismatch" | EXECUTABLE_MISMATCH => "executable-mismatch"
  | VERSION_UNSUPPORTED => "version-unsupported"
  | POLICY_TRANSITION_INVALID => "policy-transition-invalid"
  end.

#[export] Instance DependencyComponent_eq_dec : EqDecision DependencyComponent.
Proof. solve_decision. Defined.
#[export] Instance PolicyTransitionKind_eq_dec : EqDecision PolicyTransitionKind.
Proof. solve_decision. Defined.
#[export] Instance DependencyDecisionOutcome_eq_dec : EqDecision DependencyDecisionOutcome.
Proof. solve_decision. Defined.

(** [_CANONICAL_STAGE_REQUIREMENTS], total on the stages. *)
Definition canonical_stage_requirements (stage : DependencyStage) : list DependencyComponent :=
  match stage with
  | DISPATCH => [PACKAGE; PROVIDER_RUNTIME; GITHUB_CLI; BUILD_BACKEND]
  | GITHUB_READ => [PACKAGE; GITHUB_CLI]
  | GITHUB_MUTATION => [PACKAGE; GITHUB_CLI]
  | PACKAGE_BUILD => [PACKAGE; BUILD_BACKEND]
  | PROVIDER_QUALIFICATION => [PACKAGE; PROVIDER_RUNTIME]
  | STAGE_OPTIONAL_ADAPTER => [PACKAGE; OPTIONAL_ADAPTER]
  | GIT_ENTRYPOINT => [PACKAGE; GIT_EXECUTABLE]
  end.

(** ** Data *)

Record CandidateBinding := {
  repository : string;
  task_id : string;
  candidate_sha : string;
}.

Record VersionRange := { minimum : string; maximum_exclusive : string }.

Record ComponentPolicy := {
  component : DependencyComponent;
  identifier : string;
  versions : VersionRange;
  source_identity : string;
  artifact_digest : string;
  executable_digest : string;
}.

Record PolicyTransitionReview := {
  tr_binding : CandidateBinding;
  tr_reviewer_identity : string;
  tr_authority_digest : string;
  previous_policy_fingerprint : string;
  current_policy_fingerprint : string;
  delta_digest : string;
  review_digest : string;
}.

Record BootstrapPolicyReceipt := {
  br_binding : CandidateBinding;
  br_reviewer_identity : string;
  br_authority_digest : string;
  br_policy_fingerprint : string;
  br_receipt_digest : string;
}.

(** [PolicyTransitionReview | BootstrapPolicyReceipt | None] *)
Inductive Review :=
  | NoReview
  | TransitionReview (r : PolicyTransitionReview)
  | BootstrapReceipt (r : BootstrapPolicyReceipt).

Record PolicyTransition := { kind : PolicyTransitionKind; review : Review }.

Record DependencyPolicy := {
  p_binding : CandidateBinding;
  p_policy_digest : string;
  issued_at : Z;
  freshness_seconds : Z;
  components : list ComponentPolicy;
  transition : PolicyTransition;
}.

Record TrustedDependencyAdmission := {
  a_binding : CandidateBinding;
  a_policy_fingerprint : string;
  a_receipt_digest : string;
  a_reviewer_identity : string;
  a_authority_digest : string;
  a_previous_policy : option DependencyPolicy;
}.

Record ObservedDependency := {
  o_binding : CandidateBinding;
  o_component : DependencyComponent;
  o_identifier : string;
  o_version : string;
  o_source_identity : string;
  o_artifact_digest : string;
  o_executable_digest : string;
  observed_at : Z;
  o_policy_digest : string;
}.

Record DependencyDecision := {
  outcome : DependencyDecisionOutcome;
  code : DependencyDecisionCode;
  d_stage : option DependencyStage;
  binding_fingerprint : option string;
  policy_fingerprint : option string;
  observation_fingerprints : list string;
  evaluated_at : Z;
}.

#[export] Instance CandidateBinding_eq_dec : EqDecision CandidateBinding.
Proof. solve_decision. Defined.
#[export] Instance VersionRange_eq_dec : EqDecision VersionRange.
Proof. solve_decision. Defined.
#[export] Instance ComponentPolicy_eq_dec : EqDecision ComponentPolicy.
Proof. solve_decision. Defined.
#[export] Instance PolicyTransitionReview_eq_dec : EqDecision PolicyTransitionReview.
Proof. solve_decision. Defined.
#[export] Instance BootstrapPolicyReceipt_eq_dec : EqDecision BootstrapPolicyReceipt.
Proof. solve_decision. Defined.
#[export] Instance Review_eq_dec : EqDecision Review.
Proof. solve_decision. Defined.
#[export] Instance PolicyTransition_eq_dec : EqDecision PolicyTransition.
Proof. solve_decision. Defined.
#[export] Instance DependencyPolicy_eq_dec : EqDecision DependencyPolicy.
Proof. solve_decision. Defined.

(** ** Validation *)

Definition is_task_char (c : ascii) : bool := is_lower c || is_digit c || one_of "._-" c.
Definition is_task_first (c : ascii) : bool := is_lower c || is_digit c.

Definition match_task (s : string) : bool := match_ident is_task_first is_task_char 127 s.

Definition match_repository (s : string) : bool :=
  match split_on "/"%char s with
  | [owner; name] => match_ident is_task_first is_task_char 38 owner
                     && match_ident is_task_first is_task_char 99 name
  | _ => false
  end.

Definition safe_identifier (s : string) : bool :=
  match_ident is_lower (λ c, is_lower c || is_digit c || one_of "._/-" c) 127 s.

(** The groups of [_VERSION]: three numerals separated by dots. *)
Definition version_groups (s : string) : option (list string) :=
  match split_on "."%char s with
  | [a; b; c] => if is_numeral a && is_numeral b && is_numeral c then Some [a; b; c] else None
  | _ => None
  end.

Definition is_version (s : string) : bool :=
  match version_groups s with Some _ => true | None => false end.

Definition version_key (s : string) : py (list Z) :=
  match version_groups s with
  | Some groups => mapM py_int groups
  | None => raise AssertionError ""
  end.

(** [(left > right) - (left < right)] on the keys. *)
Definition compare_version (left right : string) : py Z :=
  l ← version_key left; r ← version_key right;
  Ok ((if lex_ltb r l then 1 else 0) - (if lex_ltb l r then 1 else 0)).

Definition CandidateBinding_post_init (b : CandidateBinding) : py unit :=
  require (match_repository (repository b) && match_task (task_id b)
           && match_hex 40 (candidate_sha b))
    DependencyPolicyError "candidate dependency binding is invalid".

Definition VersionRange_post_init (r : VersionRange) : py unit :=
  if negb (is_version (minimum r)) || negb (is_version (maximum_exclusive r)) then
    raise DependencyPolicyError "supported version range is invalid"
  else
    lo ← version_key (minimum r); hi ← version_key (maximum_exclusive r);
    require (lex_ltb lo hi) DependencyPolicyError "supported version range is invalid".

(** [VersionRange.contains]. *)
Definition contains (r : VersionRange) (version : string) : py bool :=
  if negb (is_version version) then Ok false
  else
    lo ← version_key (minimum r); v ← version_key version;
    if lex_ltb v lo then Ok false
    else hi ← version_key (maximum_exclusive r); Ok (lex_ltb v hi).

Definition ComponentPolicy_post_init (c : ComponentPolicy) : py unit :=
  _ ← require (safe_identifier (identifier c) && negb (str_contains "copilot" (identifier c))
               && safe_identifier (source_identity c))
        DependencyPolicyError "dependency component policy is invalid";
  require (match_digest (artifact_digest c) && match_digest (executable_digest c))
    DependencyPolicyError "dependency component policy is invalid".

(** ** Fingerprints *)

Definition binding_payload (b : CandidateBinding) : json :=
  JObj [("repository", JStr (repository b)); ("task_id", JStr (task_id b));
        ("candidate_sha", JStr (candidate_sha b))].

Definition CandidateBinding_fingerprint (b : CandidateBinding) : string :=
  digest_json (binding_payload b).

(** [ComponentPolicy.evidence]. *)
Definition component_evidence (c : ComponentPolicy) : json :=
  JObj [("component", JStr (DependencyComponent_value (component c)));
        ("identifier", JStr (identifier c));
        ("minimum", JStr (minimum (versions c)));
        ("maximum_exclusive", JStr (maximum_exclusive (versions c)));
        ("source_identity", JStr (source_identity c));
        ("artifact_digest", JStr (artifact_digest c));
        ("executable_digest", JStr (executable_digest c))].

Definition core_payload (p : DependencyPolicy) : json :=
  JObj [("binding", JStr (CandidateBinding_fingerprint (p_binding p)));
        ("policy_digest", JStr (p_policy_digest p));
        ("issued_at", JInt (issued_at p));
        ("freshness_seconds", JInt (freshness_seconds p));
        ("components", JArr (map component_evidence (components p)))].

Definition core_fingerprint (p : DependencyPolicy) : string := digest_json (core_payload p).

Definition policy_delta_digest (previous current : DependencyPolicy) : string :=
  digest_json (JObj [("previous", JArr (map component_evidence (components previous)));
                     ("current", JArr (map component_evidence (components current)))]).

Definition review_payload (r : PolicyTransitionReview) : json :=
  JObj [("binding", JStr (CandidateBinding_fingerprint (tr_binding r)));
        ("reviewer_identity", JStr (tr_reviewer_identity r));
        ("authority_digest", JStr (tr_authority_digest r));
        ("previous_policy_fingerprint", JStr (previous_policy_fingerprint r));
        ("current_policy_fingerprint", JStr (current_policy_fingerprint r));
        ("delta_digest", JStr (delta_digest r))].

Definition bootstrap_payload (r : BootstrapPolicyReceipt) : json :=
  JObj [("binding", JStr (CandidateBinding_fingerprint (br_binding r)));
        ("reviewer_identity", JStr (br_reviewer_identity r));
        ("authority_digest", JStr (br_authority_digest r));
        ("policy_fingerprint", JStr (br_policy_fingerprint r))].

Definition observation_payload (o : ObservedDependency) : json :=
  JObj [("binding", JStr (CandidateBinding_fingerprint (o_binding o)));
        ("component", JStr (DependencyComponent_value (o_component o)));
        ("identifier", JStr (o_identifier o));
        ("version", JStr (o_version o));
        ("source_identity", JStr (o_source_identity o));
        ("artifact_digest", JStr (o_artifact_digest o));
        ("executable_digest", JStr (o_executable_digest o));
        ("observed_at", JInt (observed_at o));
        ("policy_digest", JStr (o_policy_digest o))].

Definition observation_fingerprint (o : ObservedDependency) : string :=
  digest_json (observation_payload o).

(** ** Receipts and policies *)

Definition PolicyTransitionReview_post_init (r : PolicyTransitionReview) : py unit :=
  _ ← require (all_true (map match_digest
                 [tr_reviewer_identity r; tr_authority_digest r; previous_policy_fingerprint r;
                  current_policy_fingerprint r; delta_digest r; review_digest r]))
        DependencyPolicyError "policy transition review is invalid";
  require (review_digest r ==? digest_json (review_payload r))
    DependencyPolicyError "policy transition review is invalid".

(** [PolicyTransitionReview.create]. *)
Definition PolicyTransitionReview_create (previous current : dyn DependencyPolicy)
    (reviewer_identity authority_digest : string) : py PolicyTransitionReview :=
  match previous, current with
  | Typed prev, Typed cur =>
      if p_binding prev !=? p_binding cur then
        raise DependencyPolicyError "policy transition review is invalid"
      else
        let evidence :=
          JObj [("binding", JStr (CandidateBinding_fingerprint (p_binding prev)));
                ("reviewer_identity", JStr reviewer_identity);
                ("authority_digest", JStr authority_digest);
                ("previous_policy_fingerprint", JStr (core_fingerprint prev));
                ("current_policy_fingerprint", JStr (core_fingerprint cur));
                ("delta_digest", JStr (policy_delta_digest prev cur))] in
        let r := {| tr_binding := p_binding prev;
                    tr_reviewer_identity := reviewer_identity;
                    tr_authority_digest := authority_digest;
                    previous_policy_fingerprint := core_fingerprint prev;
                    current_policy_fingerprint := core_fingerprint cur;
                    delta_digest := policy_delta_digest prev cur;
                    review_digest := digest_json evidence |} in
        _ ← PolicyTransitionReview_post_init r; Ok r
  | _, _ => raise DependencyPolicyError "policy transition review is invalid"
  end.

Definition BootstrapPolicyReceipt_post_init (r : BootstrapPolicyReceipt) : py unit :=
  _ ← require (all_true (map match_digest
                 [br_reviewer_identity r; br_authority_digest r; br_policy_fingerprint r;
                  br_receipt_digest r]))
        DependencyPolicyError "bootstrap policy receipt is invalid";
  require (br_receipt_digest r ==? digest_json (bootstrap_payload r))
    DependencyPolicyError "bootstrap policy receipt is invalid".

(** [BootstrapPolicyReceipt.create]. *)
Definition BootstrapPolicyReceipt_create (policy : dyn DependencyPolicy)
    (reviewer_identity authority_digest : string) : py BootstrapPolicyReceipt :=
  match policy with
  | Typed p =>
      let evidence :=
        JObj [("binding", JStr (CandidateBinding_fingerprint (p_binding p)));
              ("reviewer_identity", JStr reviewer_identity);
              ("authority_digest", JStr authority_digest);
              ("policy_fingerprint", JStr (core_fingerprint p))] in
      let r := {| br_binding := p_binding p;
                  br_reviewer_identity := reviewer_identity;
                  br_authority_digest := authority_digest;
                  br_policy_fingerprint := core_fingerprint p;
                  br_receipt_digest := digest_json evidence |} in
      _ ← BootstrapPolicyReceipt_post_init r; Ok r
  | Foreign => raise DependencyPolicyError "bootstrap policy receipt is invalid"
  end.

Definition PolicyTransition_post_init (t : PolicyTransition) : py unit :=
  require
    (match kind t, review t with
     | INITIAL, _ => false
     | BOOTSTRAP, TransitionReview _ => false
     | BOOTSTRAP, _ => true
     | (UPGRADE | ROLLBACK), TransitionReview _ => true
     | (UPGRADE | ROLLBACK), _ => false
     end) DependencyPolicyError "dependency policy transition is invalid".

Definition DependencyPolicy_post_init (p : DependencyPolicy) : py unit :=
  _ ← require (match_digest (p_policy_digest p) && (0 <=? issued_at p) && (1 <=? freshness_seconds p))
        DependencyPolicyError "dependency policy is invalid";
  require (negb (components p ==? []) && no_dup (map component (components p)))
    DependencyPolicyError "dependency policy is invalid".

Definition TrustedDependencyAdmission_post_init (a : TrustedDependencyAdmission) : py unit :=
  _ ← require (all_true (map match_digest
                 [a_policy_fingerprint a; a_receipt_digest a; a_reviewer_identity a;
                  a_authority_digest a]))
        DependencyPolicyError "trusted dependency admission is invalid";
  require (match a_previous_policy a with
           | Some p => p_binding p ==? a_binding a
           | None => true
           end) DependencyPolicyError "trusted dependency admission is invalid".

Definition ObservedDependency_post_init (o : ObservedDependency) : py unit :=
  _ ← require (safe_identifier (o_identifier o) && is_version (o_version o)
               && safe_identifier (o_source_identity o)
               && negb (str_contains "copilot" (o_identifier o)))
        DependencyPolicyError "dependency observation is invalid";
  require (all_true (map match_digest [o_artifact_digest o; o_executable_digest o; o_policy_digest o])
           && (0 <=? observed_at o))
    DependencyPolicyError "dependency observation is invalid".

Definition DependencyDecision_post_init (d : DependencyDecision) : py unit :=
  require (forallb match_digest (observation_fingerprints d) && (0 <=? evaluated_at d))
    DependencyPolicyError "dependency decision is invalid".

(** [DependencyPolicy.component]. *)
Definition policy_component (p : DependencyPolicy) (c : DependencyComponent) : option ComponentPolicy :=
  find (λ item, component item ==? c) (components p).

(** [{item.component: item for item in items}]: the last item of a key wins. *)
Definition by_component {A} (key : A → DependencyComponent) (items : list A) :
    list (DependencyComponent * A) := reverse (map (λ i, (key i, i)) items).

(** ** Policy transitions *)

Definition directions (bound : VersionRange → string)
    (before after : list (DependencyComponent * ComponentPolicy)) : py (list Z) :=
  mapM (λ kb : DependencyComponent * ComponentPolicy,
    match assoc kb.1 after with
    | Some a => compare_version (bound (versions a)) (bound (versions kb.2))
    | None => raise KeyError (DependencyComponent_value kb.1)
    end) before.

(** Component keys agree, and every bound moves in the direction of the kind. *)
Definition ranges_move (k : PolicyTransitionKind) (previous current : DependencyPolicy) : py bool :=
  let before := by_component component (components previous) in
  let after := by_component component (components current) in
  if negb (same_elements before.*1 after.*1) then Ok false
  else
    minimum_direction ← directions minimum before after;
    maximum_direction ← directions maximum_exclusive before after;
    if same_elements minimum_direction [0] && same_elements maximum_direction [0] then Ok false
    else
      let moves := minimum_direction ++ maximum_direction in
      Ok (match k with
          | UPGRADE => forallb (λ v, 0 <=? v) moves && existsb (λ v, 0 <? v) moves
          | _ => forallb (λ v, v <=? 0) moves && existsb (λ v, v <? 0) moves
          end).

Definition verify_policy_transition (previous current : dyn DependencyPolicy) : py bool :=
  match previous, current with
  | Typed prev, Typed cur =>
      if p_binding prev !=? p_binding cur then Ok false
      else
      match kind (transition cur), review (transition cur) with
      | (UPGRADE | ROLLBACK) as k, TransitionReview r =>
          if (tr_binding r !=? p_binding cur)
             || (previous_policy_fingerprint r !=? core_fingerprint prev)
             || (current_policy_fingerprint r !=? core_fingerprint cur)
             || (delta_digest r !=? policy_delta_digest prev cur)
          then Ok false
          else ranges_move k prev cur
      | _, _ => Ok false
      end
  | _, _ => Ok false
  end.

(** The branch of [verify_policy_admission] for a policy with a predecessor. *)
Definition change_admitted (p : DependencyPolicy) (previous_policy : dyn DependencyPolicy)
    (a : TrustedDependencyAdmission) : py bool :=
  match previous_policy with
  | Typed prev =>
      if a_previous_policy a !=? Some prev then Ok false
      else
        moved ← verify_policy_transition previous_policy (Typed p);
        if negb moved then Ok false
        else
          Ok (match review (transition p) with
              | TransitionReview r =>
                  (review_digest r, tr_reviewer_identity r, tr_authority_digest r)
                  ==? (a_receipt_digest a, a_reviewer_identity a, a_authority_digest a)
              | _ => false
              end)
  | Foreign => Ok false
  end.

Definition verify_policy_admission (policy previous_policy : dyn DependencyPolicy)
    (trusted_admission : dyn TrustedDependencyAdmission) : py bool :=
  match policy, trusted_admission with
  | Typed p, Typed a =>
      if (a_binding a !=? p_binding p) || (a_policy_fingerprint a !=? core_fingerprint p) then Ok false
      else
      match kind (transition p), review (transition p) with
      | BOOTSTRAP, BootstrapReceipt r =>
          Ok ((a_previous_policy a ==? None)
              && (br_binding r ==? p_binding p)
              && (br_policy_fingerprint r ==? core_fingerprint p)
              && ((br_receipt_digest r, br_reviewer_identity r, br_authority_digest r)
                  ==? (a_receipt_digest a, a_reviewer_identity a, a_authority_digest a)))
      | _, _ => change_admitted p previous_policy a
      end
  | _, _ => Ok false
  end.

(** ** The preflight *)

(** The [observations] argument: [None], a value that is not iterable, or items. *)
Inductive Observations :=
  | ObservationsNone
  | ObservationsNotIterable
  | ObservationsOf (items : list (dyn ObservedDependency)).

Definition validate_observation (p : DependencyPolicy) (expected : ComponentPolicy)
    (o : ObservedDependency) (now : Z) : py (option DependencyDecisionCode) :=
  if o_policy_digest o !=? p_policy_digest p then Ok (Some CANDIDATE_MISMATCH)
  else if (freshness_seconds p <? now - observed_at o) || (now <? observed_at o) then
    Ok (Some PROVENANCE_STALE)
  else if (o_identifier o, o_source_identity o, o_artifact_digest o)
          !=? (identifier expected, source_identity expected, artifact_digest expected) then
    Ok (Some IDENTITY_MISMATCH)
  else if o_executable_digest o !=? executable_digest expected then Ok (Some EXECUTABLE_MISMATCH)
  else
    supported ← contains (versions expected) (o_version o);
    Ok (if (supported : bool) then None else Some VERSION_UNSUPPORTED).

Definition blocked (binding : dyn CandidateBinding) (stage : dyn DependencyStage)
    (why : DependencyDecisionCode) (now : dyn Z) : py DependencyDecision :=
  let d := {| outcome := BLOCKED; code := why;
              d_stage := match stage with Typed s => Some s | Foreign => None end;
              binding_fingerprint :=
                match binding with Typed b => Some (CandidateBinding_fingerprint b) | Foreign => None end;
              policy_fingerprint := None; observation_fingerprints := [];
              evaluated_at := match now with Typed t => if 0 <=? t then t else 0 | Foreign => 0 end |} in
  _ ← DependencyDecision_post_init d; Ok d.

(** The loop over the required components: a code that blocks, or the
    fingerprints of the selected observations. *)
Fixpoint select_observations (p : DependencyPolicy)
    (records : list (DependencyComponent * ObservedDependency)) (now : Z)
    (required : list DependencyComponent) : py (DependencyDecisionCode + list string) :=
  match required with
  | [] => Ok (inr [])
  | c :: required =>
      match policy_component p c, assoc c records with
      | None, _ => Ok (inl POLICY_COVERAGE_MISSING)
      | Some _, None => Ok (inl PROVENANCE_MISSING)
      | Some expected, Some o =>
          why ← validate_observation p expected o now;
          match why with
          | Some why => Ok (inl why)
          | None =>
              rest ← select_observations p records now required;
              Ok (match rest with
                  | inl why => inl why
                  | inr selected => inr (observation_fingerprint o :: selected)
                  end)
          end
      end
  end.

Definition typed_items {A} (l : list (dyn A)) : option (list A) :=
  mapM (λ d, match d with Typed a => Some a | Foreign => None end) l.

Definition evaluate_dependency_preflight (binding : dyn CandidateBinding)
    (policy : dyn DependencyPolicy) (observations : Observations) (stage : dyn DependencyStage)
    (now : dyn Z) (previous_policy : dyn DependencyPolicy)
    (trusted_admission : dyn TrustedDependencyAdmission) : py DependencyDecision :=
  let blocked why := blocked binding stage why now in
  match binding, stage, checked (Z.leb 0) now with
  | Typed b, Typed st, Some t =>
    match policy with
    | Foreign => blocked POLICY_UNAVAILABLE
    | Typed p =>
      if p_binding p !=? b then blocked CANDIDATE_MISMATCH
      else if (freshness_seconds p <? t - issued_at p) || (t <? issued_at p) then blocked POLICY_STALE
      else
        admitted ← verify_policy_admission policy previous_policy trusted_admission;
        if negb admitted then blocked POLICY_TRANSITION_INVALID
        else
        match observations with
        | ObservationsNone => blocked PROVENANCE_UNAVAILABLE
        | ObservationsNotIterable => blocked PROVENANCE_INVALID
        | ObservationsOf items =>
          match typed_items items with
          | None => blocked PROVENANCE_INVALID
          | Some records =>
            if existsb (λ o, o_binding o !=? b) records then blocked CANDIDATE_MISMATCH
            else if negb (no_dup (map o_component records)) then blocked DUPLICATE_PROVENANCE
            else
              selection ← select_observations p (by_component o_component records) t
                            (canonical_stage_requirements st);
              match selection with
              | inl why => blocked why
              | inr selected =>
                  let d := {| outcome := PASS; code := AUTHORIZED; d_stage := Some st;
                              binding_fingerprint := Some (CandidateBinding_fingerprint b);
                              policy_fingerprint := Some (core_fingerprint p);
                              observation_fingerprints := selected; evaluated_at := t |} in
                  _ ← DependencyDecision_post_init d; Ok d
              end
          end
        end
    end
  | _, _, _ => blocked INVALID_CONTEXT
  end.

(** [execute_after_dependency_preflight]: the action is a computation on the
    caller's state, which it may change. *)
Definition execute_after_dependency_preflight {S A} (binding : dyn CandidateBinding)
    (policy : dyn DependencyPolicy) (observations : Observations) (stage : dyn DependencyStage)
    (now : dyn Z) (action : S → py A * S) (previous_policy : dyn DependencyPolicy)
    (trusted_admission : dyn TrustedDependencyAdmission) (s : S) : py A * S :=
  match evaluate_dependency_preflight binding policy observations stage now previous_policy
          trusted_admission with
  | Err e => (Err e, s)
  | Ok d =>
      if outcome d !=? PASS then
        (raise DependencyPolicyError (DependencyDecisionCode_value (code d)), s)
      else action s
  end.

Record DependencyExecutionControl := {
  x_policy : DependencyPolicy;
  x_observations : list ObservedDependency;
  x_admission : TrustedDependencyAdmission;
}.

Definition DependencyExecutionControl_post_init (x : DependencyExecutionControl) : py unit :=
  require (a_binding (x_admission x) ==? p_binding (x_policy x)) DependencyPolicyError
    "dependency execution control is invalid".

(** [DependencyExecutionControl.require]. *)
Definition control_require (x : DependencyExecutionControl) (binding : dyn CandidateBinding)
    (stage : dyn DependencyStage) (now : dyn Z) : py unit :=
  d ← evaluate_dependency_preflight binding (Typed (x_policy x))
        (ObservationsOf (map Typed (x_observations x))) stage now
        (match a_previous_policy (x_admission x) with Some p => Typed p | None => Foreign end)
        (Typed (x_admission x));
  require (outcome d ==? PASS) DependencyPolicyError (DependencyDecisionCode_value (code d)).

(** ** Specification *)

(** Versions are ordered by their three numbers. *)
Definition version_le (a b : string) : Prop :=
  ∃ x y, version_key a = Ok x ∧ version_key b = Ok y ∧ lex_ltb y x = false.

Definition version_lt (a b : string) : Prop :=
  ∃ x y, version_key a = Ok x ∧ version_key b = Ok y ∧ lex_ltb x y = true.

Definition range_le (a b : VersionRange) : Prop :=
  version_le (minimum a) (minimum b) ∧ version_le (maximum_exclusive a) (maximum_exclusive b).

(** One bound of one component moves up. *)
Definition range_lt (a b : VersionRange) : Prop :=
  version_lt (minimum a) (minimum b) ∨ version_lt (maximum_exclusive a) (maximum_exclusive b).

(** [p] supports no version range below [q]'s, and at least one above it. *)
Record raises (q p : DependencyPolicy) : Prop := {
  ra_covers : ∀ c, c ∈ map component (components q) ↔ c ∈ map component (components p);
  ra_le : ∀ a b, a ∈ components q → b ∈ components p → component a = component b →
          range_le (versions a) (versions b);
  ra_lt : ∃ a b, a ∈ components q ∧ b ∈ components p ∧ component a = component b
          ∧ range_lt (versions a) (versions b);
}.

Record review_covers (r : PolicyTransitionReview) (q p : DependencyPolicy) : Prop := {
  rc_binding : tr_binding r = p_binding p ∧ p_binding q = p_binding p;
  rc_previous : previous_policy_fingerprint r = core_fingerprint q;
  rc_current : current_policy_fingerprint r = core_fingerprint p;
  rc_delta : delta_digest r = policy_delta_digest q p;
}.

(** ** Lemmas *)

Lemma compare_version_ok a b z : compare_version a b = Ok z →
  (0 ≤ z ↔ version_le b a) ∧ (0 < z ↔ version_lt b a)
  ∧ (z ≤ 0 ↔ version_le a b) ∧ (z < 0 ↔ version_lt a b).
Proof.
  unfold compare_version, version_lt, version_le.
  destruct (version_key a) as [x|] eqn:Ea, (version_key b) as [y|] eqn:Eb; cbn; try done.
  intros [= <-]. pose proof (lex_ltb_asym x y).
  destruct (lex_ltb y x) eqn:Hyx, (lex_ltb x y) eqn:Hxy; cbn; [naive_solver| | |];
    split_and!; (split; [try lia; eauto|]); intros (? & ? & ? & ? & ?); simplify_eq; lia || congruence.
Qed.

Lemma version_le_compare a b : version_le a b → ∃ z, compare_version a b = Ok z.
Proof. intros (x & y & Hx & Hy & _). unfold compare_version. rewrite Hx, Hy. cbn. eauto. Qed.

Lemma compare_version_swap a b z : compare_version a b = Ok z → compare_version b a = Ok (- z).
Proof.
  unfold compare_version. destruct (version_key a), (version_key b); cbn; try done.
  intros [= <-]. f_equal. lia.
Qed.

Lemma by_component_perm {A} (key : A → DependencyComponent) l :
  by_component key l ≡ₚ (λ i, (key i, i)) <$> l.
Proof. apply reverse_Permutation. Qed.

Lemma by_component_keys {A} (key : A → DependencyComponent) l :
  (by_component key l).*1 ≡ₚ map key l.
Proof. rewrite by_component_perm, <- list_fmap_compose. done. Qed.

Lemma by_component_elem {A} (key : A → DependencyComponent) l c i :
  (c, i) ∈ by_component key l ↔ i ∈ l ∧ key i = c.
Proof. rewrite by_component_perm, list_elem_of_fmap. naive_solver. Qed.

Lemma by_component_lookup {A} (key : A → DependencyComponent) l c i :
  NoDup (map key l) → assoc c (by_component key l) = Some i ↔ i ∈ l ∧ key i = c.
Proof.
  intros Hnd. rewrite <- by_component_elem. split; [apply assoc_elem|].
  apply assoc_nodup. by rewrite by_component_keys.
Qed.

Section transitions.
Context (q p : DependencyPolicy).
Context (Hq : NoDup (map component (components q))) (Hp : NoDup (map component (components p))).

Definition same_key (a b : ComponentPolicy) : Prop :=
  a ∈ components q ∧ b ∈ components p ∧ component a = component b.

Lemma directions_ok bound ms :
  directions bound (by_component component (components q)) (by_component component (components p)) = Ok ms →
  (∀ a b, same_key a b →
     ∃ z, z ∈ ms ∧ compare_version (bound (versions b)) (bound (versions a)) = Ok z)
  ∧ (∀ z, z ∈ ms → ∃ a b, same_key a b
     ∧ compare_version (bound (versions b)) (bound (versions a)) = Ok z).
Proof using Hp.
  intros H. split.
  - intros a b (Ha & Hb & Hab).
    destruct (mapM_elem_l _ _ _ (component a, a) H) as (z & Hz & E); [by apply by_component_elem|].
    exists z. split; [done|]. cbn in E.
    by rewrite (proj2 (by_component_lookup component (components p) (component a) b Hp)) in E.
  - intros z Hz. destruct (mapM_elem_r _ _ _ _ H Hz) as ([c a] & [Ha <-]%by_component_elem & E).
    cbn in E. destruct (assoc _ _) as [b|] eqn:Eb; [|done].
    apply by_component_lookup in Eb as [Hb Hc]; [|done]. by exists a, b.
Qed.

Lemma directions_total bound :
  (∀ c, c ∈ map component (components q) → c ∈ map component (components p)) →
  (∀ a b, same_key a b → ∃ z, compare_version (bound (versions b)) (bound (versions a)) = Ok z) →
  ∃ ms, directions bound (by_component component (components q))
          (by_component component (components p)) = Ok ms.
Proof using Hp.
  intros Hc Hab. apply mapM_total. intros [c a] [Ha <-]%by_component_elem. cbn.
  assert (component a ∈ map component (components p)) as Hin
    by (apply Hc, list_elem_of_fmap; eauto).
  apply list_elem_of_fmap in Hin as (b & Hb & Hinb).
  rewrite (proj2 (by_component_lookup component (components p) (component a) b Hp)) by done.
  by apply Hab.
Qed.

(** The code's decision on a list of directions. *)
Definition moves_ok (k : PolicyTransitionKind) (mins maxs : list Z) : bool :=
  match k with
  | UPGRADE => forallb (λ v, 0 <=? v) (mins ++ maxs) && existsb (λ v, 0 <? v) (mins ++ maxs)
  | _ => forallb (λ v, v <=? 0) (mins ++ maxs) && existsb (λ v, v <? 0) (mins ++ maxs)
  end.

Lemma moves_ok_iff k mins maxs : moves_ok k mins maxs = true ↔
  ∃ s, s = (match k with UPGRADE => 1 | _ => -1 end)
  ∧ (∀ z, z ∈ mins ∨ z ∈ maxs → 0 ≤ s * z) ∧ ∃ z, (z ∈ mins ∨ z ∈ maxs) ∧ 0 < s * z.
Proof.
  unfold moves_ok. destruct k; rewrite andb_true_iff, forallb_elem, existsb_elem;
    setoid_rewrite elem_of_app;
    (split; [intros [H (z & Hz & Hlt)]; eexists; split; [done|]|intros (? & -> & H & z & Hz & Hlt)]);
    (split; [intros y Hy; pose proof (H y Hy); breflect; lia|exists z; split; [done|]; breflect; lia]).
Qed.

Lemma ranges_move_iff k : ranges_move k q p = Ok true ↔
  (∀ c, c ∈ map component (components q) ↔ c ∈ map component (components p))
  ∧ ∃ mins maxs,
      directions minimum (by_component component (components q))
        (by_component component (components p)) = Ok mins
      ∧ directions maximum_exclusive (by_component component (components q))
          (by_component component (components p)) = Ok maxs
      ∧ moves_ok k mins maxs = true.
Proof.
  unfold ranges_move.
  assert (same_elements (by_component component (components q)).*1
            (by_component component (components p)).*1 = true ↔
          ∀ c, c ∈ map component (components q) ↔ c ∈ map component (components p)) as Hk.
  { rewrite same_elements_spec. by setoid_rewrite by_component_keys. }
  destruct (same_elements _ _); cbn [negb]; [|naive_solver].
  rewrite bind_ok. setoid_rewrite bind_ok.
  assert (∀ mins maxs, same_elements mins [0] && same_elements maxs [0] = true →
            moves_ok k mins maxs = false) as Hz.
  { intros mins maxs [H1 H2]%andb_true_iff. rewrite same_elements_spec in H1, H2.
    apply not_true_iff_false. rewrite moves_ok_iff. intros (s & _ & _ & z & Hz & Hlt).
    rewrite H1, H2, list_elem_of_singleton in Hz. destruct Hz; subst; lia. }
  split.
  - intros (mins & E1 & maxs & E2 & H). split; [by apply Hk|]. exists mins, maxs. split_and!; try done.
    destruct (_ && _); [done|]. by injection H.
  - intros (_ & mins & maxs & E1 & E2 & H). exists mins. split; [done|]. exists maxs. split; [done|].
    destruct (_ && _) eqn:E; [by rewrite (Hz _ _ E) in H|]. by f_equal.
Qed.

Definition sign (k : PolicyTransitionKind) : Z := match k with UPGRADE => 1 | _ => -1 end.

(** Every bound moves in the direction of the kind, and one moves strictly. *)
Lemma ranges_move_signs k : ranges_move k q p = Ok true ↔
  (∀ c, c ∈ map component (components q) ↔ c ∈ map component (components p))
  ∧ (∀ a b, same_key a b → ∃ y z,
       compare_version (minimum (versions b)) (minimum (versions a)) = Ok y ∧ 0 ≤ sign k * y
       ∧ compare_version (maximum_exclusive (versions b)) (maximum_exclusive (versions a)) = Ok z
       ∧ 0 ≤ sign k * z)
  ∧ ∃ a b z, same_key a b
       ∧ (compare_version (minimum (versions b)) (minimum (versions a)) = Ok z
          ∨ compare_version (maximum_exclusive (versions b)) (maximum_exclusive (versions a)) = Ok z)
       ∧ 0 < sign k * z.
Proof using Hp.
  rewrite ranges_move_iff. setoid_rewrite moves_ok_iff. fold (sign k). split.
  - intros (Hc & mins & maxs & E1 & E2 & s & -> & Hall & z & Hz & Hlt).
    apply directions_ok in E1 as [A1 B1]. apply directions_ok in E2 as [A2 B2]. split_and!; [done| |].
    + intros a b Hab. destruct (A1 a b Hab) as (x & Hx & Ex). destruct (A2 a b Hab) as (y & Hy & Ey).
      exists x, y. split_and!; auto.
    + destruct Hz as [(a & b & Hab & E)%B1|(a & b & Hab & E)%B2]; exists a, b, z; auto.
  - intros (Hc & Hall & a & b & z & Hab & Ez & Hlt). split; [done|].
    destruct (directions_total minimum) as [mins E1].
    { intros c. apply Hc. } { intros a' b' H'. destruct (Hall a' b' H') as (y & _ & ? & _). by exists y. }
    destruct (directions_total maximum_exclusive) as [maxs E2].
    { intros c. apply Hc. } { intros a' b' H'. destruct (Hall a' b' H') as (_ & y & _ & _ & ? & _). by exists y. }
    exists mins, maxs. split_and!; [done..|]. exists (sign k). split; [done|].
    apply directions_ok in E1 as [A1 B1]. apply directions_ok in E2 as [A2 B2]. split.
    + intros x [(a' & b' & H' & E)%B1|(a' & b' & H' & E)%B2];
        destruct (Hall a' b' H') as (y1 & y2 & ? & ? & ? & ?); congruence.
    + exists z. split; [|done].
      destruct Ez as [E|E]; [left; destruct (A1 a b Hab) as (y & ? & ?)|right; destruct (A2 a b Hab) as (y & ? & ?)];
        congruence.
Qed.
End transitions.

Lemma ranges_move_upgrade q p :
  NoDup (map component (components p)) → ranges_move UPGRADE q p = Ok true ↔ raises q p.
Proof.
  intros Hp. rewrite ranges_move_signs by done. unfold sign. split.
  - intros (Hc & Hall & a & b & z & Hab & Ez & Hlt). constructor; [done| |].
    + intros a' b' Ha Hb H. destruct (Hall a' b') as (y1 & y2 & E1 & ? & E2 & ?); [done|].
      apply compare_version_ok in E1, E2. split; [apply E1|apply E2]; lia.
    + exists a, b. destruct Hab as (?&?&?). split_and!; try done.
      destruct Ez as [E|E]; apply compare_version_ok in E; [left|right]; apply E; lia.
  - intros [Hc Hle (a & b & Ha & Hb & Hab & Hlt)]. split_and!; [done| |].
    + intros a' b' (Ha' & Hb' & H'). destruct (Hle a' b' Ha' Hb' H') as [L1 L2].
      destruct (version_le_compare _ _ L1) as [y Ey%compare_version_swap].
      destruct (version_le_compare _ _ L2) as [z Ez%compare_version_swap].
      exists (- y), (- z). split_and!; try done;
        [apply compare_version_ok in Ey|apply compare_version_ok in Ez];
        [apply Ey in L1|apply Ez in L2]; lia.
    + destruct (Hle a b Ha Hb Hab) as [L1 L2].
      destruct (version_le_compare _ _ L1) as [y Ey%compare_version_swap].
      destruct (version_le_compare _ _ L2) as [z Ez%compare_version_swap].
      destruct Hlt as [L|L]; [exists a, b, (- y)|exists a, b, (- z)]; (split_and!; [done|auto|]);
        [apply compare_version_ok in Ey; apply Ey in L|apply compare_version_ok in Ez; apply Ez in L]; lia.
Qed.

Lemma ranges_move_rollback q p :
  NoDup (map component (components p)) → ranges_move ROLLBACK q p = Ok true ↔ raises p q.
Proof.
  intros Hp. rewrite ranges_move_signs by done. unfold sign. split.
  - intros (Hc & Hall & a & b & z & Hab & Ez & Hlt). constructor; [naive_solver| |].
    + intros a' b' Ha Hb H. destruct (Hall b' a') as (y1 & y2 & E1 & ? & E2 & ?); [done|].
      apply compare_version_ok in E1, E2. split; [apply E1|apply E2]; lia.
    + exists b, a. destruct Hab as (?&?&?). split_and!; try done.
      destruct Ez as [E|E]; apply compare_version_ok in E; [left|right]; apply E; lia.
  - intros [Hc Hle (a & b & Ha & Hb & Hab & Hlt)]. split_and!; [naive_solver| |].
    + intros a' b' (Ha' & Hb' & H'). destruct (Hle b' a' Hb' Ha' (eq_sym H')) as [L1 L2].
      destruct (version_le_compare _ _ L1) as [y Ey]. destruct (version_le_compare _ _ L2) as [z Ez].
      exists y, z. split_and!; try done;
        [apply compare_version_ok in Ey|apply compare_version_ok in Ez];
        [apply Ey in L1|apply Ez in L2]; lia.
    + destruct (Hle a b Ha Hb Hab) as [L1 L2].
      destruct (version_le_compare _ _ L1) as [y Ey]. destruct (version_le_compare _ _ L2) as [z Ez].
      destruct Hlt as [L|L]; [exists b, a, y|exists b, a, z]; (split_and!; [done|auto|]);
        [apply compare_version_ok in Ey; apply Ey in L|apply compare_version_ok in Ez; apply Ez in L]; lia.
Qed.

Lemma version_le_trans a b c : version_le a b → version_le b c → version_le a c.
Proof.
  intros (x & y & Hx & Hy & H1) (y' & z & Hy' & Hz & H2). rewrite Hy in Hy'. injection Hy' as <-.
  exists x, z. split_and!; [done..|]. by apply (lex_le_trans x y z).
Qed.

Lemma version_lt_le_trans a b c : version_lt a b → version_le b c → version_lt a c.
Proof.
  intros (x & y & Hx & Hy & H1) (y' & z & Hy' & Hz & H2). rewrite Hy in Hy'. injection Hy' as <-.
  exists x, z. split_and!; [done..|]. by apply (lex_lt_le_trans x y z).
Qed.

Lemma version_lt_irrefl a : ¬ version_lt a a.
Proof. intros (x & y & Hx & Hy & H). rewrite Hx in Hy. injection Hy as <-. by rewrite lex_ltb_irrefl in H. Qed.

Lemma raises_covered q p b : raises q p → b ∈ components q →
  ∃ c, c ∈ components p ∧ component b = component c.
Proof.
  intros [Hc _ _] Hb. assert (component b ∈ map component (components p)) as Hin
    by (apply Hc, list_elem_of_fmap; eauto).
  apply list_elem_of_fmap in Hin as (c & ? & ?). eauto.
Qed.

Lemma raises_trans q p r : raises q p → raises p r → raises q r.
Proof.
  intros R1 R2. pose proof R1 as [C1 L1 (a & b & Ha & Hb & Hab & Hlt)]. pose proof R2 as [C2 L2 _].
  constructor.
  - intros c. by rewrite C1.
  - intros x z Hx Hz Hxz. destruct (raises_covered q p x R1 Hx) as (y & Hy & Hxy).
    destruct (L1 x y Hx Hy Hxy), (L2 y z Hy Hz); [congruence|].
    split; eapply version_le_trans; eassumption.
  - destruct (raises_covered p r b R2 Hb) as (c & Hc & Hbc). exists a, c.
    split_and!; [done..|congruence|]. destruct (L2 b c Hb Hc Hbc).
    destruct Hlt; [left|right]; eapply version_lt_le_trans; eassumption.
Qed.

Lemma raises_irrefl q p : NoDup (map component (components p)) → raises q p →
  components q ≠ components p.
Proof.
  intros Hnd [_ _ (a & b & Ha & Hb & Hab & Hlt)] E. rewrite E in Ha.
  assert (a = b) as <-.
  { apply list_elem_of_lookup in Ha as [i Hi]. apply list_elem_of_lookup in Hb as [j Hj].
    assert (i = j) as <-; [|congruence].
    apply (NoDup_lookup _ _ _ (component a) Hnd); rewrite list_lookup_fmap;
      [by rewrite Hi|by rewrite Hj, Hab]. }
  destruct Hlt as [H|H]; by apply version_lt_irrefl in H.
Qed.

Lemma policy_components_distinct p : DependencyPolicy_post_init p = Ok () →
  NoDup (map component (components p)).
Proof.
  rewrite <- is_ok_unit. unfold DependencyPolicy_post_init. validator. rewrite no_dup_spec. tauto.
Qed.

Lemma verify_transition_iff q p : NoDup (map component (components p)) →
  verify_policy_transition (Typed q) (Typed p) = Ok true ↔
  ∃ r, review (transition p) = TransitionReview r ∧ review_covers r q p
    ∧ (kind (transition p) = UPGRADE ∧ raises q p ∨ kind (transition p) = ROLLBACK ∧ raises p q).
Proof.
  intros Hp. unfold verify_policy_transition.
  case_bool_decide as Hb; cbn [negb]; [|split; [done|by intros (r & _ & [[]] & _)]].
  destruct (kind (transition p)), (review (transition p)) as [|r|]; try naive_solver.
  all: destruct (_ || _) eqn:E;
    [split; [done|]; intros (? & [= <-] & [[] ? ?] & _);
     rewrite !orb_true_iff, !negb_true_iff, !bool_decide_eq_false in E; tauto|].
  all: rewrite !orb_false_iff, !negb_false_iff, !bool_decide_eq_true in E; destruct_and!.
  - rewrite ranges_move_upgrade by done. split; [intros; exists r; split_and!; auto; by constructor|naive_solver].
  - rewrite ranges_move_rollback by done. split; [intros; exists r; split_and!; auto; by constructor|naive_solver].
Qed.

(** a policy change is accepted exactly when a reviewer's receipt covers
    exactly these two policies and their delta, both policies cover the same
    components, and every supported version range moves in the declared
    direction (up for an upgrade, down for a rollback), at least one strictly. *)
Theorem policy_transition_exact q p (Hp : DependencyPolicy_post_init p = Ok ()) :
  verify_policy_transition (Typed q) (Typed p) = Ok true ↔
  ∃ r, review (transition p) = TransitionReview r ∧ review_covers r q p
    ∧ (kind (transition p) = UPGRADE ∧ raises q p ∨ kind (transition p) = ROLLBACK ∧ raises p q).
Proof. apply verify_transition_iff. by apply policy_components_distinct. Qed.

(** A lineage of accepted upgrades. *)
Inductive upgrade_chain : DependencyPolicy → DependencyPolicy → Prop :=
  | upgrade_one q p : DependencyPolicy_post_init p = Ok () → kind (transition p) = UPGRADE →
      verify_policy_transition (Typed q) (Typed p) = Ok true → upgrade_chain q p
  | upgrade_more q p r : upgrade_chain q p → DependencyPolicy_post_init r = Ok () →
      kind (transition r) = UPGRADE →
      verify_policy_transition (Typed p) (Typed r) = Ok true → upgrade_chain q r.

Lemma accepted_upgrade_raises q p : DependencyPolicy_post_init p = Ok () →
  kind (transition p) = UPGRADE → verify_policy_transition (Typed q) (Typed p) = Ok true → raises q p.
Proof.
  intros Hp%policy_components_distinct Hk (r & _ & _ & [[_ ?]|[? _]])%verify_transition_iff; [done|congruence|done].
Qed.

(** along any lineage of accepted upgrades the supported ranges only move
    up, so no sequence of upgrades returns to the components it started from:
    going back needs a reviewed rollback. *)
Theorem upgrades_never_return q p (H : upgrade_chain q p) :
  raises q p ∧ components q ≠ components p.
Proof.
  assert (raises q p ∧ NoDup (map component (components p))) as [R N].
  { induction H as [q p Hp Hk Hv|q p r _ [IH _] Hr Hk Hv];
      (split; [|by apply policy_components_distinct]);
      [|eapply raises_trans; [done|]]; by apply accepted_upgrade_raises. }
  split; [done|]. by apply raises_irrefl.
Qed.

(** ** The preflight *)

(** How a policy came into force. *)
Inductive admitted (p : DependencyPolicy) (previous : dyn DependencyPolicy)
    (a : TrustedDependencyAdmission) : Prop :=
  | admitted_bootstrap r :
      kind (transition p) = BOOTSTRAP → review (transition p) = BootstrapReceipt r →
      a_previous_policy a = None → br_binding r = p_binding p →
      br_policy_fingerprint r = core_fingerprint p →
      br_receipt_digest r = a_receipt_digest a → br_reviewer_identity r = a_reviewer_identity a →
      br_authority_digest r = a_authority_digest a → admitted p previous a
  | admitted_change q r :
      previous = Typed q → a_previous_policy a = Some q →
      verify_policy_transition (Typed q) (Typed p) = Ok true →
      review (transition p) = TransitionReview r →
      review_digest r = a_receipt_digest a → tr_reviewer_identity r = a_reviewer_identity a →
      tr_authority_digest r = a_authority_digest a → admitted p previous a.

(** The observation of a component that a policy trusts at time [t]. *)
Record trusts (p : DependencyPolicy) (t : Z) (expected : ComponentPolicy) (o : ObservedDependency) : Prop := {
  to_policy : o_policy_digest o = p_policy_digest p;
  to_fresh : observed_at o ≤ t ≤ observed_at o + freshness_seconds p;
  to_identity : o_identifier o = identifier expected
                ∧ o_source_identity o = source_identity expected
                ∧ o_artifact_digest o = artifact_digest expected
                ∧ o_executable_digest o = executable_digest expected;
  to_version : version_le (minimum (versions expected)) (o_version o)
               ∧ version_lt (o_version o) (maximum_exclusive (versions expected));
}.

Record preflight_passes (b : CandidateBinding) (p : DependencyPolicy)
    (records : list ObservedDependency) (st : DependencyStage) (t : Z)
    (previous : dyn DependencyPolicy) (a : TrustedDependencyAdmission) : Prop := {
  pp_time : 0 ≤ t;
  pp_candidate : p_binding p = b ∧ a_binding a = b ∧ ∀ o, o ∈ records → o_binding o = b;
  pp_fresh : issued_at p ≤ t ≤ issued_at p + freshness_seconds p;
  pp_admission : a_policy_fingerprint a = core_fingerprint p ∧ admitted p previous a;
  pp_distinct : NoDup (map o_component records);
  pp_components : ∀ c, c ∈ canonical_stage_requirements st →
    ∃ expected o, policy_component p c = Some expected ∧ o ∈ records ∧ o_component o = c
      ∧ trusts p t expected o;
}.

Lemma contains_iff r v : contains r v = Ok true ↔
  version_le (minimum r) v ∧ version_lt v (maximum_exclusive r).
Proof.
  assert (∀ k, version_key v = Ok k → is_version v = true) as Hv.
  { unfold version_key, is_version. by destruct (version_groups v). }
  unfold contains, version_le, version_lt.
  destruct (version_key v) as [k|e] eqn:Ek.
  - rewrite (Hv k) by done. cbn [negb]. rewrite bind_ok. split.
    + intros (lo & Elo & H). cbn [mbind result_bind] in H.
      destruct (lex_ltb k lo) eqn:E; [done|]. apply bind_ok in H as (hi & Ehi & [= H]).
      split; [by exists lo, k|by exists k, hi].
    + intros [(lo & ? & Elo & [= <-] & E) (? & hi & [= <-] & Ehi & Hhi)]. exists lo. split; [done|].
      cbn [mbind result_bind]. rewrite E. rewrite Ehi. cbn. by rewrite Hhi.
  - split; [|naive_solver]. destruct (negb (is_version v)); [done|].
    destruct (version_key (minimum r)); cbn; done.
Qed.

Lemma validate_observation_none p expected o t :
  validate_observation p expected o t = Ok None ↔ trusts p t expected o.
Proof.
  unfold validate_observation. split.
  - repeat (case_match; [done|]). rewrite bind_ok. intros (sup & Hs & Hsup).
    destruct sup; [|done]. rewrite negb_false_iff, orb_false_iff, bool_decide_eq_true in *.
    destruct_and!. simplify_eq. rewrite Z.ltb_ge in *. constructor; try done; [lia|].
    by apply contains_iff.
  - intros [-> Hf (-> & -> & -> & ->) Hv%contains_iff].
    rewrite !bool_decide_eq_true_2 by done. cbn [negb].
    replace (_ <? _) with false by (symmetry; apply Z.ltb_ge; lia).
    replace (_ <? _) with false by (symmetry; apply Z.ltb_ge; lia). cbn [orb]. by rewrite Hv.
Qed.

Lemma select_observations_inr p records t required :
  NoDup (map o_component records) →
  (∃ sel, select_observations p (by_component o_component records) t required = Ok (inr sel)) ↔
  ∀ c, c ∈ required → ∃ expected o, policy_component p c = Some expected ∧ o ∈ records
    ∧ o_component o = c ∧ trusts p t expected o.
Proof.
  intros Hnd. induction required as [|c required IH]; cbn [select_observations].
  { split; [by intros _ c ?%elem_of_nil|intros _; by eexists]. }
  split.
  - intros [sel H]. destruct (policy_component p c) as [expected|] eqn:Ep; [|done].
    destruct (assoc _ _) as [o|] eqn:Eo; [|done]. apply by_component_lookup in Eo as [Ho Hoc]; [|done].
    apply bind_ok in H as ([why|] & Hw & H); [done|]. apply validate_observation_none in Hw.
    apply bind_ok in H as ([?|rest] & Hr & H); [done|].
    intros c' [->|Hc']%elem_of_cons; [by exists expected, o|]. apply (proj1 IH); eauto.
  - intros H. destruct (H c) as (expected & o & Ep & Ho & Hc & Ht); [constructor|].
    rewrite Ep, (proj2 (by_component_lookup o_component records c o Hnd)) by done.
    rewrite (proj2 (validate_observation_none p expected o t)) by done. cbn [mbind result_bind].
    destruct (proj2 IH) as [sel ->]; [intros; apply H; by constructor|]. cbn. by eexists.
Qed.

Lemma select_observations_digests p records t required sel :
  select_observations p records t required = Ok (inr sel) → forallb match_digest sel = true.
Proof.
  revert sel. induction required as [|c required IH]; intros sel; cbn; [by intros [= <-]|].
  destruct (policy_component p c), (assoc c records) as [o|]; try done.
  intros ([why|] & _ & H)%bind_ok; [done|]. apply bind_ok in H as ([?|rest] & Hr & [= <-]).
  cbn [forallb]. unfold observation_fingerprint. rewrite digest_json_match. by apply IH.
Qed.

Lemma change_admitted_iff p previous a : change_admitted p previous a = Ok true ↔
  ∃ q r, previous = Typed q ∧ a_previous_policy a = Some q
    ∧ verify_policy_transition (Typed q) (Typed p) = Ok true
    ∧ review (transition p) = TransitionReview r ∧ review_digest r = a_receipt_digest a
    ∧ tr_reviewer_identity r = a_reviewer_identity a ∧ tr_authority_digest r = a_authority_digest a.
Proof.
  unfold change_admitted. destruct previous as [q|]; [|naive_solver].
  case_bool_decide as Hpq; cbn [negb]; [|naive_solver]. rewrite bind_ok. split.
  - intros ([] & Hv & H); cbn [negb] in H; [|done]. destruct (review (transition p)) as [|r|]; try done.
    injection H as Hd. apply bool_decide_eq_true in Hd. simplify_eq. by exists q, r.
  - intros (q' & r & [= <-] & _ & Hv & -> & -> & -> & ->). exists true. by rewrite bool_decide_eq_true_2.
Qed.

Lemma admission_iff p previous a : verify_policy_admission (Typed p) previous (Typed a) = Ok true ↔
  a_binding a = p_binding p ∧ a_policy_fingerprint a = core_fingerprint p ∧ admitted p previous a.
Proof.
  unfold verify_policy_admission. destruct (_ || _) eqn:E.
  { rewrite orb_true_iff, !negb_true_iff, !bool_decide_eq_false in E. split; [done|tauto]. }
  rewrite orb_false_iff, !negb_false_iff, !bool_decide_eq_true in E. destruct E as [-> ->].
  transitivity (admitted p previous a); [|tauto].
  destruct (kind (transition p)) eqn:Ek, (review (transition p)) as [|r|r] eqn:Er.
  6: { split.
       - intros [= H]. rewrite !andb_true_iff, !bool_decide_eq_true in H. destruct_and!. simplify_eq.
         by eapply admitted_bootstrap.
       - intros [r' ? Hr|q r' -> ? Hv Hr]; [|congruence].
         rewrite Hr in Er. injection Er as <-. f_equal. rewrite !andb_true_iff, !bool_decide_eq_true.
         split_and!; congruence. }
  all: rewrite change_admitted_iff; split;
    [intros (q & r' & -> & ? & ? & ? & ? & ? & ?); by eapply admitted_change
    |intros [|q]; [congruence|]; eexists q, _; done].
Qed.

Lemma typed_items_some {A} (l : list (dyn A)) k : typed_items l = Some k ↔ l = map Typed k.
Proof.
  unfold typed_items. revert k. induction l as [|[x|] l IH]; intros k; cbn.
  - split; [by intros [= <-]|by destruct k].
  - split.
    + intros (k' & Hk' & [= <-])%bind_Some. cbn. f_equal. by apply IH.
    + destruct k as [|y k]; [done|]. cbn. intros [= <- Hl]. by rewrite (proj2 (IH k) Hl).
  - split; [done|by destruct k].
Qed.

Lemma blocked_ok binding stage why now :
  ∃ d, blocked binding stage why now = Ok d ∧ outcome d = BLOCKED ∧ code d = why
    ∧ policy_fingerprint d = None ∧ observation_fingerprints d = [].
Proof.
  unfold blocked, DependencyDecision_post_init. cbn [forallb observation_fingerprints evaluated_at andb].
  destruct now as [t|]; [destruct (Z.leb_spec 0 t)|]; cbn; try by eexists.
  rewrite (proj2 (Z.leb_le 0 t)) by done. cbn. by eexists.
Qed.

Lemma preflight_iff binding policy observations stage now previous admission :
  (∃ d, evaluate_dependency_preflight binding policy observations stage now previous admission = Ok d
     ∧ outcome d = PASS) ↔
  ∃ b p records st t a, binding = Typed b ∧ policy = Typed p ∧ stage = Typed st ∧ now = Typed t
    ∧ admission = Typed a ∧ observations = ObservationsOf (map Typed records)
    ∧ preflight_passes b p records st t previous a.
Proof.
  split.
  - intros (d & H & Hd). unfold evaluate_dependency_preflight in H.
    assert (∀ why, blocked binding stage why now ≠ Ok d) as Hb.
    { intros why. destruct (blocked_ok binding stage why now) as (d' & -> & ? & _). congruence. }
    destruct binding as [b|]; [|by apply Hb in H]. destruct stage as [st|]; [|by apply Hb in H].
    destruct (checked (Z.leb 0) now) as [t|] eqn:Et; [|by apply Hb in H].
    apply checked_some in Et as [-> Ht%Z.leb_le]. destruct policy as [p|]; [|by apply Hb in H].
    case_bool_decide as Hpb; cbn [negb] in H; [|by apply Hb in H].
    destruct (_ || _) eqn:Ef in H; [by apply Hb in H|]. rewrite orb_false_iff, !Z.ltb_ge in Ef.
    apply bind_ok in H as (ok & Hadm & H). destruct ok; cbn [negb] in H; [|by apply Hb in H].
    destruct admission as [a|]; [|by cbn in Hadm]. apply admission_iff in Hadm as (? & ? & ?).
    destruct observations as [| |items]; [by apply Hb in H..|].
    destruct (typed_items items) as [records|] eqn:Er; [|by apply Hb in H].
    apply typed_items_some in Er as ->.
    destruct (existsb _ records) eqn:Eb in H; [by apply Hb in H|].
    rewrite existsb_elem_false in Eb.
    destruct (no_dup _) eqn:En in H; cbn [negb] in H; [|by apply Hb in H]. apply no_dup_spec in En.
    apply bind_ok in H as ([why|sel] & Hs & H); [by apply Hb in H|].
    exists b, p, records, st, t, a. split_and!; try done.
    constructor; try done; [|lia|].
    + split_and!; [done|congruence|]. intros o Ho%Eb. by rewrite negb_false_iff, bool_decide_eq_true in Ho.
    + apply select_observations_inr; eauto.
  - intros (b & p & records & st & t & a & -> & -> & -> & -> & -> & -> & A).
    destruct A as [Ht (<- & Ha & Hob) Hf [Hfp Hadm] Hnd Hc].
    unfold evaluate_dependency_preflight. cbn [checked]. rewrite (proj2 (Z.leb_le 0 t)) by done.
    rewrite bool_decide_eq_true_2 by done. cbn [negb].
    replace (_ <? _) with false by (symmetry; apply Z.ltb_ge; lia).
    replace (_ <? _) with false by (symmetry; apply Z.ltb_ge; lia). cbn [orb].
    rewrite (proj2 (admission_iff p previous a)) by done. cbn [mbind result_bind negb].
    rewrite (proj2 (typed_items_some (map Typed records) records)) by done.
    rewrite (proj2 (existsb_elem_false _ records))
      by (intros o Ho; rewrite Hob by done; by rewrite bool_decide_eq_true_2).
    rewrite (proj2 (no_dup_spec _)) by done. cbn [negb].
    destruct (proj2 (select_observations_inr p records t (canonical_stage_requirements st) Hnd) Hc) as [sel Hs].
    rewrite Hs. cbn [mbind result_bind]. unfold DependencyDecision_post_init.
    cbn [observation_fingerprints evaluated_at].
    rewrite (select_observations_digests _ _ _ _ _ Hs), (proj2 (Z.leb_le 0 t)) by done.
    cbn. by eexists.
Qed.

(** C23 : the preflight passes exactly when the policy is for this candidate,
    fresh, and admitted by the control plane's receipt (as a bootstrap or as a
    reviewed change of the sealed predecessor), and the observations are
    distinct, for this candidate, and contain for each component the stage
    requires one that the policy trusts: same digests and identity, fresh, and
    a version inside the supported range. *)
Theorem dependency_preflight_exact binding policy observations stage now previous admission :
  (∃ d, evaluate_dependency_preflight binding policy observations stage now previous admission = Ok d
     ∧ outcome d = PASS) ↔
  ∃ b p records st t a, binding = Typed b ∧ policy = Typed p ∧ stage = Typed st ∧ now = Typed t
    ∧ admission = Typed a ∧ observations = ObservationsOf (map Typed records)
    ∧ preflight_passes b p records st t previous a.
Proof. apply preflight_iff. Qed.

(** a helper action runs, and its effects happen, exactly when the
    preflight passes; otherwise an exception is raised and the state is
    untouched. *)
Theorem helper_runs_only_when_trusted {S A} (action : S → py A * S) s
    binding policy observations stage now previous admission :
  let trusted := ∃ b p records st t a, binding = Typed b ∧ policy = Typed p ∧ stage = Typed st
    ∧ now = Typed t ∧ admission = Typed a ∧ observations = ObservationsOf (map Typed records)
    ∧ preflight_passes b p records st t previous a in
  let result := execute_after_dependency_preflight binding policy observations stage now action
                  previous admission s in
  trusted ∧ result = action s ∨ ¬ trusted ∧ ∃ e, result = (Err e, s).
Proof.
  cbn zeta. rewrite <- preflight_iff. unfold execute_after_dependency_preflight.
  destruct (evaluate_dependency_preflight _ _ _ _ _ _ _) as [d|e].
  - destruct (outcome d) eqn:Ed; cbn; [left; eauto|right; split; [|by eexists]].
    intros (d' & [= <-] & ?). congruence.
  - right. split; [by intros (d' & ? & ?)|by eexists].
Qed.

(** ** Created receipts *)

Definition with_transition (p : DependencyPolicy) (t : PolicyTransition) : DependencyPolicy :=
  {| p_binding := p_binding p; p_policy_digest := p_policy_digest p; issued_at := issued_at p;
     freshness_seconds := freshness_seconds p; components := components p; transition := t |}.

(** receipts made by the constructors are accepted.  A bootstrap receipt
    created for a policy admits that policy under the matching sealed
    admission; a review created for two policies whose ranges move up is
    accepted as the upgrade from one to the other. *)
Theorem created_receipts_accepted q p reviewer authority
    (Hp : DependencyPolicy_post_init p = Ok ())
    (Hr : match_digest reviewer = true) (Ha : match_digest authority = true) :
  (∃ r, BootstrapPolicyReceipt_create (Typed p) reviewer authority = Ok r
   ∧ verify_policy_admission
       (Typed (with_transition p {| kind := BOOTSTRAP; review := BootstrapReceipt r |})) Foreign
       (Typed {| a_binding := p_binding p; a_policy_fingerprint := core_fingerprint p;
                 a_receipt_digest := br_receipt_digest r; a_reviewer_identity := reviewer;
                 a_authority_digest := authority; a_previous_policy := None |}) = Ok true)
  ∧ (p_binding q = p_binding p → raises q p →
     ∃ r, PolicyTransitionReview_create (Typed q) (Typed p) reviewer authority = Ok r
     ∧ verify_policy_transition (Typed q)
         (Typed (with_transition p {| kind := UPGRADE; review := TransitionReview r |})) = Ok true).
Proof.
  split.
  - eexists. split.
    + unfold BootstrapPolicyReceipt_create, BootstrapPolicyReceipt_post_init.
      cbn [br_reviewer_identity br_authority_digest br_policy_fingerprint br_receipt_digest map].
      unfold core_fingerprint. rewrite Hr, Ha, !digest_json_match. cbn [all_true forallb id andb].
      unfold bootstrap_payload. cbn [br_binding br_reviewer_identity br_authority_digest br_policy_fingerprint].
      by rewrite bool_decide_eq_true_2.
    + apply admission_iff. split_and!; try done. by eapply admitted_bootstrap.
  - intros Hb Hraise. eexists. split.
    + unfold PolicyTransitionReview_create, PolicyTransitionReview_post_init.
      rewrite bool_decide_eq_true_2 by done. cbn [negb].
      cbn [tr_reviewer_identity tr_authority_digest previous_policy_fingerprint
        current_policy_fingerprint delta_digest review_digest map].
      unfold core_fingerprint, policy_delta_digest. rewrite Hr, Ha, !digest_json_match.
      cbn [all_true forallb id andb]. unfold review_payload.
      cbn [tr_binding tr_reviewer_identity tr_authority_digest previous_policy_fingerprint
        current_policy_fingerprint delta_digest].
      by rewrite bool_decide_eq_true_2.
    + apply verify_transition_iff; [by apply policy_components_distinct|]. eexists. split; [done|].
      split; [by constructor|]. left. split; [done|].
      destruct Hraise. by constructor.
Qed.

(** ** Termination without exceptions *)

Definition ranges_constructed (p : DependencyPolicy) : Prop :=
  ∀ c, c ∈ components p → VersionRange_post_init (versions c) = Ok ().

Lemma range_constructed r : VersionRange_post_init r = Ok () →
  (∃ lo, version_key (minimum r) = Ok lo) ∧ ∃ hi, version_key (maximum_exclusive r) = Ok hi.
Proof.
  unfold VersionRange_post_init. destruct (_ || _); [done|].
  intros (lo & Hlo & (hi & Hhi & _)%bind_ok)%bind_ok. eauto.
Qed.

Lemma compare_total a b : (∃ x, version_key a = Ok x) → (∃ y, version_key b = Ok y) →
  ∃ z, compare_version a b = Ok z.
Proof. intros [x Hx] [y Hy]. unfold compare_version. rewrite Hx, Hy. cbn. by eexists. Qed.

Lemma ranges_move_total k q p : NoDup (map component (components p)) →
  ranges_constructed q → ranges_constructed p → ∃ r, ranges_move k q p = Ok r.
Proof.
  intros Hnd Hq Hp. unfold ranges_move. destruct (same_elements _ _) eqn:E; cbn [negb]; [|by eexists].
  rewrite same_elements_spec in E. setoid_rewrite by_component_keys in E.
  destruct (directions_total q p Hnd minimum) as [ms ->].
  { intros c. apply E. }
  { intros a b (Ha & Hb & _). apply compare_total; apply range_constructed; auto. }
  destruct (directions_total q p Hnd maximum_exclusive) as [ns ->].
  { intros c. apply E. }
  { intros a b (Ha & Hb & _). apply compare_total; apply range_constructed; auto. }
  cbn [mbind result_bind]. destruct (_ && _); by eexists.
Qed.

Lemma admission_total p previous a : NoDup (map component (components p)) →
  ranges_constructed p → (∀ q, previous = Typed q → ranges_constructed q) →
  ∃ r, verify_policy_admission (Typed p) previous a = Ok r.
Proof.
  intros Hnd Hp Hq.
  assert (∀ a, ∃ r, change_admitted p previous a = Ok r) as Hc.
  { intros a'. unfold change_admitted. destruct previous as [q|]; [|by eexists].
    destruct (bool_decide _); cbn [negb]; [|by eexists].
    assert (∃ r, verify_policy_transition (Typed q) (Typed p) = Ok r) as [r ->].
    { unfold verify_policy_transition. destruct (negb _); [by eexists|].
      destruct (kind (transition p)), (review (transition p)); try by eexists.
      all: destruct (_ || _); [by eexists|]; apply ranges_move_total; auto. }
    cbn [mbind result_bind]. destruct (negb r); by eexists. }
  unfold verify_policy_admission. destruct a as [a|]; [|by eexists]. destruct (_ || _); [by eexists|].
  destruct (kind (transition p)), (review (transition p)); auto; by eexists.
Qed.

Lemma select_observations_total p records t required :
  ranges_constructed p → (∀ c o, (c, o) ∈ records → ∃ k, version_key (o_version o) = Ok k) →
  ∃ r, select_observations p records t required = Ok r.
Proof.
  intros Hp Hr. induction required as [|c required [r IH]]; cbn [select_observations]; [by eexists|].
  destruct (policy_component p c) as [expected|] eqn:Ep; [|by eexists].
  destruct (assoc c records) as [o|] eqn:Eo; [|by eexists]. apply assoc_elem, Hr in Eo as [k Ek].
  apply find_some in Ep as [Hin _]. apply list_elem_of_In, Hp, range_constructed in Hin as [[lo Elo] [hi Ehi]].
  assert (∃ w, validate_observation p expected o t = Ok w) as [w ->].
  { unfold validate_observation. repeat (destruct (negb _) || destruct (_ || _); try by eexists).
    unfold contains. destruct (is_version _); cbn; [|by eexists]. rewrite Elo. cbn. rewrite Ek. cbn.
    destruct (lex_ltb k lo); cbn; [by eexists|]. rewrite Ehi. by eexists. }
  cbn [mbind result_bind]. destruct w; [by eexists|]. rewrite IH. cbn [mbind result_bind].
  destruct r; by eexists.
Qed.

(** on values the constructors accept the preflight always returns a
    decision, provided each observed version has numbers of at most 4300
    digits; and a decision that does not pass releases no policy or
    observation fingerprint. *)
Theorem dependency_preflight_decides binding policy observations stage now previous admission
    (Hp : ∀ p, policy = Typed p → DependencyPolicy_post_init p = Ok () ∧ ranges_constructed p)
    (Hq : ∀ q, previous = Typed q → ranges_constructed q)
    (Ho : ∀ items o, observations = ObservationsOf items → Typed o ∈ items →
          ∃ k, version_key (o_version o) = Ok k) :
  ∃ d, evaluate_dependency_preflight binding policy observations stage now previous admission = Ok d
    ∧ (outcome d = BLOCKED → policy_fingerprint d = None ∧ observation_fingerprints d = []).
Proof.
  assert (∀ why, ∃ d, blocked binding stage why now = Ok d
    ∧ (outcome d = BLOCKED → policy_fingerprint d = None ∧ observation_fingerprints d = [])) as Hb.
  { intros why. destruct (blocked_ok binding stage why now) as (d & ? & ? & ? & ? & ?). eauto. }
  unfold evaluate_dependency_preflight.
  destruct binding as [b|]; [|apply Hb]. destruct stage as [st|]; [|apply Hb].
  destruct (checked (Z.leb 0) now) as [t|] eqn:Et; [|apply Hb]. apply checked_some in Et as [-> Ht].
  destruct policy as [p|]; [|apply Hb]. destruct (Hp p eq_refl) as [Hd%policy_components_distinct Hr].
  destruct (negb _); [apply Hb|]. destruct (_ || _); [apply Hb|].
  destruct (admission_total p previous admission Hd Hr Hq) as [ok ->]. cbn [mbind result_bind].
  destruct (negb ok); [apply Hb|]. destruct observations as [| |items]; [apply Hb..|].
  destruct (typed_items items) as [records|] eqn:Er; [|apply Hb]. apply typed_items_some in Er as ->.
  destruct (existsb _ _); [apply Hb|]. destruct (negb _); [apply Hb|].
  destruct (select_observations_total p (by_component o_component records) t
              (canonical_stage_requirements st) Hr) as [[why|sel] Hs].
  { intros c o [Ho' _]%by_component_elem. eapply Ho; [done|]. apply list_elem_of_fmap. eauto. }
  - rewrite Hs. apply Hb.
  - rewrite Hs. cbn [mbind result_bind]. unfold DependencyDecision_post_init.
    cbn [observation_fingerprints evaluated_at].
    rewrite (select_observations_digests _ _ _ _ _ Hs), Ht. cbn. by eexists.
Qed.

(** ** Witnesses *)

Definition sample_digest (c : string) : string := String.append "sha256:" (str_repeat c 64).

Definition sample_binding : CandidateBinding :=
  {| repository := "ythdelmar68/roundwright"; task_id := "task-1"; candidate_sha := str_repeat "a" 40 |}.

Definition sample_component (c : DependencyComponent) (lo : string) : ComponentPolicy :=
  {| component := c; identifier := DependencyComponent_value c;
     versions := {| minimum := lo; maximum_exclusive := "2.0.0" |};
     source_identity := "pypi/roundwright"; artifact_digest := sample_digest "1";
     executable_digest := sample_digest "2" |}.

(** The first policy of a lineage, and the same with a raised minimum. *)
Definition sample_core (lo : string) (t : PolicyTransition) : DependencyPolicy :=
  {| p_binding := sample_binding; p_policy_digest := sample_digest "3"; issued_at := 100;
     freshness_seconds := 60;
     components := [sample_component PACKAGE lo; sample_component GIT_EXECUTABLE "1.0.0"];
     transition := t |}.

Definition sample_bootstrap : DependencyPolicy :=
  sample_core "1.0.0" {| kind := BOOTSTRAP; review := NoReview |}.

Definition sample_review : PolicyTransitionReview :=
  let evidence := {| tr_binding := sample_binding; tr_reviewer_identity := sample_digest "4";
     tr_authority_digest := sample_digest "5";
     previous_policy_fingerprint := core_fingerprint sample_bootstrap;
     current_policy_fingerprint :=
       core_fingerprint (sample_core "1.1.0" {| kind := BOOTSTRAP; review := NoReview |});
     delta_digest := policy_delta_digest sample_bootstrap
       (sample_core "1.1.0" {| kind := BOOTSTRAP; review := NoReview |});
     review_digest := "" |} in
  {| tr_binding := sample_binding; tr_reviewer_identity := sample_digest "4";
     tr_authority_digest := sample_digest "5";
     previous_policy_fingerprint := previous_policy_fingerprint evidence;
     current_policy_fingerprint := current_policy_fingerprint evidence;
     delta_digest := delta_digest evidence; review_digest := digest_json (review_payload evidence) |}.

Definition sample_upgrade : DependencyPolicy :=
  sample_core "1.1.0" {| kind := UPGRADE; review := TransitionReview sample_review |}.

Definition sample_admission : TrustedDependencyAdmission :=
  {| a_binding := sample_binding; a_policy_fingerprint := core_fingerprint sample_upgrade;
     a_receipt_digest := review_digest sample_review; a_reviewer_identity := sample_digest "4";
     a_authority_digest := sample_digest "5"; a_previous_policy := Some sample_bootstrap |}.

Definition sample_observation (c : DependencyComponent) (version : string) : ObservedDependency :=
  {| o_binding := sample_binding; o_component := c; o_identifier := DependencyComponent_value c;
     o_version := version; o_source_identity := "pypi/roundwright";
     o_artifact_digest := sample_digest "1"; o_executable_digest := sample_digest "2";
     observed_at := 120; o_policy_digest := sample_digest "3" |}.

Definition sample_observations (version : string) : list (dyn ObservedDependency) :=
  [Typed (sample_observation PACKAGE version); Typed (sample_observation GIT_EXECUTABLE "1.0.7")].

Example sample_preflight :
  (λ d, (outcome d, code d)) <$>
    evaluate_dependency_preflight (Typed sample_binding) (Typed sample_upgrade)
      (ObservationsOf (sample_observations "1.1.3")) (Typed GIT_ENTRYPOINT) (Typed 130)
      (Typed sample_bootstrap) (Typed sample_admission) = Ok (PASS, AUTHORIZED).
Proof. vm_compute. reflexivity. Qed.

Lemma sample_raises : raises sample_bootstrap sample_upgrade.
Proof. apply ranges_move_upgrade; [apply no_dup_spec; vm_compute; reflexivity|vm_compute; reflexivity]. Qed.

Lemma policy_transition_exact_witness :
  ∃ r, review (transition sample_upgrade) = TransitionReview r
    ∧ review_covers r sample_bootstrap sample_upgrade
    ∧ (kind (transition sample_upgrade) = UPGRADE ∧ raises sample_bootstrap sample_upgrade
       ∨ kind (transition sample_upgrade) = ROLLBACK ∧ raises sample_upgrade sample_bootstrap).
Proof.
  apply (policy_transition_exact sample_bootstrap sample_upgrade); vm_compute; reflexivity.
Defined.

Lemma upgrades_never_return_witness : components sample_bootstrap ≠ components sample_upgrade.
Proof.
  apply (upgrades_never_return sample_bootstrap sample_upgrade).
  apply upgrade_one; vm_compute; reflexivity.
Defined.

Lemma created_receipts_accepted_witness :
  ∃ r, PolicyTransitionReview_create (Typed sample_bootstrap) (Typed sample_upgrade)
         (sample_digest "4") (sample_digest "5") = Ok r
  ∧ verify_policy_transition (Typed sample_bootstrap)
      (Typed (with_transition sample_upgrade {| kind := UPGRADE; review := TransitionReview r |})) = Ok true.
Proof.
  apply (created_receipts_accepted sample_bootstrap sample_upgrade (sample_digest "4") (sample_digest "5"));
    [vm_compute; reflexivity..|apply sample_raises].
Defined.

Lemma dependency_preflight_decides_witness :
  ∃ d, evaluate_dependency_preflight (Typed sample_binding) (Typed sample_upgrade)
         (ObservationsOf (sample_observations "9.0.0")) (Typed GIT_ENTRYPOINT) (Typed 130)
         (Typed sample_bootstrap) (Typed sample_admission) = Ok d
    ∧ (outcome d = BLOCKED → policy_fingerprint d = None ∧ observation_fingerprints d = []).
Proof.
  apply (dependency_preflight_decides (Typed sample_binding) (Typed sample_upgrade)
    (ObservationsOf (sample_observations "9.0.0")) (Typed GIT_ENTRYPOINT) (Typed 130)
    (Typed sample_bootstrap) (Typed sample_admission)).
  - intros p [= <-]. split; [vm_compute; reflexivity|].
    intros c Hc. repeat (apply elem_of_cons in Hc as [->|Hc]; [vm_compute; reflexivity|]).
    by apply elem_of_nil in Hc.
  - intros q [= <-]. intros c Hc.
    repeat (apply elem_of_cons in Hc as [->|Hc]; [vm_compute; reflexivity|]). by apply elem_of_nil in Hc.
  - intros items o [= <-] Ho.
    repeat (apply elem_of_cons in Ho as [[= ->]|Ho]; [by eexists; vm_compute|]). by apply elem_of_nil in Ho.
Defined.

(** A version number of 4301 digits. *)
Definition long_version : string := String.append "1.1." (str_repeat "1" 4301).

(** there is an observation the constructor accepts on which the
    preflight raises instead of blocking. *)
Theorem preflight_raises_on_long_version :
  ObservedDependency_post_init (sample_observation PACKAGE long_version) = Ok ()
  ∧ evaluate_dependency_preflight (Typed sample_binding) (Typed sample_upgrade)
      (ObservationsOf (sample_observations long_version)) (Typed GIT_ENTRYPOINT) (Typed 130)
      (Typed sample_bootstrap) (Typed sample_admission)
    = raise ValueError "Exceeds the limit (4300 digits) for integer string conversion".
Proof. vm_compute. done. Qed.
