(* ===== verification/CanaryPolicy.v ===== *)
(** * Bounded Canary policy (src/roundwright/canary_policy.py)

    The authorization boundary of a Phase 4 Canary: a versioned policy with
    per-operation and total call budgets, the standing-authority context of a
    call, the receipt chain that counts the calls made so far, and the decision
    whether one more mutation request may be dispatched. *)

From S2P Require Import Prelude Sha256 Json RepositoryPolicy.
Open Scope Z_scope.

Definition CANARY_POLICY_SCHEMA : string := "roundwright-bounded-canary-policy/v2".
Definition CANARY_RECEIPT_SCHEMA : string := "roundwright-bounded-canary-receipt/v1".
Definition PHASE_4 : Z := 4.
Definition FORWARD_TEST_ROUTE : string := "harness+forward-test".

Inductive CanaryResult := GENESIS | CANARY_PASS | DENIED | ROLLED_BACK | OWNER_INPUT_REQUIRED.

Definition CanaryResult_value (r : CanaryResult) : string :=
  match r with
  | GENESIS => "genesis" | CANARY_PASS => "pass" | DENIED => "denied"
  | ROLLED_BACK => "rolled-back" | OWNER_INPUT_REQUIRED => "owner-input-required"
  end.

Inductive CleanupDisposition := ROLLBACK | PRESERVE_FOR_OWNER.

#[export] Instance CanaryResult_eq_dec : EqDecision CanaryResult.
Proof. solve_decision. Defined.

(** [GitHubMutationOperation.value] (github.py). *)
Definition operation_value (o : GitHubMutationOperation) : string :=
  match o with
  | GH_CREATE_BRANCH => "create-branch" | GH_UPDATE_BRANCH => "update-branch"
  | GH_CREATE_PULL_REQUEST => "create-pull-request" | GH_COMMENT => "comment"
  | GH_REQUEST_REVIEW => "request-review" | GH_MARK_READY => "mark-ready"
  | GH_MERGE_PULL_REQUEST => "merge-pull-request" | GH_CLOSE_ISSUE => "close-issue"
  | GH_DELETE_BRANCH => "delete-branch"
  end.

(** ** Field checks *)

Definition require_sha (value name : string) : py unit :=
  require (match_hex 40 value) CanaryPolicyError (String.append name " must be an exact commit SHA").

Definition require_digest (value name : string) : py unit :=
  require (match_digest value) CanaryPolicyError (String.append name " must be a SHA-256 digest").

Definition match_slug (s : string) : bool :=
  match split_on "/"%char s with
  | [owner; name] => match_ident is_alnum (λ c, is_alnum c || one_of "_.-" c) 38 owner
                     && match_ident is_alnum (λ c, is_alnum c || one_of "_.-" c) 99 name
  | _ => false
  end.

Definition safe_path (value : string) : bool :=
  negb (value ==? "")
  && negb (startswith "/" value || startswith "\" value)
  && negb (str_contains "\" value)
  && negb (str_contains ":" value)
  && forallb (λ part, negb (part in? [""; "."; ".."])) (split_on "/"%char value).

Definition safe_branch (value : string) : bool :=
  match_ident is_alnum (λ c, is_alnum c || one_of "._/-" c) 127 value
  && negb (startswith "refs/" value || startswith "/" value)
  && negb (endswith "/" value || endswith "." value)
  && negb (str_contains ".." value)
  && negb (str_contains "//" value)
  && negb (str_contains "@{" value)
  && forallb (λ component,
       negb (component ==? "") && negb (startswith "." component)
       && negb (endswith ".lock" component)) (split_on "/"%char value).

(** ** Data *)

Record CanaryTarget := { repository : string; baseline_sha : string; t_leaf_number : Z }.

Record CanaryBudget := {
  per_operation : list (GitHubMutationOperation * Z);
  total_calls : Z;
}.

Record CanaryRollbackPlan := {
  rollback_trigger : string;
  kill_switch : string;
  semantic_readback : string;
}.

(** [policy_digest] is computed at construction and stored. *)
Record BoundedCanaryPolicy := {
  p_base_sha : string;
  p_candidate_sha : string;
  p_contract_digest : string;
  p_phase : Z;
  p_leaf_number : Z;
  p_target : CanaryTarget;
  p_target_policy_identity : string;
  p_branch : string;
  allowed_paths : list string;
  requested_operations : list GitHubMutationOperation;
  budget : CanaryBudget;
  rollback : CanaryRollbackPlan;
  p_schema : string;
  p_policy_digest : string;
}.

Record CanaryAuthorityContext := {
  roundlet_enabled : bool;
  read_only_external_validation_allowed : bool;
  disposable_target_mutation_allowed : bool;
  c_phase : Z;
  c_leaf_number : Z;
  c_route : string;
  c_base_sha : string;
  c_candidate_sha : string;
  c_contract_digest : string;
  c_target : CanaryTarget;
  c_target_policy : dyn TrustedRepositoryPolicySnapshot;
  c_target_policy_identity : string;
  c_policy_digest : string;
  c_branch : string;
  prior_receipt_digest : option string;
  kill_switch_active : bool;
}.

Record CanaryAuthorization := {
  a_policy_digest : string;
  a_contract_digest : string;
  a_request_digest : string;
  receipt_chain_head_digest : string;
  consumption_key : string;
  claim_digest : string;
}.

Record CanaryDecision := {
  authorized : bool;
  reason : string;
  d_policy_digest : option string;
  next_action : string;
  authorization : option CanaryAuthorization;
}.

Record CanaryMutationRequest := {
  operation : GitHubMutationOperation;
  branch : string;
  paths : list string;
  request_digest : string;
}.

(** [receipt_digest] is computed at construction and stored. *)
Record BoundedCanaryReceipt := {
  r_policy : BoundedCanaryPolicy;
  result : CanaryResult;
  operation_counts : list (GitHubMutationOperation * Z);
  semantic_readback_digest : string;
  predecessor_receipt_digest : option string;
  receipt_digest : string;
}.

#[export] Instance CanaryTarget_eq_dec : EqDecision CanaryTarget.
Proof. solve_decision. Defined.
#[export] Instance CanaryMutationRequest_eq_dec : EqDecision CanaryMutationRequest.
Proof. solve_decision. Defined.
#[export] Instance CanaryAuthorization_eq_dec : EqDecision CanaryAuthorization.
Proof. solve_decision. Defined.

(** ** Targets, budgets and rollback plans *)

Definition CanaryTarget_post_init (t : CanaryTarget) : py unit :=
  _ ← require (match_slug (repository t)) CanaryPolicyError "Canary target repository is invalid";
  _ ← require_sha (baseline_sha t) "Canary target baseline";
  require (0 <? t_leaf_number t) CanaryPolicyError "Canary target leaf is invalid".

(** [sum(...)] *)
Definition sum_counts (counts : list (GitHubMutationOperation * Z)) : Z :=
  foldr Z.add 0 (snd <$> counts).

Definition CanaryBudget_post_init (b : CanaryBudget) : py unit :=
  _ ← require (1 <=? total_calls b) CanaryPolicyError "Canary call budget is invalid";
  _ ← require (no_dup (per_operation b).*1) CanaryPolicyError
        "Canary call budget has duplicate or invalid operations";
  _ ← require (forallb (λ oc, 0 <? oc.2) (per_operation b)) CanaryPolicyError
        "Canary call budget is invalid";
  require (total_calls b <=? sum_counts (per_operation b)) CanaryPolicyError
    "Canary total budget exceeds per-operation budgets".

(** [CanaryBudget.limit_for]. *)
Definition limit_for (b : CanaryBudget) (o : GitHubMutationOperation) : Z :=
  default 0 (assoc o (per_operation b)).

Definition CanaryRollbackPlan_post_init (r : CanaryRollbackPlan) : py unit :=
  for_each (λ vn : string * string,
    require (negb (vn.1 ==? "") && (String.length vn.1 <=? 160)%nat) CanaryPolicyError
      (String.append "Canary " (String.append vn.2 " is invalid")))
    [(rollback_trigger r, "rollback trigger"); (kill_switch r, "kill switch");
     (semantic_readback r, "semantic read-back")].

Definition cleanup_disposition (resource_is_reversible readback_is_unambiguous : dyn bool) :
    py CleanupDisposition :=
  match resource_is_reversible, readback_is_unambiguous with
  | Typed a, Typed b => Ok (if a && b then ROLLBACK else PRESERVE_FOR_OWNER)
  | _, _ => raise CanaryPolicyError "Canary cleanup evidence is invalid"
  end.

(** ** The policy *)

Definition target_payload (t : CanaryTarget) : json :=
  JObj [("repository", JStr (repository t)); ("baseline_sha", JStr (baseline_sha t));
        ("leaf_number", JInt (t_leaf_number t))].

Definition counts_payload (counts : list (GitHubMutationOperation * Z)) : json :=
  JObj (map (λ oc, (operation_value oc.1, JInt oc.2)) counts).

(** [BoundedCanaryPolicy.public_payload(include_digest=False)]. *)
Definition policy_payload (p : BoundedCanaryPolicy) : json :=
  JObj [("schema", JStr (p_schema p)); ("base_sha", JStr (p_base_sha p));
        ("candidate_sha", JStr (p_candidate_sha p));
        ("contract_digest", JStr (p_contract_digest p));
        ("phase", JInt (p_phase p)); ("leaf_number", JInt (p_leaf_number p));
        ("target", target_payload (p_target p));
        ("target_policy_identity", JStr (p_target_policy_identity p));
        ("branch", JStr (p_branch p)); ("allowed_paths", jstrs (allowed_paths p));
        ("requested_operations", jstrs (map operation_value (requested_operations p)));
        ("budget", JObj [("per_operation", counts_payload (per_operation (budget p)));
                         ("total_calls", JInt (total_calls (budget p)))]);
        ("rollback", JObj [("rollback_trigger", JStr (rollback_trigger (rollback p)));
                           ("kill_switch", JStr (kill_switch (rollback p)));
                           ("semantic_readback", JStr (semantic_readback (rollback p)))])].

(** The checks of [BoundedCanaryPolicy.__post_init__]. *)
Definition policy_fields_check (p : BoundedCanaryPolicy) : py unit :=
  _ ← require_sha (p_base_sha p) "Canary base";
  _ ← require_sha (p_candidate_sha p) "Canary candidate";
  _ ← require_digest (p_contract_digest p) "Canary contract";
  _ ← require (p_base_sha p !=? p_candidate_sha p) CanaryPolicyError
        "Canary candidate must differ from its base";
  _ ← require ((p_phase p =? PHASE_4) && (0 <? p_leaf_number p)) CanaryPolicyError
        "Canary phase or leaf is invalid";
  _ ← require_digest (p_target_policy_identity p) "Canary target policy";
  _ ← require (safe_branch (p_branch p)) CanaryPolicyError "Canary branch is invalid";
  _ ← require (negb (allowed_paths p ==? []) && no_dup (allowed_paths p)
               && forallb safe_path (allowed_paths p)) CanaryPolicyError
        "Canary path allowlist is invalid";
  _ ← require (negb (requested_operations p ==? []) && no_dup (requested_operations p))
        CanaryPolicyError "Canary operation vocabulary is invalid";
  _ ← require (same_elements (per_operation (budget p)).*1 (requested_operations p))
        CanaryPolicyError "Canary budget does not bind exactly the requested operations";
  require (p_schema p ==? CANARY_POLICY_SCHEMA) CanaryPolicyError
    "Canary policy schema is unsupported".

(** [BoundedCanaryPolicy.validate]: rebuild and compare the stored digest. *)
Definition policy_validate (p : BoundedCanaryPolicy) : py unit :=
  _ ← policy_fields_check p;
  require (digest_json (policy_payload p) ==? p_policy_digest p) CanaryPolicyError
    "Canary policy has drifted".

(** ** Target policy evidence *)

Definition canary_target_policy_identity (snapshot : dyn TrustedRepositoryPolicySnapshot)
    (target : CanaryTarget) : py string :=
  match snapshot with
  | Typed s =>
      match source s, document s with
      | Typed src, Typed doc =>
          Ok (digest_json (JObj
            [("source_fingerprint", JStr (s_source_fingerprint src));
             ("revision_fingerprint", JStr (s_revision_fingerprint src));
             ("policy_digest", JStr (RepositoryPolicy.policy_digest doc));
             ("target", target_payload target)]))
      | _, _ => raise CanaryPolicyError "Canary target policy evidence is invalid"
      end
  | Foreign => raise CanaryPolicyError "Canary target policy evidence is invalid"
  end.

Definition stale_target {A} : py A :=
  raise CanaryPolicyError "Canary target policy evidence is invalid or stale".

(** [_target_policy_for]: every failure becomes the one error. *)
Definition target_policy_for (context : CanaryAuthorityContext) (policy : option BoundedCanaryPolicy) :
    py RepositoryMutationPolicy :=
  match canary_target_policy_identity (c_target_policy context) (c_target context) with
  | Err _ => stale_target
  | Ok identity =>
      if identity !=? c_target_policy_identity context then stale_target
      else if match policy with
              | Some p => (c_target context !=? p_target p)
                          || (c_target_policy_identity context !=? p_target_policy_identity p)
              | None => false
              end then stale_target
      else
      match c_target_policy context with
      | Typed {| document := Typed doc |} =>
          match policy_post_init doc with
          | Ok _ => Ok doc
          | Err _ => stale_target
          end
      | _ => stale_target
      end
  end.

Definition CanaryAuthorityContext_post_init (c : CanaryAuthorityContext) : py unit :=
  _ ← require (c_route c ==? FORWARD_TEST_ROUTE) CanaryPolicyError "Canary selection route is invalid";
  _ ← require_sha (c_base_sha c) "selected base";
  _ ← require_sha (c_candidate_sha c) "selected candidate";
  _ ← require_digest (c_contract_digest c) "selected contract";
  _ ← target_policy_for c None;
  _ ← require_digest (c_target_policy_identity c) "selected target policy";
  _ ← require_digest (c_policy_digest c) "selected policy";
  _ ← require (safe_branch (c_branch c)) CanaryPolicyError "selected Canary branch is invalid";
  match prior_receipt_digest c with
  | Some d => require_digest d "selected prior receipt"
  | None => Ok ()
  end.

(** ** Receipts *)

Definition genesis_identity (p : BoundedCanaryPolicy) : string :=
  digest_json (JObj [("schema", JStr CANARY_RECEIPT_SCHEMA);
                     ("policy_digest", JStr (p_policy_digest p));
                     ("contract_digest", JStr (p_contract_digest p));
                     ("kind", JStr (CanaryResult_value GENESIS))]).

(** [BoundedCanaryReceipt.public_payload(include_digest=False)]. *)
Definition receipt_payload (r : BoundedCanaryReceipt) : json :=
  let p := r_policy r in
  JObj [("schema", JStr CANARY_RECEIPT_SCHEMA); ("policy_digest", JStr (p_policy_digest p));
        ("contract_digest", JStr (p_contract_digest p)); ("base_sha", JStr (p_base_sha p));
        ("candidate_sha", JStr (p_candidate_sha p));
        ("target_repository", JStr (repository (p_target p)));
        ("target_baseline_sha", JStr (baseline_sha (p_target p)));
        ("target_leaf_number", JInt (t_leaf_number (p_target p)));
        ("leaf_number", JInt (p_leaf_number p));
        ("requested_operations", jstrs (map operation_value (requested_operations p)));
        ("operation_counts", counts_payload (operation_counts r));
        ("total_calls", JInt (sum_counts (operation_counts r)));
        ("result", JStr (CanaryResult_value (result r)));
        ("semantic_readback_digest", JStr (semantic_readback_digest r));
        ("predecessor_receipt_digest", jopt (predecessor_receipt_digest r))].

(** The checks of [BoundedCanaryReceipt.__post_init__]. *)
Definition receipt_fields_check (r : BoundedCanaryReceipt) : py unit :=
  let p := r_policy r in
  let counts := operation_counts r in
  _ ← policy_validate p;
  _ ← require (no_dup counts.*1) CanaryPolicyError "Canary receipt operation counts are invalid";
  _ ← require (forallb (λ oc, 0 <=? oc.2) counts) CanaryPolicyError
        "Canary receipt operation counts are invalid";
  _ ← require (same_elements counts.*1 (requested_operations p)
               && (sum_counts counts <=? total_calls (budget p))
               && forallb (λ oc, oc.2 <=? limit_for (budget p) oc.1) counts) CanaryPolicyError
        "Canary receipt exceeds its budget";
  _ ← require_digest (semantic_readback_digest r) "semantic read-back";
  _ ← match predecessor_receipt_digest r with
      | Some d => require_digest d "receipt predecessor"
      | None => Ok ()
      end;
  if result r ==? GENESIS then
    require ((predecessor_receipt_digest r ==? None)
             && forallb (λ oc, oc.2 =? 0) counts
             && (semantic_readback_digest r ==? genesis_identity p)) CanaryPolicyError
      "Canary genesis receipt is invalid"
  else
    require (negb (predecessor_receipt_digest r ==? None)) CanaryPolicyError
      "Canary non-genesis receipt has no predecessor".

(** The constructor: check, then store the digest. *)
Definition make_receipt (p : BoundedCanaryPolicy) (res : CanaryResult)
    (counts : list (GitHubMutationOperation * Z)) (readback : string) (pred : option string) :
    py BoundedCanaryReceipt :=
  let draft := {| r_policy := p; result := res; operation_counts := counts;
                  semantic_readback_digest := readback; predecessor_receipt_digest := pred;
                  receipt_digest := "" |} in
  _ ← receipt_fields_check draft;
  Ok {| r_policy := p; result := res; operation_counts := counts;
        semantic_readback_digest := readback; predecessor_receipt_digest := pred;
        receipt_digest := digest_json (receipt_payload draft) |}.

(** [BoundedCanaryReceipt.validate_for]. *)
Definition validate_for (r : BoundedCanaryReceipt) (p : BoundedCanaryPolicy) : py unit :=
  _ ← receipt_fields_check r;
  require ((p_policy_digest p ==? p_policy_digest (r_policy r))
           && (digest_json (receipt_payload r) ==? receipt_digest r)) CanaryPolicyError
    "Canary receipt has drifted".

Definition genesis_canary_receipt (p : BoundedCanaryPolicy) : py BoundedCanaryReceipt :=
  make_receipt p GENESIS (map (λ o, (o, 0)) (requested_operations p)) (genesis_identity p) None.

(** [counts[operation]] *)
Definition count_of (counts : list (GitHubMutationOperation * Z)) (o : GitHubMutationOperation) : py Z :=
  match assoc o counts with
  | Some n => Ok n
  | None => raise KeyError (operation_value o)
  end.

(** [counts[operation] += 1], keeping the order of the dict. *)
Definition increment (o : GitHubMutationOperation) (counts : list (GitHubMutationOperation * Z)) :
    list (GitHubMutationOperation * Z) :=
  map (λ oc, if oc.1 ==? o then (oc.1, oc.2 + 1) else oc) counts.

Definition advance_canary_receipt (predecessor : dyn BoundedCanaryReceipt)
    (op : dyn GitHubMutationOperation) (readback : string) : py BoundedCanaryReceipt :=
  match predecessor, op with
  | Typed r, Typed o =>
      let p := r_policy r in
      _ ← validate_for r p;
      _ ← require ((result r in? [GENESIS; CANARY_PASS]) && (o in? requested_operations p))
            CanaryPolicyError "Canary receipt advancement is not permitted";
      n ← count_of (operation_counts r) o;
      _ ← require (negb ((limit_for (budget p) o <=? n)
                         || (total_calls (budget p) <=? sum_counts (operation_counts r))))
            CanaryPolicyError "Canary receipt advancement exceeds budget";
      make_receipt p CANARY_PASS (increment o (operation_counts r)) readback (Some (receipt_digest r))
  | _, _ => raise CanaryPolicyError "Canary receipt advancement is invalid"
  end.

(** [counts[operation] - previous_counts[operation] for operation in operations]. *)
Definition differences (counts previous : list (GitHubMutationOperation * Z))
    (operations : list GitHubMutationOperation) : py (list Z) :=
  mapM (λ o, a ← count_of counts o; b ← count_of previous o; Ok (a - b)) operations.

(** One iteration of the chain loop. *)
Definition check_link (p : BoundedCanaryPolicy) (previous : option BoundedCanaryReceipt)
    (r : BoundedCanaryReceipt) : py unit :=
  _ ← validate_for r p;
  match previous with
  | None =>
      require ((result r ==? GENESIS) && (predecessor_receipt_digest r ==? None)
               && forallb (λ oc, oc.2 =? 0) (operation_counts r)) CanaryPolicyError
        "Canary receipt chain has no genesis"
  | Some prev =>
      ds ← differences (operation_counts r) (operation_counts prev) (requested_operations p);
      require ((result r ==? CANARY_PASS)
               && (predecessor_receipt_digest r ==? Some (receipt_digest prev))
               && forallb (λ d, 0 <=? d) ds
               && (foldr Z.add 0 ds =? 1)
               && (length (filter (λ d, d = 1%Z) ds) =? 1)%nat) CanaryPolicyError
        "Canary receipt chain is not monotonic"
  end.

Fixpoint check_chain (p : BoundedCanaryPolicy) (previous : option BoundedCanaryReceipt)
    (chain : list (dyn BoundedCanaryReceipt)) : py (option BoundedCanaryReceipt) :=
  match chain with
  | [] => Ok previous
  | Foreign :: _ => raise CanaryPolicyError "Canary receipt chain is invalid"
  | Typed r :: chain => _ ← check_link p previous r; check_chain p (Some r) chain
  end.

(** A chain that is not a tuple is [Foreign]. *)
Definition validate_canary_receipt_chain (p : BoundedCanaryPolicy)
    (chain : dyn (list (dyn BoundedCanaryReceipt))) : py BoundedCanaryReceipt :=
  match chain with
  | Foreign | Typed [] => raise CanaryPolicyError "Canary receipt chain is unavailable"
  | Typed chain =>
      last ← check_chain p None chain;
      match last with
      | Some r => Ok r
      | None => raise AssertionError ""
      end
  end.

(** ** Decisions *)

Definition deny (why : string) (digest : option string) : CanaryDecision :=
  {| authorized := false; reason := why; d_policy_digest := digest;
     next_action := "preserve-for-owner"; authorization := None |}.

Definition evaluate_bounded_canary_policy (policy : dyn BoundedCanaryPolicy)
    (context : dyn CanaryAuthorityContext) : CanaryDecision :=
  match policy, context with
  | Typed p, Typed c =>
      let digest := Some (p_policy_digest p) in
      if negb (is_ok (policy_validate p)) then deny "Canary policy has drifted" digest
      else if negb (roundlet_enabled c) || negb (read_only_external_validation_allowed c)
              || negb (disposable_target_mutation_allowed c) then
        deny "standing Canary authority is disabled" digest
      else if kill_switch_active c then deny "Canary kill switch is active" digest
      else if (c_phase c, c_leaf_number c, c_base_sha c, c_candidate_sha c, c_contract_digest c,
               c_target c, c_target_policy_identity c, c_policy_digest c, c_branch c)
              !=? (p_phase p, p_leaf_number p, p_base_sha p, p_candidate_sha p, p_contract_digest p,
                   p_target p, p_target_policy_identity p, p_policy_digest p, p_branch p) then
        deny "Canary identity or policy binding is stale" digest
      else if negb (is_ok (target_policy_for c (Some p))) then
        deny "Canary target policy evidence is unavailable or stale" digest
      else {| authorized := true; reason := "exact bounded Canary policy is authorized";
              d_policy_digest := digest; next_action := "execute-through-mutation-broker";
              authorization := None |}
  | _, _ => deny "Canary policy or authority context is unavailable" None
  end.

Definition request_payload (o : GitHubMutationOperation) (b : string) (ps : list string) : json :=
  JObj [("operation", JStr (operation_value o)); ("branch", JStr b); ("paths", jstrs ps)].

(** [CanaryMutationRequest(operation, branch, paths)]. *)
Definition make_request (o : GitHubMutationOperation) (b : string) (ps : list string) :
    py CanaryMutationRequest :=
  _ ← require (safe_branch b) CanaryPolicyError "Canary request operation or branch is invalid";
  _ ← require (negb (ps ==? []) && forallb safe_path ps) CanaryPolicyError
        "Canary request paths are invalid";
  Ok {| operation := o; branch := b; paths := ps;
        request_digest := digest_json (request_payload o b ps) |}.

Definition fence_payload (policy contract head : string) : json :=
  JObj [("policy_digest", JStr policy); ("contract_digest", JStr contract);
        ("receipt_chain_head_digest", JStr head)].

(** [CanaryAuthorization(...)]: the fence key and the claim are computed. *)
Definition make_authorization (policy contract request head : string) : py CanaryAuthorization :=
  _ ← for_each (λ vn, require_digest vn.1 vn.2)
        [(policy, "Canary policy"); (contract, "Canary contract"); (request, "Canary request");
         (head, "Canary receipt-chain head")];
  let key := digest_json (fence_payload policy contract head) in
  Ok {| a_policy_digest := policy; a_contract_digest := contract; a_request_digest := request;
        receipt_chain_head_digest := head; consumption_key := key;
        claim_digest := digest_json (JObj [("consumption_key", JStr key);
                                           ("request_digest", JStr request)]) |}.

(** The target policy and the switch of the requested operation. *)
Definition target_switch (c : CanaryAuthorityContext) (o : GitHubMutationOperation) :
    py (RepositoryMutationPolicy * string) :=
  _ ← validate_repository_mutation_vocabulary
        (Typed (prod_map Typed Typed <$> REPOSITORY_OPERATION_SWITCH))
        (Typed (prod_map Typed Typed <$> GITHUB_REPOSITORY_OPERATION));
  op ← match assoc o GITHUB_REPOSITORY_OPERATION with
       | Some op => Ok op
       | None => raise KeyError (operation_value o)
       end;
  target ← target_policy_for c None;
  match assoc op REPOSITORY_OPERATION_SWITCH with
  | Some name => Ok (target, name)
  | None => raise KeyError ""
  end.

Definition authorize_canary_request (policy : dyn BoundedCanaryPolicy)
    (context : dyn CanaryAuthorityContext) (request : dyn CanaryMutationRequest)
    (receipt_chain : dyn (list (dyn BoundedCanaryReceipt))) : py CanaryDecision :=
  let decision := evaluate_bounded_canary_policy policy context in
  match authorized decision, policy, context, request with
  | true, Typed p, Typed c, Typed rq =>
      let deny why := Ok (deny why (Some (p_policy_digest p))) in
      if negb (operation rq in? requested_operations p) then
        deny "Canary operation is outside the selected vocabulary"
      else if branch rq !=? p_branch p then
        deny "Canary branch is outside the selected allowlist"
      else if negb (forallb (λ path, path in? allowed_paths p) (paths rq)) then
        deny "Canary path is outside the selected allowlist"
      else
      match prior_receipt_digest c, receipt_chain with
      | Some prior, Typed _ =>
          match validate_canary_receipt_chain p receipt_chain with
          | Err e => if exn_kind e ==? CanaryPolicyError
                     then deny "Canary receipt-chain state is invalid or stale" else Err e
          | Ok head =>
              if receipt_digest head !=? prior then
                deny "Canary receipt-chain head conflicts with selection state"
              else
                prior_operation_calls ← count_of (operation_counts head) (operation rq);
                let prior_total_calls := sum_counts (operation_counts head) in
                match target_switch c (operation rq) with
                | Err _ => deny "Canary target operation mapping is unavailable"
                | Ok (target, switch) =>
                    match getattr target switch with
                    | None => raise AttributeError switch
                    | Some on =>
                        if negb (enabled target) || negb on then
                          deny "Canary target policy denies the requested operation"
                        else if (limit_for (budget p) (operation rq) <=? prior_operation_calls)
                                || (total_calls (budget p) <=? prior_total_calls) then
                          deny "Canary call budget is exhausted"
                        else
                          a ← make_authorization (p_policy_digest p) (p_contract_digest p)
                                (request_digest rq) (receipt_digest head);
                          Ok {| authorized := true; reason := reason decision;
                                d_policy_digest := Some (p_policy_digest p);
                                next_action := next_action decision; authorization := Some a |}
                    end
                end
          end
      | _, _ => deny "Canary receipt-chain state is unavailable"
      end
  | true, _, _, _ => Ok (deny "Canary request is unavailable" (d_policy_digest decision))
  | false, _, _, _ => Ok (deny (reason decision) (d_policy_digest decision))
  end.

(** ** Counting *)

(** The number of calls of one operation. *)
Definition tally (counts : list (GitHubMutationOperation * Z)) (o : GitHubMutationOperation) : Z :=
  default 0 (assoc o counts).

Definition total (l : list Z) : Z := foldr Z.add 0 l.

#[export] Instance total_perm : Proper ((≡ₚ) ==> (=)) total.
Proof. intros l k H. unfold total. induction H; cbn; lia. Qed.

Lemma total_app l k : total (l ++ k) = total l + total k.
Proof. unfold total. induction l; cbn; lia. Qed.

Lemma count_of_ok counts o n : count_of counts o = Ok n ↔ assoc o counts = Some n.
Proof. unfold count_of. destruct (assoc o counts); naive_solver. Qed.

Lemma counts_by_key counts : NoDup counts.*1 → counts.*2 = tally counts <$> counts.*1.
Proof.
  intros Hnd. rewrite <- list_fmap_compose. apply list_fmap_ext. intros i [o n] Hi. cbn.
  unfold tally. by rewrite (assoc_nodup o counts n Hnd) by (by eapply list_elem_of_lookup_2).
Qed.

(** The counts of a receipt, read along the requested operations. *)
Lemma sum_counts_along counts ops : NoDup counts.*1 → counts.*1 ≡ₚ ops →
  sum_counts counts = total (tally counts <$> ops).
Proof.
  intros Hnd Hp. unfold sum_counts. fold (total counts.*2). by rewrite counts_by_key, Hp.
Qed.

Lemma assoc_perm (c1 c2 : list (GitHubMutationOperation * Z)) o :
  NoDup c1.*1 → c1 ≡ₚ c2 → assoc o c1 = assoc o c2.
Proof.
  intros Hnd Hp. assert (NoDup c2.*1) by by rewrite <- Hp.
  destruct (assoc o c1) as [n|] eqn:E1; symmetry.
  - apply assoc_nodup; [done|]. rewrite <- Hp. by apply assoc_elem.
  - destruct (assoc o c2) as [n|] eqn:E2; [|done]. apply assoc_elem in E2. rewrite <- Hp in E2.
    apply assoc_nodup in E2; [congruence|done].
Qed.

Lemma increment_keys o counts : (increment o counts).*1 = counts.*1.
Proof.
  unfold increment. change (map ?f counts) with (f <$> counts). rewrite <- list_fmap_compose.
  apply list_fmap_ext. intros i [o' n] _. cbn. by destruct (bool_decide _).
Qed.

Lemma increment_lookup o o' counts :
  assoc o' (increment o counts) = (if decide (o' = o) then λ n, n + 1 else id) <$> assoc o' counts.
Proof.
  induction counts as [|[k n] counts IH]; cbn [increment map assoc].
  { by case_decide. }
  cbn [fst snd]. case_bool_decide; cbn [assoc]; repeat case_decide; subst; try done; naive_solver.
Qed.

Lemma increment_tally o o' counts : is_Some (assoc o' counts) →
  tally (increment o counts) o' = tally counts o' + (if decide (o' = o) then 1 else 0).
Proof.
  intros [n Hn]. unfold tally. rewrite increment_lookup, Hn. case_decide; cbn; lia.
Qed.

(** ** Validated values *)

Record policy_ok (p : BoundedCanaryPolicy) : Prop := {
  po_contract : match_digest (p_contract_digest p) = true;
  po_operations : NoDup (requested_operations p);
  po_budget : ∀ o, o ∈ (per_operation (budget p)).*1 ↔ o ∈ requested_operations p;
  po_digest : p_policy_digest p = digest_json (policy_payload p);
}.

Lemma policy_validate_ok p : policy_validate p = Ok () → policy_ok p.
Proof.
  rewrite <- is_ok_unit. unfold policy_validate, policy_fields_check, require_sha, require_digest.
  validator. rewrite !no_dup_spec, same_elements_spec. intros H. destruct_and!. by constructor.
Qed.

Record receipt_ok (r : BoundedCanaryReceipt) : Prop := {
  ro_policy : policy_validate (r_policy r) = Ok ();
  ro_distinct : NoDup (operation_counts r).*1;
  ro_nonneg : ∀ oc, oc ∈ operation_counts r → 0 ≤ oc.2;
  ro_keys : ∀ o, o ∈ (operation_counts r).*1 ↔ o ∈ requested_operations (r_policy r);
  ro_total : sum_counts (operation_counts r) ≤ total_calls (budget (r_policy r));
  ro_limit : ∀ oc, oc ∈ operation_counts r → oc.2 ≤ limit_for (budget (r_policy r)) oc.1;
  ro_readback : match_digest (semantic_readback_digest r) = true;
  ro_predecessor : ∀ d, predecessor_receipt_digest r = Some d → match_digest d = true;
  ro_genesis : result r = GENESIS ↔ predecessor_receipt_digest r = None;
  ro_first : result r = GENESIS → (∀ oc, oc ∈ operation_counts r → oc.2 = 0)
             ∧ semantic_readback_digest r = genesis_identity (r_policy r);
}.

Lemma receipt_fields_check_ok r : receipt_fields_check r = Ok () ↔ receipt_ok r.
Proof.
  rewrite <- is_ok_unit. unfold receipt_fields_check, require_digest. validator.
  rewrite no_dup_spec, same_elements_spec, Z.leb_le, !forallb_elem.
  setoid_rewrite Z.leb_le. rewrite is_ok_unit.
  assert (is_ok (match predecessor_receipt_digest r with
    | Some d => require (match_digest d) CanaryPolicyError
                  (String.append "receipt predecessor" " must be a SHA-256 digest")
    | None => Ok () end) = true ↔
    ∀ d, predecessor_receipt_digest r = Some d → match_digest d = true) as ->.
  { destruct (predecessor_receipt_digest r); [rewrite is_ok_require|]; naive_solver. }
  case_bool_decide as Hg; rewrite is_ok_require.
  - rewrite !andb_true_iff, !bool_decide_eq_true, forallb_elem. setoid_rewrite Z.eqb_eq. split.
    + intros H. destruct_and!. constructor; naive_solver.
    + intros []. naive_solver.
  - rewrite negb_true_iff, bool_decide_eq_false. split.
    + intros H. destruct_and!. constructor; naive_solver.
    + intros []. naive_solver.
Qed.

Lemma validate_for_ok r p : validate_for r p = Ok () ↔
  receipt_ok r ∧ p_policy_digest p = p_policy_digest (r_policy r)
  ∧ receipt_digest r = digest_json (receipt_payload r).
Proof.
  rewrite <- receipt_fields_check_ok, <- !is_ok_unit. unfold validate_for.
  validator. naive_solver.
Qed.

#[export] Instance operation_value_inj : Inj (=) (=) operation_value.
Proof. by intros [] []. Qed.

(** Two policies that bound the same calls. *)
Record agrees (p q : BoundedCanaryPolicy) : Prop := {
  ag_operations : requested_operations q = requested_operations p;
  ag_total : total_calls (budget q) = total_calls (budget p);
  ag_limit : ∀ o, limit_for (budget q) o = limit_for (budget p) o;
  ag_contract : p_contract_digest q = p_contract_digest p;
}.

Lemma counts_payload_perm c1 c2 : canon (counts_payload c1) = canon (counts_payload c2) → c1 ≡ₚ c2.
Proof.
  unfold counts_payload. cbn [canon]. rewrite !map_map. intros [= H].
  assert (map (λ oc : GitHubMutationOperation * Z, (operation_value oc.1, JInt oc.2)) c1
          ≡ₚ map (λ oc : GitHubMutationOperation * Z, (operation_value oc.1, JInt oc.2)) c2) as Hp.
  { etrans; [symmetry; apply (merge_sort_Permutation key_le)|].
    etrans; [|apply (merge_sort_Permutation key_le)]. by rewrite H. }
  apply Permutation_map_inv in Hp as (c3 & Hm & ->).
  assert (c1 = c3) as ->; [|done]. clear H. revert c3 Hm.
  induction c1 as [|[o n] c1 IH]; intros [|[o' n'] c3] [=]; [done|].
  f_equal; [f_equal; [by apply (inj operation_value)|done]|by apply IH].
Qed.

Lemma payload_agrees p q :
  NoDup (per_operation (budget p)).*1 →
  dumps (policy_payload q) = dumps (policy_payload p) → agrees p q.
Proof.
  intros Hnd H. unfold policy_payload in H. json_fields.
  match goal with E : canon (counts_payload _) = canon (counts_payload _) |- _ =>
    apply counts_payload_perm in E; rename E into Hper end.
  match goal with E : map operation_value _ = map operation_value _ |- _ => rename E into Hops end.
  constructor; try done.
  - by apply (inj (fmap operation_value)) in Hops.
  - intros o. unfold limit_for. symmetry. by rewrite (assoc_perm _ _ o Hnd (symmetry Hper)).
Qed.

(** ** The receipt chain *)

Definition policy_constructed (p : BoundedCanaryPolicy) : Prop :=
  policy_validate p = Ok () ∧ CanaryBudget_post_init (budget p) = Ok ().

(** SHA-256 does not collide on the canonical texts of a receipt's policy and [p]. *)
Definition no_collision (p : BoundedCanaryPolicy) (r : BoundedCanaryReceipt) : Prop :=
  digest_json (policy_payload (r_policy r)) = digest_json (policy_payload p) →
  dumps (policy_payload (r_policy r)) = dumps (policy_payload p).

Lemma total_differences {A} (f g : A → Z) l :
  total ((λ x, f x - g x) <$> l) = total (f <$> l) - total (g <$> l).
Proof. unfold total. induction l; cbn; lia. Qed.

Section chain.
Context (p : BoundedCanaryPolicy) (Hp : policy_constructed p).

Lemma constructed_budget : NoDup (per_operation (budget p)).*1.
Proof using Hp.
  destruct Hp as [_ H]. revert H. rewrite <- is_ok_unit. unfold CanaryBudget_post_init. validator.
  rewrite no_dup_spec. tauto.
Qed.

Lemma receipt_agrees r : validate_for r p = Ok () → no_collision p r → agrees p (r_policy r).
Proof using Hp.
  intros (Hr & Hd & _)%validate_for_ok Hc. apply payload_agrees; [apply constructed_budget|].
  apply Hc. destruct Hp as [H%policy_validate_ok _]. pose proof (policy_validate_ok _ (ro_policy _ Hr)) as H'.
  by rewrite <- (po_digest _ H), <- (po_digest _ H').
Qed.

(** A receipt of the policy counts exactly the requested operations. *)
Definition counts_for (r : BoundedCanaryReceipt) : Prop :=
  receipt_ok r ∧ agrees p (r_policy r).

Lemma counts_for_keys r : counts_for r → (operation_counts r).*1 ≡ₚ requested_operations p.
Proof using Hp.
  intros [Hr Ha]. apply NoDup_Permutation; [apply Hr| |].
  - apply policy_validate_ok, Hp.
  - intros o. rewrite (ro_keys _ Hr), (ag_operations _ _ Ha). done.
Qed.

Lemma counts_for_sum r : counts_for r →
  sum_counts (operation_counts r) = total (tally (operation_counts r) <$> requested_operations p).
Proof using Hp.
  intros H. apply sum_counts_along; [apply H|by apply counts_for_keys].
Qed.

Lemma counts_for_lookup r o : counts_for r → o ∈ requested_operations p →
  assoc o (operation_counts r) = Some (tally (operation_counts r) o).
Proof using Hp.
  intros H Ho. unfold tally. rewrite <- counts_for_keys in Ho by done.
  apply assoc_is_Some in Ho as [n Hn]. by rewrite Hn.
Qed.

Lemma counts_for_bounds r o : counts_for r → o ∈ requested_operations p →
  0 ≤ tally (operation_counts r) o ≤ limit_for (budget p) o.
Proof using Hp.
  intros H Ho. pose proof (counts_for_lookup r o H Ho) as Hl%assoc_elem. destruct H as [Hr Ha].
  pose proof (ro_nonneg _ Hr _ Hl). pose proof (ro_limit _ Hr _ Hl) as Hle. cbn in *.
  by rewrite (ag_limit _ _ Ha) in Hle.
Qed.

Lemma differences_eq r s : counts_for r → counts_for s →
  differences (operation_counts r) (operation_counts s) (requested_operations p)
  = Ok ((λ o, tally (operation_counts r) o - tally (operation_counts s) o) <$> requested_operations p).
Proof using Hp.
  intros Hr Hs. unfold differences. apply mapM_ok. apply Forall2_fmap_r.
  apply Forall_Forall2_diag, list.Forall_forall. intros o Ho.
  unfold count_of. by rewrite !counts_for_lookup.
Qed.

(** One link adds one call. *)
Lemma check_link_sum prev r : counts_for prev → counts_for r → check_link p (Some prev) r = Ok () →
  sum_counts (operation_counts r) = sum_counts (operation_counts prev) + 1
  ∧ predecessor_receipt_digest r = Some (receipt_digest prev) ∧ result r = CANARY_PASS.
Proof using Hp.
  intros Hv Hr H. apply bind_ok in H as (? & _ & H). rewrite differences_eq in H by done.
  cbn [mbind result_bind] in H. apply require_ok in H.
  rewrite !andb_true_iff, !bool_decide_eq_true in H. destruct H as ((((-> & ->) & _) & Hsum) & _).
  rewrite !counts_for_sum by done. apply Z.eqb_eq in Hsum. fold (total) in Hsum.
  change (foldr Z.add 0 ?l) with (total l) in Hsum. rewrite total_differences in Hsum. split_and!; try done. lia.
Qed.

Lemma check_chain_counts prev (chain : list BoundedCanaryReceipt) h : counts_for prev →
  (∀ r, r ∈ chain → no_collision p r) → check_chain p (Some prev) (Typed <$> chain) = Ok h →
  ∃ head, h = Some head ∧ list.last (prev :: chain) = Some head ∧ counts_for head
    ∧ sum_counts (operation_counts head) = sum_counts (operation_counts prev) + Z.of_nat (length chain).
Proof using Hp.
  revert prev. induction chain as [|r chain IH]; intros prev Hv Hc H.
  - injection H as <-. exists prev. split_and!; try done. cbn. lia.
  - cbn [fmap list_fmap check_chain] in H. apply bind_ok in H as ([] & Hl & H).
    pose proof Hl as (? & Hval & _)%bind_ok. destruct x.
    assert (counts_for r) as Hr.
    { split; [by apply validate_for_ok in Hval as [? _]|]. apply receipt_agrees; [done|]. apply Hc. constructor. }
    apply check_link_sum in Hl as (Hs & _); [|done..].
    destruct (IH r Hr) as (head & -> & Hlast & Hh & Hsum); [intros; apply Hc; by constructor|done|].
    exists head. split_and!; try done. cbn [length]. lia.
Qed.

Lemma validate_chain_counts (chain : list BoundedCanaryReceipt) head :
  (∀ r, r ∈ chain → no_collision p r) →
  validate_canary_receipt_chain p (Typed (Typed <$> chain)) = Ok head →
  list.last chain = Some head ∧ counts_for head
  ∧ sum_counts (operation_counts head) = Z.of_nat (length chain) - 1.
Proof using Hp.
  destruct chain as [|g chain]; [done|]. intros Hc H. cbn [validate_canary_receipt_chain fmap list_fmap] in H.
  apply bind_ok in H as (last & H & E). cbn [check_chain] in H. apply bind_ok in H as ([] & Hg & H).
  pose proof Hg as ([] & Hval & Hzero)%bind_ok.
  assert (counts_for g) as Hgc.
  { split; [by apply validate_for_ok in Hval as [? _]|]. apply receipt_agrees; [done|]. apply Hc. constructor. }
  destruct (check_chain_counts g chain last Hgc) as (h & -> & Hlast & Hh & Hsum);
    [intros; apply Hc; by constructor|done|].
  injection E as ->. split_and!; try done. rewrite Hsum.
  apply require_ok in Hzero. rewrite !andb_true_iff, forallb_elem in Hzero. destruct Hzero as [_ Hz].
  assert (sum_counts (operation_counts g) = 0) as ->; [|cbn [length]; lia].
  unfold sum_counts. clear -Hz. induction (operation_counts g) as [|oc l IH]; [done|]. cbn.
  pose proof (Hz oc (list_elem_of_here _ _)) as ?%Z.eqb_eq.
  unfold sum_counts in IH. rewrite IH; [lia|]. intros x Hx. apply Hz. by constructor.
Qed.

(** ** Extending the chain *)

Definition bump (o o' : GitHubMutationOperation) : Z := if decide (o' = o) then 1 else 0.

Lemma bump_absent o ops : o ∉ ops →
  total (bump o <$> ops) = 0 ∧ length (filter (λ d, d = 1%Z) (bump o <$> ops)) = 0%nat.
Proof.
  induction ops as [|o' ops IH]; intros Hn; [done|].
  rewrite not_elem_of_cons in Hn. destruct Hn as [Hne Hn]. destruct (IH Hn) as [IH1 IH2].
  change (bump o <$> o' :: ops) with (bump o o' :: (bump o <$> ops)).
  replace (bump o o') with 0 by (unfold bump; by rewrite decide_False).
  rewrite filter_cons_False by done. unfold total in *. cbn. lia.
Qed.

Lemma bump_once o ops : NoDup ops → o ∈ ops →
  total (bump o <$> ops) = 1 ∧ length (filter (λ d, d = 1%Z) (bump o <$> ops)) = 1%nat.
Proof.
  induction ops as [|o' ops IH]; [by intros _ ?%elem_of_nil|].
  intros [Hn Hnd]%list.NoDup_cons Ho. destruct (decide (o' = o)) as [->|Hne].
  - destruct (bump_absent o ops Hn) as [H1 H2].
    change (bump o <$> o :: ops) with (bump o o :: (bump o <$> ops)).
    replace (bump o o) with 1 by (unfold bump; by rewrite decide_True).
    rewrite filter_cons_True by done. unfold total in *. cbn. lia.
  - apply elem_of_cons in Ho as [->|Ho]; [done|]. destruct (IH Hnd Ho) as [H1 H2].
    change (bump o <$> o' :: ops) with (bump o o' :: (bump o <$> ops)).
    replace (bump o o') with 0 by (unfold bump; by rewrite decide_False).
    rewrite filter_cons_False by done. unfold total in *. cbn. lia.
Qed.

Lemma increment_sum r o : counts_for r → o ∈ requested_operations p →
  sum_counts (increment o (operation_counts r)) = sum_counts (operation_counts r) + 1.
Proof using Hp.
  intros Hr Ho. rewrite (sum_counts_along (increment o _) (requested_operations p)).
  2: by rewrite increment_keys; apply Hr. 2: by rewrite increment_keys; apply counts_for_keys.
  rewrite (counts_for_sum r) by done.
  destruct (bump_once o (requested_operations p)) as [H1 _]; [apply policy_validate_ok, Hp|done|].
  enough (total (tally (increment o (operation_counts r)) <$> requested_operations p)
          - total (tally (operation_counts r) <$> requested_operations p)
          = total (bump o <$> requested_operations p)) by lia.
  rewrite <- total_differences. f_equal. apply list_fmap_ext. intros i o' Hi.
  rewrite increment_tally; [unfold bump; case_decide; lia|].
  rewrite (counts_for_lookup r o') by (done || by eapply list_elem_of_lookup_2). by eexists.
Qed.

Lemma make_receipt_ok q res counts rb pred r :
  make_receipt q res counts rb pred = Ok r ↔
  receipt_ok r ∧ r_policy r = q ∧ result r = res ∧ operation_counts r = counts
  ∧ semantic_readback_digest r = rb ∧ predecessor_receipt_digest r = pred
  ∧ receipt_digest r = digest_json (receipt_payload r).
Proof.
  unfold make_receipt. rewrite bind_ok. split.
  - intros ([] & H & [= <-]). split_and!; try done. by apply receipt_fields_check_ok.
  - intros (Hr & <- & <- & <- & <- & <- & Hd). exists tt.
    split; [by apply receipt_fields_check_ok in Hr|].
    destruct r; cbn in *. by rewrite Hd.
Qed.

Record can_advance (head : BoundedCanaryReceipt) (o : GitHubMutationOperation) : Prop := {
  ca_result : result head = GENESIS ∨ result head = CANARY_PASS;
  ca_requested : o ∈ requested_operations p;
  ca_limit : tally (operation_counts head) o < limit_for (budget p) o;
  ca_total : sum_counts (operation_counts head) < total_calls (budget p);
}.

Lemma advanced_receipt_ok head o rb r : validate_for head p = Ok () → counts_for head →
  can_advance head o → match_digest rb = true →
  r_policy r = r_policy head → result r = CANARY_PASS →
  operation_counts r = increment o (operation_counts head) → semantic_readback_digest r = rb →
  predecessor_receipt_digest r = Some (receipt_digest head) → receipt_ok r.
Proof using Hp.
  intros (Hh & _ & Hd)%validate_for_ok Hc Hcan Hrb Ep Er Ec Es Epr.
  pose proof Hc as [_ Ha]. constructor; rewrite ?Ep, ?Er, ?Ec, ?Es, ?Epr, ?increment_keys.
  - apply Hh.
  - apply Hh.
  - intros [o' n] Hin. unfold increment in Hin. apply list_elem_of_fmap in Hin as ([o2 m] & E & Hin).
    pose proof (ro_nonneg _ Hh _ Hin). cbn in *. case_bool_decide; simplify_eq; cbn; lia.
  - apply Hh.
  - rewrite (increment_sum head o Hc) by apply Hcan. rewrite (ag_total _ _ Ha). pose proof (ca_total _ _ Hcan). lia.
  - intros [o' n] Hin. unfold increment in Hin. apply list_elem_of_fmap in Hin as ([o2 m] & E & Hin).
    pose proof (ro_limit _ Hh _ Hin) as Hle. cbn in *. case_bool_decide; simplify_eq; [|done].
    pose proof (ca_limit _ _ Hcan) as Hlt. unfold tally in Hlt.
    rewrite (assoc_nodup o (operation_counts head) m) in Hlt by (done || apply Hh).
    cbn in *. rewrite (ag_limit _ _ Ha). lia.
  - done.
  - intros d [= <-]. rewrite Hd. apply digest_json_match.
  - done.
  - done.
Qed.
End chain.

Section extend.
Context (p : BoundedCanaryPolicy) (Hp : policy_constructed p).

Lemma advance_links head o rb :
  validate_for head p = Ok () → counts_for p head → can_advance p head o → match_digest rb = true →
  ∃ r, advance_canary_receipt (Typed head) (Typed o) rb = Ok r ∧ check_link p (Some head) r = Ok ()
    ∧ operation_counts r = increment o (operation_counts head).
Proof using Hp.
  intros Hv Hc Hcan Hrb. pose proof Hc as [Hok Ha]. pose proof Hv as (_ & Hpd & Hd)%validate_for_ok.
  set (r := {| r_policy := r_policy head; result := CANARY_PASS;
               operation_counts := increment o (operation_counts head);
               semantic_readback_digest := rb; predecessor_receipt_digest := Some (receipt_digest head);
               receipt_digest := digest_json (receipt_payload
                 {| r_policy := r_policy head; result := CANARY_PASS;
                    operation_counts := increment o (operation_counts head);
                    semantic_readback_digest := rb;
                    predecessor_receipt_digest := Some (receipt_digest head); receipt_digest := "" |}) |}).
  assert (receipt_ok r) as Hr by (by eapply (advanced_receipt_ok p Hp head o rb)).
  assert (counts_for p r) as Hcr by done.
  exists r. split_and!; [| |done].
  - unfold advance_canary_receipt. rewrite (proj2 (validate_for_ok head (r_policy head))) by done.
    cbn [mbind result_bind]. destruct Hcan as [Hres Hin Hlim Htot].
    rewrite (bool_decide_eq_true_2 (result head ∈ _)) by (destruct Hres as [-> | ->]; set_solver).
    rewrite (ag_operations _ _ Ha), (bool_decide_eq_true_2 (o ∈ _)) by done. cbn [andb require mbind result_bind].
    unfold count_of. rewrite (counts_for_lookup p Hp head o) by done. cbn [mbind result_bind].
    rewrite (ag_limit _ _ Ha), (ag_total _ _ Ha).
    replace (_ <=? _) with false by (symmetry; apply Z.leb_gt; lia).
    replace (_ <=? _) with false by (symmetry; apply Z.leb_gt; lia). cbn [orb negb require mbind result_bind].
    by apply make_receipt_ok.
  - unfold check_link. rewrite (proj2 (validate_for_ok r p)) by done. cbn [mbind result_bind].
    rewrite (differences_eq p Hp r head) by done. cbn [mbind result_bind].
    assert ((λ o', tally (operation_counts r) o' - tally (operation_counts head) o')
              <$> requested_operations p = bump o <$> requested_operations p) as ->.
    { apply list_fmap_ext. intros i o' Hi. cbn [r operation_counts].
      rewrite increment_tally; [unfold bump; case_decide; lia|].
      rewrite (counts_for_lookup p Hp head o') by (done || by eapply list_elem_of_lookup_2). by eexists. }
    destruct (bump_once o (requested_operations p)) as [H1 H2];
      [apply policy_validate_ok, Hp|apply Hcan|].
    apply require_ok. rewrite !andb_true_iff, !bool_decide_eq_true. split_and!; try done.
    + apply forallb_elem. intros d Hd'. apply list_elem_of_fmap in Hd' as (o' & -> & _).
      unfold bump. by case_decide.
    + apply Z.eqb_eq, H1.
    + apply Nat.eqb_eq, H2.
Qed.

Lemma check_chain_app prev l1 l2 :
  check_chain p prev (l1 ++ l2) = check_chain p prev l1 ≫= λ m, check_chain p m l2.
Proof.
  revert prev. induction l1 as [|[r|] l1 IH]; intros prev; cbn [app check_chain]; [done| |done].
  destruct (check_link p prev r) as [[]|]; cbn [mbind result_bind]; [apply IH|done].
Qed.

Lemma validate_chain_snoc (chain : list BoundedCanaryReceipt) head r :
  validate_canary_receipt_chain p (Typed (Typed <$> chain)) = Ok head →
  check_link p (Some head) r = Ok () →
  validate_canary_receipt_chain p (Typed (Typed <$> (chain ++ [r]))) = Ok r.
Proof.
  destruct chain as [|g chain]; [done|]. intros H Hl.
  change (check_chain p None (Typed <$> g :: chain) ≫= (λ m, match m with Some r => Ok r | None => raise AssertionError "" end) = Ok head) in H.
  apply bind_ok in H as (m & Hm & H). destruct m as [m|]; [|done]. injection H as ->.
  change (check_chain p None (Typed <$> ((g :: chain) ++ [r])) ≫= (λ m, match m with Some r => Ok r | None => raise AssertionError "" end) = Ok r).
  rewrite fmap_app, check_chain_app, Hm. cbn [mbind result_bind check_chain fmap list_fmap]. by rewrite Hl.
Qed.

Lemma check_chain_valid prev (chain : list BoundedCanaryReceipt) h :
  check_chain p prev (Typed <$> chain) = Ok h →
  match chain with [] => h = prev | _ => ∃ head, h = Some head ∧ validate_for head p = Ok ()
    ∧ (prev = None → length chain = 1%nat → result head = GENESIS)
    ∧ (prev = None → (1 < length chain)%nat → result head = CANARY_PASS)
    ∧ (prev ≠ None → result head = CANARY_PASS) end.
Proof.
  revert prev. induction chain as [|r chain IH]; intros prev H; [by injection H|].
  cbn [fmap list_fmap check_chain] in H. apply bind_ok in H as ([] & Hl & H). apply IH in H.
  pose proof Hl as ([] & Hv & Hres)%bind_ok.
  assert (match prev with None => result r = GENESIS | Some _ => result r = CANARY_PASS end) as Hr.
  { destruct prev; [apply bind_ok in Hres as (? & _ & Hres)|]; apply require_ok in Hres;
      rewrite !andb_true_iff, !bool_decide_eq_true in Hres; tauto. }
  destruct chain as [|s chain].
  - subst h. exists r. split_and!; try done; [by intros ->|intros _ ?; cbn in *; lia|by destruct prev].
  - destruct H as (head & -> & Hvh & _ & _ & Hp'). exists head. split_and!; try done; intros; try (cbn in *; lia);
      by apply Hp'.
Qed.

Lemma validated_head (chain : list BoundedCanaryReceipt) head :
  validate_canary_receipt_chain p (Typed (Typed <$> chain)) = Ok head →
  validate_for head p = Ok () ∧ (result head = GENESIS ∨ result head = CANARY_PASS).
Proof.
  destruct chain as [|g chain]; [done|]. cbn [validate_canary_receipt_chain fmap list_fmap].
  intros (m & Hm & H)%bind_ok. apply (check_chain_valid None (g :: chain)) in Hm
    as (h & -> & Hv & H1 & H2 & _). injection H as ->. split; [done|].
  destruct chain; [left; by apply H1|right; apply H2; [done|cbn; lia]].
Qed.
End extend.

Lemma advance_fields head o rb r : advance_canary_receipt (Typed head) (Typed o) rb = Ok r →
  r_policy r = r_policy head ∧ predecessor_receipt_digest r = Some (receipt_digest head)
  ∧ semantic_readback_digest r = rb ∧ match_digest (receipt_digest r) = true.
Proof.
  unfold advance_canary_receipt. intros (_ & _ & H)%bind_ok. apply bind_ok in H as (_ & _ & H).
  apply bind_ok in H as (n & _ & H). apply bind_ok in H as (_ & _ & H).
  apply make_receipt_ok in H as (_ & ? & _ & _ & ? & ? & ->). split_and!; try done. apply digest_json_match.
Qed.

(** ** Specification of an authorized request *)

(** The repository operation that governs a GitHub operation. *)
Definition governed_by (o : GitHubMutationOperation) : RepositoryMutationOperation :=
  match o with
  | GH_CREATE_BRANCH => CREATE_REMOTE_BRANCH | GH_UPDATE_BRANCH => UPDATE_REMOTE_BRANCH
  | GH_DELETE_BRANCH => DELETE_REMOTE_BRANCH | GH_CREATE_PULL_REQUEST => CREATE_DRAFT_PR
  | GH_COMMENT => ISSUE_COMMENT | GH_REQUEST_REVIEW => RepositoryPolicy.REQUEST_REVIEW
  | GH_MARK_READY => MARK_PR_READY | GH_MERGE_PULL_REQUEST => MERGE_PR
  | GH_CLOSE_ISSUE => CLOSE_LEAF_ISSUE
  end.

(** The context selects exactly this policy, under standing authority. *)
Record selects (c : CanaryAuthorityContext) (p : BoundedCanaryPolicy) : Prop := {
  se_standing : roundlet_enabled c = true ∧ read_only_external_validation_allowed c = true
                ∧ disposable_target_mutation_allowed c = true;
  se_alive : kill_switch_active c = false;
  se_leaf : c_phase c = p_phase p ∧ c_leaf_number c = p_leaf_number p;
  se_commits : c_base_sha c = p_base_sha p ∧ c_candidate_sha c = p_candidate_sha p;
  se_contract : c_contract_digest c = p_contract_digest p;
  se_target : c_target c = p_target p ∧ c_target_policy_identity c = p_target_policy_identity p;
  se_policy : c_policy_digest c = p_policy_digest p;
  se_branch : c_branch c = p_branch p;
}.

(** The target repository's own policy, as the context observed it. *)
Definition target_evidence (c : CanaryAuthorityContext) (target : RepositoryMutationPolicy) : Prop :=
  ∃ src, c_target_policy c = Typed {| source := Typed src; document := Typed target |}
    ∧ canary_target_policy_identity (c_target_policy c) (c_target c) = Ok (c_target_policy_identity c)
    ∧ schema_version target = 2.

Record canary_permitted (p : BoundedCanaryPolicy) (c : CanaryAuthorityContext)
    (rq : CanaryMutationRequest) (chain : list (dyn BoundedCanaryReceipt))
    (head : BoundedCanaryReceipt) : Prop := {
  cp_policy : policy_validate p = Ok ();
  cp_selected : selects c p;
  cp_scope : operation rq ∈ requested_operations p ∧ branch rq = p_branch p
             ∧ (∀ path, path ∈ paths rq → path ∈ allowed_paths p)
             ∧ match_digest (request_digest rq) = true;
  cp_chain : validate_canary_receipt_chain p (Typed chain) = Ok head
             ∧ prior_receipt_digest c = Some (receipt_digest head);
  cp_target : ∃ target, target_evidence c target ∧ enabled target = true
              ∧ permits target (governed_by (operation rq)) = true;
  cp_budget : ∃ n, assoc (operation rq) (operation_counts head) = Some n
              ∧ n < limit_for (budget p) (operation rq)
              ∧ sum_counts (operation_counts head) < total_calls (budget p);
}.

Lemma target_policy_for_ok c p target :
  target_policy_for c p = Ok target ↔
  target_evidence c target
  ∧ match p with
    | Some p => c_target c = p_target p ∧ c_target_policy_identity c = p_target_policy_identity p
    | None => True
    end.
Proof.
  unfold target_policy_for, target_evidence, stale_target.
  destruct (c_target_policy c) as [[[src|] [doc|]]|]; cbn [canary_target_policy_identity source document];
    try (split; [done|]; intros [(src' & ? & ? & _) _]; congruence).
  case_bool_decide as Hid; cbn [negb].
  2: { split; [done|]. intros [(? & _ & [= E] & _) _]. congruence. }
  assert (policy_post_init doc = Ok () ↔ schema_version doc = 2) as Hs.
  { unfold policy_post_init. rewrite require_ok. apply Z.eqb_eq. }
  assert ((match policy_post_init doc with Ok _ => Ok doc
           | Err _ => raise CanaryPolicyError "Canary target policy evidence is invalid or stale" end) = Ok target
          ↔ doc = target ∧ schema_version doc = 2) as Hdoc.
  { destruct (policy_post_init doc) as [[]|]; rewrite <- Hs; naive_solver. }
  assert (∀ P : Prop, P → doc = target ∧ schema_version doc = 2 ↔
    (∃ src', Typed {| source := Typed src; document := Typed doc |}
             = Typed {| source := Typed src'; document := Typed target |}
       ∧ Ok (E := exn) (digest_json (JObj
            [("source_fingerprint", JStr (s_source_fingerprint src));
             ("revision_fingerprint", JStr (s_revision_fingerprint src));
             ("policy_digest", JStr (RepositoryPolicy.policy_digest doc));
             ("target", target_payload (c_target c))])) = Ok (c_target_policy_identity c)
       ∧ schema_version target = 2) ∧ P) as Hev.
  { intros P HP. split; [intros [<- ?]|by intros [(src' & [= -> ->] & _ & ?) _]].
    split; [|done]. exists src. by rewrite Hid. }
  destruct p as [p|]; [|rewrite Hdoc; by apply Hev].
  destruct (_ || _) eqn:E.
  - rewrite orb_true_iff, !negb_true_iff, !bool_decide_eq_false in E. split; [done|tauto].
  - rewrite orb_false_iff, !negb_false_iff, !bool_decide_eq_true in E. rewrite Hdoc. by apply Hev.
Qed.

Lemma evaluate_policy_ok p c :
  authorized (evaluate_bounded_canary_policy (Typed p) (Typed c)) = true ↔
  policy_validate p = Ok () ∧ selects c p ∧ ∃ target, target_evidence c target.
Proof.
  rewrite <- is_ok_unit. unfold evaluate_bounded_canary_policy.
  destruct (is_ok (policy_validate p)); cbn [negb]; [|cbn; split; [done|by intros [? _]]].
  destruct (_ || _) eqn:Es; cbn [authorized deny].
  { rewrite !orb_true_iff, !negb_true_iff in Es. split; [done|]. intros (_ & [(? & ? & ?)] & _). intuition congruence. }
  rewrite !orb_false_iff, !negb_false_iff in Es.
  destruct (kill_switch_active c) eqn:Ek; cbn [authorized deny].
  { split; [done|]. intros (_ & [] & _). congruence. }
  case_bool_decide as Hb; cbn [negb authorized deny].
  2: { split; [done|]. intros (_ & [] & _). destruct Hb. destruct_and!. congruence. }
  injection Hb as ?????????.
  assert (is_ok (target_policy_for c (Some p)) = true ↔ ∃ target, target_evidence c target) as Ht.
  { rewrite is_ok_spec. setoid_rewrite target_policy_for_ok. naive_solver. }
  destruct (is_ok (target_policy_for c (Some p))); cbn [negb authorized deny].
  - split; [intros _|done]. split; [done|]. split; [constructor; tauto|by apply Ht].
  - split; [done|]. intros (_ & _ & ?%Ht). done.
Qed.

Lemma target_switch_ok c o target : target_evidence c target →
  ∃ name, target_switch c o = Ok (target, name) ∧ getattr target name = Some (permits target (governed_by o)).
Proof.
  intros H. assert (target_policy_for c None = Ok target) as Ht by by apply target_policy_for_ok.
  unfold target_switch.
  replace (validate_repository_mutation_vocabulary _ _) with (Ok (E := exn) ())
    by (symmetry; vm_compute; reflexivity).
  cbn [mbind result_bind]. destruct o; cbn [assoc]; eexists; (split; [|]);
    try (cbn; rewrite Ht; cbn; reflexivity); reflexivity.
Qed.

Lemma make_authorization_ok policy contract request head :
  (∃ a, make_authorization policy contract request head = Ok a) ↔
  match_digest policy = true ∧ match_digest contract = true ∧ match_digest request = true
  ∧ match_digest head = true.
Proof.
  rewrite <- is_ok_spec. unfold make_authorization, require_digest. validator.
  cbn [is_ok]. tauto.
Qed.

Lemma authorize_permitted p c rq chain head : canary_permitted p c rq chain head →
  ∃ d a, authorize_canary_request (Typed p) (Typed c) (Typed rq) (Typed chain) = Ok d
    ∧ authorized d = true ∧ authorization d = Some a
    ∧ make_authorization (p_policy_digest p) (p_contract_digest p) (request_digest rq)
        (receipt_digest head) = Ok a.
Proof.
  intros [Hpol Hsel (Hop & Hbr & Hpath & Hrd) [Hchain Hprior] (target & Hev & Hen & Hon) (n & Hn & Hlim & Htot)].
  pose proof (policy_validate_ok _ Hpol) as Hok.
  assert (∃ a, make_authorization (p_policy_digest p) (p_contract_digest p) (request_digest rq)
            (receipt_digest head) = Ok a) as [a Ha].
  { apply make_authorization_ok. split_and!; [| |done|].
    - rewrite (po_digest _ Hok). apply digest_json_match.
    - apply Hok.
    - destruct chain as [|r0 chain0] eqn:Ec; [done|]. rewrite <- Ec in *.
      assert (∃ prev, check_chain p None chain = Ok (Some head) ∧ prev = @None BoundedCanaryReceipt) as (prev & Hc & _).
      { exists None. split; [|done]. rewrite Ec in *. cbn [validate_canary_receipt_chain] in Hchain.
        apply bind_ok in Hchain as ([m|] & Hm & E); [|done]. by injection E as ->. }
      assert (∀ l pr m, check_chain p pr l = Ok (Some m) → l ≠ [] → validate_for m p = Ok ()) as Hall.
      { clear. induction l as [|[r|] l IH]; intros pr m H Hne; [done| |done].
        cbn in H. apply bind_ok in H as ([] & Hl & H). destruct l; [|by eapply IH].
        injection H as ->. by apply bind_ok in Hl as ([] & ? & _). }
      apply Hall in Hc; [|by subst]. apply validate_for_ok in Hc as (_ & _ & ->). apply digest_json_match. }
  assert (authorized (evaluate_bounded_canary_policy (Typed p) (Typed c)) = true) as Hauth
    by (apply evaluate_policy_ok; eauto).
  unfold authorize_canary_request. rewrite Hauth.
  rewrite (bool_decide_eq_true_2 (operation rq ∈ _)), (bool_decide_eq_true_2 (branch rq = _)) by done.
  rewrite (proj2 (forallb_elem _ (paths rq)))
    by (intros path Hin; by apply bool_decide_eq_true_2, Hpath). cbn [negb].
  rewrite Hprior, Hchain, bool_decide_eq_true_2 by done. cbn [negb].
  unfold count_of. rewrite Hn. cbn [mbind result_bind].
  destruct (target_switch_ok c (operation rq) target Hev) as (name & -> & ->).
  rewrite Hen, Hon. cbn [negb orb].
  replace (_ <=? _) with false by (symmetry; apply Z.leb_gt; lia).
  replace (_ <=? _) with false by (symmetry; apply Z.leb_gt; lia). cbn [orb].
  rewrite Ha. cbn [mbind result_bind]. by eexists _, a.
Qed.

Lemma authorize_inv policy context request receipts d :
  authorize_canary_request policy context request receipts = Ok d → authorized d = true →
  ∃ p c rq chain head, policy = Typed p ∧ context = Typed c ∧ request = Typed rq
    ∧ receipts = Typed chain ∧ canary_permitted p c rq chain head.
Proof.
  intros H Hd. unfold authorize_canary_request in H.
  destruct (authorized (evaluate_bounded_canary_policy policy context)) eqn:He; [|by injection H as <-].
  destruct policy as [p|]; [|done]. destruct context as [c|]; [|done].
  destruct request as [rq|]; [|by injection H as <-].
  apply evaluate_policy_ok in He as (Hpol & Hsel & target & Hev).
  case_bool_decide as Hop; cbn [negb] in H; [|by injection H as <-].
  case_bool_decide as Hbr; cbn [negb] in H; [|by injection H as <-].
  destruct (forallb _ _) eqn:Hpath; cbn [negb] in H; [|by injection H as <-].
  destruct (prior_receipt_digest c) as [prior|] eqn:Hprior; [|by injection H as <-].
  destruct receipts as [chain|]; [|by injection H as <-].
  destruct (validate_canary_receipt_chain p (Typed chain)) as [head|e] eqn:Hchain.
  2: { destruct (bool_decide _); [by injection H as <-|done]. }
  case_bool_decide as Hhead; cbn [negb] in H; [|by injection H as <-]. subst prior.
  apply bind_ok in H as (n & Hn%count_of_ok & H).
  destruct (target_switch_ok c (operation rq) target Hev) as (name & Hts & Hga).
  rewrite Hts, Hga in H.
  destruct (negb _ || negb _) eqn:Hsw; [by injection H as <-|].
  destruct (_ || _) eqn:Hbud in H; [by injection H as <-|].
  apply bind_ok in H as (a & Ha & _).
  assert (∃ a, make_authorization (p_policy_digest p) (p_contract_digest p) (request_digest rq)
    (receipt_digest head) = Ok a) as (_ & _ & Hrd & _)%make_authorization_ok by eauto.
  rewrite orb_false_iff, !negb_false_iff in Hsw. rewrite orb_false_iff, !Z.leb_gt in Hbud.
  rewrite forallb_elem in Hpath. destruct Hsw, Hbud. clear Hts Hga Ha Hd.
  exists p, c, rq, chain, head. do 4 (split; [reflexivity|]).
  constructor; [assumption|assumption| |split; assumption| |].
  - split_and!; [assumption..| |assumption]. intros path Hin. by apply Hpath, bool_decide_eq_true in Hin.
  - exists target. split_and!; assumption.
  - exists n. split_and!; assumption.
Qed.

(** C24 : a Canary request is authorized exactly when the policy has not
    drifted, the context selects exactly that policy under standing authority
    with the kill switch off, the operation, branch and paths are inside the
    policy, the receipt chain is valid and its head is the one selected, the
    target repository's own policy enables the operation, and both the
    operation's and the total budget have a call left. *)
Theorem canary_request_exact policy context request receipts :
  (∃ d, authorize_canary_request policy context request receipts = Ok d ∧ authorized d = true) ↔
  ∃ p c rq chain head, policy = Typed p ∧ context = Typed c ∧ request = Typed rq
    ∧ receipts = Typed chain ∧ canary_permitted p c rq chain head.
Proof.
  split.
  - intros (d & H & Hd). by eapply authorize_inv.
  - intros (p & c & rq & chain & head & -> & -> & -> & -> & H).
    destruct (authorize_permitted _ _ _ _ _ H) as (d & a & ? & ? & _). eauto.
Qed.

(** a validated receipt chain counts its calls: its last receipt is the
    head, the head's total is the number of links after genesis, which never
    exceeds the total budget, and no operation exceeds its own limit (unless
    SHA-256 collides on the texts of the policies involved). *)
Theorem receipt_chain_counts_calls p (chain : list BoundedCanaryReceipt) head
    (Hp : policy_constructed p) (Hsha : ∀ r, r ∈ chain → no_collision p r)
    (H : validate_canary_receipt_chain p (Typed (Typed <$> chain)) = Ok head) :
  list.last chain = Some head
  ∧ sum_counts (operation_counts head) = Z.of_nat (length chain) - 1
  ∧ Z.of_nat (length chain) - 1 ≤ total_calls (budget p)
  ∧ ∀ o, o ∈ requested_operations p → 0 ≤ tally (operation_counts head) o ≤ limit_for (budget p) o.
Proof.
  destruct (validate_chain_counts p Hp chain head Hsha H) as (Hl & Hc & Hs).
  split_and!; [done|done| |].
  - destruct Hc as [Hr Ha]. pose proof (ro_total _ Hr). rewrite (ag_total _ _ Ha) in *. lia.
  - intros o Ho. by apply counts_for_bounds.
Qed.

Lemma authorized_extends p c rq (chain : list BoundedCanaryReceipt) d :
  policy_constructed p → (∀ r, r ∈ chain → no_collision p r) →
  authorize_canary_request (Typed p) (Typed c) (Typed rq) (Typed (Typed <$> chain)) = Ok d →
  authorized d = true →
  ∃ head, validate_canary_receipt_chain p (Typed (Typed <$> chain)) = Ok head
  ∧ ∀ readback, match_digest readback = true →
    ∃ r, advance_canary_receipt (Typed head) (Typed (operation rq)) readback = Ok r
    ∧ validate_canary_receipt_chain p (Typed (Typed <$> (chain ++ [r]))) = Ok r
    ∧ operation_counts r = increment (operation rq) (operation_counts head).
Proof.
  intros Hp Hsha H Hd.
  destruct (authorize_inv _ _ _ _ _ H Hd) as (? & ? & ? & ? & head & [= <-] & [= <-] & [= <-] & [= <-] & P).
  destruct P as [_ _ (Hop & _) [Hc _] _ (n & Hn & Hlim & Htot)].
  exists head. split; [done|]. intros rb Hrb.
  destruct (validated_head p chain head Hc) as [Hv Hres].
  destruct (validate_chain_counts p Hp chain head Hsha Hc) as (_ & Hcf & _).
  destruct (advance_links p Hp head (operation rq) rb Hv Hcf) as (r & Ha & Hl & He); [|done|].
  { constructor; try done. unfold tally. by rewrite Hn. }
  exists r. split_and!; try done. by eapply validate_chain_snoc.
Qed.

(** an authorized call can always be recorded.  After an authorized
    request, whatever semantic read-back digest the broker returns, advancing
    the head succeeds and the extended chain is again valid, with the new
    receipt as its head and one more call of exactly that operation. *)
Theorem authorized_call_extends_chain p c rq (chain : list BoundedCanaryReceipt) d
    (Hp : policy_constructed p) (Hsha : ∀ r, r ∈ chain → no_collision p r)
    (H : authorize_canary_request (Typed p) (Typed c) (Typed rq) (Typed (Typed <$> chain)) = Ok d)
    (Hd : authorized d = true) :
  ∃ head, validate_canary_receipt_chain p (Typed (Typed <$> chain)) = Ok head
  ∧ ∀ readback, match_digest readback = true →
    ∃ r, advance_canary_receipt (Typed head) (Typed (operation rq)) readback = Ok r
    ∧ validate_canary_receipt_chain p (Typed (Typed <$> (chain ++ [r]))) = Ok r
    ∧ operation_counts r = increment (operation rq) (operation_counts head).
Proof. by eapply authorized_extends. Qed.

Lemma make_authorization_key policy contract request head a :
  make_authorization policy contract request head = Ok a →
  consumption_key a = digest_json (fence_payload policy contract head)
  ∧ a_policy_digest a = policy ∧ a_contract_digest a = contract ∧ a_request_digest a = request
  ∧ receipt_chain_head_digest a = head
  ∧ claim_digest a = digest_json (JObj [("consumption_key", JStr (consumption_key a));
                                       ("request_digest", JStr request)]).
Proof. unfold make_authorization. by intros (_ & _ & [= <-])%bind_ok. Qed.

Lemma authorize_claim p c rq (chain : list (dyn BoundedCanaryReceipt)) d :
  authorize_canary_request (Typed p) (Typed c) (Typed rq) (Typed chain) = Ok d → authorized d = true →
  ∃ head a, canary_permitted p c rq chain head ∧ authorization d = Some a
    ∧ make_authorization (p_policy_digest p) (p_contract_digest p) (request_digest rq)
        (receipt_digest head) = Ok a.
Proof.
  intros H Hd.
  destruct (authorize_inv _ _ _ _ _ H Hd) as (? & ? & ? & ? & head & [= <-] & [= <-] & [= <-] & [= <-] & P).
  destruct (authorize_permitted _ _ _ _ _ P) as (d' & a & H' & _ & Ha & Hm).
  exists head, a. split_and!; try done. congruence.
Qed.

(** the consumption fence identifies the position in the receipt chain.
    Two requests authorized against the same chain get the same fence key, so
    the owner-host lease lets only one of them through; requests authorized
    after the chain has advanced get a different key, so a key is never
    reusable (unless SHA-256 collides on the two heads or the two fences). *)
Theorem fence_identifies_chain_position p c1 c2 rq1 rq2
    (chain1 chain2 : list BoundedCanaryReceipt) h1 h2 d1 d2 a1 a2
    (Hp : policy_constructed p)
    (Hsha : ∀ r, r ∈ chain1 ∨ r ∈ chain2 → no_collision p r)
    (Hh1 : validate_canary_receipt_chain p (Typed (Typed <$> chain1)) = Ok h1)
    (Hh2 : validate_canary_receipt_chain p (Typed (Typed <$> chain2)) = Ok h2)
    (Hheads : digest_json (receipt_payload h1) = digest_json (receipt_payload h2) →
              dumps (receipt_payload h1) = dumps (receipt_payload h2))
    (Hfences : let fence h := fence_payload (p_policy_digest p) (p_contract_digest p) (receipt_digest h) in
               digest_json (fence h1) = digest_json (fence h2) → dumps (fence h1) = dumps (fence h2))
    (H1 : authorize_canary_request (Typed p) (Typed c1) (Typed rq1) (Typed (Typed <$> chain1)) = Ok d1)
    (H2 : authorize_canary_request (Typed p) (Typed c2) (Typed rq2) (Typed (Typed <$> chain2)) = Ok d2)
    (Hd1 : authorization d1 = Some a1 ∧ authorized d1 = true)
    (Hd2 : authorization d2 = Some a2 ∧ authorized d2 = true) :
  (chain1 = chain2 → consumption_key a1 = consumption_key a2)
  ∧ (length chain1 ≠ length chain2 → consumption_key a1 ≠ consumption_key a2).
Proof.
  destruct Hd1 as [Ea1 Hd1], Hd2 as [Ea2 Hd2].
  destruct (authorize_claim _ _ _ _ _ H1 Hd1) as (h1' & b1 & [_ _ _ [Hc1 _] _ _] & Eb1 & K1%make_authorization_key).
  destruct (authorize_claim _ _ _ _ _ H2 Hd2) as (h2' & b2 & [_ _ _ [Hc2 _] _ _] & Eb2 & K2%make_authorization_key).
  rewrite Hh1 in Hc1. injection Hc1 as <-. rewrite Hh2 in Hc2. injection Hc2 as <-.
  rewrite Ea1 in Eb1. injection Eb1 as <-. rewrite Ea2 in Eb2. injection Eb2 as <-.
  destruct K1 as (K1 & _). destruct K2 as (K2 & _). rewrite K1, K2. split.
  - intros ->. rewrite Hh1 in Hh2. by injection Hh2 as <-.
  - intros Hlen Hk. apply Hlen. apply Hfences in Hk. unfold fence_payload in Hk. json_fields.
    destruct (validated_head p _ _ Hh1) as [(_ & _ & R1)%validate_for_ok _].
    destruct (validated_head p _ _ Hh2) as [(_ & _ & R2)%validate_for_ok _].
    match goal with E : receipt_digest h1 = receipt_digest h2 |- _ => rename E into Heq end.
    rewrite R1, R2 in Heq. apply Hheads in Heq. clear -Hp Hsha Hh1 Hh2 Heq.
    unfold receipt_payload in Heq. json_fields.
    destruct (validate_chain_counts p Hp chain1 h1) as (_ & _ & S1); [auto|done|].
    destruct (validate_chain_counts p Hp chain2 h2) as (_ & _ & S2); [auto|done|]. lia.
Qed.

(** ** Witnesses *)

Definition sample_canary_target : CanaryTarget :=
  {| repository := "owner/disposable"; baseline_sha := str_repeat "1" 40; t_leaf_number := 7 |}.

Definition sample_snapshot : dyn TrustedRepositoryPolicySnapshot :=
  Typed {| source := Typed sample_source; document := Typed sample_policy |}.

Definition sample_identity : string :=
  Eval vm_compute in
  match canary_target_policy_identity sample_snapshot sample_canary_target with Ok d => d | Err _ => "" end.

Definition sample_canary_draft (digest : string) : BoundedCanaryPolicy :=
  {| p_base_sha := str_repeat "2" 40; p_candidate_sha := str_repeat "3" 40;
     p_contract_digest := String.append "sha256:" (str_repeat "4" 64); p_phase := 4;
     p_leaf_number := 9; p_target := sample_canary_target; p_target_policy_identity := sample_identity;
     p_branch := "canary/leaf-9"; allowed_paths := ["docs/canary.md"];
     requested_operations := [GH_CREATE_BRANCH; GH_COMMENT];
     budget := {| per_operation := [(GH_COMMENT, 2); (GH_CREATE_BRANCH, 1)]; total_calls := 3 |};
     rollback := {| rollback_trigger := "failed read-back"; kill_switch := "owner stop";
                    semantic_readback := "branch and comment exist" |};
     p_schema := CANARY_POLICY_SCHEMA; p_policy_digest := digest |}.

Definition sample_canary : BoundedCanaryPolicy :=
  Eval vm_compute in
  sample_canary_draft (digest_json (policy_payload (sample_canary_draft ""))).

Definition unwrap {A} (dflt : A) (r : py A) : A := match r with Ok a => a | Err _ => dflt end.

Definition blank_receipt : BoundedCanaryReceipt :=
  {| r_policy := sample_canary; result := DENIED; operation_counts := [];
     semantic_readback_digest := ""; predecessor_receipt_digest := None; receipt_digest := "" |}.

Definition sample_genesis : BoundedCanaryReceipt :=
  Eval vm_compute in
  unwrap blank_receipt (genesis_canary_receipt sample_canary).

Definition sample_second : BoundedCanaryReceipt :=
  Eval vm_compute in
  unwrap blank_receipt (advance_canary_receipt (Typed sample_genesis) (Typed GH_CREATE_BRANCH)
    (String.append "sha256:" (str_repeat "5" 64))).

Definition sample_canary_context (prior : string) : CanaryAuthorityContext :=
  {| roundlet_enabled := true; read_only_external_validation_allowed := true;
     disposable_target_mutation_allowed := true; c_phase := 4; c_leaf_number := 9;
     c_route := FORWARD_TEST_ROUTE; c_base_sha := str_repeat "2" 40;
     c_candidate_sha := str_repeat "3" 40;
     c_contract_digest := String.append "sha256:" (str_repeat "4" 64);
     c_target := sample_canary_target; c_target_policy := sample_snapshot;
     c_target_policy_identity := sample_identity; c_policy_digest := p_policy_digest sample_canary;
     c_branch := "canary/leaf-9"; prior_receipt_digest := Some prior; kill_switch_active := false |}.

Definition sample_request (o : GitHubMutationOperation) : CanaryMutationRequest :=
  unwrap {| operation := o; branch := ""; paths := []; request_digest := "" |}
    (make_request o "canary/leaf-9" ["docs/canary.md"]).

Definition sample_decision (o : GitHubMutationOperation) (chain : list BoundedCanaryReceipt)
    (prior : BoundedCanaryReceipt) : CanaryDecision :=
  unwrap (deny "" None) (authorize_canary_request (Typed sample_canary)
    (Typed (sample_canary_context (receipt_digest prior))) (Typed (sample_request o))
    (Typed (Typed <$> chain))).

Definition blank_authorization : CanaryAuthorization :=
  {| a_policy_digest := ""; a_contract_digest := ""; a_request_digest := "";
     receipt_chain_head_digest := ""; consumption_key := ""; claim_digest := "" |}.

Lemma sample_canary_constructed : policy_constructed sample_canary.
Proof. split; vm_compute; reflexivity. Qed.

Lemma sample_no_collision r : r ∈ [sample_genesis; sample_second] → no_collision sample_canary r.
Proof.
  intros H. assert (r_policy r = sample_canary) as E; [|unfold no_collision; by rewrite E].
  apply elem_of_cons in H as [->|[->|?%elem_of_nil]%elem_of_cons]; [vm_compute; reflexivity..|done].
Qed.

Definition sample_branch_decision : CanaryDecision :=
  Eval vm_compute in sample_decision GH_CREATE_BRANCH [sample_genesis] sample_genesis.

Definition sample_comment_decision : CanaryDecision :=
  Eval vm_compute in sample_decision GH_COMMENT [sample_genesis; sample_second] sample_second.

Definition sample_branch_authorization : CanaryAuthorization :=
  Eval vm_compute in default blank_authorization (authorization sample_branch_decision).

Definition sample_comment_authorization : CanaryAuthorization :=
  Eval vm_compute in default blank_authorization (authorization sample_comment_decision).

Lemma sample_branch_authorizes : authorize_canary_request (Typed sample_canary)
    (Typed (sample_canary_context (receipt_digest sample_genesis))) (Typed (sample_request GH_CREATE_BRANCH))
    (Typed (Typed <$> [sample_genesis])) = Ok sample_branch_decision.
Proof. vm_compute. reflexivity. Qed.

Lemma sample_comment_authorizes : authorize_canary_request (Typed sample_canary)
    (Typed (sample_canary_context (receipt_digest sample_second))) (Typed (sample_request GH_COMMENT))
    (Typed (Typed <$> [sample_genesis; sample_second])) = Ok sample_comment_decision.
Proof. vm_compute. reflexivity. Qed.

(** The chains these decisions were made on are valid. *)
Lemma sample_first_chain :
  validate_canary_receipt_chain sample_canary (Typed (Typed <$> [sample_genesis])) = Ok sample_genesis.
Proof.
  destruct (authorize_claim _ _ _ _ _ sample_branch_authorizes eq_refl) as (h & a & [_ _ _ [Hc _] _ _] & _).
  rewrite Hc. f_equal. symmetry. revert Hc. cbn [fmap list_fmap validate_canary_receipt_chain check_chain].
  intros (m & Hm & Hh)%bind_ok. apply bind_ok in Hm as ([] & _ & [= <-]). by injection Hh.
Qed.

Lemma sample_second_chain :
  validate_canary_receipt_chain sample_canary (Typed (Typed <$> [sample_genesis; sample_second]))
  = Ok sample_second.
Proof.
  destruct (authorize_claim _ _ _ _ _ sample_comment_authorizes eq_refl) as (h & a & [_ _ _ [Hc _] _ _] & _).
  rewrite Hc. f_equal. symmetry. revert Hc. cbn [fmap list_fmap validate_canary_receipt_chain check_chain].
  intros (m & Hm & Hh)%bind_ok. apply bind_ok in Hm as ([] & _ & Hm). apply bind_ok in Hm as ([] & _ & [= <-]).
  by injection Hh.
Qed.

Lemma sample_heads_differ :
  digest_json (receipt_payload sample_genesis) ≠ digest_json (receipt_payload sample_second).
Proof.
  destruct (validated_head _ _ _ sample_first_chain) as [(_ & _ & R1)%validate_for_ok _].
  destruct (validated_head _ _ _ sample_second_chain) as [(_ & _ & R2)%validate_for_ok _].
  rewrite <- R1, <- R2. vm_compute. discriminate.
Qed.

Lemma receipt_chain_counts_calls_witness :
  Z.of_nat (length [sample_genesis; sample_second]) - 1 ≤ total_calls (budget sample_canary).
Proof.
  refine (proj1 (proj2 (proj2 (receipt_chain_counts_calls sample_canary
    [sample_genesis; sample_second] sample_second _ _ _))));
    [apply sample_canary_constructed|apply sample_no_collision|apply sample_second_chain].
Defined.

Lemma authorized_call_extends_chain_witness :
  ∃ head, validate_canary_receipt_chain sample_canary
            (Typed (Typed <$> [sample_genesis; sample_second])) = Ok head
  ∧ ∀ readback, match_digest readback = true →
    ∃ r, advance_canary_receipt (Typed head) (Typed (operation (sample_request GH_COMMENT))) readback = Ok r
    ∧ validate_canary_receipt_chain sample_canary
        (Typed (Typed <$> ([sample_genesis; sample_second] ++ [r]))) = Ok r
    ∧ operation_counts r = increment (operation (sample_request GH_COMMENT)) (operation_counts head).
Proof.
  refine (authorized_call_extends_chain sample_canary
    (sample_canary_context (receipt_digest sample_second)) (sample_request GH_COMMENT)
    [sample_genesis; sample_second]
    sample_comment_decision _ _ _ _);
    [apply sample_canary_constructed|apply sample_no_collision|apply sample_comment_authorizes|reflexivity].
Defined.

Lemma fence_identifies_chain_position_witness :
  consumption_key sample_branch_authorization ≠ consumption_key sample_comment_authorization.
Proof.
  refine (proj2 (fence_identifies_chain_position sample_canary
    (sample_canary_context (receipt_digest sample_genesis))
    (sample_canary_context (receipt_digest sample_second))
    (sample_request GH_CREATE_BRANCH) (sample_request GH_COMMENT)
    [sample_genesis] [sample_genesis; sample_second] sample_genesis sample_second
    sample_branch_decision sample_comment_decision
    sample_branch_authorization sample_comment_authorization
    sample_canary_constructed _ sample_first_chain sample_second_chain _ _
    sample_branch_authorizes sample_comment_authorizes (conj eq_refl eq_refl) (conj eq_refl eq_refl)) _).
  - intros r [H|H]; apply sample_no_collision; [|done]. apply elem_of_cons in H as [->|?%elem_of_nil]; [constructor|done].
  - intros H. destruct (sample_heads_differ H).
  - cbn zeta. intros H. exfalso. revert H. vm_compute. discriminate.
  - vm_compute. discriminate.
Defined.
