(* ===== verification/CanaryExecution.v ===== *)
(** * Bounded Canary execution (src/roundwright/canary_execution.py)

    The coordinator that runs one authorized Canary transition through an
    owner-host lease and broker, and the ledger that makes delivery idempotent:
    reservation, at most one retry, semantic read-back, and the receipt chain.
    The owner host is an interface: what it answers is arbitrary; the calls made
    to it are recorded in a trace.  A command runs from its start to its end: the
    lock of the ledger covers each of its methods, not a whole command, so the
    histories here are those of one thread and of a host that does not call back
    into the coordinator. *)

From S2P Require Import Prelude Sha256 Json RepositoryPolicy CanaryPolicy.
Open Scope Z_scope.

Inductive CanaryReadbackState := APPLIED | ABSENT | AMBIGUOUS.

Inductive CanaryTransitionState :=
  | CLAIMED | VERIFIED | QUARANTINED | RETRY_ALLOWED | PRESERVED_FOR_OWNER.

Definition CanaryTransitionState_value (s : CanaryTransitionState) : string :=
  match s with
  | CLAIMED => "claimed" | VERIFIED => "verified" | QUARANTINED => "quarantined"
  | RETRY_ALLOWED => "retry-allowed" | PRESERVED_FOR_OWNER => "preserved-for-owner"
  end.

Inductive CanaryTransitionPurpose := EXECUTE | P_ROLLBACK | CLEANUP.

Definition CanaryTransitionPurpose_value (p : CanaryTransitionPurpose) : string :=
  match p with EXECUTE => "execute" | P_ROLLBACK => "rollback" | CLEANUP => "cleanup" end.

#[export] Instance CanaryReadbackState_eq_dec : EqDecision CanaryReadbackState.
Proof. solve_decision. Defined.
#[export] Instance CanaryTransitionState_eq_dec : EqDecision CanaryTransitionState.
Proof. solve_decision. Defined.
#[export] Instance CanaryTransitionPurpose_eq_dec : EqDecision CanaryTransitionPurpose.
Proof. solve_decision. Defined.

Definition require_digest (value name : string) : py unit :=
  require (match_digest value) CanaryExecutionError (String.append name " is invalid").

(** [_INVERSE_CLEANUP_OPERATION] *)
Definition cleanup_action_for (o : GitHubMutationOperation) : py GitHubMutationOperation :=
  match o with
  | GH_CREATE_BRANCH => Ok GH_DELETE_BRANCH
  | _ => raise CanaryExecutionError "Canary predecessor has no reversible cleanup action"
  end.

(** Values of this class have a valid digest (checked at construction). *)
Record CanarySemanticReadback := { rb_state : CanaryReadbackState; rb_digest : string }.

Definition CanarySemanticReadback_post_init (r : CanarySemanticReadback) : py unit :=
  require_digest (rb_digest r) "Canary read-back digest".

Record CanaryExecutionReceipt := {
  x_policy_digest : string;
  x_contract_digest : string;
  x_claim_digest : string;
  x_request_digest : string;
  x_chain_head_digest : string;
  x_purpose : CanaryTransitionPurpose;
  x_state : CanaryTransitionState;
  x_semantic_readback_digest : option string;
  x_canary_receipt_digest : option string;
  x_predecessor_transition_receipt_digest : option string;
  x_pre_state_readback_digest : option string;
  x_retry_used : bool;
  x_receipt_digest : string;
}.

(** [CanaryExecutionReceipt.public_payload(include_digest=False)]. *)
Definition execution_payload (r : CanaryExecutionReceipt) : json :=
  JObj [("policy_digest", JStr (x_policy_digest r));
        ("contract_digest", JStr (x_contract_digest r));
        ("claim_digest", JStr (x_claim_digest r));
        ("request_digest", JStr (x_request_digest r));
        ("receipt_chain_head_digest", JStr (x_chain_head_digest r));
        ("purpose", JStr (CanaryTransitionPurpose_value (x_purpose r)));
        ("state", JStr (CanaryTransitionState_value (x_state r)));
        ("semantic_readback_digest", jopt (x_semantic_readback_digest r));
        ("canary_receipt_digest", jopt (x_canary_receipt_digest r));
        ("predecessor_transition_receipt_digest", jopt (x_predecessor_transition_receipt_digest r));
        ("pre_state_readback_digest", jopt (x_pre_state_readback_digest r));
        ("retry_used", JBool (x_retry_used r))].

Definition require_optional (value : option string) (name : string) : py unit :=
  match value with Some v => require_digest v name | None => Ok () end.

(** The checks of [CanaryExecutionReceipt.__post_init__]. *)
Definition execution_receipt_check (r : CanaryExecutionReceipt) : py unit :=
  _ ← for_each (λ vn, require_digest vn.1 vn.2)
        [(x_policy_digest r, "Canary policy digest"); (x_contract_digest r, "Canary contract digest");
         (x_claim_digest r, "Canary claim digest"); (x_request_digest r, "Canary request digest");
         (x_chain_head_digest r, "Canary chain head digest")];
  _ ← require_optional (x_semantic_readback_digest r) "Canary execution read-back digest";
  _ ← require_optional (x_canary_receipt_digest r) "Canary execution receipt digest";
  _ ← require_optional (x_predecessor_transition_receipt_digest r) "Canary predecessor receipt digest";
  _ ← require_optional (x_pre_state_readback_digest r) "Canary pre-state read-back digest";
  _ ← (if x_purpose r ==? EXECUTE then
         require ((x_predecessor_transition_receipt_digest r ==? None)
                  && (x_pre_state_readback_digest r ==? None)) CanaryExecutionError
           "ordinary Canary execution cannot carry cleanup preconditions"
       else
         require (negb (x_predecessor_transition_receipt_digest r ==? None)
                  && negb (x_pre_state_readback_digest r ==? None)) CanaryExecutionError
           "rollback or cleanup lacks reconciled predecessor evidence");
  _ ← require (negb (x_retry_used r && (x_state r ==? RETRY_ALLOWED))) CanaryExecutionError
        "consumed Canary retry cannot remain retry-allowed";
  if x_state r ==? VERIFIED then
    require (negb (x_semantic_readback_digest r ==? None) && negb (x_canary_receipt_digest r ==? None))
      CanaryExecutionError "verified Canary transition lacks semantic receipt evidence"
  else
    require (x_canary_receipt_digest r ==? None) CanaryExecutionError
      "unverified Canary transition cannot advance the receipt chain".

(** The constructor, from an authorization and the transition's own fields. *)
Definition make_execution_receipt (a : CanaryAuthorization) (purpose : CanaryTransitionPurpose)
    (state : CanaryTransitionState) (readback canary predecessor pre_state : option string)
    (retry_used : bool) : py CanaryExecutionReceipt :=
  let draft digest :=
    {| x_policy_digest := a_policy_digest a; x_contract_digest := a_contract_digest a;
       x_claim_digest := claim_digest a; x_request_digest := a_request_digest a;
       x_chain_head_digest := receipt_chain_head_digest a; x_purpose := purpose; x_state := state;
       x_semantic_readback_digest := readback; x_canary_receipt_digest := canary;
       x_predecessor_transition_receipt_digest := predecessor;
       x_pre_state_readback_digest := pre_state; x_retry_used := retry_used;
       x_receipt_digest := digest |} in
  _ ← execution_receipt_check (draft "");
  Ok (draft (digest_json (execution_payload (draft "")))).

(** ** The ledger *)

Record TransitionRecord := {
  t_authorization : CanaryAuthorization;
  t_request : CanaryMutationRequest;
  t_purpose : CanaryTransitionPurpose;
  t_state : CanaryTransitionState;
  t_receipt : CanaryExecutionReceipt;
  t_canary_receipt : option BoundedCanaryReceipt;
  t_retry_used : bool;
  t_predecessor_digest : option string;
  t_pre_state_digest : option string;
}.

(** Records are shared mutable objects; a reference to one is its key in
    [records], which the code never rebinds to another object. *)
Record Ledger := {
  l_policy : BoundedCanaryPolicy;
  chain : list BoundedCanaryReceipt;
  records : list (string * TransitionRecord);
  hydrated : bool;
}.

(** [CanaryExecutionLedger.__init__] *)
Definition new_ledger (p : BoundedCanaryPolicy) : py Ledger :=
  g ← genesis_canary_receipt p;
  Ok {| l_policy := p; chain := [g]; records := []; hydrated := false |}.

Definition set_chain (l : Ledger) (c : list BoundedCanaryReceipt) : Ledger :=
  {| l_policy := l_policy l; chain := c; records := records l; hydrated := hydrated l |}.

Definition set_records (l : Ledger) (rs : list (string * TransitionRecord)) : Ledger :=
  {| l_policy := l_policy l; chain := chain l; records := rs; hydrated := hydrated l |}.

(** Attribute assignments on a record. *)
Definition assign_state (state : CanaryTransitionState) (canary : option BoundedCanaryReceipt)
    (r : TransitionRecord) : TransitionRecord :=
  {| t_authorization := t_authorization r; t_request := t_request r; t_purpose := t_purpose r;
     t_state := state; t_receipt := t_receipt r; t_canary_receipt := canary;
     t_retry_used := t_retry_used r; t_predecessor_digest := t_predecessor_digest r;
     t_pre_state_digest := t_pre_state_digest r |}.

Definition assign_retry (r : TransitionRecord) : TransitionRecord :=
  {| t_authorization := t_authorization r; t_request := t_request r; t_purpose := t_purpose r;
     t_state := CLAIMED; t_receipt := t_receipt r; t_canary_receipt := t_canary_receipt r;
     t_retry_used := true; t_predecessor_digest := t_predecessor_digest r;
     t_pre_state_digest := t_pre_state_digest r |}.

Definition assign_receipt (receipt : CanaryExecutionReceipt) (r : TransitionRecord) : TransitionRecord :=
  {| t_authorization := t_authorization r; t_request := t_request r; t_purpose := t_purpose r;
     t_state := t_state r; t_receipt := receipt; t_canary_receipt := t_canary_receipt r;
     t_retry_used := t_retry_used r; t_predecessor_digest := t_predecessor_digest r;
     t_pre_state_digest := t_pre_state_digest r |}.

(** Mutation of the object stored under a key. *)
Definition modify (key : string) (f : TransitionRecord → TransitionRecord) (l : Ledger) : Ledger :=
  set_records l (map (λ kr, if kr.1 ==? key then (kr.1, f kr.2) else kr) (records l)).

(** [CanaryExecutionLedger.matching] *)
Definition matching (l : Ledger) (request : CanaryMutationRequest) (purpose : CanaryTransitionPurpose) :
    py (option TransitionRecord) :=
  match List.filter (λ r, (t_request r ==? request) && (t_purpose r ==? purpose)) (snd <$> records l) with
  | [] => Ok None
  | [r] => Ok (Some r)
  | _ => raise CanaryExecutionError "Canary execution replay is ambiguous"
  end.

(** [CanaryExecutionLedger.predecessor]; [record.canary_receipt is head] compares
    receipts, which are distinct along a chain. *)
Definition predecessor (l : Ledger) : py (option TransitionRecord) :=
  match list.last (chain l) with
  | None => raise IndexError "list index out of range"
  | Some head =>
      match predecessor_receipt_digest head with
      | None => Ok None
      | Some _ =>
          match List.filter (λ r, (t_state r ==? VERIFIED)
                  && match t_canary_receipt r with
                     | Some c => receipt_digest c ==? receipt_digest head
                     | None => false
                     end
                  && (x_canary_receipt_digest (t_receipt r) ==? Some (receipt_digest head)))
                  (snd <$> records l) with
          | [r] => Ok (Some r)
          | _ => raise CanaryExecutionError "Canary retained predecessor is unavailable or ambiguous"
          end
      end
  end.

(** [CanaryExecutionLedger.reserve]: the record's key and whether it is new. *)
Definition reserve (l : Ledger) (a : CanaryAuthorization) (request : CanaryMutationRequest)
    (purpose : CanaryTransitionPurpose) (predecessor_digest pre_state : option string) :
    py (bool * Ledger) :=
  match assoc (claim_digest a) (records l) with
  | Some existing =>
      if (t_request existing !=? request) || (t_purpose existing !=? purpose) then
        raise CanaryExecutionError
          "Canary consumption fence was reused with a different transition"
      else Ok (false, l)
  | None =>
      receipt ← make_execution_receipt a purpose CLAIMED None None predecessor_digest pre_state false;
      let record := {| t_authorization := a; t_request := request; t_purpose := purpose;
                       t_state := CLAIMED; t_receipt := receipt; t_canary_receipt := None;
                       t_retry_used := false; t_predecessor_digest := predecessor_digest;
                       t_pre_state_digest := pre_state |} in
      Ok (true, set_records l (records l ++ [(claim_digest a, record)]))
  end.

(** [CanaryExecutionLedger.update].  The chain and the record's fields are
    changed before the new receipt is built, so an exception leaves them
    changed. *)
Definition update (key : string) (state : CanaryTransitionState) (readback : option string)
    (canary : option BoundedCanaryReceipt) (l : Ledger) : py unit * Ledger :=
  match assoc key (records l) with
  | None => (raise CanaryExecutionError "Canary execution record is stale", l)
  | Some record =>
      let advanced :=
        match state, canary with
        | VERIFIED, Some c =>
            if predecessor_receipt_digest c !=? Some (receipt_chain_head_digest (t_authorization record))
            then raise CanaryExecutionError "verified Canary transition has stale chain evidence"
            else Ok (set_chain l (chain l ++ [c]))
        | VERIFIED, None => raise CanaryExecutionError "verified Canary transition has no receipt"
        | _, Some _ =>
            raise CanaryExecutionError "unverified Canary transition cannot advance the chain"
        | _, None => Ok l
        end in
      match advanced with
      | Err e => (Err e, l)
      | Ok l' =>
          let l'' := modify key (assign_state state canary) l' in
          match make_execution_receipt (t_authorization record) (t_purpose record) state readback
                  (receipt_digest <$> canary) (t_predecessor_digest record)
                  (t_pre_state_digest record) (t_retry_used record) with
          | Err e => (Err e, l'')
          | Ok receipt => (Ok (), modify key (assign_receipt receipt) l'')
          end
      end
  end.

(** [CanaryExecutionLedger.consume_retry]. *)
Definition consume_retry (key : string) (l : Ledger) : py bool * Ledger :=
  match assoc key (records l) with
  | None => (Ok false, l)
  | Some record =>
      if negb (t_state record ==? RETRY_ALLOWED) || t_retry_used record then (Ok false, l)
      else
        let l' := modify key assign_retry l in
        match make_execution_receipt (t_authorization record) (t_purpose record) CLAIMED None None
                (t_predecessor_digest record) (t_pre_state_digest record) true with
        | Err e => (Err e, l')
        | Ok receipt => (Ok true, modify key (assign_receipt receipt) l')
        end
  end.

(** ** The owner host

    The lease and the broker are code of the deployment, not of this program:
    each call returns any value or raises anything, and changes the host's own
    state in any way. *)

Class OwnerHost (H : Type) := {
  lease_claim : string → string → H → py bool * H;
  broker_dispatch : CanaryAuthorization → CanaryMutationRequest → CanaryTransitionPurpose →
                    H → py (dyn bool) * H;
  broker_readback : CanaryAuthorization → CanaryMutationRequest →
                    H → py (dyn CanarySemanticReadback) * H;
  broker_pre_readback : CanaryAuthorization → CanaryMutationRequest → string →
                        H → py (dyn CanarySemanticReadback) * H;
}.

(** A value of class [CanarySemanticReadback] passed its constructor. *)
Class OwnerHostTyped (H : Type) `{OwnerHost H} := {
  readback_constructed a rq h r h' :
    broker_readback a rq h = (Ok (Typed r), h') → CanarySemanticReadback_post_init r = Ok ();
  pre_readback_constructed a rq d h r h' :
    broker_pre_readback a rq d h = (Ok (Typed r), h') → CanarySemanticReadback_post_init r = Ok ();
}.

(** The calls that leave the coordinator. *)
Inductive Event :=
  | EvClaim (key claim : string) (granted : bool)
  | EvDispatch (claim : string) (purpose : CanaryTransitionPurpose)
  | EvReadback (claim : string)
  | EvPreReadback (claim : string).

Section orchestrator.
Context {H : Type} `{OwnerHost H}.

Record World := { ledger : Ledger; host : H; trace : list Event }.

(** Exceptions do not undo the state. *)
Definition M (A : Type) : Type := World → py A * World.

Definition mreturn {A} (a : A) : M A := λ w, (Ok a, w).
Definition mthen {A B} (m : M A) (k : A → M B) : M B := λ w,
  match m w with (Ok a, w') => k a w' | (Err e, w') => (Err e, w') end.
Definition mlift {A} (r : py A) : M A := λ w, (r, w).

(** [try: ... except classes: ...] *)
Definition mtry {A} (m : M A) (catches : exn_class → bool) (handler : M A) : M A := λ w,
  match m w with
  | (Err e, w') => if catches (exn_kind e) then handler w' else (Err e, w')
  | r => r
  end.

Definition on_ledger {A} (f : Ledger → py A * Ledger) : M A := λ w,
  let r := f (ledger w) in (r.1, {| ledger := r.2; host := host w; trace := trace w |}).

Definition get_ledger : M Ledger := λ w, (Ok (ledger w), w).

(** A call to the host, appended to the trace. *)
Definition host_call {A} (f : H → py A * H) (event : py A → Event) : M A := λ w,
  let r := f (host w) in
  (r.1, {| ledger := ledger w; host := r.2; trace := trace w ++ [event r.1] |}).

Notation "'let!' x := m 'in' k" := (mthen m (λ x, k)) (at level 10, x binder, k at level 200).

(** Exceptions caught around the evaluation of evidence:
    [AttributeError, TypeError, ValueError] and its subclasses. *)
Definition catches_evidence (c : exn_class) : bool :=
  negb (c in? [KeyError; AssertionError; IndexError; OverflowError; OSError; IntegrityError;
               StateError; GateError; GitIdentityError; WorkerPlanningError; CandidateReviewError]).

Definition catches_all (c : exn_class) : bool := true.

Record CanaryExecutionResult := {
  res_decision : CanaryDecision;
  res_receipt : option CanaryExecutionReceipt;
  res_canary_receipt : option BoundedCanaryReceipt;
}.

Definition refused (why : string) (digest : option string) : CanaryDecision :=
  {| authorized := false; reason := why; d_policy_digest := digest;
     next_action := "preserve-for-owner"; authorization := None |}.

Context (policy : BoundedCanaryPolicy) (context : CanaryAuthorityContext).

Definition with_prior (c : CanaryAuthorityContext) (prior : string) : CanaryAuthorityContext :=
  {| roundlet_enabled := roundlet_enabled c;
     read_only_external_validation_allowed := read_only_external_validation_allowed c;
     disposable_target_mutation_allowed := disposable_target_mutation_allowed c;
     c_phase := c_phase c; c_leaf_number := c_leaf_number c; c_route := c_route c;
     c_base_sha := c_base_sha c; c_candidate_sha := c_candidate_sha c;
     c_contract_digest := c_contract_digest c; c_target := c_target c;
     c_target_policy := c_target_policy c; c_target_policy_identity := c_target_policy_identity c;
     c_policy_digest := c_policy_digest c; c_branch := c_branch c;
     prior_receipt_digest := Some prior; kill_switch_active := kill_switch_active c |}.

(** [CanaryOrchestrator._decision] *)
Definition decide_request (l : Ledger) (request : CanaryMutationRequest) : py CanaryDecision :=
  match list.last (chain l) with
  | None => raise IndexError "list index out of range"
  | Some head =>
      let c := with_prior context (receipt_digest head) in
      _ ← CanaryAuthorityContext_post_init c;
      authorize_canary_request (Typed policy) (Typed c) (Typed request) (Typed (Typed <$> chain l))
  end.

Definition result_of (d : CanaryDecision) (key : string) : M CanaryExecutionResult :=
  let! l := get_ledger in
  let record := assoc key (records l) in
  mreturn {| res_decision := d; res_receipt := t_receipt <$> record;
             res_canary_receipt := record ≫= t_canary_receipt |}.

(** The receipt of the record after a refusal, with no Canary receipt. *)
Definition refused_with (why : string) (digest : option string) (key : string) :
    M CanaryExecutionResult :=
  let! l := get_ledger in
  mreturn {| res_decision := refused why digest;
             res_receipt := t_receipt <$> assoc key (records l); res_canary_receipt := None |}.

(** [CanaryOrchestrator._readback] *)
Definition readback (d : CanaryDecision) (a : CanaryAuthorization) (request : CanaryMutationRequest)
    (allow_retry : bool) : M CanaryExecutionResult :=
  let key := claim_digest a in
  let! answer := mtry (host_call (broker_readback a request) (λ _, EvReadback key))
                   catches_all (mreturn Foreign) in
  match answer with
  | Foreign | Typed {| rb_state := AMBIGUOUS |} =>
      let! _ := on_ledger (update key QUARANTINED
                  (match answer with Typed r => Some (rb_digest r) | Foreign => None end) None) in
      refused_with "Canary outcome is ambiguous; semantic reconciliation is required"
        (d_policy_digest d) key
  | Typed {| rb_state := APPLIED; rb_digest := digest |} =>
      let verify :=
        let! l := get_ledger in
        match list.last (chain l) with
        | None => mlift (raise IndexError "list index out of range")
        | Some head =>
            let! c := mlift (advance_canary_receipt (Typed head) (Typed (operation request)) digest) in
            let! _ := on_ledger (update key VERIFIED (Some digest) (Some c)) in
            mreturn true
        end in
      let! verified := mtry verify catches_evidence
        (let! _ := on_ledger (update key QUARANTINED None None) in mreturn false) in
      if verified : bool then result_of d key
      else refused_with "Canary receipt reconciliation failed" (d_policy_digest d) key
  | Typed {| rb_state := ABSENT; rb_digest := digest |} =>
      let! l := get_ledger in
      let retry_used := match assoc key (records l) with Some r => t_retry_used r | None => true end in
      let state := if allow_retry && negb retry_used then RETRY_ALLOWED else PRESERVED_FOR_OWNER in
      let! _ := on_ledger (update key state (Some digest) None) in
      let! l := get_ledger in
      mreturn {| res_decision :=
                   {| authorized := false;
                      reason := "Canary read-back does not prove the requested transition";
                      d_policy_digest := d_policy_digest d;
                      next_action := if state ==? RETRY_ALLOWED then "retry-after-semantic-readback"
                                     else "preserve-for-owner";
                      authorization := None |};
                 res_receipt := t_receipt <$> assoc key (records l); res_canary_receipt := None |}
  end.

(** The broker's answer to a dispatch: whether it accepted, or nothing when it
    raised or answered with an object that has no such attribute. *)
Definition dispatch_call (a : CanaryAuthorization) (request : CanaryMutationRequest)
    (purpose : CanaryTransitionPurpose) : M (option bool) :=
  mtry (let! r := host_call (broker_dispatch a request purpose)
                    (λ _, EvDispatch (claim_digest a) purpose) in
        mreturn (match r with Typed b => Some b | Foreign => None end))
    catches_all (mreturn None).

(** [CanaryOrchestrator._dispatch]: a refused, malformed or failed dispatch may
    be retried after the read-back, an accepted one may not.  The read-back of
    a refused dispatch is inside the [try]. *)
Definition dispatch (d : CanaryDecision) (a : CanaryAuthorization) (request : CanaryMutationRequest)
    (purpose : CanaryTransitionPurpose) : M CanaryExecutionResult :=
  let! accepted := dispatch_call a request purpose in
  match accepted with
  | Some true => readback d a request false
  | Some false => mtry (readback d a request true) catches_all (readback d a request true)
  | None => readback d a request true
  end.

(** The pre-state evidence of a rollback or cleanup. *)
Definition pre_state (a : CanaryAuthorization) (request : CanaryMutationRequest) :
    M (string * string) :=
  let! l := get_ledger in
  let! pred := mlift (predecessor l) in
  match pred with
  | Some record =>
      match t_canary_receipt record with
      | None => mlift (raise CanaryExecutionError
                         "Canary rollback has no retained predecessor transition")
      | Some _ =>
          let! inverse := mlift (cleanup_action_for (operation (t_request record))) in
          if (operation request !=? inverse) || (branch request !=? branch (t_request record))
             || (paths request !=? paths (t_request record)) then
            mlift (raise CanaryExecutionError
              "Canary rollback action does not exactly reverse its retained predecessor")
          else
            let! answer := host_call (broker_pre_readback a request (x_receipt_digest (t_receipt record)))
                             (λ _, EvPreReadback (claim_digest a)) in
            let! disposition := mlift (cleanup_disposition (Typed (operation request ==? inverse))
              (Typed (match answer with Typed {| rb_state := APPLIED |} => true | _ => false end))) in
            match disposition, answer with
            | ROLLBACK, Typed r => mreturn (x_receipt_digest (t_receipt record), rb_digest r)
            | _, _ => mlift (raise CanaryExecutionError
                               "Canary rollback pre-state is absent or ambiguous")
            end
      end
  | None => mlift (raise CanaryExecutionError
                     "Canary rollback has no retained predecessor transition")
  end.

(** [CanaryOrchestrator._begin]: [execute], [rollback] and [cleanup]. *)
Definition begin (request : CanaryMutationRequest) (purpose : CanaryTransitionPurpose) :
    M CanaryExecutionResult :=
  let denied d := mreturn {| res_decision := d; res_receipt := None; res_canary_receipt := None |} in
  let! l := get_ledger in
  match matching l request purpose with
  | Err _ => denied (refused "Canary duplicate-delivery identity is ambiguous"
                       (Some (p_policy_digest policy)))
  | Ok (Some prior) =>
      mreturn {| res_decision :=
                   {| authorized := true;
                      reason := "duplicate Canary delivery converged on its retained receipt";
                      d_policy_digest := Some (p_policy_digest policy); next_action := "reuse-receipt";
                      authorization := None |};
                 res_receipt := Some (t_receipt prior); res_canary_receipt := t_canary_receipt prior |}
  | Ok None =>
      let! decision := mtry (mlift (decide_request l request)) catches_evidence
        (mreturn (refused "Canary execution evidence is unavailable" None)) in
      match authorized decision, authorization decision with
      | true, Some a =>
          let! evidence :=
            if purpose ==? EXECUTE then mreturn (Some (None, None))
            else mtry (let! e := pre_state a request in mreturn (Some (Some e.1, Some e.2)))
                   catches_evidence (mreturn None) in
          match evidence with
          | None =>
              denied (refused "Canary rollback or cleanup requires retained reversible semantic pre-state"
                        (d_policy_digest decision))
          | Some (predecessor_digest, pre_state_digest) =>
              match reserve l a request purpose predecessor_digest pre_state_digest with
              | Err _ => denied (refused "Canary consumption fence conflicts" (d_policy_digest decision))
              | Ok (false, _) => result_of decision (claim_digest a)
              | Ok (true, l') =>
                  let! _ := on_ledger (λ _, (Ok (), l')) in
                  let! claimed := mtry (host_call (lease_claim (consumption_key a) (claim_digest a))
                      (λ r, EvClaim (consumption_key a) (claim_digest a)
                              (match r with Ok b => b | Err _ => false end)))
                    catches_all (mreturn false) in
                  if negb claimed then
                    let! _ := on_ledger (update (claim_digest a) PRESERVED_FOR_OWNER None None) in
                    refused_with "another Orchestrator owns this Canary transition"
                      (d_policy_digest decision) (claim_digest a)
                  else dispatch decision a request purpose
              end
          end
      | _, _ => denied decision
      end
  end.

Definition unknown_transition : CanaryExecutionResult :=
  {| res_decision := refused "Canary transition is unknown" None; res_receipt := None;
     res_canary_receipt := None |}.

(** [CanaryOrchestrator.reconcile] *)
Definition reconcile (claim : string) : M CanaryExecutionResult :=
  let! _ := mlift (require_digest claim "Canary claim digest") in
  let! l := get_ledger in
  match assoc claim (records l) with
  | None => mreturn unknown_transition
  | Some record =>
      let! decision := mlift (decide_request l (t_request record)) in
      if negb (authorized decision) || (authorization decision !=? Some (t_authorization record)) then
        mreturn {| res_decision := refused "Canary reconciliation evidence has drifted"
                     (d_policy_digest decision);
                   res_receipt := Some (t_receipt record);
                   res_canary_receipt := t_canary_receipt record |}
      else if t_state record in? [QUARANTINED; RETRY_ALLOWED] then
        readback decision (t_authorization record) (t_request record) true
      else result_of decision claim
  end.

(** [CanaryOrchestrator.retry] *)
Definition retry (claim : string) : M CanaryExecutionResult :=
  let! _ := mlift (require_digest claim "Canary claim digest") in
  let! l := get_ledger in
  match assoc claim (records l) with
  | None => mreturn unknown_transition
  | Some record =>
      let! decision := mlift (decide_request l (t_request record)) in
      if negb (authorized decision) || (authorization decision !=? Some (t_authorization record)) then
        mreturn {| res_decision := refused "Canary retry evidence has drifted"
                     (d_policy_digest decision);
                   res_receipt := Some (t_receipt record);
                   res_canary_receipt := t_canary_receipt record |}
      else if t_state record !=? RETRY_ALLOWED then
        refused_with "Canary retry requires an absent semantic read-back" (d_policy_digest decision) claim
      else
        let a := t_authorization record in
        let! owns_fence :=
          if hydrated l then
            mtry (host_call (lease_claim (consumption_key a) (claim_digest a))
                    (λ r, EvClaim (consumption_key a) (claim_digest a)
                            (match r with Ok b => b | Err _ => false end)))
              catches_all (mreturn false)
          else mreturn true in
        if negb owns_fence then
          let! _ := on_ledger (update claim PRESERVED_FOR_OWNER None None) in
          refused_with "replacement Orchestrator cannot prove the original retry fence"
            (d_policy_digest decision) claim
        else
          let! consumed := on_ledger (consume_retry claim) in
          if negb consumed then
            refused_with "Canary retry budget is exhausted" (d_policy_digest decision) claim
          else dispatch decision a (t_request record) (t_purpose record)
  end.

(** The operations of the coordinator. *)
Inductive Command :=
  | CExecute (request : CanaryMutationRequest)
  | CRollback (request : CanaryMutationRequest)
  | CCleanup (request : CanaryMutationRequest)
  | CReconcile (claim : string)
  | CRetry (claim : string).

Definition run (c : Command) : M CanaryExecutionResult :=
  match c with
  | CExecute request => begin request EXECUTE
  | CRollback request => begin request P_ROLLBACK
  | CCleanup request => begin request CLEANUP
  | CReconcile claim => reconcile claim
  | CRetry claim => retry claim
  end.

(** [CanaryOrchestrator.__init__] with a fresh or a given ledger. *)
Definition orchestrator_init (given : option Ledger) : py Ledger :=
  l ← match given with Some l => Ok l | None => new_ledger policy end;
  _ ← require (p_policy_digest (l_policy l) ==? p_policy_digest policy) CanaryExecutionError
        "Canary execution ledger is not bound to the selected policy";
  match list.last (chain l) with
  | None => raise IndexError "list index out of range"
  | Some head =>
      _ ← require (prior_receipt_digest context ==? Some (receipt_digest head)) CanaryExecutionError
            "Canary execution context is not bound to the ledger genesis receipt";
      Ok l
  end.

End orchestrator.

Notation "'let!' x := m 'in' k" := (mthen m (λ x, k)) (at level 10, x binder, k at level 200).

(** ** Lemmas on the ledger *)

Lemma modify_lookup key f l k :
  assoc k (records (modify key f l)) = (if decide (k = key) then f else id) <$> assoc k (records l).
Proof.
  unfold modify. cbn [records set_records]. induction (records l) as [|[k' r] rs IH]; cbn [map assoc].
  { by case_decide. }
  cbn [fst snd]. case_bool_decide; cbn [assoc]; repeat case_decide; subst; try done; naive_solver.
Qed.

Lemma modify_keys key f l : (records (modify key f l)).*1 = (records l).*1.
Proof.
  unfold modify. cbn [records set_records]. change (map ?g (records l)) with (g <$> records l).
  rewrite <- list_fmap_compose. apply list_fmap_ext. intros i [k r] _. cbn. by destruct (bool_decide _).
Qed.

Lemma modify_twice key f g l : modify key f (modify key g l) = modify key (f ∘ g) l.
Proof.
  unfold modify, set_records. cbn. f_equal. rewrite map_map. apply map_ext. intros [k r]. cbn.
  destruct (k ==? key) eqn:E; cbn; by rewrite E.
Qed.

(** What a record was asked to do. *)
Definition delivery (kr : string * TransitionRecord) : CanaryMutationRequest * CanaryTransitionPurpose :=
  (t_request kr.2, t_purpose kr.2).

Lemma modify_deliveries key f l : (∀ r, delivery (key, f r) = delivery (key, r)) →
  delivery <$> records (modify key f l) = delivery <$> records l.
Proof.
  intros Hf. unfold modify. cbn [records set_records]. change (map ?g (records l)) with (g <$> records l).
  rewrite <- list_fmap_compose. apply list_fmap_ext. intros i [k r] _. cbn. destruct (bool_decide _); [apply Hf|done].
Qed.

(** Verified records; each has advanced the chain once. *)
Definition verified (l : Ledger) : list (string * TransitionRecord) :=
  List.filter (λ kr, t_state kr.2 ==? VERIFIED) (records l).

Lemma verified_modify key f l r : NoDup (records l).*1 → assoc key (records l) = Some r →
  t_state r ≠ VERIFIED →
  length (verified (modify key f l)) =
    (length (verified l) + (if decide (t_state (f r) = VERIFIED) then 1 else 0))%nat.
Proof.
  unfold verified, modify. cbn [records set_records]. intros Hnd Hr Hs.
  induction (records l) as [|[k s] rs IH]; [done|]. cbn [map]. cbn [fmap list_fmap] in Hnd.
  apply list.NoDup_cons in Hnd as [Hn Hnd]. cbn [assoc fst snd] in *.
  destruct (decide (key = k)) as [<-|Hne].
  - injection Hr as ->. rewrite bool_decide_eq_true_2 by done.
    assert (map (λ kr : string * TransitionRecord, if kr.1 ==? key then (kr.1, f kr.2) else kr) rs = rs) as ->.
    { rewrite <- (map_id rs) at 2. apply map_ext_in. intros [k' r'] Hin. cbn. rewrite bool_decide_eq_false_2; [done|]. intros ->.
      apply Hn, list_elem_of_fmap. exists (key, r'). by split; [|apply list_elem_of_In]. }
    cbn [List.filter snd]. rewrite (bool_decide_eq_false_2 (t_state r = VERIFIED)) by done.
    case_decide; [rewrite bool_decide_eq_true_2 by done|rewrite bool_decide_eq_false_2 by done]; cbn; lia.
  - rewrite bool_decide_eq_false_2 by done. cbn [List.filter snd].
    specialize (IH Hnd Hr). destruct (bool_decide (t_state s = VERIFIED)); cbn [length]; lia.
Qed.

(** ** Well-formed records *)

Record authorization_ok (a : CanaryAuthorization) : Prop := {
  ao_policy : match_digest (a_policy_digest a) = true;
  ao_contract : match_digest (a_contract_digest a) = true;
  ao_claim : match_digest (claim_digest a) = true;
  ao_request : match_digest (a_request_digest a) = true;
  ao_head : match_digest (receipt_chain_head_digest a) = true;
}.

Definition digest_opt (o : option string) : Prop := ∀ d, o = Some d → match_digest d = true.

(** Rollback and cleanup carry their pre-state evidence, execution none. *)
Definition preconditions_ok (purpose : CanaryTransitionPurpose) (pred pre : option string) : Prop :=
  digest_opt pred ∧ digest_opt pre ∧
  (purpose = EXECUTE → pred = None ∧ pre = None) ∧
  (purpose ≠ EXECUTE → pred ≠ None ∧ pre ≠ None).

Record record_ok (k : string) (r : TransitionRecord) : Prop := {
  rk_key : claim_digest (t_authorization r) = k;
  rk_authorization : authorization_ok (t_authorization r);
  rk_preconditions : preconditions_ok (t_purpose r) (t_predecessor_digest r) (t_pre_state_digest r);
  rk_receipt_state : x_state (t_receipt r) = t_state r;
  rk_receipt_claim : x_claim_digest (t_receipt r) = k;
  rk_receipt_retry : x_retry_used (t_receipt r) = t_retry_used r;
  rk_retry : t_retry_used r = true → t_state r ≠ RETRY_ALLOWED;
  rk_verified : t_state r = VERIFIED ↔ t_canary_receipt r ≠ None;
}.

Lemma require_optional_ok o name : digest_opt o → require_optional o name = Ok ().
Proof.
  intros Ho. destruct o as [d|]; [|done]. unfold require_optional, require_digest. by rewrite (Ho d).
Qed.

Lemma make_execution_receipt_ok a purpose state rb canary pred pre retry :
  authorization_ok a → preconditions_ok purpose pred pre → digest_opt rb → digest_opt canary →
  (retry = true → state ≠ RETRY_ALLOWED) → (state = VERIFIED → rb ≠ None) →
  (state = VERIFIED ↔ canary ≠ None) →
  ∃ x, make_execution_receipt a purpose state rb canary pred pre retry = Ok x
    ∧ x_state x = state ∧ x_claim_digest x = claim_digest a ∧ x_retry_used x = retry.
Proof.
  intros [] (Hpred & Hpre & Hex & Hnex) Hrb Hcan Hretry Hv1 Hv2.
  unfold make_execution_receipt, execution_receipt_check.
  cbn [x_policy_digest x_contract_digest x_claim_digest x_request_digest x_chain_head_digest for_each
       x_semantic_readback_digest x_canary_receipt_digest x_predecessor_transition_receipt_digest
       x_pre_state_readback_digest x_purpose x_state x_retry_used fst snd].
  rewrite !require_optional_ok by done. unfold require_digest.
  rewrite ao_policy0, ao_contract0, ao_claim0, ao_request0, ao_head0.
  cbn [require mbind result_bind].
  replace (if purpose ==? EXECUTE then _ else _) with (Ok (E := exn) ()).
  2: { case_bool_decide as Hp.
       - destruct (Hex Hp) as [-> ->]. done.
       - destruct (Hnex Hp). by rewrite !bool_decide_eq_false_2. }
  replace (negb (retry && (state ==? RETRY_ALLOWED))) with true.
  2: { destruct retry; [|done]. by rewrite bool_decide_eq_false_2 by auto. }
  cbn [require mbind result_bind].
  case_bool_decide as Hs.
  - rewrite !bool_decide_eq_false_2 by (auto || by apply Hv2). cbn. by eexists.
  - rewrite bool_decide_eq_true_2 by (destruct canary; [exfalso; apply Hs, Hv2; done|done]). cbn. by eexists.
Qed.

(** What [update] does to a well-formed record. *)
Lemma update_ok k r l state rb canary :
  assoc k (records l) = Some r → record_ok k r → digest_opt rb →
  (∀ c, canary = Some c → match_digest (receipt_digest c) = true
     ∧ predecessor_receipt_digest c = Some (receipt_chain_head_digest (t_authorization r))) →
  (t_retry_used r = true → state ≠ RETRY_ALLOWED) → (state = VERIFIED → rb ≠ None) →
  (state = VERIFIED ↔ canary ≠ None) →
  ∃ x, update k state rb canary l =
      (Ok (), modify k (assign_receipt x ∘ assign_state state canary)
                (set_chain l (chain l ++ option_list canary)))
    ∧ record_ok k (assign_receipt x (assign_state state canary r)).
Proof.
  intros Hr Hok Hrb Hc Hretry Hv1 Hv2. pose proof Hok as [Hk Ha Hp _ _ _ _ _].
  destruct (make_execution_receipt_ok (t_authorization r) (t_purpose r) state rb (receipt_digest <$> canary)
    (t_predecessor_digest r) (t_pre_state_digest r) (t_retry_used r)) as (x & Hx & Hx1 & Hx2 & Hx3);
    [done..| |done|done| |].
  { intros d. destruct canary as [c|]; [|done]. intros [= <-]. by apply Hc. }
  { destruct canary; cbn; naive_solver. }
  exists x. split.
  - unfold update. rewrite Hr.
    destruct canary as [c|].
    + assert (state = VERIFIED) as -> by (by apply Hv2).
      rewrite bool_decide_eq_true_2 by (by apply Hc). cbn [negb]. rewrite Hx.
      by rewrite modify_twice.
    + assert (state ≠ VERIFIED) by (rewrite Hv2; naive_solver).
      cbn [option_list]. rewrite app_nil_r. replace (set_chain l (chain l)) with l by by destruct l.
      destruct state; try done; rewrite Hx; by rewrite modify_twice.
  - constructor; cbn; try done. congruence.
Qed.

Lemma make_authorization_valid policy contract request head a :
  make_authorization policy contract request head = Ok a → authorization_ok a.
Proof.
  intros H. assert (∃ a, make_authorization policy contract request head = Ok a)
    as (H1 & H2 & H3 & H4)%make_authorization_ok by eauto.
  apply make_authorization_key in H as (_ & <- & <- & <- & <- & Hc).
  constructor; try done. rewrite Hc. apply digest_json_match.
Qed.

(** Dispatches and lease grants of a claim in a trace. *)
Definition dispatches (k : string) (tr : list Event) : nat :=
  length (List.filter (λ e, match e with EvDispatch k' _ => k' ==? k | _ => false end) tr).

Definition granted_claim (k : string) (tr : list Event) : Prop :=
  ∃ key, EvClaim key k true ∈ tr.

Lemma dispatches_app k t1 t2 : dispatches k (t1 ++ t2) = (dispatches k t1 + dispatches k t2)%nat.
Proof. unfold dispatches. by rewrite List.filter_app, length_app. Qed.

Lemma granted_claim_app k t1 t2 : granted_claim k t1 → granted_claim k (t1 ++ t2).
Proof. intros [key H]. exists key. apply elem_of_app. by left. Qed.

(** ** The invariant of the coordinator *)

Section invariant.
Context (policy : BoundedCanaryPolicy).

(** The chain is valid and each link is one verified record. *)
Record inv_ledger (l : Ledger) : Prop := {
  il_policy : l_policy l = policy;
  il_chain_policy : ∀ r, r ∈ chain l → r_policy r = policy;
  il_chain : ∃ head, list.last (chain l) = Some head
             ∧ validate_canary_receipt_chain policy (Typed (Typed <$> chain l)) = Ok head;
  il_keys : NoDup (records l).*1;
  il_records : ∀ k r, assoc k (records l) = Some r → record_ok k r;
  il_links : length (chain l) = S (length (verified l));
  il_unique : NoDup (delivery <$> records l);
}.

(** How often each claim may have been dispatched; [busy] is the claim in
    flight. *)
Definition dispatch_bound (l : Ledger) (k : string) : nat :=
  match assoc k (records l) with
  | None => 0
  | Some r => if t_retry_used r then 2 else 1
  end.

Record inv_trace (busy : option string) (l : Ledger) (tr : list Event) : Prop := {
  it_settled : ∀ k r, assoc k (records l) = Some r → t_state r = CLAIMED → busy = Some k;
  it_dispatch : ∀ k, (dispatches k tr ≤ dispatch_bound l k)%nat;
  it_granted : ∀ k r, assoc k (records l) = Some r → t_state r ≠ PRESERVED_FOR_OWNER →
               busy ≠ Some k → granted_claim k tr;
  it_dispatched : ∀ before k p after, tr = before ++ EvDispatch k p :: after → granted_claim k before;
}.

(** A state change that settles the record in flight. *)
Lemma settle_inv k r l tr state rb canary :
  inv_ledger l → inv_trace (Some k) l tr → assoc k (records l) = Some r →
  t_state r ≠ VERIFIED → state ≠ CLAIMED → digest_opt rb →
  (t_retry_used r = true → state ≠ RETRY_ALLOWED) →
  (state = PRESERVED_FOR_OWNER ∨ granted_claim k tr) → (state = VERIFIED → rb ≠ None) →
  (state = VERIFIED ↔ canary ≠ None) →
  (∀ c, canary = Some c → match_digest (receipt_digest c) = true ∧ r_policy c = policy
     ∧ predecessor_receipt_digest c = Some (receipt_chain_head_digest (t_authorization r))
     ∧ validate_canary_receipt_chain policy (Typed (Typed <$> (chain l ++ [c]))) = Ok c) →
  ∃ l' r', update k state rb canary l = (Ok (), l') ∧ inv_ledger l' ∧ inv_trace None l' tr
    ∧ chain l' = chain l ++ option_list canary ∧ assoc k (records l') = Some r' ∧ t_state r' = state
    ∧ t_canary_receipt r' = canary ∧ hydrated l' = hydrated l.
Proof.
  intros Hl Ht Hr Hs Hns Hrb Hretry Hgr Hv1 Hv2 Hc.
  pose proof (il_records _ Hl k r Hr) as Hok.
  destruct (update_ok k r l state rb canary) as (x & Hu & Hok'); try done.
  { intros c Hcc. by destruct (Hc c Hcc) as (? & _ & ? & _). }
  set (f := assign_receipt x ∘ assign_state state canary) in *.
  set (l' := modify k f (set_chain l (chain l ++ option_list canary))) in *.
  assert (∀ k', assoc k' (records l') = (if decide (k' = k) then f else id) <$> assoc k' (records l)) as Hlk
    by (intros k'; exact (modify_lookup k f (set_chain l (chain l ++ option_list canary)) k')).
  assert (∀ k' r', assoc k' (records l') = Some r' →
    k' = k ∧ r' = f r ∨ k' ≠ k ∧ assoc k' (records l) = Some r') as Hcase.
  { intros k' r'. rewrite Hlk. case_decide as E; [subst; rewrite Hr|destruct (assoc k' _)]; cbn; naive_solver. }
  exists l', (f r). rewrite Hlk, decide_True, Hr by done. split_and!; try done.
  - constructor; try apply Hl.
    + intros c [Hin|Hin]%elem_of_app; [by apply Hl|].
      destruct canary as [c'|]; [|by apply elem_of_nil in Hin].
      apply list_elem_of_singleton in Hin as ->. by apply Hc.
    + change (chain l') with (chain l ++ option_list canary). destruct canary as [c|]; cbn [option_list].
      * change (option_list (Some c)) with [c]. exists c. split; [by rewrite last_snoc|by apply Hc].
      * change (option_list (@None BoundedCanaryReceipt)) with (@nil BoundedCanaryReceipt).
        rewrite app_nil_r. apply Hl.
    + unfold l'. rewrite modify_keys. apply Hl.
    + intros k' r' [[-> ->]|[_ Hr']]%Hcase; [done|by apply Hl].
    + unfold l'. rewrite (verified_modify k f _ r); [|apply Hl|done|done].
      change (chain (modify _ _ _)) with (chain l ++ option_list canary). rewrite length_app, (il_links _ Hl).
      change (t_state (f r)) with state. change (verified (set_chain _ _)) with (verified l).
      destruct canary as [c|]; cbn [length option_list option_rect].
      * rewrite decide_True by (by apply Hv2). lia.
      * rewrite decide_False by (rewrite Hv2; naive_solver). lia.
    + unfold l'. rewrite modify_deliveries; [apply Hl|done].
  - constructor.
    + intros k' r' [[-> ->]|[Hne Hr']]%Hcase; [done|].
      intros Hcl. pose proof (it_settled _ _ _ Ht _ _ Hr' Hcl). congruence.
    + intros k'. etrans; [apply Ht|]. unfold dispatch_bound. rewrite Hlk.
      case_decide; [subst; by rewrite Hr|by destruct (assoc k' _)].
    + intros k' r' [[-> ->]|[Hne Hr']]%Hcase Hst _.
      * destruct Hgr as [->|]; [done|done].
      * eapply Ht; [done|done|congruence].
    + apply Ht.
Qed.
End invariant.

Lemma snoc_dispatch tr e before k p after : tr ++ [e] = before ++ EvDispatch k p :: after →
  (e = EvDispatch k p ∧ before = tr) ∨ ∃ after', tr = before ++ EvDispatch k p :: after'.
Proof.
  destruct after as [|e' after _] using rev_ind.
  - intros [-> [= ->]]%app_inj_tail. by left.
  - rewrite app_comm_cons, app_assoc. intros [-> _]%app_inj_tail. right. by exists after.
Qed.

Lemma inv_trace_event busy l tr e :
  (∀ k p, e ≠ EvDispatch k p) → inv_trace busy l tr → inv_trace busy l (tr ++ [e]).
Proof.
  intros He Ht. assert (∀ k, dispatches k (tr ++ [e]) = dispatches k tr) as Hd.
  { intros k. rewrite dispatches_app. destruct e; try (unfold dispatches; cbn; lia). by destruct (He claim purpose). }
  constructor; intros; rewrite ?Hd in *.
  - by eapply Ht.
  - apply Ht.
  - apply granted_claim_app. by eapply Ht.
  - destruct (snoc_dispatch tr e before k p after) as [(-> & _)|(after' & ->)]; [done|by destruct (He k p)|].
    by eapply Ht.
Qed.

Lemma inv_trace_dispatch busy l tr k p : inv_trace busy l tr → granted_claim k tr →
  (S (dispatches k tr) ≤ dispatch_bound l k)%nat → inv_trace busy l (tr ++ [EvDispatch k p]).
Proof.
  intros Ht Hg Hb.
  assert (∀ k', dispatches k' (tr ++ [EvDispatch k p]) = (dispatches k' tr + (if decide (k = k') then 1 else 0))%nat) as Hd.
  { intros k'. rewrite dispatches_app. f_equal. unfold dispatches. cbn [List.filter].
    case_decide; [by rewrite bool_decide_eq_true_2|by rewrite bool_decide_eq_false_2]. }
  constructor.
  - apply Ht.
  - intros k'. rewrite Hd. pose proof (it_dispatch _ _ _ Ht k'). case_decide; subst; lia.
  - intros. apply granted_claim_app. by eapply Ht.
  - intros before k' p' after E. apply snoc_dispatch in E as [(E & ->)|(after' & ->)]; [|by eapply Ht].
    by injection E as -> ->.
Qed.

Lemma inv_trace_busy k l tr : inv_trace None l tr → inv_trace (Some k) l tr.
Proof. intros []. constructor; naive_solver. Qed.

Lemma make_execution_receipt_inv a purpose state rb canary pred pre retry x :
  make_execution_receipt a purpose state rb canary pred pre retry = Ok x →
  preconditions_ok purpose pred pre ∧ x_state x = state ∧ x_claim_digest x = claim_digest a
  ∧ x_retry_used x = retry.
Proof.
  unfold make_execution_receipt, execution_receipt_check.
  intros ([] & Hc & [= <-])%bind_ok. split_and!; try done.
  apply is_ok_unit in Hc. rewrite !is_ok_bind, !andb_true_iff in Hc.
  cbn [x_predecessor_transition_receipt_digest x_pre_state_readback_digest x_purpose] in Hc.
  destruct Hc as (_ & _ & _ & H1 & H2 & H3 & _).
  assert (∀ o n, is_ok (require_optional o n) = true → digest_opt o) as Ho.
  { intros [d|] n Hn; [|done]. intros ? [= <-]. unfold require_optional, require_digest in Hn. by rewrite is_ok_require in Hn. }
  split_and!; [by eapply Ho|by eapply Ho| |].
  - intros ->. rewrite bool_decide_eq_true_2, is_ok_require in H3 by done.
    by rewrite andb_true_iff, !bool_decide_eq_true in H3.
  - intros Hne. rewrite (bool_decide_eq_false_2 (purpose = EXECUTE)), is_ok_require in H3 by done.
    by rewrite andb_true_iff, !negb_true_iff, !bool_decide_eq_false in H3.
Qed.

(** A new reservation is a claimed record at the end of the table. *)
Lemma reserve_new l a rq purpose pred pre l' : authorization_ok a →
  reserve l a rq purpose pred pre = Ok (true, l') →
  assoc (claim_digest a) (records l) = None ∧
  ∃ r, l' = set_records l (records l ++ [(claim_digest a, r)]) ∧ record_ok (claim_digest a) r
    ∧ t_authorization r = a ∧ t_state r = CLAIMED ∧ t_retry_used r = false
    ∧ delivery (claim_digest a, r) = (rq, purpose).
Proof.
  intros Ha. unfold reserve. destruct (assoc _ _) as [r|] eqn:E.
  { by destruct (_ || _). }
  intros (x & Hx & [= <-])%bind_ok. split; [done|]. eexists. split; [done|].
  apply make_execution_receipt_inv in Hx as (? & ? & ? & ?).
  split_and!; done || constructor; done.
Qed.

Lemma assoc_snoc {V} (k k' : string) (d : list (string * V)) v : assoc k d = None →
  assoc k' (d ++ [(k, v)]) = if decide (k' = k) then Some v else assoc k' d.
Proof.
  intros Hk. induction d as [|[k2 v2] d IH]; cbn; [done|]. cbn in Hk.
  destruct (decide (k = k2)); [done|]. rewrite IH by done. repeat case_decide; congruence.
Qed.

(** The search for an earlier delivery. *)
Lemma matching_none l rq purpose : matching l rq purpose = Ok None → (rq, purpose) ∉ delivery <$> records l.
Proof.
  unfold matching. destruct (List.filter _ _) as [|? [|]] eqn:E; [|done..]. intros _ Hin.
  apply list_elem_of_fmap in Hin as ([k r] & Hd & Hin). injection Hd as Hrq Hpp.
  cut (In r (@nil TransitionRecord)); [done|]. rewrite <- E. apply filter_In. split.
  - apply list_elem_of_In, list_elem_of_fmap. by exists (k, r).
  - by rewrite !bool_decide_eq_true_2.
Qed.

Lemma matching_unique l k r : NoDup (delivery <$> records l) → assoc k (records l) = Some r →
  matching l (t_request r) (t_purpose r) = Ok (Some r).
Proof.
  intros Hnd Hr%assoc_elem. unfold matching.
  assert (List.filter (λ r', (t_request r' ==? t_request r) && (t_purpose r' ==? t_purpose r)) (snd <$> records l)
    = [r]) as ->; [|done].
  induction (records l) as [|[k' r'] rs IH]; [by apply elem_of_nil in Hr|].
  cbn [fmap list_fmap] in *. apply list.NoDup_cons in Hnd as [Hn Hnd]. cbn [List.filter snd].
  apply elem_of_cons in Hr as [[= <- <-]|Hr].
  - rewrite !bool_decide_eq_true_2 by done. cbn [andb]. f_equal. clear IH Hnd.
    induction rs as [|[k2 r2] rs IH]; [done|]. cbn [fmap list_fmap List.filter snd] in *.
    rewrite not_elem_of_cons in Hn. destruct Hn as [Hne Hn].
    destruct (_ && _) eqn:E; [|by apply IH]. exfalso. apply Hne.
    apply andb_true_iff in E as [E1%bool_decide_eq_true E2%bool_decide_eq_true]. unfold delivery. cbn. by rewrite E1, E2.
  - destruct (_ && _) eqn:E; [|by apply IH]. exfalso. apply Hn, list_elem_of_fmap. exists (k, r). split; [|done].
    apply andb_true_iff in E as [E1%bool_decide_eq_true E2%bool_decide_eq_true]. unfold delivery. cbn. by rewrite E1, E2.
Qed.

Section steps.
Context {H : Type} `{HT : OwnerHostTyped H}.
Context (policy : BoundedCanaryPolicy) (context : CanaryAuthorityContext).
Context (Hp : policy_constructed policy).

(** Running the monad. *)
Lemma mthen_ok {A B} (m : M (H:=H) A) (k : A → M (H:=H) B) (w w' : World (H:=H)) a :
  m w = (Ok a, w') → mthen m k w = k a w'.
Proof. unfold mthen. by intros ->. Qed.

Lemma mtry_ok {A} (m : M (H:=H) A) c h (w w' : World (H:=H)) a : m w = (Ok a, w') → mtry m c h w = (Ok a, w').
Proof. unfold mtry. by intros ->. Qed.

Lemma mtry_err {A} (m : M (H:=H) A) c h (w w' : World (H:=H)) e :
  m w = (Err e, w') → c (exn_kind e) = true → mtry m c h w = h w'.
Proof. unfold mtry. intros -> ->. done. Qed.

Definition put_ledger (w : World (H:=H)) (l : Ledger) : World (H:=H) :=
  {| ledger := l; host := host w; trace := trace w |}.

Lemma on_ledger_ok {A} (f : Ledger → py A * Ledger) (w : World (H:=H)) a l' :
  f (ledger w) = (Ok a, l') → on_ledger f w = (Ok a, put_ledger w l').
Proof. unfold on_ledger. by intros ->. Qed.

Definition after_call (w : World (H:=H)) (h : H) (e : Event) : World (H:=H) :=
  {| ledger := ledger w; host := h; trace := trace w ++ [e] |}.

Lemma host_call_eq {A} (f : H → py A * H) ev (w : World (H:=H)) r h :
  f (host w) = (r, h) → host_call f ev w = (r, after_call w h (ev r)).
Proof. unfold host_call. by intros ->. Qed.

Definition authorized_now (l : Ledger) (rq : CanaryMutationRequest) (a : CanaryAuthorization) : Prop :=
  ∃ d, decide_request policy context l rq = Ok d ∧ authorized d = true ∧ authorization d = Some a.

Lemma authorized_now_advance l rq a : inv_ledger policy l → authorized_now l rq a →
  authorization_ok a ∧ ∃ head, list.last (chain l) = Some head
  ∧ receipt_chain_head_digest a = receipt_digest head
  ∧ ∀ rb, match_digest rb = true →
    ∃ c, advance_canary_receipt (Typed head) (Typed (operation rq)) rb = Ok c
      ∧ validate_canary_receipt_chain policy (Typed (Typed <$> (chain l ++ [c]))) = Ok c
      ∧ r_policy c = policy ∧ predecessor_receipt_digest c = Some (receipt_digest head)
      ∧ semantic_readback_digest c = rb ∧ match_digest (receipt_digest c) = true.
Proof using Hp.
  intros Hl (d & Hd & Hauth & Ha). destruct (il_chain _ _ Hl) as (head & Hlast & Hval).
  unfold decide_request in Hd. rewrite Hlast in Hd. apply bind_ok in Hd as (_ & _ & Hd).
  destruct (authorize_claim _ _ _ _ _ Hd Hauth) as (h & a' & Hperm & Ha' & Hm).
  rewrite Ha in Ha'. injection Ha' as <-. destruct (cp_chain _ _ _ _ _ Hperm) as [Hv _].
  rewrite Hval in Hv. injection Hv as <-.
  split; [by eapply make_authorization_valid|]. exists head. split; [done|].
  split; [by apply make_authorization_key in Hm as (_ & _ & _ & _ & ? & _)|].
  intros rb Hrb. destruct (authorized_extends _ _ _ _ _ Hp (λ r Hr, ltac:(unfold no_collision; by rewrite (il_chain_policy _ _ Hl r Hr))) Hd Hauth)
    as (h & Hv & Hadv). rewrite Hval in Hv. injection Hv as <-.
  destruct (Hadv rb Hrb) as (c & Hc & Hvc & _). exists c.
  destruct (advance_fields _ _ _ _ Hc) as (Hpc & ? & ? & ?). split_and!; try done.
  rewrite Hpc. apply Hl. by apply last_Some_elem_of.
Qed.

Definition res_verified (res : CanaryExecutionResult) : Prop :=
  ∃ x, res_receipt res = Some x ∧ x_state x = VERIFIED.

(** The transition being run: reserved, leased and authorized on the current chain. *)
Record in_flight (w : World (H:=H)) (a : CanaryAuthorization) (rq : CanaryMutationRequest)
    (r : TransitionRecord) : Prop := {
  if_ledger : inv_ledger policy (ledger w);
  if_trace : inv_trace (Some (claim_digest a)) (ledger w) (trace w);
  if_record : assoc (claim_digest a) (records (ledger w)) = Some r;
  if_authorization : t_authorization r = a;
  if_state : t_state r ≠ VERIFIED;
  if_granted : granted_claim (claim_digest a) (trace w);
  if_authorized : authorized_now (ledger w) rq a;
}.

Lemma in_flight_call w a rq r h e :
  in_flight w a rq r → (∀ k p, e ≠ EvDispatch k p) → in_flight (after_call w h e) a rq r.
Proof.
  intros [] He. constructor; try done; [by apply inv_trace_event|by apply granted_claim_app].
Qed.

(** Settling keeps the invariant, adds nothing to the trace. *)
Record settled (w w' : World (H:=H)) : Prop := {
  sd_ledger : inv_ledger policy (ledger w');
  sd_trace : inv_trace None (ledger w') (trace w');
  sd_same_trace : trace w' = trace w;
  sd_hydrated : hydrated (ledger w') = hydrated (ledger w);
}.

Lemma settle_run w a rq r state rb canary :
  in_flight w a rq r → state ≠ CLAIMED → digest_opt rb →
  (t_retry_used r = true → state ≠ RETRY_ALLOWED) → (state = VERIFIED → rb ≠ None) →
  (state = VERIFIED ↔ canary ≠ None) →
  (∀ c, canary = Some c → match_digest (receipt_digest c) = true ∧ r_policy c = policy
     ∧ predecessor_receipt_digest c = Some (receipt_chain_head_digest a)
     ∧ validate_canary_receipt_chain policy (Typed (Typed <$> (chain (ledger w) ++ [c]))) = Ok c) →
  ∃ w' r', on_ledger (update (claim_digest a) state rb canary) w = (Ok (), w') ∧ settled w w'
    ∧ chain (ledger w') = chain (ledger w) ++ option_list canary
    ∧ assoc (claim_digest a) (records (ledger w')) = Some r' ∧ x_state (t_receipt r') = state
    ∧ t_canary_receipt r' = canary.
Proof.
  intros [Hl Ht Hr Ha Hs Hg _] Hns Hrb Hretry Hv1 Hv2 Hc.
  destruct (settle_inv policy _ _ _ _ state rb canary Hl Ht Hr) as (l' & r' & Hu & Hl' & Ht' & Hch & Hr' & Hs' & Hcr & Hh);
    try done; [by right|by rewrite Ha|].
  exists (put_ledger w l'), r'. split_and!; try done.
  - by apply on_ledger_ok.
  - by rewrite (rk_receipt_state _ _ (il_records _ _ Hl' _ _ Hr')).
Qed.

(** The three outcomes of a read-back. *)
Lemma quarantine_run w a rq r rb why digest : in_flight w a rq r → digest_opt rb →
  ∃ res w', (let! _ := on_ledger (update (claim_digest a) QUARANTINED rb None) in
             refused_with why digest (claim_digest a)) w = (Ok res, w')
    ∧ settled w w' ∧ chain (ledger w') = chain (ledger w) ∧ ¬ res_verified res.
Proof.
  intros Hf Hrb. destruct (settle_run w a rq r QUARANTINED rb None) as (w' & r' & Hu & Hset & Hch & Hr' & Hs & _);
    try done.
  eexists _, w'. split; [rewrite (mthen_ok _ _ _ _ _ Hu); reflexivity|]. split_and!; [done|by rewrite Hch, app_nil_r|].
  intros (x & Hx & Hxs). cbn in Hx. rewrite Hr' in Hx. injection Hx as <-. congruence.
Qed.

Lemma readback_applied w a rq r d allow dg h :
  in_flight w a rq r → broker_readback a rq (host w) = (Ok (Typed {| rb_state := APPLIED; rb_digest := dg |}), h) →
  ∃ res w' c, readback d a rq allow w = (Ok res, w')
    ∧ settled (after_call w h (EvReadback (claim_digest a))) w'
    ∧ chain (ledger w') = chain (ledger w) ++ [c] ∧ semantic_readback_digest c = dg
    ∧ res_canary_receipt res = Some c ∧ res_verified res ∧ res_decision res = d.
Proof using HT Hp.
  intros Hf Eh. pose proof (readback_constructed _ _ _ _ _ Eh) as Hdg%require_ok. cbn in Hdg.
  set (w1 := after_call w h (EvReadback (claim_digest a))).
  assert (in_flight w1 a rq r) as Hf1 by (by apply in_flight_call).
  destruct (authorized_now_advance _ _ _ (if_ledger _ _ _ _ Hf1) (if_authorized _ _ _ _ Hf1))
    as (Hok & head & Hlast & Hhd & Hadv). destruct (Hadv dg Hdg) as (c & Hc & Hvc & Hpc & Hpred & Hrb & Hmd).
  destruct (settle_run w1 a rq r VERIFIED (Some dg) (Some c)) as (w' & r' & Hu & Hset & Hch & Hr' & Hs & Hcr);
    try done.
  { by intros ? [= <-]. }
  { intros ? [= <-]. by rewrite Hhd. }
  exists {| res_decision := d; res_receipt := Some (t_receipt r'); res_canary_receipt := Some c |}, w', c.
  split_and!; try done; [|by exists (t_receipt r')].
  unfold readback. erewrite mthen_ok; [|eapply mtry_ok, host_call_eq; exact Eh]. fold w1. cbn [rb_state rb_digest].
  erewrite mthen_ok.
  2: { apply mtry_ok. rewrite (mthen_ok get_ledger _ w1 w1 (ledger w1) eq_refl), Hlast.
       rewrite Hc, (mthen_ok (mlift (Ok c)) _ w1 w1 c eq_refl).
       erewrite mthen_ok by exact Hu. reflexivity. }
  unfold result_of. rewrite (mthen_ok get_ledger _ w' w' (ledger w') eq_refl), Hr'. cbn. by rewrite Hcr.
Qed.

Lemma readback_absent w a rq r d allow dg h :
  in_flight w a rq r → broker_readback a rq (host w) = (Ok (Typed {| rb_state := ABSENT; rb_digest := dg |}), h) →
  ∃ res w', readback d a rq allow w = (Ok res, w')
    ∧ settled (after_call w h (EvReadback (claim_digest a))) w'
    ∧ chain (ledger w') = chain (ledger w) ∧ ¬ res_verified res.
Proof using HT.
  intros Hf Eh. pose proof (readback_constructed _ _ _ _ _ Eh) as Hdg%require_ok. cbn in Hdg.
  set (w1 := after_call w h (EvReadback (claim_digest a))).
  assert (in_flight w1 a rq r) as Hf1 by (by apply in_flight_call).
  set (state := if allow && negb (t_retry_used r) then RETRY_ALLOWED else PRESERVED_FOR_OWNER).
  assert (state ≠ VERIFIED) as Hsv by (unfold state; by destruct (_ && _)).
  destruct (settle_run w1 a rq r state (Some dg) None) as (w' & r' & Hu & Hset & Hch & Hr' & Hs & Hcr);
    try done.
  { unfold state. by destruct (_ && _). }
  { by intros ? [= <-]. }
  { unfold state. intros ->. by rewrite andb_false_r. }
  eexists _, w'. split.
  - unfold readback. erewrite mthen_ok; [|eapply mtry_ok, host_call_eq; exact Eh]. fold w1. cbn [rb_state rb_digest].
    rewrite (mthen_ok get_ledger _ w1 w1 (ledger w1) eq_refl), (if_record _ _ _ _ Hf1).
    fold state. erewrite mthen_ok by exact Hu.
    rewrite (mthen_ok get_ledger _ w' w' (ledger w') eq_refl). unfold mreturn. reflexivity.
  - split_and!; [done|by rewrite Hch, app_nil_r|]. intros (x & Hx & Hxs). cbn in Hx. rewrite Hr' in Hx.
    injection Hx as <-. congruence.
Qed.

(** The answer that proves the transition. *)
Definition applied_answer (answer : py (dyn CanarySemanticReadback)) (dg : string) : Prop :=
  answer = Ok (Typed {| rb_state := APPLIED; rb_digest := dg |}).

(** A read-back settles the transition: it is verified, and the chain grows by
    one receipt of that read-back, exactly when the broker answers [APPLIED]. *)
Lemma readback_settles w a rq r d allow : in_flight w a rq r →
  ∃ res w' h, readback d a rq allow w = (Ok res, w')
    ∧ settled (after_call w h (EvReadback (claim_digest a))) w'
    ∧ ((∃ dg c, applied_answer (broker_readback a rq (host w)).1 dg ∧ res_verified res
          ∧ chain (ledger w') = chain (ledger w) ++ [c] ∧ semantic_readback_digest c = dg
          ∧ res_canary_receipt res = Some c)
       ∨ (¬ ∃ dg, applied_answer (broker_readback a rq (host w)).1 dg)
         ∧ ¬ res_verified res ∧ chain (ledger w') = chain (ledger w)).
Proof using HT Hp.
  intros Hf. destruct (broker_readback a rq (host w)) as [answer h] eqn:Eh. cbn [fst].
  assert ((∃ st dg, answer = Ok (Typed {| rb_state := st; rb_digest := dg |}) ∧ st ≠ AMBIGUOUS)
    ∨ ∃ dyn_answer, mtry (host_call (broker_readback a rq) (λ _, EvReadback (claim_digest a)))
        catches_all (mreturn Foreign) w = (Ok dyn_answer, after_call w h (EvReadback (claim_digest a)))
      ∧ (dyn_answer = Foreign ∨ ∃ dg, dyn_answer = Typed {| rb_state := AMBIGUOUS; rb_digest := dg |}
           ∧ match_digest dg = true) ∧ ¬ ∃ dg, applied_answer answer dg) as [(st & dg & -> & Hst)|(ans & Hm & Hans & Hno)].
  { pose proof (host_call_eq (broker_readback a rq) (λ _, EvReadback (claim_digest a)) w _ _ Eh) as Hhc.
    destruct answer as [[[st dg]|]|e].
    - destruct (decide (st = AMBIGUOUS)) as [->|]; [right|left; eauto].
      eexists. split; [by apply mtry_ok|]. split; [|by intros (? & ?)]. right. eexists. split; [done|].
      apply readback_constructed in Eh. by apply require_ok in Eh.
    - right. eexists. split; [by apply mtry_ok|]. split; [by left|by intros (? & ?)].
    - right. eexists. split; [by rewrite (mtry_err _ _ _ _ _ _ Hhc)|]. split; [by left|by intros (? & ?)]. }
  - destruct st; [| |done].
    + destruct (readback_applied w a rq r d allow dg h Hf Eh) as (res & w' & c & ? & ? & ? & ? & ? & ? & ?).
      exists res, w', h. split_and!; try done. left. exists dg, c. by split_and!.
    + destruct (readback_absent w a rq r d allow dg h Hf Eh) as (res & w' & ? & ? & ? & ?).
      exists res, w', h. split_and!; try done. right. split_and!; [|done..]. by intros (? & ?).
  - assert (in_flight (after_call w h (EvReadback (claim_digest a))) a rq r) as Hf1 by (by apply in_flight_call).
    unfold readback.
    destruct Hans as [->|(dg & -> & Hdg)];
      [destruct (quarantine_run _ a rq r None "Canary outcome is ambiguous; semantic reconciliation is required" (d_policy_digest d) Hf1)
         as (res & w' & Hr & Hset & Hch & Hnv); [done|]
      |destruct (quarantine_run _ a rq r (Some dg) "Canary outcome is ambiguous; semantic reconciliation is required" (d_policy_digest d) Hf1)
         as (res & w' & Hr & Hset & Hch & Hnv); [by intros ? [= <-]|]];
      exists res, w', h; rewrite (mthen_ok _ _ _ _ _ Hm); (split; [exact Hr|]); split_and!; try done; by right.
Qed.

Lemma decide_request_chain l l' rq : chain l' = chain l →
  decide_request policy context l' rq = decide_request policy context l rq.
Proof. unfold decide_request. by intros ->. Qed.

Lemma dispatch_settles w a rq r d purpose : in_flight w a rq r →
  (S (dispatches (claim_digest a) (trace w)) ≤ dispatch_bound (ledger w) (claim_digest a))%nat →
  ∃ res w', dispatch d a rq purpose w = (Ok res, w')
    ∧ inv_ledger policy (ledger w') ∧ inv_trace None (ledger w') (trace w')
    ∧ trace w' = trace w ++ [EvDispatch (claim_digest a) purpose; EvReadback (claim_digest a)]
    ∧ hydrated (ledger w') = hydrated (ledger w)
    ∧ ((∃ dg c, applied_answer (broker_readback a rq (broker_dispatch a rq purpose (host w)).2).1 dg ∧ res_verified res
          ∧ chain (ledger w') = chain (ledger w) ++ [c] ∧ semantic_readback_digest c = dg
          ∧ res_canary_receipt res = Some c)
       ∨ (¬ ∃ dg, applied_answer (broker_readback a rq (broker_dispatch a rq purpose (host w)).2).1 dg)
         ∧ ¬ res_verified res ∧ chain (ledger w') = chain (ledger w)).
Proof using HT Hp.
  intros Hf Hb. destruct (broker_dispatch a rq purpose (host w)) as [answer h] eqn:Eh. cbn [snd].
  set (w1 := after_call w h (EvDispatch (claim_digest a) purpose)).
  assert (in_flight w1 a rq r) as Hf1.
  { destruct Hf. constructor; try done; [by apply inv_trace_dispatch|by apply granted_claim_app]. }
  pose proof (host_call_eq (broker_dispatch a rq purpose) (λ _, EvDispatch (claim_digest a) purpose) w _ _ Eh) as Hhc.
  assert (∃ accepted, dispatch_call a rq purpose w = (Ok accepted, w1)) as [accepted Hm].
  { unfold dispatch_call. destruct answer as [b|e].
    - eexists. apply mtry_ok. by rewrite (mthen_ok _ _ _ _ _ Hhc).
    - exists None. by erewrite mtry_err; [|unfold mthen; rewrite Hhc; reflexivity|done]. }
  destruct (readback_settles w1 a rq r d (negb (default false accepted)) Hf1) as (res & w' & h' & Hrun & [] & Hout).
  exists res, w'. split.
  { unfold dispatch. rewrite (mthen_ok _ _ _ _ _ Hm). destruct accepted as [[]|]; [done| |done]. by apply mtry_ok. }
  split_and!; try done. rewrite sd_same_trace0. cbn. by rewrite <- app_assoc.
Qed.

Lemma consume_retry_run w a rq r : in_flight w a rq r → t_state r = RETRY_ALLOWED →
  ∃ w' r', on_ledger (consume_retry (claim_digest a)) w = (Ok true, w') ∧ in_flight w' a rq r'
    ∧ trace w' = trace w ∧ chain (ledger w') = chain (ledger w) ∧ host w' = host w
    ∧ hydrated (ledger w') = hydrated (ledger w)
    ∧ (S (dispatches (claim_digest a) (trace w')) ≤ dispatch_bound (ledger w') (claim_digest a))%nat.
Proof.
  set (k := claim_digest a). intros [Hl Ht Hr Ha Hs Hg Hauth] Hst. fold k in Hr, Ht, Hg.
  pose proof (il_records _ _ Hl _ _ Hr) as Hok.
  assert (t_retry_used r = false) as Hnr.
  { destruct (t_retry_used r) eqn:E; [|done]. by destruct (rk_retry _ _ Hok). }
  destruct (make_execution_receipt_ok (t_authorization r) (t_purpose r) CLAIMED None None
    (t_predecessor_digest r) (t_pre_state_digest r) true) as (x & Hx & Hx1 & Hx2 & Hx3); try apply Hok; try done.
  assert (consume_retry k (ledger w) = (Ok true, modify k (assign_receipt x ∘ assign_retry) (ledger w))) as Hc.
  { unfold consume_retry. rewrite Hr, Hst, Hnr. cbn [negb orb]. rewrite Hx. by rewrite modify_twice. }
  set (f := assign_receipt x ∘ assign_retry) in *. set (l' := modify k f (ledger w)) in *.
  assert (∀ k', assoc k' (records l') = (if decide (k' = k) then f else id) <$> assoc k' (records (ledger w))) as Hlk
    by (intros; apply modify_lookup).
  assert (∀ k' r', assoc k' (records l') = Some r' →
    k' = k ∧ r' = f r ∨ k' ≠ k ∧ assoc k' (records (ledger w)) = Some r') as Hcase.
  { intros k' r'. rewrite Hlk. case_decide as E; [subst; rewrite Hr|destruct (assoc k' _)]; cbn; naive_solver. }
  assert (record_ok k (f r)) as Hok'.
  { destruct Hok. constructor; cbn; try done; [congruence|]. split; [done|]. intros Hne. exfalso.
    apply Hne. destruct (t_canary_receipt r) eqn:E; [|done]. exfalso. apply Hs. by apply rk_verified0. }
  exists (put_ledger w l'), (f r). split_and!; try done.
  - by apply on_ledger_ok.
  - constructor; try done.
    + constructor; try apply Hl.
      * unfold l'. cbn [ledger put_ledger]. rewrite modify_keys. apply Hl.
      * intros k' r' [[-> ->]|[_ Hr']]%Hcase; [done|by apply Hl].
      * cbn [ledger put_ledger]. unfold l'. rewrite (verified_modify k f _ r); [|apply Hl|done|done].
        rewrite decide_False by done. change (chain (modify _ _ _)) with (chain (ledger w)).
        rewrite (il_links _ _ Hl). lia.
      * cbn [ledger put_ledger]. unfold l'. rewrite modify_deliveries; [apply Hl|done].
    + constructor; cbn [ledger put_ledger trace].
      * intros k' r' [[-> ->]|[Hne Hr']]%Hcase; [done|]. by apply (it_settled _ _ _ Ht).
      * intros k'. etrans; [apply Ht|]. unfold dispatch_bound. rewrite Hlk. case_decide as E.
        -- subst. rewrite Hr, Hnr. cbn. lia.
        -- by destruct (assoc k' _).
      * intros k' r' [[-> ->]|[Hne Hr']]%Hcase ? Hb; [done|]. by eapply Ht.
      * apply Ht.
    + cbn [ledger put_ledger]. fold k. by rewrite Hlk, decide_True, Hr.
  - cbn [ledger put_ledger trace]. fold k. unfold dispatch_bound. rewrite Hlk, decide_True, Hr by done. cbn.
    pose proof (it_dispatch _ _ _ Ht k) as Hd. unfold dispatch_bound in Hd. rewrite Hr, Hnr in Hd. lia.
Qed.

(** Steps that touch neither the ledger nor the dispatch count. *)
Definition quiet (w w' : World (H:=H)) : Prop :=
  ledger w' = ledger w ∧
  ∃ evs, trace w' = trace w ++ evs ∧ Forall (λ e, ∀ k p, e ≠ EvDispatch k p) evs.

Definition Quiet {A} (m : M (H:=H) A) : Prop := ∀ w, quiet w (m w).2.

Lemma quiet_refl w : quiet w w.
Proof. split; [done|]. exists []. by rewrite app_nil_r. Qed.

Lemma quiet_trans w1 w2 w3 : quiet w1 w2 → quiet w2 w3 → quiet w1 w3.
Proof.
  intros [E1 (e1 & T1 & F1)] [E2 (e2 & T2 & F2)]. split; [congruence|]. exists (e1 ++ e2).
  split; [by rewrite T2, T1, app_assoc|by apply Forall_app].
Qed.

Lemma Quiet_then {A B} (m : M (H:=H) A) (k : A → M (H:=H) B) :
  Quiet m → (∀ a, Quiet (k a)) → Quiet (mthen m k).
Proof.
  intros Hm Hk w. unfold mthen. specialize (Hm w). destruct (m w) as [[a|e] w']; cbn in *; [|done].
  eapply quiet_trans; [done|apply Hk].
Qed.

Lemma Quiet_try {A} (m : M (H:=H) A) c h : Quiet m → Quiet h → Quiet (mtry m c h).
Proof.
  intros Hm Hh w. unfold mtry. specialize (Hm w). destruct (m w) as [[a|e] w']; cbn in *; [done|].
  destruct (c (exn_kind e)); [|done]. eapply quiet_trans; [done|apply Hh].
Qed.

Lemma Quiet_call {A} (f : H → py A * H) ev : (∀ r k p, ev r ≠ EvDispatch k p) → Quiet (host_call f ev).
Proof.
  intros He w. unfold host_call. cbn. split; [done|]. eexists. split; [done|].
  constructor; [apply He|constructor].
Qed.

Lemma Quiet_return {A} (a : A) : Quiet (mreturn a).
Proof. intros w. apply quiet_refl. Qed.

Lemma Quiet_lift {A} (r : py A) : Quiet (mlift r).
Proof. intros w. apply quiet_refl. Qed.

Lemma Quiet_get : Quiet get_ledger.
Proof. intros w. apply quiet_refl. Qed.

Lemma Quiet_pre_state a rq : Quiet (pre_state a rq).
Proof.
  unfold pre_state. apply Quiet_then; [apply Quiet_get|intros l].
  apply Quiet_then; [apply Quiet_lift|intros [r|]; [|apply Quiet_lift]].
  destruct (t_canary_receipt r); [|apply Quiet_lift].
  apply Quiet_then; [apply Quiet_lift|intros inverse]. destruct (_ || _); [apply Quiet_lift|].
  apply Quiet_then; [by apply Quiet_call|intros answer].
  apply Quiet_then; [apply Quiet_lift|intros disp]. destruct disp, answer; apply Quiet_lift || apply Quiet_return.
Qed.

Definition good (w : World (H:=H)) : Prop :=
  inv_ledger policy (ledger w) ∧ inv_trace None (ledger w) (trace w).

Lemma inv_trace_quiet busy w w' : quiet w w' →
  inv_trace busy (ledger w) (trace w) → inv_trace busy (ledger w') (trace w').
Proof.
  intros [-> (evs & -> & Hf)]. generalize (trace w). induction Hf as [|e evs He _ IH]; intros tr Ht.
  - by rewrite app_nil_r.
  - rewrite cons_middle, app_assoc. apply IH. by apply inv_trace_event.
Qed.

Lemma good_quiet w w' : quiet w w' → good w → good w'.
Proof. intros Hq [Hl Ht]. split; [by rewrite (proj1 Hq)|by eapply inv_trace_quiet]. Qed.

(** A command keeps the invariant and extends the chain by at most one receipt. *)
Record advances (w w' : World (H:=H)) : Prop := {
  ad_good : good w';
  ad_chain : ∃ ext, chain (ledger w') = chain (ledger w) ++ ext ∧ (length ext ≤ 1)%nat;
  ad_trace : ∃ evs, trace w' = trace w ++ evs;
}.

Lemma advances_quiet w w' : good w → quiet w w' → advances w w'.
Proof.
  intros Hg Hq. constructor; [by eapply good_quiet| |].
  - exists []. rewrite (proj1 Hq), app_nil_r. split; [done|cbn; lia].
  - destruct Hq as (_ & evs & ? & _). by exists evs.
Qed.

Lemma advances_dispatch w w1 a rq r d purpose : in_flight w1 a rq r →
  chain (ledger w1) = chain (ledger w) → (∃ evs, trace w1 = trace w ++ evs) →
  (S (dispatches (claim_digest a) (trace w1)) ≤ dispatch_bound (ledger w1) (claim_digest a))%nat →
  advances w (dispatch d a rq purpose w1).2.
Proof using HT Hp.
  intros Hf Hc [evs He] Hb. destruct (dispatch_settles w1 a rq r d purpose Hf Hb)
    as (res & w' & -> & Hl & Ht & Htr & _ & Hout). cbn [snd]. constructor; [done| |].
  - destruct Hout as [(dg & c & _ & _ & Hch & _)|(_ & _ & Hch)]; rewrite Hch, Hc.
    + exists [c]. split; [done|cbn; lia].
    + exists []. rewrite app_nil_r. split; [done|cbn; lia].
  - rewrite Htr, He, <- app_assoc. by eexists.
Qed.

Lemma advances_settle w w1 w2 : settled w1 w2 → chain (ledger w2) = chain (ledger w) →
  (∃ evs, trace w1 = trace w ++ evs) → advances w w2.
Proof.
  intros [] Hc [evs He]. constructor; [done| |].
  - exists []. rewrite app_nil_r. split; [done|cbn; lia].
  - exists evs. congruence.
Qed.

Lemma advances_readback w a rq r d allow : in_flight w a rq r → advances w (readback d a rq allow w).2.
Proof using HT Hp.
  intros Hf. destruct (readback_settles w a rq r d allow Hf) as (res & w' & h & -> & [] & Hout).
  cbn [snd]. constructor; [done| |].
  - destruct Hout as [(dg & c & _ & _ & Hch & _)|(_ & _ & Hch)]; rewrite Hch.
    + exists [c]. split; [done|cbn; lia].
    + exists []. rewrite app_nil_r. split; [done|cbn; lia].
  - eexists. rewrite sd_same_trace0. done.
Qed.

(** The record of a claim the current evidence authorizes again. *)
Lemma resume_in_flight w claim r d : good w → assoc claim (records (ledger w)) = Some r →
  decide_request policy context (ledger w) (t_request r) = Ok d → authorized d = true →
  authorization d = Some (t_authorization r) → t_state r ≠ VERIFIED → t_state r ≠ PRESERVED_FOR_OWNER →
  claim = claim_digest (t_authorization r) ∧ in_flight w (t_authorization r) (t_request r) r.
Proof.
  intros [Hl Ht] Hr Hd Ha1 Ha2 Hv Hpo. pose proof (il_records _ _ Hl _ _ Hr) as Hok.
  rewrite <- (rk_key _ _ Hok) in *. split; [done|]. constructor; try done.
  - by apply inv_trace_busy.
  - by eapply Ht.
  - by exists d.
Qed.

Lemma advances_after w w1 w2 : quiet w w1 → advances w1 w2 → advances w w2.
Proof.
  intros [Hl (evs & He & _)] [Hg (ext & Hc & Hn) (evs' & Ht)]. constructor; [done| |].
  - exists ext. by rewrite Hc, Hl.
  - exists (evs ++ evs'). by rewrite Ht, He, app_assoc.
Qed.

(** A quiet step that raises ends the command; otherwise its continuation runs. *)
Lemma advances_then {A B} (m : M (H:=H) A) (k : A → M (H:=H) B) w : Quiet m → good w →
  (∀ a w1, m w = (Ok a, w1) → quiet w w1 → advances w1 (k a w1).2) → advances w (mthen m k w).2.
Proof.
  intros Hm Hg Hk. specialize (Hm w). unfold mthen. destruct (m w) as [[a|e] w1]; cbn in *.
  - eapply advances_after; [done|by apply Hk].
  - by apply advances_quiet.
Qed.

Lemma Quiet_result d key : Quiet (result_of d key).
Proof. apply Quiet_then; [apply Quiet_get|intros l; apply Quiet_return]. Qed.

Lemma Quiet_refused why d key : Quiet (refused_with why d key).
Proof. apply Quiet_then; [apply Quiet_get|intros l; apply Quiet_return]. Qed.

Definition lease_step (a : CanaryAuthorization) : M (H:=H) bool :=
  mtry (host_call (lease_claim (consumption_key a) (claim_digest a))
          (λ r, EvClaim (consumption_key a) (claim_digest a)
                  (match r with Ok b => b | Err _ => false end)))
    catches_all (mreturn false).

Lemma lease_step_run a w : ∃ b h,
  lease_step a w = (Ok b, after_call w h (EvClaim (consumption_key a) (claim_digest a) b)).
Proof.
  unfold lease_step. destruct (lease_claim (consumption_key a) (claim_digest a) (host w)) as [[b|e] h] eqn:E.
  - exists b, h. apply mtry_ok. exact (host_call_eq _ _ _ _ _ E).
  - exists false, h. erewrite mtry_err; [|exact (host_call_eq _ _ _ _ _ E)|done]. done.
Qed.

(** The state after a new reservation. *)
Lemma reserve_busy w a rq purpose pred pre l' : good w → authorization_ok a →
  matching (ledger w) rq purpose = Ok None → reserve (ledger w) a rq purpose pred pre = Ok (true, l') →
  ∃ r, inv_ledger policy l' ∧ inv_trace (Some (claim_digest a)) l' (trace w)
    ∧ assoc (claim_digest a) (records l') = Some r ∧ t_authorization r = a ∧ t_state r = CLAIMED
    ∧ chain l' = chain (ledger w)
    ∧ (S (dispatches (claim_digest a) (trace w)) ≤ dispatch_bound l' (claim_digest a))%nat.
Proof.
  intros [Hl Ht] Ha Hm Hr. apply reserve_new in Hr as (Hn & r & -> & Hok & Hra & Hs & Hret & Hdel); [|done].
  set (k := claim_digest a) in *.
  assert (∀ k', assoc k' (records (ledger w) ++ [(k, r)]) =
    if decide (k' = k) then Some r else assoc k' (records (ledger w))) as Hlk by (intros; by apply assoc_snoc).
  pose proof (it_dispatch _ _ _ Ht k) as Hd. unfold dispatch_bound in Hd. rewrite Hn in Hd.
  exists r. split_and!; try done.
  - constructor; try apply Hl; cbn [records set_records].
    + rewrite fmap_app. apply list.NoDup_app. split; [apply Hl|]. split; [|apply NoDup_singleton].
      intros k' Hk' ->%list_elem_of_singleton. apply assoc_is_Some in Hk' as [? Hin]. cbn in *. congruence.
    + intros k' r'. rewrite Hlk. case_decide; [intros [= <-]; by subst|apply Hl].
    + unfold verified. cbn [records set_records]. rewrite List.filter_app. cbn. rewrite Hs. cbn.
      rewrite app_nil_r. apply Hl.
    + rewrite fmap_app. apply list.NoDup_app. split; [apply Hl|]. split; [|apply NoDup_singleton].
      intros x Hx ->%list_elem_of_singleton. apply (matching_none _ _ _ Hm). by rewrite <- Hdel.
  - constructor; cbn [records set_records].
    + intros k' r'. rewrite Hlk. case_decide; [by subst|]. intros Hr' Hc. discriminate (it_settled _ _ _ Ht _ _ Hr' Hc).
    + intros k'. unfold dispatch_bound. cbn [records set_records]. rewrite Hlk. case_decide; [subst; rewrite Hret; lia|].
      apply Ht.
    + intros k' r'. rewrite Hlk. case_decide; [by subst|]. intros Hr' Hst _. by eapply Ht.
    + apply Ht.
  - cbn [records set_records]. by rewrite Hlk, decide_True.
  - unfold dispatch_bound. cbn [records set_records]. rewrite Hlk, decide_True, Hret by done. lia.
Qed.

(** Reserve, lease, dispatch. *)
Lemma claim_in_flight w a rq purpose pred pre l' h : good w → authorized_now (ledger w) rq a →
  matching (ledger w) rq purpose = Ok None → reserve (ledger w) a rq purpose pred pre = Ok (true, l') →
  let w1 := after_call (put_ledger w l') h (EvClaim (consumption_key a) (claim_digest a) true) in
  chain l' = chain (ledger w) ∧ (∃ r, in_flight w1 a rq r)
  ∧ (S (dispatches (claim_digest a) (trace w1)) ≤ dispatch_bound (ledger w1) (claim_digest a))%nat.
Proof using HT Hp.
  intros Hg Hauth Hm Hr w1. destruct (authorized_now_advance _ _ _ (proj1 Hg) Hauth) as [Hok _].
  destruct (reserve_busy w a rq purpose pred pre l' Hg Hok Hm Hr) as (r & Hl & Ht & Hrec & Ha & Hs & Hch & Hb).
  split_and!; [done| |].
  - exists r. constructor; try done; [by apply inv_trace_event|congruence| |].
    + exists (consumption_key a). apply elem_of_app. right. by apply list_elem_of_singleton.
    + destruct Hauth as (d' & Hd & ?). exists d'. by rewrite (decide_request_chain _ _ _ Hch).
  - cbn [trace w1 after_call put_ledger]. rewrite dispatches_app. unfold dispatches at 2. cbn. by rewrite Nat.add_0_r.
Qed.

Definition claim_and_dispatch (d : CanaryDecision) a rq purpose l' : M (H:=H) CanaryExecutionResult :=
  let! _ := on_ledger (λ _, (Ok (), l')) in
  let! claimed := lease_step a in
  if negb claimed then
    let! _ := on_ledger (update (claim_digest a) PRESERVED_FOR_OWNER None None) in
    refused_with "another Orchestrator owns this Canary transition" (d_policy_digest d) (claim_digest a)
  else dispatch d a rq purpose.

Lemma claim_advances w a rq purpose pred pre l' d : good w → authorized_now (ledger w) rq a →
  matching (ledger w) rq purpose = Ok None → reserve (ledger w) a rq purpose pred pre = Ok (true, l') →
  advances w (claim_and_dispatch d a rq purpose l' w).2.
Proof using HT Hp.
  intros Hg Hauth Hm Hr. unfold claim_and_dispatch.
  rewrite (mthen_ok _ _ w (put_ledger w l') ()) by (by apply on_ledger_ok).
  destruct (lease_step_run a (put_ledger w l')) as (b & h & Hls). rewrite (mthen_ok _ _ _ _ _ Hls).
  destruct b; cbn [negb].
  - destruct (claim_in_flight w a rq purpose pred pre l' h Hg Hauth Hm Hr) as (Hch & [r Hf] & Hb).
    eapply advances_dispatch; [done|done|by eexists|done].
  - destruct (authorized_now_advance _ _ _ (proj1 Hg) Hauth) as [Hok _].
    destruct (reserve_busy w a rq purpose pred pre l' Hg Hok Hm Hr) as (r & Hl & Ht & Hrec & Ha & Hs & Hch & _).
    set (w1 := after_call _ _ _).
    assert (inv_trace (Some (claim_digest a)) (ledger w1) (trace w1)) as Ht1 by (by apply inv_trace_event).
    destruct (settle_inv policy _ r _ (trace w1) PRESERVED_FOR_OWNER None None Hl Ht1 Hrec)
      as (l2 & r2 & Hu & Hl2 & Ht2 & Hch2 & _); try done; [congruence|by left|].
    erewrite (mthen_ok _ _ w1 (put_ledger w1 l2)) by (by apply on_ledger_ok). cbn.
    constructor; [done| |by eexists]. exists []. cbn [ledger put_ledger]. rewrite Hch2, Hch. split; [done|cbn; lia].
Qed.

Lemma decide_catch (w : World (H:=H)) rq d w1 :
  mtry (mlift (decide_request policy context (ledger w) rq)) catches_evidence
    (mreturn (refused "Canary execution evidence is unavailable" None)) w = (Ok d, w1) →
  w1 = w ∧ (decide_request policy context (ledger w) rq = Ok d ∨ authorized d = false).
Proof.
  unfold mtry, mlift. destruct (decide_request _ _ _ _) as [d'|e]; cbn [fst snd].
  - intros [= -> ->]. by split; [|left].
  - destruct (catches_evidence _); intros [= <- <-]. by split; [|right].
Qed.

Lemma begin_advances w rq purpose : good w → advances w (begin policy context rq purpose w).2.
Proof using HT Hp.
  intros Hg. unfold begin. apply advances_then; [apply Quiet_get|done|]. intros l w1 [= <- <-] _.
  destruct (matching _ _ _) as [[prior|]|e] eqn:Em; try (apply advances_quiet; [done|apply quiet_refl]).
  apply advances_then; [apply Quiet_try; [apply Quiet_lift|apply Quiet_return]|done|].
  intros d w1 [-> Hd]%decide_catch _.
  destruct (authorized d) eqn:Ea, (authorization d) as [a|] eqn:Eauth;
    try (apply advances_quiet; [done|apply quiet_refl]).
  destruct Hd as [Hd|]; [|done].
  apply advances_then; [|done|].
  { destruct (bool_decide _); [apply Quiet_return|]. apply Quiet_try; [|apply Quiet_return].
    apply Quiet_then; [apply Quiet_pre_state|intros; apply Quiet_return]. }
  intros evidence w1 _ Hq. assert (good w1) as Hg1 by by eapply good_quiet.
  destruct evidence as [[pred pre]|]; [|apply advances_quiet; [done|apply quiet_refl]].
  rewrite <- (proj1 Hq). destruct (reserve _ _ _ _ _ _) as [[[] l']|e] eqn:Er.
  - eapply claim_advances; [done| |by rewrite (proj1 Hq)|done]. exists d. by rewrite (proj1 Hq).
  - apply advances_quiet; [done|apply Quiet_result].
  - apply advances_quiet; [done|apply quiet_refl].
Qed.

Lemma reconcile_advances w claim : good w → advances w (reconcile policy context claim w).2.
Proof using HT Hp.
  intros Hg. unfold reconcile. apply advances_then; [apply Quiet_lift|done|]. intros [] w1 [= _ <-] _.
  apply advances_then; [apply Quiet_get|done|]. intros l w1 [= <- <-] _.
  destruct (assoc _ _) as [r|] eqn:Er; [|apply advances_quiet; [done|apply quiet_refl]].
  apply advances_then; [apply Quiet_lift|done|]. intros d w1 [= Hd <-] _.
  destruct (authorized d) eqn:Ea; cbn [negb orb]; [|apply advances_quiet; [done|apply quiet_refl]].
  case_bool_decide as Eauth; cbn [negb]; [|apply advances_quiet; [done|apply quiet_refl]].
  case_bool_decide as Es; [|apply advances_quiet; [done|apply Quiet_result]].
  destruct (resume_in_flight w claim r d) as [-> Hf]; try done; [| |by apply (advances_readback _ _ _ r)].
  all: intros E; rewrite E in Es; set_solver.
Qed.

Lemma retry_advances w claim : good w → advances w (retry policy context claim w).2.
Proof using HT Hp.
  intros Hg. unfold retry. apply advances_then; [apply Quiet_lift|done|]. intros [] w1 [= _ <-] _.
  apply advances_then; [apply Quiet_get|done|]. intros l w1 [= <- <-] _.
  destruct (assoc _ _) as [r|] eqn:Er; [|apply advances_quiet; [done|apply quiet_refl]].
  apply advances_then; [apply Quiet_lift|done|]. intros d w1 [= Hd <-] _.
  destruct (authorized d) eqn:Ea; cbn [negb orb]; [|apply advances_quiet; [done|apply quiet_refl]].
  case_bool_decide as Eauth; cbn [negb]; [|apply advances_quiet; [done|apply quiet_refl]].
  case_bool_decide as Es; cbn [negb]; [|apply advances_quiet; [done|apply Quiet_refused]].
  destruct (resume_in_flight w claim r d) as [-> Hf]; try done; [by rewrite Es..|].
  set (a := t_authorization r) in *. fold (lease_step a).
  apply advances_then; [|done|].
  { destruct (hydrated _); [|apply Quiet_return]. apply Quiet_try; [by apply Quiet_call|apply Quiet_return]. }
  intros owns w1 Hm Hq. assert (good w1) as Hg1 by by eapply good_quiet.
  assert (in_flight w1 a (t_request r) r) as Hf1.
  { destruct (resume_in_flight w1 (claim_digest a) r d) as [_ ?]; try done.
    - by rewrite (proj1 Hq).
    - by rewrite (proj1 Hq).
    - by rewrite Es.
    - by rewrite Es. }
  destruct owns; cbn [negb].
  - destruct (consume_retry_run w1 a (t_request r) r Hf1 Es) as (w2 & r' & Hc & Hf2 & Htr & Hch & _ & _ & Hb).
    rewrite (mthen_ok _ _ _ _ _ Hc). cbn [negb]. eapply advances_dispatch; [done|done| |done].
    exists []. by rewrite app_nil_r.
  - destruct (settle_run w1 a (t_request r) r PRESERVED_FOR_OWNER None None Hf1) as (w2 & r' & Hu & Hset & Hch & _);
      try done.
    rewrite (mthen_ok _ _ _ _ _ Hu). apply (advances_settle w1 w1 w2).
    + done.
    + by rewrite Hch, app_nil_r.
    + exists []. by rewrite app_nil_r.
Qed.

Lemma run_advances w c : good w → advances w (run policy context c w).2.
Proof using HT Hp.
  intros Hg. destruct c; cbn [run]; first [by apply begin_advances|by apply reconcile_advances|by apply retry_advances].
Qed.

(** A sequence of commands; a command that raises leaves its effects and the
    next one still runs. *)
Definition run_all (cs : list Command) (w : World (H:=H)) : World (H:=H) :=
  fold_left (λ w c, (run policy context c w).2) cs w.

Lemma run_all_good cs w : good w → good (run_all cs w) ∧
  ∃ ext, chain (ledger (run_all cs w)) = chain (ledger w) ++ ext ∧ (length ext ≤ length cs)%nat.
Proof using HT Hp.
  revert w. induction cs as [|c cs IH]; intros w Hg; cbn [run_all fold_left].
  { split; [done|]. exists []. by rewrite app_nil_r. }
  destruct (run_advances w c Hg) as [Hg1 (e1 & He1 & Hn1) _].
  destruct (IH _ Hg1) as [Hg2 (e2 & He2 & Hn2)]. split; [done|].
  exists (e1 ++ e2). unfold run_all in He2. rewrite He2, He1, app_assoc, length_app. cbn [length]. split; [done|lia].
Qed.

(** A fresh ledger has the genesis receipt and nothing else. *)
Lemma genesis_chain g : genesis_canary_receipt policy = Ok g →
  validate_canary_receipt_chain policy (Typed [Typed g]) = Ok g ∧ r_policy g = policy.
Proof.
  unfold genesis_canary_receipt, make_receipt. intros ([] & Hf & [= <-])%bind_ok. split; [|done].
  unfold validate_canary_receipt_chain, check_chain, check_link, validate_for. cbn [fmap list_fmap].
  match goal with |- context [receipt_fields_check ?r] => change (receipt_fields_check r) with
    (receipt_fields_check {| r_policy := policy; result := GENESIS;
       operation_counts := map (λ o, (o, 0)) (requested_operations policy);
       semantic_readback_digest := genesis_identity policy; predecessor_receipt_digest := None;
       receipt_digest := "" |}) end.
  rewrite Hf. cbn [mbind result_bind r_policy receipt_digest result predecessor_receipt_digest operation_counts].
  rewrite !bool_decide_eq_true_2 by done. cbn [andb require mbind result_bind].
  replace (forallb _ _) with true; [done|]. symmetry. apply forallb_forall.
  intros oc (o & <- & _)%in_map_iff. done.
Qed.

Lemma new_ledger_good h l : new_ledger policy = Ok l → good {| ledger := l; host := h; trace := [] |}.
Proof.
  unfold new_ledger. intros (g & Hg & [= <-])%bind_ok. destruct (genesis_chain g Hg) as [Hv Hpol].
  split; constructor; cbn; try done.
  - intros r ->%list_elem_of_singleton. done.
  - by exists g.
  - constructor.
  - constructor.
  - by intros [|? ?] ? ? ?.
Qed.

(** The world of a coordinator that starts on a fresh ledger and runs any commands. *)
Definition reachable (w : World (H:=H)) : Prop := ∃ l h cs,
  orchestrator_init policy context None = Ok l ∧ w = run_all cs {| ledger := l; host := h; trace := [] |}.

Lemma reachable_good w : reachable w → good w.
Proof using HT Hp.
  intros (l & h & cs & Hi & ->). apply run_all_good. apply new_ledger_good.
  unfold orchestrator_init in Hi. apply bind_ok in Hi as (l' & Hn & Hi). rewrite Hn. f_equal.
  apply bind_ok in Hi as ([] & _ & Hi). destruct (list.last _); [|done].
  by apply bind_ok in Hi as ([] & _ & [= ->]).
Qed.

Lemma good_safe w : good w →
  (∃ head, validate_canary_receipt_chain policy (Typed (Typed <$> chain (ledger w))) = Ok head)
  ∧ length (chain (ledger w)) = S (length (verified (ledger w)))
  ∧ Z.of_nat (length (verified (ledger w))) ≤ total_calls (budget policy)
  ∧ (∀ k, dispatches k (trace w) ≤ match assoc k (records (ledger w)) with
                                   | None => 0
                                   | Some r => if t_retry_used r then 2 else 1
                                   end)%nat
  ∧ (∀ before k p after, trace w = before ++ EvDispatch k p :: after → ∃ key, EvClaim key k true ∈ before)
  ∧ ∀ k r, assoc k (records (ledger w)) = Some r → t_state r ≠ CLAIMED.
Proof using Hp HT.
  intros [Hl Ht]. destruct (il_chain _ _ Hl) as (head & _ & Hv).
  split_and!; [by eexists|apply Hl| |apply Ht|apply Ht|].
  - destruct (validate_chain_counts policy Hp (chain (ledger w)) head) as (_ & [Hr Ha] & Hs); [|done|].
    { intros r Hr. unfold no_collision. by rewrite (il_chain_policy _ _ Hl r Hr). }
    pose proof (ro_total _ Hr). rewrite (ag_total _ _ Ha) in *. rewrite (il_links _ _ Hl) in Hs. lia.
  - intros k r Hr Hc. discriminate (it_settled _ _ _ Ht _ _ Hr Hc).
Qed.

Lemma execute_run w rq d a h1 : good w → matching (ledger w) rq EXECUTE = Ok None →
  decide_request policy context (ledger w) rq = Ok d → authorized d = true → authorization d = Some a →
  assoc (claim_digest a) (records (ledger w)) = None →
  lease_claim (consumption_key a) (claim_digest a) (host w) = (Ok true, h1) →
  ∃ w1, begin policy context rq EXECUTE w = dispatch d a rq EXECUTE w1
    ∧ host w1 = h1 ∧ chain (ledger w1) = chain (ledger w)
    ∧ trace w1 = trace w ++ [EvClaim (consumption_key a) (claim_digest a) true] ∧ (∃ r, in_flight w1 a rq r)
    ∧ (S (dispatches (claim_digest a) (trace w1)) ≤ dispatch_bound (ledger w1) (claim_digest a))%nat.
Proof using HT Hp.
  intros Hg Hm Hd Ha Hau Hnew Hlease.
  assert (authorized_now (ledger w) rq a) as Hauth by by exists d.
  destruct (authorized_now_advance _ _ _ (proj1 Hg) Hauth) as [Hok _].
  assert (∃ l', reserve (ledger w) a rq EXECUTE None None = Ok (true, l')) as [l' Hr].
  { unfold reserve. rewrite Hnew.
    destruct (make_execution_receipt_ok a EXECUTE CLAIMED None None None None false) as (x & -> & _); try done.
    by eexists. }
  destruct (claim_in_flight w a rq EXECUTE None None l' h1 Hg Hauth Hm Hr) as (Hch & Hf & Hb).
  eexists. split; [|split; [|split; [|split; [|split; [exact Hf|exact Hb]]]]]; [|done..].
  unfold begin. rewrite (mthen_ok get_ledger _ w w (ledger w) eq_refl), Hm.
  rewrite (mthen_ok _ _ w w d) by (apply mtry_ok; unfold mlift; by rewrite Hd).
  rewrite Ha, Hau. rewrite (mthen_ok (if EXECUTE ==? EXECUTE then _ else _) _ w w (Some (None, None))) by reflexivity. rewrite Hr.
  rewrite (mthen_ok _ _ w (put_ledger w l') ()) by (by apply on_ledger_ok).
  fold (lease_step a). erewrite mthen_ok; [|apply mtry_ok; exact (host_call_eq _ _ (put_ledger w l') _ _ Hlease)].
  reflexivity.
Qed.
End steps.

(** ** The coordinator's guarantees *)

(** C17 : whatever the commands, run one after another, and however the owner
    host answers or fails, without calling back into the coordinator, a
    coordinator that starts on a fresh ledger keeps a valid receipt chain with
    one link per verified transition and within the call budget; a claim is
    dispatched at most once, or twice when its single retry was consumed, each
    time after the lease granted it; and no transition is left claimed. *)
Theorem canary_transitions_safe {H} `{OwnerHostTyped H} policy context (w : World (H:=H)) :
  policy_constructed policy → reachable policy context w →
  (∃ head, validate_canary_receipt_chain policy (Typed (Typed <$> chain (ledger w))) = Ok head)
  ∧ length (chain (ledger w)) = S (length (verified (ledger w)))
  ∧ Z.of_nat (length (verified (ledger w))) ≤ total_calls (budget policy)
  ∧ (∀ k, dispatches k (trace w) ≤ match assoc k (records (ledger w)) with
                                   | None => 0
                                   | Some r => if t_retry_used r then 2 else 1
                                   end)%nat
  ∧ (∀ before k p after, trace w = before ++ EvDispatch k p :: after → ∃ key, EvClaim key k true ∈ before)
  ∧ ∀ k r, assoc k (records (ledger w)) = Some r → t_state r ≠ CLAIMED.
Proof. intros Hp Hg%reachable_good; [|done]. by apply good_safe. Qed.

(** in any reachable state a fresh authorized request whose lease is
    granted is dispatched and read back once, and its transition is verified,
    with one receipt of that read-back added to the chain, exactly when the
    broker's read-back says it was applied; otherwise the chain is unchanged. *)
Theorem execute_verifies_iff_applied {H} `{OwnerHostTyped H} policy context (w : World (H:=H)) rq d a h1 :
  policy_constructed policy → reachable policy context w → matching (ledger w) rq EXECUTE = Ok None →
  decide_request policy context (ledger w) rq = Ok d → authorized d = true → authorization d = Some a →
  assoc (claim_digest a) (records (ledger w)) = None →
  lease_claim (consumption_key a) (claim_digest a) (host w) = (Ok true, h1) →
  ∃ res w', run policy context (CExecute rq) w = (Ok res, w')
    ∧ trace w' = trace w ++ [EvClaim (consumption_key a) (claim_digest a) true;
                             EvDispatch (claim_digest a) EXECUTE; EvReadback (claim_digest a)]
    ∧ let h2 := (broker_dispatch a rq EXECUTE h1).2 in
      match (broker_readback a rq h2).1 with
      | Ok (Typed {| rb_state := APPLIED; rb_digest := dg |}) => res_verified res
          ∧ ∃ c, chain (ledger w') = chain (ledger w) ++ [c] ∧ semantic_readback_digest c = dg
                 ∧ res_canary_receipt res = Some c
      | _ => ¬ res_verified res ∧ chain (ledger w') = chain (ledger w)
      end.
Proof.
  intros Hp Hw%reachable_good Hm Hd Ha Hau Hnew Hlease; [|done].
  destruct (execute_run policy context Hp w rq d a h1) as (w1 & Hrun & <- & Hch & Htr & [r Hf] & Hb); try done.
  destruct (dispatch_settles policy context Hp w1 a rq r d EXECUTE Hf Hb) as (res & w' & Hdis & _ & _ & Htr' & _ & Hout).
  exists res, w'. split; [cbn [run]; congruence|]. split; [by rewrite Htr', Htr, <- app_assoc|].
  cbn zeta. rewrite Hch in Hout. unfold applied_answer in Hout.
  destruct Hout as [(dg & c & -> & Hv & Hc & Hs & Hr)|(Hno & Hv & Hc)]; [by split; [|exists c]|].
  destruct (broker_readback _ _ _).1 as [[[[] dg]|]|]; try done. exfalso. eauto.
Qed.

(** a transition request is recorded at most once: delivering it again,
    after whatever happened in between, returns the receipt of its record and
    calls neither the lease nor the broker. *)
Theorem duplicate_delivery_converges {H} `{OwnerHostTyped H} policy context (w : World (H:=H)) k r :
  policy_constructed policy → reachable policy context w → assoc k (records (ledger w)) = Some r →
  ∃ res, begin policy context (t_request r) (t_purpose r) w = (Ok res, w)
    ∧ res_receipt res = Some (t_receipt r) ∧ res_canary_receipt res = t_canary_receipt r
    ∧ x_state (t_receipt r) = t_state r ∧ x_claim_digest (t_receipt r) = k.
Proof.
  intros Hp [Hl Ht]%reachable_good Hr; [|done]. pose proof (il_records _ _ Hl _ _ Hr) as Hok.
  eexists. split; [|split_and!; [..|apply Hok|apply Hok]].
  - unfold begin. rewrite (mthen_ok get_ledger _ w w (ledger w) eq_refl).
    by rewrite (matching_unique _ k r (il_unique _ _ Hl) Hr).
  - done.
  - done.
Qed.

(** ** A concrete owner host *)

(** A host that grants every lease and answers read-backs from a script. *)
Definition script := list CanaryReadbackState.

Definition sample_evidence : string := String.append "sha256:" (str_repeat "6" 64).

Definition scripted (h : script) : py (dyn CanarySemanticReadback) * script :=
  match h with
  | [] => (raise IndexError "no answer", [])
  | s :: h => (Ok (Typed {| rb_state := s; rb_digest := sample_evidence |}), h)
  end.

#[local] Instance script_host : OwnerHost script := {|
  lease_claim key claim h := (Ok true, h);
  broker_dispatch a rq purpose h := (Ok (Typed (match h with APPLIED :: _ => true | _ => false end)), h);
  broker_readback a rq h := scripted h;
  broker_pre_readback a rq d h := scripted h;
|}.

Lemma scripted_constructed h r h' :
  scripted h = (Ok (Typed r), h') → CanarySemanticReadback_post_init r = Ok ().
Proof. destruct h as [|s h]; [done|]. intros [= <- _]. vm_compute. reflexivity. Qed.

#[local] Instance script_host_typed : OwnerHostTyped script.
Proof. split; intros; by eapply scripted_constructed. Qed.

Definition sample_start : CanaryAuthorityContext := sample_canary_context (receipt_digest sample_genesis).

Definition blank_ledger : Ledger :=
  {| l_policy := sample_canary; chain := []; records := []; hydrated := false |}.

Definition sample_ledger : Ledger :=
  Eval vm_compute in unwrap blank_ledger (orchestrator_init sample_canary sample_start None).

(** Create a branch; comment, absent; retry the comment, applied. *)
Definition sample_fresh (h : script) : World (H:=script) := {| ledger := sample_ledger; host := h; trace := [] |}.

Definition sample_comment_claim : string :=
  "sha256:7f843bb7e871091c288684d0b992f768b335a07b04a757f3983a097b9412ae41".

Definition sample_commands : list Command :=
  [CExecute (sample_request GH_CREATE_BRANCH); CExecute (sample_request GH_COMMENT);
   CRetry sample_comment_claim].

Definition sample_world (cs : list Command) : World (H:=script) :=
  run_all sample_canary sample_start cs (sample_fresh [APPLIED; ABSENT; APPLIED]).

Lemma sample_reachable cs : reachable sample_canary sample_start (sample_world cs).
Proof. exists sample_ledger, [APPLIED; ABSENT; APPLIED], cs. split; [vm_compute; reflexivity|done]. Qed.

Definition sample_execute_decision : CanaryDecision :=
  Eval vm_compute in
  unwrap (refused "" None)
    (decide_request sample_canary sample_start sample_ledger (sample_request GH_CREATE_BRANCH)).

Definition sample_execute_authorization : CanaryAuthorization :=
  Eval vm_compute in default blank_authorization (authorization sample_execute_decision).

Lemma sample_decides :
  decide_request sample_canary sample_start sample_ledger (sample_request GH_CREATE_BRANCH)
  = Ok sample_execute_decision.
Proof. vm_compute. reflexivity. Qed.

(** The first command leaves a record. *)
Lemma sample_recorded : ∃ k r,
  assoc k (records (ledger (sample_world [CExecute (sample_request GH_CREATE_BRANCH)]))) = Some r.
Proof.
  destruct (execute_run sample_canary sample_start sample_canary_constructed
    (sample_fresh [APPLIED; ABSENT; APPLIED]) (sample_request GH_CREATE_BRANCH) sample_execute_decision
    sample_execute_authorization [APPLIED; ABSENT; APPLIED]) as (w1 & Hrun & Hh & Hch & _ & [r Hf] & Hb).
  - apply (reachable_good _ sample_start sample_canary_constructed), (sample_reachable []).
  - reflexivity.
  - apply sample_decides.
  - reflexivity.
  - reflexivity.
  - reflexivity.
  - reflexivity.
  - destruct (dispatch_settles sample_canary sample_start sample_canary_constructed w1 _ _ r
      sample_execute_decision EXECUTE Hf Hb) as (res & w' & Hdis & Hl & _ & _ & _ & Hout).
    change (sample_world [CExecute (sample_request GH_CREATE_BRANCH)]) with
      (begin sample_canary sample_start (sample_request GH_CREATE_BRANCH) EXECUTE
         (sample_fresh [APPLIED; ABSENT; APPLIED])).2.
    rewrite Hrun, Hdis. cbn [snd]. rewrite Hh in Hout. unfold applied_answer in Hout.
    destruct Hout as [(dg & c & _ & _ & Hc & _)|(Hno & _)]; [|exfalso; apply Hno; by eexists].
    pose proof (il_links _ _ Hl) as Hn. rewrite Hc, Hch, length_app in Hn. unfold verified in Hn.
    destruct (records (ledger w')) as [|[k r'] rs]; [done|]. exists k, r'. cbn. by rewrite decide_True.
Qed.

Lemma canary_transitions_safe_witness :
  length (chain (ledger (sample_world sample_commands)))
    = S (length (verified (ledger (sample_world sample_commands)))).
Proof.
  refine (proj1 (proj2 (canary_transitions_safe sample_canary sample_start (sample_world sample_commands)
    sample_canary_constructed (sample_reachable _)))).
Defined.

Lemma execute_verifies_iff_applied_witness : ∃ res w',
  run sample_canary sample_start (CExecute (sample_request GH_CREATE_BRANCH)) (sample_world []) = (Ok res, w')
  ∧ res_verified res.
Proof.
  destruct (execute_verifies_iff_applied sample_canary sample_start (sample_world [])
    (sample_request GH_CREATE_BRANCH) sample_execute_decision sample_execute_authorization
    [APPLIED; ABSENT; APPLIED] sample_canary_constructed (sample_reachable []) eq_refl sample_decides
    eq_refl eq_refl eq_refl eq_refl) as (res & w' & Hrun & _ & Hv & _).
  exists res, w'. split; [exact Hrun|exact Hv].
Defined.

Lemma duplicate_delivery_converges_witness : ∃ rq purpose res,
  begin sample_canary sample_start rq purpose (sample_world [CExecute (sample_request GH_CREATE_BRANCH)])
  = (Ok res, sample_world [CExecute (sample_request GH_CREATE_BRANCH)]).
Proof.
  destruct sample_recorded as (k & r & Hr).
  destruct (duplicate_delivery_converges sample_canary sample_start
    (sample_world [CExecute (sample_request GH_CREATE_BRANCH)]) k r
    sample_canary_constructed (sample_reachable _) Hr) as (res & Hb & _).
  exists (t_request r), (t_purpose r), res. exact Hb.
Defined.
