(* ===== verification/Gates.v ===== *)
(** * Final gates (src/roundwright/gates.py)

    The pure decision core: the gate registry, the structured evidence of each
    gate, [decide_gates] and its helpers, and the rendering of a decision.
    Contexts and evidence are plain dataclasses without validation, read back
    from SQLite rows, so every field the code tests with [isinstance] or
    [type(x) is C] is a [dyn].  The SQLite functions of the file are in
    [GateStore]. *)

From S2P Require Import Prelude Sha256 Json RuntimeBinding.
Open Scope Z_scope.

(** ** Data *)

Inductive GateKey :=
  | PLAN_REVIEW | CANDIDATE_SEAL | SUPERVISOR_DIFF_REVIEW | TARGETED_TESTS | FULL_TESTS | BUILD
  | POLICY | DEPLOYMENT_AUTHORITY | DEPENDENCY_GRAPH | GITHUB_TRACE | PUBLIC_IDENTIFIER
  | LIVE_PROOF | EXTERNAL_CI.

#[export] Instance GateKey_eq_dec : EqDecision GateKey.
Proof. solve_decision. Defined.

Definition GateKey_value (k : GateKey) : string :=
  match k with
  | PLAN_REVIEW => "plan-review" | CANDIDATE_SEAL => "candidate-seal"
  | SUPERVISOR_DIFF_REVIEW => "supervisor-diff-review" | TARGETED_TESTS => "targeted-tests"
  | FULL_TESTS => "full-tests" | BUILD => "build" | POLICY => "policy"
  | DEPLOYMENT_AUTHORITY => "deployment-authority" | DEPENDENCY_GRAPH => "dependency-graph"
  | GITHUB_TRACE => "github-trace" | PUBLIC_IDENTIFIER => "public-identifier"
  | LIVE_PROOF => "live-proof" | EXTERNAL_CI => "external-ci"
  end.

Inductive EvidenceOutcome :=
  | E_PASS | NOT_APPLICABLE | E_PENDING | E_BLOCKED | FINDINGS | UNKNOWN | STALE | CONFLICT.

Definition EvidenceOutcome_value (o : EvidenceOutcome) : string :=
  match o with
  | E_PASS => "PASS" | NOT_APPLICABLE => "NOT_APPLICABLE" | E_PENDING => "PENDING"
  | E_BLOCKED => "BLOCKED" | FINDINGS => "FINDINGS" | UNKNOWN => "UNKNOWN" | STALE => "STALE"
  | CONFLICT => "CONFLICT"
  end.

Definition all_outcomes : list EvidenceOutcome :=
  [E_PASS; NOT_APPLICABLE; E_PENDING; E_BLOCKED; FINDINGS; UNKNOWN; STALE; CONFLICT].

Inductive GateOutcome := PASS | PENDING | BLOCKED.

#[export] Instance GateOutcome_eq_dec : EqDecision GateOutcome.
Proof. solve_decision. Defined.

Definition GateOutcome_value (o : GateOutcome) : string :=
  match o with PASS => "PASS" | PENDING => "PENDING" | BLOCKED => "BLOCKED" end.

Record GateRequirement := { rq_key : GateKey; permits_phase_two_local_na : bool }.

Definition GATE_REGISTRY : list GateRequirement :=
  [ {| rq_key := PLAN_REVIEW; permits_phase_two_local_na := false |};
    {| rq_key := CANDIDATE_SEAL; permits_phase_two_local_na := false |};
    {| rq_key := SUPERVISOR_DIFF_REVIEW; permits_phase_two_local_na := false |};
    {| rq_key := TARGETED_TESTS; permits_phase_two_local_na := false |};
    {| rq_key := FULL_TESTS; permits_phase_two_local_na := false |};
    {| rq_key := BUILD; permits_phase_two_local_na := false |};
    {| rq_key := POLICY; permits_phase_two_local_na := false |};
    {| rq_key := DEPLOYMENT_AUTHORITY; permits_phase_two_local_na := false |};
    {| rq_key := DEPENDENCY_GRAPH; permits_phase_two_local_na := true |};
    {| rq_key := GITHUB_TRACE; permits_phase_two_local_na := true |};
    {| rq_key := PUBLIC_IDENTIFIER; permits_phase_two_local_na := true |};
    {| rq_key := LIVE_PROOF; permits_phase_two_local_na := true |};
    {| rq_key := EXTERNAL_CI; permits_phase_two_local_na := true |} ].

(** The registry's keys by value. *)
Definition registry_keys : list string := map (λ r, GateKey_value (rq_key r)) GATE_REGISTRY.

(** [review_limit_finalization] is not read by the decision. *)
Record GateContext := {
  c_task_id : dyn string;
  c_candidate_sha : dyn string;
  source_count : dyn Z;
  isolated_local_task : dyn bool;
  c_policy_digest : dyn string;
  c_receipt_fingerprint : dyn string;
  c_runtime_binding : dyn RuntimeBinding;
  selected_supervisor_profile_identity : dyn string;
  dependency_graph_version_id : dyn (option string);
  dependency_graph_decision_digest : dyn (option string);
}.

Record FollowUp := {
  identifier : dyn string;
  resolved : dyn bool;
  resolution_fingerprint : dyn (option string);
}.

(** A gate key or outcome that is an enum member or a string is that string
    ([_value]). *)
Record GateEvidence := {
  e_task_id : dyn string;
  e_candidate_sha : dyn string;
  gate_key : dyn string;
  e_outcome : dyn string;
  evaluator_id : dyn string;
  evaluated_at : dyn Z;
  evidence_fingerprint : dyn string;
  changed_boundary : dyn (option string);
  e_reason : dyn (option string);
  follow_ups : dyn (list (dyn FollowUp));
}.

Record GateResult := { r_gate_key : string; r_outcome : GateOutcome; r_reason : string }.

Record GateDecision := { d_outcome : GateOutcome; results : list GateResult }.

(** ** Validation *)

Definition token_rest (c : ascii) : bool := is_alnum c || one_of "._:@/-" c.

(** [isinstance(value, str) and _TOKEN.fullmatch(value)] and the like. *)
Definition is_string_with (p : string → bool) (value : dyn string) : bool :=
  match value with Typed s => p s | Foreign => false end.

Definition is_token : dyn string → bool := is_string_with (match_ident is_alnum token_rest 127).
Definition is_commit : dyn string → bool := is_string_with (match_hex 40).
Definition is_fingerprint : dyn string → bool := is_string_with (match_hex 64).
Definition is_graph_digest (value : dyn string) : bool :=
  is_fingerprint value || is_string_with match_digest value.

(** A value that may be [None]: as a string, [None] is not one. *)
Definition str_of (value : dyn (option string)) : dyn string :=
  match value with Typed (Some s) => Typed s | _ => Foreign end.

(** [value is None or p(value)] *)
Definition none_or (p : dyn string → bool) (value : dyn (option string)) : bool :=
  match value with Typed None => true | _ => p (str_of value) end.

Definition is_well_formed_context (c : GateContext) : bool :=
  is_token (c_task_id c) && is_commit (c_candidate_sha c)
  && match source_count c with Typed n => 0 <? n | Foreign => false end
  && match isolated_local_task c with Typed _ => true | Foreign => false end
  && is_fingerprint (c_policy_digest c) && is_fingerprint (c_receipt_fingerprint c)
  && match c_runtime_binding c, selected_supervisor_profile_identity c with
     | Typed b, Typed s => s in? supervisor_profile_identities b
     | _, _ => false
     end
  && none_or is_token (dependency_graph_version_id c)
  && none_or is_graph_digest (dependency_graph_decision_digest c).

(** One follow-up, given the identifiers before it. *)
Definition follow_up_is_valid (seen : list string) (f : dyn FollowUp) : option string :=
  match f with
  | Typed {| identifier := Typed i; resolved := Typed b; resolution_fingerprint := fp |} =>
      if is_token (Typed i) && negb (i in? seen) && Bool.eqb b (is_fingerprint (str_of fp)) then Some i else None
  | _ => None
  end.

Fixpoint follow_ups_loop (seen : list string) (l : list (dyn FollowUp)) : bool :=
  match l with
  | [] => true
  | f :: l =>
      match follow_up_is_valid seen f with
      | Some i => follow_ups_loop (i :: seen) l
      | None => false
      end
  end.

(** [_follow_ups_are_valid]; a value that is not a tuple is [Foreign]. *)
Definition follow_ups_are_valid (value : dyn (list (dyn FollowUp))) : bool :=
  match value with Typed l => follow_ups_loop [] l | Foreign => false end.

Definition is_well_formed (e : GateEvidence) : bool :=
  is_token (e_task_id e) && is_commit (e_candidate_sha e)
  && match gate_key e with Typed _ => true | Foreign => false end
  && is_string_with (λ o, o in? map EvidenceOutcome_value all_outcomes) (e_outcome e)
  && is_token (evaluator_id e)
  && match evaluated_at e with Typed n => 0 <? n | Foreign => false end
  && is_fingerprint (evidence_fingerprint e)
  && match changed_boundary e with Typed _ => true | Foreign => false end
  && match e_reason e with Typed _ => true | Foreign => false end
  && follow_ups_are_valid (follow_ups e).

(** [str.isspace] of a character up to U+00FF. *)
Definition is_space (c : ascii) : bool :=
  let n := N_of_ascii c in
  ((9 <=? n) && (n <=? 13) || (28 <=? n) && (n <=? 32) || (n =? 133) || (n =? 160))%N.

(** [bool(value.strip())] *)
Definition not_blank (s : string) : bool := existsb (λ c, negb (is_space c)) (chars s).

Definition justified_na (e : GateEvidence) : bool :=
  is_string_with not_blank (str_of (changed_boundary e)) && is_string_with not_blank (str_of (e_reason e)).

(** ** The decision *)

(** [follow_up.resolved], read only of valid follow-ups. *)
Definition is_resolved (f : dyn FollowUp) : bool :=
  match f with Typed {| resolved := Typed b |} => b | _ => false end.

Definition unresolved_follow_up (e : GateEvidence) : bool :=
  match follow_ups e with Typed l => existsb (λ f, negb (is_resolved f)) l | Foreign => false end.

Definition count_exceeds (c : GateContext) (n : Z) : bool :=
  match source_count c with Typed k => n <? k | Foreign => false end.

Definition gate_result (key : GateKey) (o : GateOutcome) (why : string) : GateResult :=
  {| r_gate_key := GateKey_value key; r_outcome := o; r_reason := why |}.

(** The single outcome of the entries: [outcomes = {...}; if len(outcomes) != 1]. *)
Definition single_outcome (entries : list GateEvidence) : option (dyn string) :=
  match entries with
  | [] => None
  | e :: _ => if forallb (λ e', e_outcome e' ==? e_outcome e) entries then Some (e_outcome e) else None
  end.

(** The branches of [_decide_requirement] on the single outcome. *)
Definition decide_outcome (c : GateContext) (rq : GateRequirement) (entries : list GateEvidence)
    (outcome : dyn string) : GateResult :=
  let key := rq_key rq in
  if outcome ==? Typed (EvidenceOutcome_value E_PASS) then
    if (key ==? DEPENDENCY_GRAPH) && count_exceeds c 1
       && (negb (is_token (str_of (dependency_graph_version_id c)))
           || negb (is_graph_digest (str_of (dependency_graph_decision_digest c)))) then
      gate_result key BLOCKED "accepted graph decision is unavailable"
    else gate_result key PASS "accepted"
  else if outcome ==? Typed (EvidenceOutcome_value NOT_APPLICABLE) then
    if negb (permits_phase_two_local_na rq) then
      gate_result key BLOCKED "not applicable is unsupported for this gate"
    else if (source_count c !=? Typed 1) || (isolated_local_task c !=? Typed true) then
      gate_result key BLOCKED "not applicable requires the isolated single-source local boundary"
    else if existsb (λ e, negb (justified_na e)) entries then
      gate_result key BLOCKED "not applicable is not auditable"
    else gate_result key PASS "accepted isolated-local not applicable"
  else if outcome in? [Typed (EvidenceOutcome_value E_PENDING); Typed (EvidenceOutcome_value STALE)] then
    gate_result key PENDING "evidence is pending or stale"
  else if outcome ==? Typed (EvidenceOutcome_value FINDINGS) then
    gate_result key BLOCKED "findings remain"
  else gate_result key BLOCKED "unknown or blocked evidence".

Definition decide_requirement (c : GateContext) (rq : GateRequirement) (entries : list GateEvidence) : GateResult :=
  let key := rq_key rq in
  if existsb (λ e, (e_task_id e !=? c_task_id c) || (e_candidate_sha e !=? c_candidate_sha c)) entries then
    gate_result key BLOCKED "candidate identity mismatch"
  else if existsb (λ e, negb (is_well_formed e)) entries then
    gate_result key BLOCKED "invalid structured evidence"
  else if existsb unresolved_follow_up entries then
    gate_result key BLOCKED "unresolved follow-up remains"
  else
    match single_outcome entries with
    | None => gate_result key BLOCKED "conflicting evidence"
    | Some outcome => decide_outcome c rq entries outcome
    end.

Definition blocked (key why : string) : GateDecision :=
  {| d_outcome := BLOCKED; results := [{| r_gate_key := key; r_outcome := BLOCKED; r_reason := why |}] |}.

(** How one item of the evidence tuple is filed. *)
Inductive filing := Malformed | Unsupported | Filed (key : string) (e : GateEvidence).

Definition file_item (item : dyn GateEvidence) : filing :=
  match item with
  | Typed e =>
      match gate_key e with
      | Foreign => Malformed
      | Typed key => if key in? registry_keys then Filed key e else Unsupported
      end
  | Foreign => Malformed
  end.

(** [grouped[key]] *)
Definition grouped (evidence : list (dyn GateEvidence)) (key : string) : list GateEvidence :=
  omap (λ item, match file_item item with Filed k e => if k ==? key then Some e else None | _ => None end) evidence.

Definition is_unsupported (item : dyn GateEvidence) : bool :=
  match file_item item with Unsupported => true | _ => false end.

Definition is_malformed (item : dyn GateEvidence) : bool :=
  match file_item item with Malformed => true | _ => false end.

Definition requirement_result (c : GateContext) (evidence : list (dyn GateEvidence)) (rq : GateRequirement) : GateResult :=
  match grouped evidence (GateKey_value (rq_key rq)) with
  | [] => gate_result (rq_key rq) PENDING "missing evidence"
  | entries => decide_requirement c rq entries
  end.

(** [GateOutcome] of the results: blocked before pending before pass. *)
Definition aggregate (results : list GateResult) : GateOutcome :=
  if existsb (λ r, r_outcome r ==? BLOCKED) results then BLOCKED
  else if existsb (λ r, r_outcome r ==? PENDING) results then PENDING
  else PASS.

Definition decide_gates (context : dyn GateContext) (evidence : dyn (list (dyn GateEvidence))) : GateDecision :=
  match context with
  | Foreign => blocked "context" "invalid gate context"
  | Typed c =>
      if negb (is_well_formed_context c) then blocked "context" "invalid gate context"
      else
        match evidence with
        | Foreign => blocked "evidence" "invalid evidence container"
        | Typed items =>
            let results :=
              map (requirement_result c items) GATE_REGISTRY
              ++ (if existsb is_unsupported items
                  then [{| r_gate_key := "unsupported"; r_outcome := BLOCKED; r_reason := "unsupported gate evidence" |}]
                  else [])
              ++ (if existsb is_malformed items
                  then [{| r_gate_key := "malformed"; r_outcome := BLOCKED; r_reason := "invalid structured evidence" |}]
                  else []) in
            {| d_outcome := aggregate results; results := results |}
        end
  end.

Definition newline : string := String (ascii_of_N 10) EmptyString.

Definition render_gate_decision (d : GateDecision) : string :=
  String.concat newline
    (String.append "decision=" (GateOutcome_value (d_outcome d))
     :: map (λ r, String.concat "" ["gate="; r_gate_key r; " outcome="; GateOutcome_value (r_outcome r);
                                    " reason="; r_reason r]) (results d)).

(** ** What a gate accepts *)

Section requirement.
Context (c : GateContext) (rq : GateRequirement).

(** Evidence of this candidate, well formed and with no open follow-up. *)
Record bound_evidence (e : GateEvidence) : Prop := {
  be_task : e_task_id e = c_task_id c;
  be_candidate : e_candidate_sha e = c_candidate_sha c;
  be_well_formed : is_well_formed e = true;
  be_resolved : unresolved_follow_up e = false;
}.

(** Every entry reports [o], and there is one. *)
Definition unanimous (entries : list GateEvidence) (o : EvidenceOutcome) : Prop :=
  entries ≠ [] ∧ ∀ e, e ∈ entries → bound_evidence e ∧ e_outcome e = Typed (EvidenceOutcome_value o).

(** A graph PASS over several sources names the accepted graph decision. *)
Definition graph_named : Prop :=
  rq_key rq = DEPENDENCY_GRAPH → count_exceeds c 1 = true →
  is_token (str_of (dependency_graph_version_id c)) = true
  ∧ is_graph_digest (str_of (dependency_graph_decision_digest c)) = true.

Definition local_boundary : Prop :=
  permits_phase_two_local_na rq = true ∧ source_count c = Typed 1 ∧ isolated_local_task c = Typed true.

Definition gate_accepted (entries : list GateEvidence) : Prop :=
  unanimous entries E_PASS ∧ graph_named
  ∨ unanimous entries NOT_APPLICABLE ∧ local_boundary ∧ ∀ e, e ∈ entries → justified_na e = true.

Definition gate_waiting (entries : list GateEvidence) : Prop :=
  unanimous entries E_PENDING ∨ unanimous entries STALE.

Lemma single_outcome_spec entries o :
  single_outcome entries = Some o ↔ entries ≠ [] ∧ ∀ e, e ∈ entries → e_outcome e = o.
Proof.
  destruct entries as [|e l]; [by split; [|intros []]|]. unfold single_outcome.
  destruct (forallb _ _) eqn:E.
  - rewrite forallb_elem in E. split.
    + intros [= <-]. split; [done|]. intros e' He'. by apply (bool_decide_eq_true _), E.
    + intros [_ H]. f_equal. apply H. constructor.
  - split; [done|]. intros [_ H]. exfalso. revert E. apply not_false_iff_true, forallb_elem.
    intros e' He'. apply bool_decide_eq_true. rewrite !H; [done|constructor|done].
Qed.

Lemma bound_checks entries :
  existsb (λ e, (e_task_id e !=? c_task_id c) || (e_candidate_sha e !=? c_candidate_sha c)) entries
  || existsb (λ e, negb (is_well_formed e)) entries || existsb unresolved_follow_up entries = false
  ↔ ∀ e, e ∈ entries → bound_evidence e.
Proof.
  rewrite !orb_false_iff, !existsb_elem_false. split.
  - intros [[H1 H2] H3] e He. specialize (H1 e He). breflect. destruct H1.
    constructor; [done|done| |by apply H3]. by apply negb_false_iff, H2.
  - intros H. repeat split; intros e He; destruct (H e He) as [E1 E2 E3 E4]; [|by rewrite E3|done].
    by rewrite E1, E2, !bool_decide_eq_true_2.
Qed.

Lemma decide_bound entries : (∀ e, e ∈ entries → bound_evidence e) →
  decide_requirement c rq entries =
  match single_outcome entries with
  | None => gate_result (rq_key rq) BLOCKED "conflicting evidence"
  | Some outcome => decide_outcome c rq entries outcome
  end.
Proof.
  intros H%bound_checks. rewrite !orb_false_iff in H. destruct H as [[H1 H2] H3].
  unfold decide_requirement. by rewrite H1, H2, H3.
Qed.

Lemma decide_unbound entries : ¬ (∀ e, e ∈ entries → bound_evidence e) →
  r_outcome (decide_requirement c rq entries) = BLOCKED.
Proof.
  rewrite <- bound_checks, !orb_false_iff. intros H. unfold decide_requirement.
  repeat case_match; try done. by destruct H.
Qed.

Lemma unanimous_single entries o : (∀ e, e ∈ entries → bound_evidence e) →
  unanimous entries o ↔ single_outcome entries = Some (Typed (EvidenceOutcome_value o)).
Proof. intros Hb. rewrite single_outcome_spec. unfold unanimous. naive_solver. Qed.

Lemma unanimous_bound entries o : unanimous entries o → ∀ e, e ∈ entries → bound_evidence e.
Proof. intros [_ H] e He. by apply H. Qed.

Lemma accepted_bound entries : gate_accepted entries → ∀ e, e ∈ entries → bound_evidence e.
Proof. intros [[H _]|[H _]]; by eapply unanimous_bound. Qed.

Lemma decide_pass entries : r_outcome (decide_requirement c rq entries) = PASS ↔ gate_accepted entries.
Proof.
  split.
  - intros Hd. assert (∀ e, e ∈ entries → bound_evidence e) as Hb.
    { apply bound_checks. destruct (_ || _) eqn:E; [|done]. exfalso.
      rewrite decide_unbound in Hd; [done|]. by rewrite <- bound_checks, E. }
    rewrite decide_bound in Hd by done. unfold gate_accepted. rewrite !unanimous_single by done.
    destruct (single_outcome entries) as [o|]; [|done]. unfold decide_outcome in Hd.
    repeat case_match; try done; breflect; subst.
    + left. split; [done|]. intros Hk Hc. destruct (is_token _), (is_graph_digest _); try done.
      all: rewrite Hk, Hc in *; naive_solver.
    + right. split; [done|]. split; [split; [done|naive_solver]|].
      match goal with E : existsb _ _ = false |- _ => rename E into Hj end.
      rewrite existsb_elem_false in Hj. intros e He. by apply negb_false_iff, Hj.
  - intros H. pose proof (accepted_bound _ H) as Hb. rewrite decide_bound by done.
    destruct H as [[H Hg]|(H & (Hp & Hs & Hi) & Hj)]; apply unanimous_single in H; try done; rewrite H;
      unfold decide_outcome.
    + rewrite bool_decide_eq_true_2 by done. destruct (_ && _) eqn:E; [|done]. breflect.
      destruct E as [[Hk Hc] E]. destruct (Hg Hk Hc) as [G1 G2]. rewrite G1, G2 in E. by destruct E.
    + rewrite bool_decide_eq_false_2 by done. rewrite bool_decide_eq_true_2 by done.
      rewrite Hp, Hs, Hi, !bool_decide_eq_true_2 by done. cbn [negb orb].
      rewrite (proj2 (existsb_elem_false _ _)); [done|]. intros e He. by rewrite Hj.
Qed.

Lemma decide_pending entries : r_outcome (decide_requirement c rq entries) = PENDING ↔ gate_waiting entries.
Proof.
  split.
  - intros Hd. assert (∀ e, e ∈ entries → bound_evidence e) as Hb.
    { apply bound_checks. destruct (_ || _) eqn:E; [|done]. exfalso.
      rewrite decide_unbound in Hd; [done|]. by rewrite <- bound_checks, E. }
    rewrite decide_bound in Hd by done. unfold gate_waiting. rewrite !unanimous_single by done.
    destruct (single_outcome entries) as [o|]; [|done]. unfold decide_outcome in Hd.
    repeat case_match; try done. breflect. set_solver.
  - intros H. assert (∀ e, e ∈ entries → bound_evidence e) as Hb
      by (destruct H; by eapply unanimous_bound).
    rewrite decide_bound by done.
    destruct H as [H|H]; apply unanimous_single in H; try done; by rewrite H.
Qed.
End requirement.

(** ** The aggregate *)

(** Filing depends on the items only. *)
Lemma grouped_elem items key e : e ∈ grouped items key ↔
  ∃ item, item ∈ items ∧ file_item item = Filed key e.
Proof.
  unfold grouped. rewrite list_elem_of_omap. split.
  - intros (item & Hi & He). exists item. split; [done|]. destruct (file_item item); try done.
    case_bool_decide; naive_solver.
  - intros (item & Hi & He). exists item. split; [done|]. by rewrite He, bool_decide_eq_true_2.
Qed.

Lemma existsb_same {A} (p : A → bool) l1 l2 : (∀ x, x ∈ l1 ↔ x ∈ l2) → existsb p l1 = existsb p l2.
Proof. intros H. apply eq_true_iff_eq. rewrite !existsb_elem. naive_solver. Qed.

Lemma single_outcome_same l1 l2 : (∀ e, e ∈ l1 ↔ e ∈ l2) → single_outcome l1 = single_outcome l2.
Proof.
  intros H. apply option_eq. intros o. rewrite !single_outcome_spec.
  assert (l1 ≠ [] ↔ l2 ≠ []) as Hn; [|rewrite Hn; naive_solver].
  destruct l1 as [|x1 l1], l2 as [|x2 l2]; [done| | |done].
  - exfalso. by apply (elem_of_nil (A:=GateEvidence) x2), H; left.
  - exfalso. by apply (elem_of_nil (A:=GateEvidence) x1), H; left.
Qed.

Lemma requirement_result_same c rq items1 items2 : (∀ i, i ∈ items1 ↔ i ∈ items2) →
  requirement_result c items1 rq = requirement_result c items2 rq.
Proof.
  intros H. unfold requirement_result. set (key := GateKey_value (rq_key rq)).
  assert (∀ e, e ∈ grouped items1 key ↔ e ∈ grouped items2 key) as Hg
    by (intros e; rewrite !grouped_elem; naive_solver).
  assert (decide_requirement c rq (grouped items1 key) = decide_requirement c rq (grouped items2 key)) as Hd.
  { unfold decide_requirement, decide_outcome.
    rewrite !(existsb_same _ _ _ Hg), (single_outcome_same _ _ Hg). done. }
  destruct (grouped items1 key) as [|e1 l1], (grouped items2 key) as [|e2 l2]; [done| | |done].
  - exfalso. by apply (elem_of_nil (A:=GateEvidence) e2), Hg; left.
  - exfalso. by apply (elem_of_nil (A:=GateEvidence) e1), Hg; left.
Qed.

Lemma aggregate_spec rs :
  (aggregate rs = PASS ↔ ∀ r, r ∈ rs → r_outcome r = PASS)
  ∧ (aggregate rs = BLOCKED ↔ ∃ r, r ∈ rs ∧ r_outcome r = BLOCKED).
Proof.
  unfold aggregate. destruct (existsb (λ r, r_outcome r ==? BLOCKED) rs) eqn:E1.
  - apply existsb_elem in E1 as (r & Hr & Hb%bool_decide_eq_true). split; split; try done.
    + intros H. by rewrite (H r Hr) in Hb.
    + intros _. by exists r.
  - rewrite existsb_elem_false in E1.
    assert (¬ ∃ r, r ∈ rs ∧ r_outcome r = BLOCKED) as Hnb.
    { intros (r & Hr & Hb). specialize (E1 r Hr). by rewrite bool_decide_eq_false in E1. }
    destruct (existsb (λ r, r_outcome r ==? PENDING) rs) eqn:E2; (split; [|by split]); split; try done.
    + intros H. apply existsb_elem in E2 as (r & Hr & Hb%bool_decide_eq_true). by rewrite (H r Hr) in Hb.
    + intros _ r Hr. rewrite existsb_elem_false in E2. specialize (E1 r Hr). specialize (E2 r Hr).
      rewrite bool_decide_eq_false in E1, E2. by destruct (r_outcome r).
Qed.

(** The abstract specification of readiness: a well-formed context, only
    evidence for registered gates, and every registered gate accepted. *)
Record gates_ready (c : GateContext) (items : list (dyn GateEvidence)) : Prop := {
  gr_context : is_well_formed_context c = true;
  gr_items : ∀ item, item ∈ items → ∃ e key, item = Typed e ∧ gate_key e = Typed key ∧ key ∈ registry_keys;
  gr_gates : ∀ rq, rq ∈ GATE_REGISTRY →
             gate_accepted c rq (grouped items (GateKey_value (rq_key rq)));
}.

Lemma filed_iff item : is_unsupported item = false ∧ is_malformed item = false ↔
  ∃ e key, item = Typed e ∧ gate_key e = Typed key ∧ key ∈ registry_keys.
Proof.
  unfold is_unsupported, is_malformed, file_item. destruct item as [e|].
  2: { split; [by intros [_ ?]|by intros (? & ? & ? & _)]. }
  destruct (gate_key e) as [key|] eqn:E.
  - case_bool_decide as Hk; (split; [|intros (? & ? & [= <-] & He & Hin)]).
    + intros _. by exists e, key.
    + done.
    + by intros [? _].
    + congruence.
  - split; [by intros [_ ?]|]. intros (? & ? & [= <-] & He & _). congruence.
Qed.

Lemma requirement_pass c items rq : r_outcome (requirement_result c items rq) = PASS ↔
  gate_accepted c rq (grouped items (GateKey_value (rq_key rq))).
Proof.
  unfold requirement_result. rewrite <- decide_pass. destruct (grouped _ _); [|done].
  split; [done|]. rewrite decide_pass. by intros [[[] _]|[[] _]].
Qed.

(** A typed context and typed items pass exactly when they are ready. *)
Lemma typed_pass c items : d_outcome (decide_gates (Typed c) (Typed items)) = PASS ↔ gates_ready c items.
Proof.
  unfold decide_gates. destruct (is_well_formed_context c) eqn:Ec; cbn [negb].
  2: { split; [done|]. intros []. congruence. }
  cbn [d_outcome]. rewrite (proj1 (aggregate_spec _)). split.
  - intros H. constructor; [done| |].
    + intros item Hi. apply filed_iff. setoid_rewrite elem_of_app in H. setoid_rewrite elem_of_app in H.
      split; apply not_true_iff_false; intros E.
      * assert (existsb is_unsupported items = true) as Hu by (apply existsb_elem; eauto).
        rewrite Hu in H. specialize (H {| r_gate_key := "unsupported"; r_outcome := BLOCKED; r_reason := "unsupported gate evidence" |}).
        discriminate H. right. left. apply list_elem_of_singleton. done.
      * assert (existsb is_malformed items = true) as Hu by (apply existsb_elem; eauto).
        rewrite Hu in H. specialize (H {| r_gate_key := "malformed"; r_outcome := BLOCKED; r_reason := "invalid structured evidence" |}).
        discriminate H. right. right. apply list_elem_of_singleton. done.
    + intros rq Hrq. apply requirement_pass, H, elem_of_app. left. apply list_elem_of_fmap. eauto.
  - intros [_ Hi Hg] r Hr.
    rewrite (proj2 (existsb_elem_false is_unsupported items)), (proj2 (existsb_elem_false is_malformed items)), app_nil_r in Hr.
    2,3: intros item Hitem; by apply filed_iff, Hi.
    apply list_elem_of_fmap in Hr as (rq & -> & Hrq). by apply requirement_pass, Hg.
Qed.

(** C18 : the aggregate is PASS exactly when the specification of readiness
    holds: every registered gate has evidence, all of it bound to this task and
    candidate, well formed and without open follow-ups, and unanimous: PASS, or
    a justified not-applicable inside the isolated single-source boundary. *)
Theorem gates_pass_exact context evidence :
  d_outcome (decide_gates context evidence) = PASS ↔
  ∃ c items, context = Typed c ∧ evidence = Typed items ∧ gates_ready c items.
Proof.
  split.
  - destruct context as [c|]; [|done]. destruct evidence as [items|]; [intros H; exists c, items; by rewrite <- typed_pass|].
    unfold decide_gates. by destruct (is_well_formed_context c).
  - intros (c & items & -> & -> & H). by apply typed_pass.
Qed.

(** C25 : a decision depends only on the set of evidence records: neither their
    order nor repeated delivery of a record changes any gate's result. *)
Theorem gates_order_and_replay_irrelevant context items1 items2 :
  (∀ item, item ∈ items1 ↔ item ∈ items2) →
  decide_gates context (Typed items1) = decide_gates context (Typed items2).
Proof.
  intros H. unfold decide_gates. destruct context as [c|]; [|done].
  destruct (is_well_formed_context c); [|done]. cbn [negb].
  rewrite !(existsb_same _ _ _ H).
  assert (map (requirement_result c items1) GATE_REGISTRY = map (requirement_result c items2) GATE_REGISTRY) as ->
    by (apply map_ext; intros rq; by apply requirement_result_same).
  done.
Qed.

(** Acceptance and waiting are inherited by any part of the evidence. *)
Lemma unanimous_part c l1 l2 o : l1 ≠ [] → (∀ e, e ∈ l1 → e ∈ l2) → unanimous c l2 o → unanimous c l1 o.
Proof. intros Hn Hs [_ H]. split; [done|]. intros e He. by apply H, Hs. Qed.

Lemma open_part c rq l1 l2 : l1 ≠ [] → (∀ e, e ∈ l1 → e ∈ l2) →
  gate_accepted c rq l2 ∨ gate_waiting c l2 → gate_accepted c rq l1 ∨ gate_waiting c l1.
Proof.
  intros Hn Hs [[[H Hg]|(H & Hl & Hj)]|[H|H]].
  - left. left. split; [by eapply unanimous_part|done].
  - left. right. split_and!; [by eapply unanimous_part|done|]. intros e He. by apply Hj, Hs.
  - right. left. by eapply unanimous_part.
  - right. right. by eapply unanimous_part.
Qed.

Lemma requirement_blocked_stays c rq items1 items2 : (∀ i, i ∈ items1 → i ∈ items2) →
  r_outcome (requirement_result c items1 rq) = BLOCKED →
  r_outcome (requirement_result c items2 rq) = BLOCKED.
Proof.
  intros Hs. unfold requirement_result. set (key := GateKey_value (rq_key rq)).
  assert (∀ e, e ∈ grouped items1 key → e ∈ grouped items2 key) as Hg
    by (intros e; rewrite !grouped_elem; naive_solver).
  destruct (grouped items1 key) as [|e1 l1] eqn:E1; [done|].
  destruct (grouped items2 key) as [|e2 l2] eqn:E2.
  { exfalso. by apply (elem_of_nil (A:=GateEvidence) e1), Hg; left. }
  intros Hb. destruct (r_outcome (decide_requirement c rq (e2 :: l2))) eqn:Ho; [..|done]; exfalso.
  - apply decide_pass in Ho. destruct (open_part c rq (e1 :: l1) _ ltac:(done) Hg (or_introl Ho)) as [H|H].
    + apply decide_pass in H. congruence.
    + apply (decide_pending c rq) in H. congruence.
  - apply decide_pending in Ho. destruct (open_part c rq (e1 :: l1) _ ltac:(done) Hg (or_intror Ho)) as [H|H].
    + apply decide_pass in H. congruence.
    + apply (decide_pending c rq) in H. congruence.
Qed.

(** the decision fails closed: once some evidence blocks, no further
    evidence unblocks it. *)
Theorem blocked_gates_stay_blocked context items more :
  d_outcome (decide_gates context (Typed items)) = BLOCKED →
  d_outcome (decide_gates context (Typed (items ++ more))) = BLOCKED.
Proof.
  unfold decide_gates. destruct context as [c|]; [|done].
  destruct (is_well_formed_context c); [|done]. cbn [negb d_outcome].
  rewrite !(proj2 (aggregate_spec _)). setoid_rewrite elem_of_app. setoid_rewrite elem_of_app.
  rewrite !existsb_app. intros (r & [Hr|[Hr|Hr]] & Hb).
  - apply list_elem_of_fmap in Hr as (rq & -> & Hrq). exists (requirement_result c (items ++ more) rq).
    split; [left; apply list_elem_of_fmap; eauto|]. eapply requirement_blocked_stays; [|done].
    intros i Hi. apply elem_of_app. by left.
  - exists r. split; [|done]. right. left. destruct (existsb is_unsupported items); [done|by apply elem_of_nil in Hr].
  - exists r. split; [|done]. right. right. destruct (existsb is_malformed items); [done|by apply elem_of_nil in Hr].
Qed.

(** ** Concrete evidence *)

Definition sample_binding : RuntimeBinding :=
  {| schema_version := SCHEMA; resolved_digest := String.append "sha256:" (str_repeat "a" 64);
     worker_profile_identity := String.append "sha256:" (str_repeat "b" 64);
     supervisor_profile_identities := [String.append "sha256:" (str_repeat "c" 64)];
     review_complete_rounds := 0; review_max_rounds := 0; review_max_supervisor_attempts_per_round := 0;
     review_on_final_findings := ""; review_policy_digest := "" |}.

Definition sample_context : GateContext :=
  {| c_task_id := Typed "task-1"; c_candidate_sha := Typed (str_repeat "d" 40); source_count := Typed 1;
     isolated_local_task := Typed true; c_policy_digest := Typed (str_repeat "e" 64);
     c_receipt_fingerprint := Typed (str_repeat "f" 64); c_runtime_binding := Typed sample_binding;
     selected_supervisor_profile_identity := Typed (String.append "sha256:" (str_repeat "c" 64));
     dependency_graph_version_id := Typed None; dependency_graph_decision_digest := Typed None |}.

Definition sample_entry (key : GateKey) (o : EvidenceOutcome) : dyn GateEvidence :=
  Typed {| e_task_id := Typed "task-1"; e_candidate_sha := Typed (str_repeat "d" 40);
           gate_key := Typed (GateKey_value key); e_outcome := Typed (EvidenceOutcome_value o);
           evaluator_id := Typed "evaluator"; evaluated_at := Typed 7;
           evidence_fingerprint := Typed (str_repeat "1" 64); changed_boundary := Typed (Some "local");
           e_reason := Typed (Some "single source"); follow_ups := Typed [] |}.

Definition sample_evidence : list (dyn GateEvidence) :=
  map (λ rq, sample_entry (rq_key rq) (if permits_phase_two_local_na rq then NOT_APPLICABLE else E_PASS))
    GATE_REGISTRY.

Example sample_gates_pass :
  d_outcome (decide_gates (Typed sample_context) (Typed sample_evidence)) = PASS.
Proof. vm_compute. reflexivity. Qed.

Lemma gates_order_and_replay_irrelevant_witness :
  decide_gates (Typed sample_context) (Typed [sample_entry BUILD E_PASS; sample_entry POLICY FINDINGS])
  = decide_gates (Typed sample_context)
      (Typed [sample_entry POLICY FINDINGS; sample_entry BUILD E_PASS; sample_entry POLICY FINDINGS]).
Proof.
  apply (gates_order_and_replay_irrelevant (Typed sample_context)). intros item. rewrite !elem_of_cons, elem_of_nil. tauto.
Defined.

Lemma blocked_gates_stay_blocked_witness :
  d_outcome (decide_gates (Typed sample_context) (Typed ([sample_entry BUILD FINDINGS] ++ sample_evidence))) = BLOCKED.
Proof.
  apply (blocked_gates_stay_blocked (Typed sample_context) [sample_entry BUILD FINDINGS] sample_evidence).
  vm_compute. reflexivity.
Defined.
