(* ===== verification/DependencyReview.v ===== *)
(** * Dependency-review records (src/roundwright/dependency_review.py)

    The digest-only data of a dependency review: bindings, affected members and
    subsets, source-owned relations, proposed edges and proposals, with the
    checks of their constructors, their payloads and digests, and the strict
    parser of a provider's response.  The SQLite store of the file is not
    modelled. *)

From S2P Require Import Prelude Sha256 Json.

(** ** Vocabulary *)

Inductive EdgeKind := EXPLICIT | POLICY_DERIVED | SEMANTIC_INFERRED.
Inductive EdgeDirection := DEPENDS_ON | BLOCKS.
Inductive Confidence := HIGH | MEDIUM | LOW.
Inductive RequestedDisposition := AUTO_ACTIVATE | OWNER_REVIEW | REJECT.

#[export] Instance EdgeKind_eq_dec : EqDecision EdgeKind.
Proof. solve_decision. Defined.
#[export] Instance EdgeDirection_eq_dec : EqDecision EdgeDirection.
Proof. solve_decision. Defined.
#[export] Instance Confidence_eq_dec : EqDecision Confidence.
Proof. solve_decision. Defined.
#[export] Instance RequestedDisposition_eq_dec : EqDecision RequestedDisposition.
Proof. solve_decision. Defined.

Definition EdgeKind_value (k : EdgeKind) : string :=
  match k with EXPLICIT => "explicit" | POLICY_DERIVED => "policy-derived" | SEMANTIC_INFERRED => "semantic-inferred" end.
Definition EdgeDirection_value (d : EdgeDirection) : string :=
  match d with DEPENDS_ON => "depends-on" | BLOCKS => "blocks" end.
Definition Confidence_value (c : Confidence) : string :=
  match c with HIGH => "high" | MEDIUM => "medium" | LOW => "low" end.
Definition RequestedDisposition_value (d : RequestedDisposition) : string :=
  match d with AUTO_ACTIVATE => "auto-activate" | OWNER_REVIEW => "owner-review" | REJECT => "reject" end.

Definition EdgeKind_of : string → option EdgeKind :=
  of_value EdgeKind_value [EXPLICIT; POLICY_DERIVED; SEMANTIC_INFERRED].
Definition EdgeDirection_of : string → option EdgeDirection :=
  of_value EdgeDirection_value [DEPENDS_ON; BLOCKS].
Definition Confidence_of : string → option Confidence := of_value Confidence_value [HIGH; MEDIUM; LOW].
Definition RequestedDisposition_of : string → option RequestedDisposition :=
  of_value RequestedDisposition_value [AUTO_ACTIVATE; OWNER_REVIEW; REJECT].

(** The patterns [_TOKEN], [_REASON]. *)
Definition lower_digit (c : ascii) : bool := is_lower c || is_digit c.
Definition match_token : string → bool :=
  match_ident is_lower (λ c, lower_digit c || one_of "._/-" c) 127.
Definition match_reason : string → bool :=
  match_ident is_lower (λ c, lower_digit c || one_of "-" c) 63.

(** ** Records *)

Record DependencyReviewBinding := {
  rb_candidate_sha : string;
  rb_policy_digest : string;
  rb_configuration_digest : string;
  rb_profile_identity : string;
}.

Definition DependencyReviewBinding_post_init (b : DependencyReviewBinding) : py unit :=
  require (match_hex 40 (rb_candidate_sha b)
           && forallb match_digest [rb_policy_digest b; rb_configuration_digest b; rb_profile_identity b])
    DependencyReviewError "dependency review binding is invalid".

Record AffectedMember := {
  member_id : string;
  member_fingerprint : string;
  content_digest : string;
}.

#[export] Instance AffectedMember_eq_dec : EqDecision AffectedMember.
Proof. solve_decision. Defined.

Definition AffectedMember_post_init (m : AffectedMember) : py unit :=
  require (match_token (member_id m) && match_digest (member_fingerprint m) && match_digest (content_digest m))
    DependencyReviewError "affected subset member is invalid".

Definition member_items (m : AffectedMember) : list (string * json) :=
  [("member_id", JStr (member_id m)); ("member_fingerprint", JStr (member_fingerprint m));
   ("content_digest", JStr (content_digest m))].

Record AffectedSubset := {
  s_snapshot_id : string;
  s_task_id : string;
  s_source_digest : string;
  s_candidate_sha : string;
  s_policy_digest : string;
  s_configuration_digest : string;
  s_boundary_digest : string;
  s_creation_reason : string;
  s_members : list AffectedMember;
}.

(** The checks of the constructor; the members are then stored sorted. *)
Definition AffectedSubset_check (s : AffectedSubset) : py unit :=
  _ ← require (match_token (s_snapshot_id s) && match_token (s_task_id s) && match_hex 64 (s_source_digest s)
               && match_hex 40 (s_candidate_sha s)
               && forallb match_digest [s_policy_digest s; s_configuration_digest s; s_boundary_digest s]
               && match_reason (s_creation_reason s) && (s_members s !=? []))
        DependencyReviewError "affected subset is invalid";
  require (no_dup (member_id <$> s_members s) && no_dup (member_fingerprint <$> s_members s))
    DependencyReviewError "affected subset members are ambiguous".

Definition make_subset (s : AffectedSubset) : py AffectedSubset :=
  _ ← AffectedSubset_check s;
  Ok {| s_snapshot_id := s_snapshot_id s; s_task_id := s_task_id s; s_source_digest := s_source_digest s;
        s_candidate_sha := s_candidate_sha s; s_policy_digest := s_policy_digest s;
        s_configuration_digest := s_configuration_digest s; s_boundary_digest := s_boundary_digest s;
        s_creation_reason := s_creation_reason s;
        s_members := sorted_by (λ m, [member_id m]) (s_members s) |}.

Definition subset_payload (s : AffectedSubset) : json :=
  JObj [("schema", JStr "roundwright-dependency-review-subset/v1");
        ("snapshot_id", JStr (s_snapshot_id s)); ("task_id", JStr (s_task_id s));
        ("source_digest", JStr (s_source_digest s)); ("candidate_sha", JStr (s_candidate_sha s));
        ("policy_digest", JStr (s_policy_digest s));
        ("configuration_digest", JStr (s_configuration_digest s));
        ("boundary_digest", JStr (s_boundary_digest s)); ("creation_reason", JStr (s_creation_reason s));
        ("members", JArr (map (λ m, JObj (member_items m)) (s_members s)))].

Definition subset_content_digest (s : AffectedSubset) : string := digest_json (subset_payload s).

Definition review_require_subset (b : DependencyReviewBinding) (s : AffectedSubset) : py unit :=
  require ((s_candidate_sha s ==? rb_candidate_sha b) && (s_policy_digest s ==? rb_policy_digest b)
           && (s_configuration_digest s ==? rb_configuration_digest b))
    DependencyReviewError "dependency review binding has drifted".

Record SourceOwnedRelation := {
  sr_kind : EdgeKind;
  sr_direction : EdgeDirection;
  sr_subject_member_id : string;
  sr_object_member_id : string;
  sr_rationale_digest : string;
  sr_confidence : Confidence;
  sr_conflicts_digest : string;
}.

Definition SourceOwnedRelation_post_init (r : SourceOwnedRelation) : py unit :=
  require ((sr_kind r in? [EXPLICIT; POLICY_DERIVED]) && match_token (sr_subject_member_id r)
           && match_token (sr_object_member_id r) && (sr_subject_member_id r !=? sr_object_member_id r)
           && match_digest (sr_rationale_digest r) && match_digest (sr_conflicts_digest r))
    DependencyReviewError "source-owned relation is invalid".

Definition relation_items (r : SourceOwnedRelation) : list (string * json) :=
  [("kind", JStr (EdgeKind_value (sr_kind r))); ("direction", JStr (EdgeDirection_value (sr_direction r)));
   ("subject_member_id", JStr (sr_subject_member_id r)); ("object_member_id", JStr (sr_object_member_id r));
   ("rationale_digest", JStr (sr_rationale_digest r));
   ("confidence", JStr (Confidence_value (sr_confidence r)));
   ("conflicts_digest", JStr (sr_conflicts_digest r))].

Definition relation_digest (r : SourceOwnedRelation) : string :=
  digest_json (JObj (("schema", JStr "roundwright-source-owned-relation/v1") :: relation_items r)).

Record ProposedEdge := {
  pe_kind : EdgeKind;
  pe_direction : EdgeDirection;
  pe_subject_member_id : string;
  pe_object_member_id : string;
  pe_rationale_digest : string;
  pe_confidence : Confidence;
  pe_conflicts_digest : string;
  pe_trusted_relation_digest : option string;
}.

#[export] Instance ProposedEdge_eq_dec : EqDecision ProposedEdge.
Proof. solve_decision. Defined.

Definition ProposedEdge_post_init (e : ProposedEdge) : py unit :=
  require (match_token (pe_subject_member_id e) && match_token (pe_object_member_id e)
           && (pe_subject_member_id e !=? pe_object_member_id e) && match_digest (pe_rationale_digest e)
           && match_digest (pe_conflicts_digest e)
           && match pe_trusted_relation_digest e with Some d => match_digest d | None => true end
           && negb ((pe_kind e ==? SEMANTIC_INFERRED) && (pe_trusted_relation_digest e !=? None)))
    DependencyReviewError "dependency proposal edge is invalid".

Definition edge_payload (e : ProposedEdge) : json :=
  JObj [("kind", JStr (EdgeKind_value (pe_kind e))); ("direction", JStr (EdgeDirection_value (pe_direction e)));
        ("subject_member_id", JStr (pe_subject_member_id e)); ("object_member_id", JStr (pe_object_member_id e));
        ("rationale_digest", JStr (pe_rationale_digest e));
        ("confidence", JStr (Confidence_value (pe_confidence e)));
        ("conflicts_digest", JStr (pe_conflicts_digest e));
        ("trusted_relation_digest", jopt (pe_trusted_relation_digest e))].

Record DependencyProposal := {
  proposal_id : string;
  attempt_id : string;
  requested_disposition : RequestedDisposition;
  owner_route : string;
  p_edges : list ProposedEdge;
}.

#[export] Instance DependencyProposal_eq_dec : EqDecision DependencyProposal.
Proof. solve_decision. Defined.

Definition DependencyProposal_post_init (p : DependencyProposal) : py unit :=
  _ ← require (match_token (proposal_id p) && match_token (attempt_id p) && match_reason (owner_route p)
               && (p_edges p !=? []))
        DependencyReviewError "dependency proposal is invalid";
  _ ← require (no_dup ((λ e, (pe_kind e, pe_direction e, pe_subject_member_id e, pe_object_member_id e)) <$> p_edges p))
        DependencyReviewError "dependency proposal contains duplicate edges";
  let semantic := existsb (λ e, pe_kind e ==? SEMANTIC_INFERRED) (p_edges p) in
  _ ← require (negb (semantic && ((requested_disposition p !=? OWNER_REVIEW) || (owner_route p !=? "owner-review"))))
        DependencyReviewError "semantic inferred edge requires owner routing";
  require (negb (negb semantic && (requested_disposition p ==? OWNER_REVIEW) && (owner_route p !=? "owner-review")))
    DependencyReviewError "owner review proposal has no owner route".

Definition proposal_payload (p : DependencyProposal) : json :=
  JObj [("schema", JStr "roundwright-dependency-review-proposal/v2");
        ("proposal_id", JStr (proposal_id p)); ("attempt_id", JStr (attempt_id p));
        ("requested_disposition", JStr (RequestedDisposition_value (requested_disposition p)));
        ("owner_route", JStr (owner_route p)); ("edges", JArr (map edge_payload (p_edges p)))].

Definition proposal_digest (p : DependencyProposal) : string := digest_json (proposal_payload p).

(** ** Parsing a provider's response

    Every exception of the body is turned into one error, so the body is a
    partial function.  [edge["kind"]] and the like read a dict. *)

Definition edge_keys : list string :=
  ["kind"; "direction"; "subject_member_id"; "object_member_id"; "rationale_digest"; "confidence";
   "conflicts_digest"; "trusted_relation_digest"].

Definition proposal_keys : list string :=
  ["schema"; "proposal_id"; "attempt_id"; "requested_disposition"; "owner_route"; "edges"].

Definition parse_edge (j : json) : option ProposedEdge :=
  match j with
  | JObj d =>
      if same_elements d.*1 edge_keys then
        kind ← str_field "kind" d ≫= EdgeKind_of;
        direction ← str_field "direction" d ≫= EdgeDirection_of;
        subject ← str_field "subject_member_id" d;
        object ← str_field "object_member_id" d;
        rationale ← str_field "rationale_digest" d;
        confidence ← str_field "confidence" d ≫= Confidence_of;
        conflicts ← str_field "conflicts_digest" d;
        trusted ← optional_str_field "trusted_relation_digest" d;
        let e := {| pe_kind := kind; pe_direction := direction; pe_subject_member_id := subject;
                    pe_object_member_id := object; pe_rationale_digest := rationale;
                    pe_confidence := confidence; pe_conflicts_digest := conflicts;
                    pe_trusted_relation_digest := trusted |} in
        if is_ok (ProposedEdge_post_init e) then Some e else None
      else None
  | _ => None
  end.

(** [proposal.payload() != material] compares dicts; values with the same
    canonical text are equal ([Json.dumps_inj]). *)
Definition parse_body (material : json) : option DependencyProposal :=
  match material with
  | JObj d =>
      if same_elements d.*1 proposal_keys then
        schema ← str_field "schema" d;
        if schema ==? "roundwright-dependency-review-proposal/v2" then
          match field "edges" d with
          | Some (JArr items) =>
              edges ← mapM parse_edge items;
              pid ← str_field "proposal_id" d;
              aid ← str_field "attempt_id" d;
              disposition ← str_field "requested_disposition" d ≫= RequestedDisposition_of;
              route ← str_field "owner_route" d;
              let p := {| proposal_id := pid; attempt_id := aid; requested_disposition := disposition;
                          owner_route := route; p_edges := edges |} in
              if is_ok (DependencyProposal_post_init p) && (dumps (proposal_payload p) ==? dumps material)
              then Some p else None
          | _ => None
          end
        else None
      else None
  | _ => None
  end.

Definition DependencyProposal_parse (material : json) : py DependencyProposal :=
  match parse_body material with
  | Some p => Ok p
  | None => raise DependencyReviewError "dependency proposal response is malformed"
  end.

(** ** Round trip *)

(** A proposal whose constructors all succeeded. *)
Definition proposal_constructed (p : DependencyProposal) : Prop :=
  DependencyProposal_post_init p = Ok () ∧ ∀ e, e ∈ p_edges p → ProposedEdge_post_init e = Ok ().

Lemma parse_edge_payload e : ProposedEdge_post_init e = Ok () → parse_edge (edge_payload e) = Some e.
Proof.
  intros He. unfold parse_edge, edge_payload. change (same_elements _ _) with true. cbv match.
  destruct e as [k d s o r c cf t]. cbn [pe_kind pe_direction pe_subject_member_id pe_object_member_id
    pe_rationale_digest pe_confidence pe_conflicts_digest pe_trusted_relation_digest] in *.
  apply is_ok_unit in He. destruct k, d, c, t;
    match goal with |- _ = Some ?e =>
      change ((if is_ok (ProposedEdge_post_init e) then Some e else None) = Some e) end; by rewrite He.
Qed.

Lemma parse_edge_constructed j e : parse_edge j = Some e → ProposedEdge_post_init e = Ok ().
Proof.
  unfold parse_edge. destruct j as [| | | | |d]; try done. destruct (same_elements _ _); [|done].
  repeat (intros (? & _ & H)%bind_Some; revert H).
  destruct (is_ok _) eqn:E; [|done]. intros [= <-]. by apply is_ok_unit.
Qed.

(** C27 : the strict parser accepts exactly the payloads of constructed
    proposals: parsing a payload gives the proposal back, and what parses is a
    constructed proposal whose payload has the parsed material's canonical
    text. *)
Theorem proposal_parse_roundtrip :
  (∀ p, proposal_constructed p → DependencyProposal_parse (proposal_payload p) = Ok p)
  ∧ (∀ material p, DependencyProposal_parse material = Ok p →
     proposal_constructed p ∧ dumps (proposal_payload p) = dumps material).
Proof.
  split.
  - intros p [Hp He]. unfold DependencyProposal_parse, parse_body, proposal_payload at 1.
    change (same_elements _ _) with true. cbv match.
    change (str_field "schema" _) with (Some "roundwright-dependency-review-proposal/v2").
    cbn [mbind option_bind]. rewrite bool_decide_eq_true_2 by done.
    change (field "edges" _) with (Some (JArr (map edge_payload (p_edges p)))). cbv match.
    assert (mapM parse_edge (map edge_payload (p_edges p)) = Some (p_edges p)) as ->.
    { apply mapM_Some. apply Forall2_fmap_l, Forall2_same_length_lookup_2; [done|].
      intros i x y Hx Hy. simplify_eq. apply parse_edge_payload, He. by eapply list_elem_of_lookup_2. }
    cbn [mbind option_bind].
    change (str_field "requested_disposition" _) with (Some (RequestedDisposition_value (requested_disposition p))).
    change (str_field "proposal_id" _) with (Some (proposal_id p)).
    change (str_field "attempt_id" _) with (Some (attempt_id p)).
    change (str_field "owner_route" _) with (Some (owner_route p)). cbn [mbind option_bind].
    replace (RequestedDisposition_of _) with (Some (requested_disposition p)) by by destruct (requested_disposition p).
    cbn [mbind option_bind]. replace ({| proposal_id := _ |}) with p by by destruct p.
    rewrite Hp. by rewrite bool_decide_eq_true_2.
  - intros material p. unfold DependencyProposal_parse. destruct (parse_body material) as [q|] eqn:E; [|done].
    intros [= ->]. unfold parse_body in E. destruct material as [| | | | |d]; try done.
    destruct (same_elements _ _); [|done]. apply bind_Some in E as (schema & _ & E).
    destruct (bool_decide _); [|done]. destruct (field "edges" d) as [[| | | |items|]|]; try done.
    apply bind_Some in E as (edges & Hed & E).
    repeat (apply bind_Some in E as (? & _ & E)).
    destruct (is_ok _) eqn:Ep; [|done]. cbn [andb] in E. case_bool_decide as Hd; [|done]. injection E as <-.
    split; [|done]. split; [by apply is_ok_unit|]. intros e He. cbn in He.
    apply mapM_Some in Hed. apply list_elem_of_lookup in He as [i Hi].
    destruct (Forall2_lookup_r _ _ _ _ _ Hed Hi) as (j & _ & Hj). by eapply parse_edge_constructed.
Qed.
