(* ===== verification/DependencyGraph.v ===== *)
(** * Dependency graph (src/roundwright/dependency_graph.py)

    Validation of one proposed change against the active graph, the graph that
    follows from it, and the cycle search.  A graph version is a snapshot; the
    store's transaction writes the snapshot [next_snapshot] builds and reads it
    back with its version and binding.  The recursion limit of the interpreter
    is not modelled: the search runs on fuel that is proved sufficient. *)

From stdpp Require Import relations.
From S2P Require Import Prelude Sha256 Json DependencyReview.

Inductive GraphDecision := ACCEPTED | PENDING_OWNER | REJECTED.

#[export] Instance GraphDecision_eq_dec : EqDecision GraphDecision.
Proof. solve_decision. Defined.

Definition GraphDecision_value (d : GraphDecision) : string :=
  match d with ACCEPTED => "accepted" | PENDING_OWNER => "pending-owner" | REJECTED => "rejected" end.

Definition VALIDATOR_DIGEST : string :=
  Eval vm_compute in String.append "sha256:" (sha256_hex "roundwright-dependency-graph-validator/v1").

(** ** Bindings *)

Record DependencyGraphBinding := {
  b_candidate_sha : string;
  b_policy_digest : string;
  b_configuration_digest : string;
  b_validator_digest : string;
}.

#[export] Instance DependencyGraphBinding_eq_dec : EqDecision DependencyGraphBinding.
Proof. solve_decision. Defined.

Definition DependencyGraphBinding_post_init (b : DependencyGraphBinding) : py unit :=
  require (match_hex 40 (b_candidate_sha b)
           && forallb match_digest [b_policy_digest b; b_configuration_digest b; b_validator_digest b])
    DependencyGraphError "dependency graph binding is invalid".

Definition from_review_binding (b : DependencyReviewBinding) (validator_digest : string) : py DependencyGraphBinding :=
  let g := {| b_candidate_sha := rb_candidate_sha b; b_policy_digest := rb_policy_digest b;
              b_configuration_digest := rb_configuration_digest b; b_validator_digest := validator_digest |} in
  _ ← DependencyGraphBinding_post_init g;
  Ok g.

Definition require_subset (b : DependencyGraphBinding) (s : AffectedSubset) : py unit :=
  require ((s_candidate_sha s ==? b_candidate_sha b) && (s_policy_digest s ==? b_policy_digest b)
           && (s_configuration_digest s ==? b_configuration_digest b))
    DependencyGraphError "dependency graph binding has drifted".

(** ** Trusted provenance *)

Record TrustedEdgeProvenance := {
  t_kind : EdgeKind;
  t_direction : EdgeDirection;
  t_subject_member_id : string;
  t_object_member_id : string;
  t_rationale_digest : string;
  t_confidence : string;
  t_conflicts_digest : string;
  t_candidate_sha : string;
  t_policy_digest : string;
  t_configuration_digest : string;
  t_source_digest : string;
  t_subject_member_fingerprint : string;
  t_object_member_fingerprint : string;
  t_provenance_digest : string;
}.

Definition provenance_payload (t : TrustedEdgeProvenance) : json :=
  JObj [("kind", JStr (EdgeKind_value (t_kind t))); ("direction", JStr (EdgeDirection_value (t_direction t)));
        ("subject_member_id", JStr (t_subject_member_id t)); ("object_member_id", JStr (t_object_member_id t));
        ("rationale_digest", JStr (t_rationale_digest t)); ("confidence", JStr (t_confidence t));
        ("conflicts_digest", JStr (t_conflicts_digest t)); ("candidate_sha", JStr (t_candidate_sha t));
        ("policy_digest", JStr (t_policy_digest t)); ("configuration_digest", JStr (t_configuration_digest t));
        ("source_digest", JStr (t_source_digest t));
        ("subject_member_fingerprint", JStr (t_subject_member_fingerprint t));
        ("object_member_fingerprint", JStr (t_object_member_fingerprint t))].

Definition TrustedEdgeProvenance_post_init (t : TrustedEdgeProvenance) : py unit :=
  require ((t_kind t in? [EXPLICIT; POLICY_DERIVED]) && match_token (t_subject_member_id t)
           && match_token (t_object_member_id t) && match_digest (t_rationale_digest t)
           && (t_confidence t in? ["high"; "medium"; "low"]) && match_digest (t_conflicts_digest t)
           && match_hex 40 (t_candidate_sha t) && match_digest (t_policy_digest t)
           && match_digest (t_configuration_digest t)
           && (match_hex 64 (t_source_digest t) || match_digest (t_source_digest t))
           && match_digest (t_subject_member_fingerprint t) && match_digest (t_object_member_fingerprint t)
           && match_digest (t_provenance_digest t)
           && (t_provenance_digest t ==? digest_json (provenance_payload t)))
    DependencyGraphError "trusted edge provenance is invalid".

(** The class called with the digest of its own material. *)
Definition make_provenance (kind : EdgeKind) (direction : EdgeDirection) (subject object rationale confidence
    conflicts : string) (b : DependencyGraphBinding) (source subject_fp object_fp : string) :
    py TrustedEdgeProvenance :=
  let t digest :=
    {| t_kind := kind; t_direction := direction; t_subject_member_id := subject; t_object_member_id := object;
       t_rationale_digest := rationale; t_confidence := confidence; t_conflicts_digest := conflicts;
       t_candidate_sha := b_candidate_sha b; t_policy_digest := b_policy_digest b;
       t_configuration_digest := b_configuration_digest b; t_source_digest := source;
       t_subject_member_fingerprint := subject_fp; t_object_member_fingerprint := object_fp;
       t_provenance_digest := digest |} in
  let full := t (digest_json (provenance_payload (t ""))) in
  _ ← TrustedEdgeProvenance_post_init full;
  Ok full.

(** [{member.member_id: member for member in subset.members}[id]] *)
Definition member_of (s : AffectedSubset) (id : string) : option AffectedMember :=
  assoc id (map (λ m, (member_id m, m)) (rev (s_members s))).

Definition from_explicit_source (s : AffectedSubset) (b : DependencyGraphBinding) (kind : EdgeKind)
    (direction : EdgeDirection) (subject object rationale confidence conflicts : string) :
    py TrustedEdgeProvenance :=
  _ ← require (kind ==? EXPLICIT) DependencyGraphError "trusted edge provenance is invalid";
  match member_of s subject, member_of s object with
  | Some ms, Some mo =>
      make_provenance kind direction subject object rationale confidence conflicts b (s_source_digest s)
        (member_fingerprint ms) (member_fingerprint mo)
  | _, _ => raise DependencyGraphError "trusted edge provenance is invalid"
  end.

Definition from_deterministic_policy (s : AffectedSubset) (b : DependencyGraphBinding)
    (direction : EdgeDirection) (subject object rationale confidence conflicts : string) :
    py TrustedEdgeProvenance :=
  match member_of s subject, member_of s object with
  | Some ms, Some mo =>
      make_provenance POLICY_DERIVED direction subject object rationale confidence conflicts b (b_policy_digest b)
        (member_fingerprint ms) (member_fingerprint mo)
  | _, _ => raise DependencyGraphError "trusted edge provenance is invalid"
  end.

(** ** Graphs *)

Record GraphEdge := {
  g_subject_member_id : string;
  g_object_member_id : string;
  g_kind : EdgeKind;
  g_proposal_id : string;
  g_provenance_digest : string;
}.

#[export] Instance GraphEdge_eq_dec : EqDecision GraphEdge.
Proof. solve_decision. Defined.

Definition GraphEdge_post_init (e : GraphEdge) : py unit :=
  require (match_token (g_subject_member_id e) && match_token (g_object_member_id e)
           && (g_subject_member_id e !=? g_object_member_id e) && (g_kind e in? [EXPLICIT; POLICY_DERIVED])
           && match_token (g_proposal_id e) && match_digest (g_provenance_digest e))
    DependencyGraphError "dependency graph edge is invalid".

Definition make_edge (subject object : string) (kind : EdgeKind) (proposal provenance : string) : py GraphEdge :=
  let e := {| g_subject_member_id := subject; g_object_member_id := object; g_kind := kind;
              g_proposal_id := proposal; g_provenance_digest := provenance |} in
  _ ← GraphEdge_post_init e;
  Ok e.

Definition graph_edge_payload (e : GraphEdge) : json :=
  JObj [("subject_member_id", JStr (g_subject_member_id e)); ("object_member_id", JStr (g_object_member_id e));
        ("kind", JStr (EdgeKind_value (g_kind e))); ("proposal_id", JStr (g_proposal_id e));
        ("provenance_digest", JStr (g_provenance_digest e))].

Record GraphMember := { m_task_id : string; m_snapshot_id : string; m_member : AffectedMember }.

Definition GraphMember_post_init (m : GraphMember) : py unit :=
  require (match_token (m_task_id m) && match_token (m_snapshot_id m))
    DependencyGraphError "dependency graph member is invalid".

Definition make_member (task snapshot : string) (m : AffectedMember) : py GraphMember :=
  let g := {| m_task_id := task; m_snapshot_id := snapshot; m_member := m |} in
  _ ← GraphMember_post_init g;
  Ok g.

Definition graph_member_payload (m : GraphMember) : json :=
  JObj (("task_id", JStr (m_task_id m)) :: ("snapshot_id", JStr (m_snapshot_id m)) :: member_items (m_member m)).

Record GraphSnapshot := {
  graph_version_id : option string;
  gs_binding : option DependencyGraphBinding;
  gs_members : list GraphMember;
  gs_edges : list GraphEdge;
  gs_proposal_ids : list string;
}.

Definition mid (m : GraphMember) : string := member_id (m_member m).

Definition GraphSnapshot_post_init (s : GraphSnapshot) : py unit :=
  _ ← require (match graph_version_id s with Some v => match_token v | None => true end)
        DependencyGraphError "dependency graph snapshot is invalid";
  _ ← require (Bool.eqb (graph_version_id s ==? None) (gs_binding s ==? None))
        DependencyGraphError "dependency graph snapshot is invalid";
  require (no_dup (mid <$> gs_members s) && no_dup (gs_proposal_ids s))
    DependencyGraphError "dependency graph snapshot is invalid".

Definition make_snapshot (v : option string) (b : option DependencyGraphBinding) (ms : list GraphMember)
    (es : list GraphEdge) (ps : list string) : py GraphSnapshot :=
  let s := {| graph_version_id := v; gs_binding := b; gs_members := ms; gs_edges := es; gs_proposal_ids := ps |} in
  _ ← GraphSnapshot_post_init s;
  Ok s.

Definition empty_snapshot : GraphSnapshot :=
  {| graph_version_id := None; gs_binding := None; gs_members := []; gs_edges := []; gs_proposal_ids := [] |}.

Definition graph_digest (s : GraphSnapshot) : string :=
  digest_json (JObj
    [("members", JArr (map graph_member_payload (sorted_by (λ m, [mid m]) (gs_members s))));
     ("edges", JArr (map graph_edge_payload
        (sorted_by (λ e, [g_subject_member_id e; g_object_member_id e; EdgeKind_value (g_kind e); g_proposal_id e])
           (gs_edges s))))]).

Definition proposal_set_digest (s : GraphSnapshot) : string :=
  digest_json (JObj [("proposal_ids", jstrs (sorted_by (λ p, [p]) (gs_proposal_ids s)))]).

Record GraphValidation := { v_decision : GraphDecision; v_reason_code : string; v_edges : list GraphEdge }.

Definition make_validation (d : GraphDecision) (reason : string) (edges : list GraphEdge) : py GraphValidation :=
  _ ← require (match_reason reason) DependencyGraphError "dependency graph decision is invalid";
  _ ← require ((d ==? ACCEPTED) || (edges ==? [])) DependencyGraphError
        "non-accepted graph decision cannot contain edges";
  Ok {| v_decision := d; v_reason_code := reason; v_edges := edges |}.

Definition validation_digest (v : GraphValidation) (p : DependencyProposal) (s : AffectedSubset)
    (b : DependencyGraphBinding) : string :=
  digest_json (JObj
    [("proposal_digest", JStr (proposal_digest p)); ("subset_digest", JStr (subset_content_digest s));
     ("validator_digest", JStr (b_validator_digest b)); ("policy_digest", JStr (b_policy_digest b));
     ("candidate_sha", JStr (b_candidate_sha b)); ("configuration_digest", JStr (b_configuration_digest b));
     ("decision", JStr (GraphDecision_value (v_decision v))); ("reason_code", JStr (v_reason_code v));
     ("edges", JArr (map graph_edge_payload (v_edges v)))]).

Definition decision_digest (v : GraphValidation) (p : DependencyProposal) (s : AffectedSubset)
    (b : DependencyGraphBinding) (version predecessor digest : option string) : string :=
  digest_json (JObj [("validation", JStr (validation_digest v p s b)); ("graph_version_id", jopt version);
                     ("predecessor_graph_version_id", jopt predecessor); ("graph_digest", jopt digest)]).

(** ** Cycles *)

(** [adjacency.setdefault(subject, set()).add(object); adjacency.setdefault(object, set())] *)
Definition setdefault_add (k : string) (new : list string) (adj : list (string * list string)) :
    list (string * list string) :=
  match assoc k adj with
  | Some _ => map (λ kv, if kv.1 ==? k then (kv.1, kv.2 ++ new) else kv) adj
  | None => adj ++ [(k, new)]
  end.

Definition adjacency (edges : list GraphEdge) : list (string * list string) :=
  foldl (λ adj e, setdefault_add (g_object_member_id e) []
                    (setdefault_add (g_subject_member_id e) [g_object_member_id e] adj)) [] edges.

(** [any(visit(n) for n in nodes)], threading the visited set. *)
Fixpoint any_visit (visit : list string → string → option (bool * list string)) (visited : list string)
    (nodes : list string) : option (bool * list string) :=
  match nodes with
  | [] => Some (false, visited)
  | n :: nodes =>
      r ← visit visited n;
      if r.1 : bool then Some r else any_visit visit r.2 nodes
  end.

(** [visit]; [visiting] is restored on return, so it is a parameter. *)
Fixpoint visit (fuel : nat) (adj : list (string * list string)) (visiting visited : list string) (node : string) :
    option (bool * list string) :=
  match fuel with
  | O => None
  | S fuel =>
      if node in? visiting then Some (true, visited)
      else if node in? visited then Some (false, visited)
      else
        r ← any_visit (visit fuel adj (node :: visiting)) visited (default [] (assoc node adj));
        Some (r.1, node :: r.2)
  end.

(** The search; [None] when the fuel does not suffice. *)
Definition cycle_search (edges : list GraphEdge) : option bool :=
  let adj := adjacency edges in
  fst <$> any_visit (visit (S (length adj)) adj []) [] adj.*1.

Definition has_cycle (edges : list GraphEdge) : bool := default true (cycle_search edges).

(** ** The next graph *)

Definition replacement_baseline (active : GraphSnapshot) (s : AffectedSubset) (b : DependencyGraphBinding) :
    py GraphSnapshot :=
  if gs_binding active !=? Some b then make_snapshot None None [] [] []
  else
    let replaced := mid <$> List.filter (λ m, m_task_id m ==? s_task_id s) (gs_members active) in
    let members := List.filter (λ m, negb (mid m in? replaced)) (gs_members active) in
    let edges := List.filter (λ e, negb (g_subject_member_id e in? replaced) && negb (g_object_member_id e in? replaced))
                   (gs_edges active) in
    let retained := sorted_by (λ p, [p]) (remove_dups (g_proposal_id <$> edges)) in
    make_snapshot None None members edges retained.

Definition edge_key (e : GraphEdge) : list string :=
  [g_subject_member_id e; g_object_member_id e; EdgeKind_value (g_kind e)].

Definition next_snapshot (active : GraphSnapshot) (s : AffectedSubset) (edges : list GraphEdge) (pid : string)
    (b : DependencyGraphBinding) : py GraphSnapshot :=
  baseline ← replacement_baseline active s b;
  let old := gs_members baseline in
  let replaced := mid <$> List.filter (λ m, m_task_id m ==? s_task_id s) old in
  added ← mapM (make_member (s_task_id s) (s_snapshot_id s)) (s_members s);
  let members := List.filter (λ m, negb (mid m in? replaced)) old ++ added in
  make_snapshot None None (sorted_by (λ m, [mid m]) members)
    (sorted_by edge_key (gs_edges baseline ++ edges))
    (sorted_by (λ p, [p]) (gs_proposal_ids baseline ++ [pid])).

(** ** Validation *)

Definition pair_of (e : GraphEdge) : string * string := (g_subject_member_id e, g_object_member_id e).

(** The canonical direction: the subject depends on the object. *)
Definition canonical_pair (e : ProposedEdge) : string * string :=
  match pe_direction e with
  | DEPENDS_ON => (pe_subject_member_id e, pe_object_member_id e)
  | BLOCKS => (pe_object_member_id e, pe_subject_member_id e)
  end.

Definition structural_kind (k : EdgeKind) : EdgeKind :=
  if k in? [EXPLICIT; POLICY_DERIVED] then k else EXPLICIT.

Definition structural_edges (p : DependencyProposal) : py (list GraphEdge) :=
  mapM (λ e, let '(s, o) := canonical_pair e in
             make_edge s o (structural_kind (pe_kind e)) (proposal_id p)
               (String.append "sha256:" (str_repeat "0" 64))) (p_edges p).

(** The trusted relations by digest; a later one replaces an earlier one. *)
Definition relation_of (t : TrustedEdgeProvenance) : py SourceOwnedRelation :=
  match Confidence_of (t_confidence t) with
  | None => raise ValueError "not a valid Confidence"
  | Some c =>
      let r := {| sr_kind := t_kind t; sr_direction := t_direction t; sr_subject_member_id := t_subject_member_id t;
                  sr_object_member_id := t_object_member_id t; sr_rationale_digest := t_rationale_digest t;
                  sr_confidence := c; sr_conflicts_digest := t_conflicts_digest t |} in
      _ ← SourceOwnedRelation_post_init r;
      Ok r
  end.

Definition proofs_of (provenance : list TrustedEdgeProvenance) : py (list (string * TrustedEdgeProvenance)) :=
  ps ← mapM (λ t, r ← relation_of t; Ok (relation_digest r, t)) provenance;
  Ok (rev ps).

Definition proof_matches (s : AffectedSubset) (b : DependencyGraphBinding) (e : ProposedEdge)
    (t : TrustedEdgeProvenance) : bool :=
  let expected_source := if pe_kind e ==? EXPLICIT then s_source_digest s else b_policy_digest b in
  (t_kind t ==? pe_kind e) && (t_direction t ==? pe_direction e)
  && (t_subject_member_id t ==? pe_subject_member_id e) && (t_object_member_id t ==? pe_object_member_id e)
  && (t_rationale_digest t ==? pe_rationale_digest e) && (t_confidence t ==? Confidence_value (pe_confidence e))
  && (t_conflicts_digest t ==? pe_conflicts_digest e)
  && (t_candidate_sha t ==? b_candidate_sha b) && (t_policy_digest t ==? b_policy_digest b)
  && (t_configuration_digest t ==? b_configuration_digest b) && (t_source_digest t ==? expected_source)
  && (Some (t_subject_member_fingerprint t) ==? (member_fingerprint <$> member_of s (pe_subject_member_id e)))
  && (Some (t_object_member_fingerprint t) ==? (member_fingerprint <$> member_of s (pe_object_member_id e))).

(** One iteration of the loop over the proposed edges: the canonical edge, or
    the reason of the rejection. *)
Definition canonical_edge (p : DependencyProposal) (s : AffectedSubset) (b : DependencyGraphBinding)
    (proofs : list (string * TrustedEdgeProvenance)) (e : ProposedEdge) : py (string + GraphEdge) :=
  if negb (pe_kind e in? [EXPLICIT; POLICY_DERIVED]) then Ok (inl "edge-kind-not-verifiable")
  else
    let '(subject, object) := canonical_pair e in
    match pe_trusted_relation_digest e with
    | None => Ok (inl "provenance-identity-unavailable")
    | Some d =>
        match assoc d proofs with
        | None => Ok (inl "provenance-unavailable")
        | Some t =>
            if negb (proof_matches s b e t) then Ok (inl "provenance-unavailable")
            else g ← make_edge subject object (pe_kind e) (proposal_id p) (t_provenance_digest t); Ok (inr g)
        end
    end.

Fixpoint canonical_edges (p : DependencyProposal) (s : AffectedSubset) (b : DependencyGraphBinding)
    (proofs : list (string * TrustedEdgeProvenance)) (es : list ProposedEdge) : py (string + list GraphEdge) :=
  match es with
  | [] => Ok (inr [])
  | e :: es =>
      r ← canonical_edge p s b proofs e;
      match r with
      | inl why => Ok (inl why)
      | inr g =>
          rs ← canonical_edges p s b proofs es;
          Ok (match rs with inl why => inl why | inr gs => inr (g :: gs) end)
      end
  end.

Definition shares_pair (l1 l2 : list (string * string)) : bool := existsb (λ x, x in? l2) l1.

Definition reject (why : string) : py GraphValidation := make_validation REJECTED why [].

(** The part of [validate] after the structural checks. *)
Definition validate_provenance (p : DependencyProposal) (s : AffectedSubset) (b : DependencyGraphBinding)
    (prior : GraphSnapshot) (provenance : list TrustedEdgeProvenance) : py GraphValidation :=
  proofs ← proofs_of provenance;
  r ← canonical_edges p s b proofs (p_edges p);
  match r with
  | inl why => reject why
  | inr canonical =>
      if negb (no_dup (pair_of <$> canonical)) then reject "duplicate-or-conflicting-edge"
      else if shares_pair (pair_of <$> canonical) (pair_of <$> gs_edges prior) then
        reject "duplicate-or-conflicting-edge"
      else if has_cycle (gs_edges prior ++ canonical) then reject "cycle-detected"
      else make_validation ACCEPTED "graph-valid" (sorted_by edge_key canonical)
  end.

(** [DependencyGraphValidator.validate] on arguments of the declared classes. *)
Definition validate (p : DependencyProposal) (s : AffectedSubset) (b : DependencyGraphBinding)
    (active : GraphSnapshot) (provenance : list TrustedEdgeProvenance) : py GraphValidation :=
  _ ← require_subset b s;
  let active :=
    if (gs_binding active !=? None) && (gs_binding active !=? Some b) then empty_snapshot else active in
  let proposed := flat_map (λ e, [pe_subject_member_id e; pe_object_member_id e]) (p_edges p) in
  if negb (same_elements proposed (member_id <$> s_members s)) then reject "affected-subset-incomplete"
  else
    prior ← replacement_baseline active s b;
    let pairs := canonical_pair <$> p_edges p in
    if negb (no_dup pairs) || shares_pair pairs (pair_of <$> gs_edges prior) then
      reject "duplicate-or-conflicting-edge"
    else
      structural ← structural_edges p;
      if has_cycle (gs_edges prior ++ structural) then reject "cycle-detected"
      else if requested_disposition p ==? REJECT then reject "proposal-rejected"
      else if (requested_disposition p ==? OWNER_REVIEW)
              || existsb (λ e, pe_kind e ==? SEMANTIC_INFERRED) (p_edges p) then
        make_validation PENDING_OWNER "owner-decision-required" []
      else if (requested_disposition p !=? AUTO_ACTIVATE) || (owner_route p !=? "not-required") then
        reject "invalid-disposition"
      else validate_provenance p s b prior provenance.

(** ** The search decides acyclicity *)

(** The dependency relation of a list of edges. *)
Definition depends (edges : list GraphEdge) (x y : string) : Prop := (x, y) ∈ pair_of <$> edges.

Definition cyclic (edges : list GraphEdge) : Prop := ∃ x, tc (depends edges) x x.

Lemma tc_impl {A} (R R' : relation A) x y : (∀ a b, R a b → R' a b) → tc R x y → tc R' x y.
Proof. intros H. induction 1; [apply tc_once|eapply tc_l]; eauto. Qed.

Lemma tc_last {A} (R : relation A) x y : tc R x y → ∃ z, R z y.
Proof. induction 1; eauto. Qed.

Section search.
Context (adj : list (string * list string)).

Definition succ (x : string) : list string := default [] (assoc x adj).
Definition arc (x y : string) : Prop := y ∈ succ x.

Context (nodes_closed : ∀ x y, arc x y → y ∈ adj.*1).

(** A finished part of the graph: closed under arcs and free of cycles. *)
Record finished (V : list string) : Prop := {
  fin_closed : ∀ x y, x ∈ V → arc x y → y ∈ V;
  fin_acyclic : ∀ x, x ∈ V → ¬ tc arc x x;
}.

Lemma finished_tc V x y : finished V → x ∈ V → tc arc x y → y ∈ V.
Proof. intros HV Hx Ht. induction Ht as [x y Ha|x y z Ha _ IH]; [by eapply HV|]. by eapply IH, HV. Qed.

Lemma finished_cons V x : finished V → x ∉ V → (∀ y, arc x y → y ∈ V) → finished (x :: V).
Proof.
  intros HV Hx Hs. split.
  - intros a b [->|Ha]%elem_of_cons Hab; right; [by apply Hs|by eapply HV].
  - intros a [->|Ha]%elem_of_cons Ht; [|by eapply HV].
    apply Hx. inversion Ht as [? ? Ha|? z ? Ha Hz]; subst; [by apply Hs|].
    eapply finished_tc; [done| |done]. by apply Hs.
Qed.

(** The state of a call: the stack reaches the node, and the finished part
    avoids the stack. *)
Record call_pre (P V : list string) (node : string) : Prop := {
  cp_stack : NoDup P;
  cp_nodes : ∀ x, x ∈ P → x ∈ adj.*1;
  cp_node : node ∈ adj.*1;
  cp_reach : ∀ x, x ∈ P → tc arc x node;
}.

Record state_ok (P V : list string) : Prop := {
  so_finished : finished V;
  so_apart : ∀ x, x ∈ P → x ∉ V;
}.

Definition call_post (P V : list string) (nodes : list string) (r : bool * list string) : Prop :=
  if r.1 then ∃ x, tc arc x x
  else state_ok P r.2 ∧ (∀ x, x ∈ V → x ∈ r.2) ∧ (∀ x, x ∈ nodes → x ∈ r.2).

Lemma any_visit_spec v P nodes : ∀ V,
  (∀ n V, n ∈ nodes → state_ok P V → ∃ r, v V n = Some r ∧ call_post P V [n] r) → state_ok P V →
  ∃ r, any_visit v V nodes = Some r ∧ call_post P V nodes r.
Proof.
  induction nodes as [|n nodes IH]; intros V Hv HV; cbn [any_visit].
  { exists (false, V). split; [done|]. split_and!; [done|done|]. by intros x ?%elem_of_nil. }
  destruct (Hv n V ltac:(left) HV) as ([b V1] & -> & Hp). cbn [mbind option_bind fst snd].
  destruct b; [exists (true, V1); split; [done|exact Hp]|]. destruct Hp as (HV1 & Hsub & Hn). cbn [snd] in *.
  destruct (IH V1) as ([b V2] & -> & Hp2); [|done|].
  { intros m V' Hm. apply Hv. by right. }
  exists (b, V2). split; [done|]. destruct b; [done|]. destruct Hp2 as (HV2 & Hsub2 & Hn2). cbn [snd] in *.
  split_and!; [done|auto|]. intros x [->|Hx]%elem_of_cons; [|auto]. apply Hsub2, Hn. constructor.
Qed.

Lemma visit_spec fuel : ∀ P V node, call_pre P V node → state_ok P V → (length adj < fuel + length P)%nat →
  ∃ r, visit fuel adj P V node = Some r ∧ call_post P V [node] r.
Proof.
  induction fuel as [|fuel IH]; intros P V node Hpre HV Hfuel.
  { exfalso. assert (length P ≤ length adj.*1)%nat as Hle.
    { apply submseteq_length, NoDup_submseteq; [apply Hpre|apply Hpre]. }
    rewrite length_fmap in Hle. lia. }
  cbn [visit]. case_bool_decide as Hstack.
  { exists (true, V). split; [done|]. exists node. by apply Hpre. }
  case_bool_decide as Hdone.
  { exists (false, V). split; [done|]. split_and!; [done|done|]. by intros x ->%list_elem_of_singleton. }
  destruct (any_visit_spec (visit fuel adj (node :: P)) (node :: P) (succ node) V) as ([b V1] & Hr & Hp).
  - intros n V' Hn HV'. apply IH; [|done|cbn; lia]. constructor.
    + apply list.NoDup_cons. split; [done|apply Hpre].
    + intros x [->|Hx]%elem_of_cons; [by eapply cp_node|by eapply cp_nodes].
    + by eapply nodes_closed.
    + intros x [->|Hx]%elem_of_cons; [by apply tc_once|]. eapply tc_r; [by eapply cp_reach|done].
  - split; [apply HV|]. intros x [->|Hx]%elem_of_cons; [done|by apply HV].
  - unfold succ in Hr. rewrite Hr. cbn [mbind option_bind fst snd]. exists (b, node :: V1). split; [done|].
    destruct b; [done|]. destruct Hp as (HV1 & Hsub & Hn). cbn [snd] in *. split_and!.
    + split; [apply finished_cons; [apply HV1| |done]|].
      * apply (so_apart _ _ HV1). constructor.
      * intros x Hx [->|Hin]%elem_of_cons; [done|]. by apply (so_apart _ _ HV1 x); [right|].
    + intros x Hx. right. auto.
    + intros x ->%list_elem_of_singleton. constructor.
Qed.

Lemma search_spec : ∃ r, any_visit (visit (S (length adj)) adj []) [] adj.*1 = Some r
  ∧ (r.1 = true ↔ ∃ x, tc arc x x).
Proof.
  assert (state_ok [] []) as H0.
  { split; [split|]; [intros x y Hx|intros x Hx|intros x Hx]; by apply elem_of_nil in Hx. }
  destruct (any_visit_spec (visit (S (length adj)) adj []) [] adj.*1 []) as ([b V] & -> & Hp); [|done|].
  - intros n V Hn HV. apply visit_spec; [|done|cbn; lia]. constructor; [constructor|by intros ? ?%elem_of_nil|done|by intros ? ?%elem_of_nil].
  - exists (b, V). split; [done|]. cbn [fst]. destruct b; cbn in Hp; [done|]. split; [done|].
    intros (x & Hx). exfalso. destruct Hp as (HV & _ & Hn).
    eapply (fin_acyclic _ (so_finished _ _ HV) x); [|done]. apply Hn.
    destruct (tc_last _ _ _ Hx) as [y Hy]. by eapply nodes_closed.
Qed.
End search.

(** The adjacency lists hold exactly the edges. *)
Lemma setdefault_keys k new adj : (∀ x, x ∈ (setdefault_add k new adj).*1 ↔ x = k ∨ x ∈ adj.*1).
Proof.
  intros x. unfold setdefault_add. destruct (assoc k adj) as [l|] eqn:E.
  - change (map ?g adj) with (g <$> adj). rewrite <- list_fmap_compose.
    rewrite (list_fmap_ext _ fst) by (intros i [k' v] _; cbn; by destruct (bool_decide _)).
    split; [by right|]. intros [->|?]; [|done]. apply assoc_is_Some. by eexists.
  - rewrite fmap_app, elem_of_app. cbn. rewrite list_elem_of_singleton. tauto.
Qed.

Lemma setdefault_succ k new adj x y :
  arc (setdefault_add k new adj) x y ↔ arc adj x y ∨ (x = k ∧ y ∈ new).
Proof.
  unfold arc, succ, setdefault_add. destruct (assoc k adj) as [l|] eqn:E.
  - assert (∀ adj, assoc x (map (λ kv : string * list string, if kv.1 ==? k then (kv.1, kv.2 ++ new) else kv) adj)
      = (if decide (x = k) then (λ v, v ++ new) else id) <$> assoc x adj) as ->.
    { clear E. induction adj0 as [|[k' v] a IH]; cbn [map assoc]; [by case_decide|].
      cbn [fst snd]. case_bool_decide; cbn [assoc]; repeat case_decide; subst; try done; naive_solver. }
    case_decide as Hx; [subst; rewrite E; cbn; rewrite elem_of_app; tauto|].
    destruct (assoc x adj); cbn; (split; [by left|]); intros [?|[? _]]; done.
  - assert (assoc x (adj ++ [(k, new)]) = match assoc x adj with Some v => Some v | None => if decide (x = k) then Some new else None end) as ->.
    { clear E. induction adj as [|[k' v] a IH]; cbn [app assoc]; [done|]. rewrite IH. by destruct (decide (x = k')). }
    destruct (assoc x adj) as [v|] eqn:Ex; cbn.
    + split; [by left|]. intros [?|[-> _]]; [done|congruence].
    + case_decide; cbn; [subst|].
      { split; [by right|]. intros [?%elem_of_nil|[_ ?]]; done. }
      split; [by intros ?%elem_of_nil|].
      intros [?%elem_of_nil|[? _]]; done.
Qed.

Lemma adjacency_spec edges :
  (∀ x y, arc (adjacency edges) x y ↔ depends edges x y)
  ∧ (∀ x y, arc (adjacency edges) x y → y ∈ (adjacency edges).*1).
Proof.
  unfold adjacency, depends. induction edges as [|e edges IH] using rev_ind.
  { split; intros x y; cbn; split || idtac; by intros ?%elem_of_nil. }
  rewrite foldl_app. cbn [foldl]. destruct IH as [IH1 IH2]. split; intros x y.
  - rewrite !setdefault_succ, IH1, fmap_app, elem_of_app. cbn.
    rewrite elem_of_nil, !list_elem_of_singleton. unfold pair_of. split.
    + intros [[?|[-> ->]]|[_ []]]; [by left|by right].
    + intros [?|[= -> ->]]; left; [by left|by right].
  - rewrite !setdefault_succ, !setdefault_keys, list_elem_of_singleton, elem_of_nil.
    intros [[H|[-> ->]]|[_ []]]; [right; right; by eapply IH2|by left].
Qed.

Lemma cycle_search_spec edges : ∃ b, cycle_search edges = Some b ∧ (b = true ↔ cyclic edges).
Proof.
  destruct (adjacency_spec edges) as [H1 H2]. unfold cycle_search.
  destruct (search_spec (adjacency edges) H2) as (r & -> & Hr). exists r.1. split; [done|]. rewrite Hr.
  unfold cyclic. split; intros [x Hx]; exists x; (eapply tc_impl; [|done]); intros a b; apply H1.
Qed.

Lemma has_cycle_iff edges : has_cycle edges = true ↔ cyclic edges.
Proof. unfold has_cycle. by destruct (cycle_search_spec edges) as (b & -> & H). Qed.

(** ** What is accepted *)

Section acceptance.
Context (p : DependencyProposal) (s : AffectedSubset) (b : DependencyGraphBinding).

(** A trusted record of exactly this edge, for this candidate, policy,
    configuration, source and pair of member versions. *)
Record proof_for (e : ProposedEdge) (t : TrustedEdgeProvenance) : Prop := {
  pf_kind : t_kind t = pe_kind e;
  pf_direction : t_direction t = pe_direction e;
  pf_subject : t_subject_member_id t = pe_subject_member_id e;
  pf_object : t_object_member_id t = pe_object_member_id e;
  pf_rationale : t_rationale_digest t = pe_rationale_digest e;
  pf_confidence : t_confidence t = Confidence_value (pe_confidence e);
  pf_conflicts : t_conflicts_digest t = pe_conflicts_digest e;
  pf_candidate : t_candidate_sha t = b_candidate_sha b;
  pf_policy : t_policy_digest t = b_policy_digest b;
  pf_configuration : t_configuration_digest t = b_configuration_digest b;
  pf_source : t_source_digest t = match pe_kind e with EXPLICIT => s_source_digest s | _ => b_policy_digest b end;
  pf_subject_version : member_fingerprint <$> member_of s (pe_subject_member_id e) = Some (t_subject_member_fingerprint t);
  pf_object_version : member_fingerprint <$> member_of s (pe_object_member_id e) = Some (t_object_member_fingerprint t);
}.

Lemma proof_matches_iff e t : proof_matches s b e t = true ↔ proof_for e t.
Proof.
  unfold proof_matches. rewrite !andb_true_iff, !bool_decide_eq_true.
  assert ((if pe_kind e ==? EXPLICIT then s_source_digest s else b_policy_digest b)
    = match pe_kind e with EXPLICIT => s_source_digest s | _ => b_policy_digest b end) as -> by by destruct (pe_kind e).
  split.
  - intros ((((((((((((? & ?) & ?) & ?) & ?) & ?) & ?) & ?) & ?) & ?) & ?) & ?) & ?). by constructor.
  - intros []. by split_and!.
Qed.

(** The canonical edge of a proposed edge and the trusted record behind it. *)
Definition backed (proofs : list (string * TrustedEdgeProvenance)) (e : ProposedEdge) (g : GraphEdge) : Prop :=
  pe_kind e ∈ [EXPLICIT; POLICY_DERIVED] ∧
  ∃ d t, pe_trusted_relation_digest e = Some d ∧ assoc d proofs = Some t ∧ proof_for e t
  ∧ make_edge (canonical_pair e).1 (canonical_pair e).2 (pe_kind e) (proposal_id p) (t_provenance_digest t) = Ok g.

Lemma canonical_edge_ok proofs e g : canonical_edge p s b proofs e = Ok (inr g) ↔ backed proofs e g.
Proof.
  unfold canonical_edge, backed. setoid_rewrite <- proof_matches_iff. case_bool_decide as Hk; cbn [negb]; [|by split; [|intros [? _]]].
  destruct (canonical_pair e) as [x y]. cbn [fst snd].
  destruct (pe_trusted_relation_digest e) as [d|]; [|by split; [|intros (_ & ? & ? & ? & _)]].
  destruct (assoc d proofs) as [t|] eqn:E.
  2: { split; [done|]. intros (_ & ? & ? & [= <-] & ? & _). congruence. }
  destruct (proof_matches s b e t) eqn:Em; cbn [negb].
  - rewrite bind_ok. split.
    + intros (g' & Hg & [= <-]). split; [done|]. by exists d, t.
    + intros (_ & ? & ? & [= <-] & Ht & _ & Hg). rewrite E in Ht. injection Ht as <-. by exists g.
  - split; [done|]. intros (_ & ? & ? & [= <-] & Ht & Hm & _). rewrite E in Ht. injection Ht as <-. congruence.
Qed.

Lemma canonical_edges_ok proofs es gs :
  canonical_edges p s b proofs es = Ok (inr gs) ↔ Forall2 (backed proofs) es gs.
Proof.
  revert gs. induction es as [|e es IH]; intros gs; cbn [canonical_edges].
  { split; [intros [= <-]; constructor|by inversion 1]. }
  rewrite bind_ok. split.
  - intros ([why|g] & Hg & H); [done|]. apply bind_ok in H as ([why|gs'] & Hgs & [= <-]).
    constructor; [by apply canonical_edge_ok|by apply IH].
  - inversion 1 as [|? g ? gs' Hg Hgs]; subst. exists (inr g). split; [by apply canonical_edge_ok|].
    apply bind_ok. exists (inr gs'). split; [by apply IH|done].
Qed.

Lemma shares_pair_false l1 l2 : shares_pair l1 l2 = false ↔ ∀ x, x ∈ l1 → x ∉ l2.
Proof. unfold shares_pair. rewrite existsb_elem_false. by setoid_rewrite bool_decide_eq_false. Qed.

Lemma make_validation_ok d why es v : make_validation d why es = Ok v →
  v_decision v = d ∧ v_reason_code v = why ∧ v_edges v = es.
Proof. unfold make_validation. by intros ([] & _ & ([] & _ & [= <-])%bind_ok)%bind_ok. Qed.

Lemma reject_not_accepted why v : reject why = Ok v → v_decision v ≠ ACCEPTED.
Proof. by intros (-> & _)%make_validation_ok. Qed.

Lemma make_edge_ok x y k pid d g : make_edge x y k pid d = Ok g →
  g = {| g_subject_member_id := x; g_object_member_id := y; g_kind := k; g_proposal_id := pid; g_provenance_digest := d |}.
Proof. unfold make_edge. by intros ([] & _ & [= <-])%bind_ok. Qed.

Lemma backed_pair proofs e g : backed proofs e g → pair_of g = canonical_pair e ∧ g_proposal_id g = proposal_id p.
Proof.
  intros (_ & d & t & _ & _ & _ & ->%make_edge_ok). unfold pair_of. cbn. by destruct (canonical_pair e).
Qed.

Lemma backed_pairs proofs gs : Forall2 (backed proofs) (p_edges p) gs → pair_of <$> gs = canonical_pair <$> p_edges p.
Proof. induction 1 as [|e g es gs H _ IH]; [done|]. cbn. by rewrite IH, (proj1 (backed_pair _ _ _ H)). Qed.

Lemma structural_pairs es : structural_edges p = Ok es → pair_of <$> es = canonical_pair <$> p_edges p.
Proof.
  unfold structural_edges. intros H%mapM_ok. induction H as [|e g l gs Hg _ IH]; [done|]. cbn. rewrite IH. f_equal.
  destruct (canonical_pair e) as [x y]. by apply make_edge_ok in Hg as ->.
Qed.

Lemma cyclic_pairs es1 es2 : pair_of <$> es1 = pair_of <$> es2 → cyclic es1 ↔ cyclic es2.
Proof. unfold cyclic, depends. by intros ->. Qed.

(** The abstract specification of an acceptable change of the graph [prior]. *)
Record acceptable (prior : GraphSnapshot) (provenance : list TrustedEdgeProvenance) (edges : list GraphEdge) : Prop := {
  ac_bound : require_subset b s = Ok ();
  ac_cover : ∀ m, m ∈ member_id <$> s_members s ↔
             ∃ e, e ∈ p_edges p ∧ (m = pe_subject_member_id e ∨ m = pe_object_member_id e);
  ac_route : requested_disposition p = AUTO_ACTIVATE ∧ owner_route p = "not-required";
  ac_edges : ∃ proofs canonical, proofs_of provenance = Ok proofs
             ∧ Forall2 (backed proofs) (p_edges p) canonical ∧ edges = sorted_by edge_key canonical;
  ac_new : NoDup (canonical_pair <$> p_edges p)
           ∧ ∀ x, x ∈ canonical_pair <$> p_edges p → x ∉ pair_of <$> gs_edges prior;
  ac_acyclic : ¬ cyclic (gs_edges prior ++ edges);
}.
End acceptance.

(** The baseline does not depend on how a graph of another binding is dropped. *)
Lemma baseline_rebound active s b :
  replacement_baseline (if (gs_binding active !=? None) && (gs_binding active !=? Some b) then empty_snapshot else active) s b
  = replacement_baseline active s b.
Proof.
  destruct (decide (gs_binding active = Some b)) as [E|E].
  - rewrite (bool_decide_eq_true_2 (gs_binding active = Some b)) by done. by rewrite andb_false_r.
  - unfold replacement_baseline at 2. rewrite (bool_decide_eq_false_2 (gs_binding active = Some b)) by done.
    case_bool_decide as E2; cbn [negb andb]; [|done]. unfold replacement_baseline. by rewrite E2.
Qed.

Lemma cover_iff p (m : string) : m ∈ flat_map (λ e, [pe_subject_member_id e; pe_object_member_id e]) (p_edges p) ↔
  ∃ e, e ∈ p_edges p ∧ (m = pe_subject_member_id e ∨ m = pe_object_member_id e).
Proof.
  rewrite list_elem_of_In, in_flat_map. setoid_rewrite <- list_elem_of_In. setoid_rewrite elem_of_cons.
  setoid_rewrite list_elem_of_singleton. naive_solver.
Qed.

Lemma acyclic_app es1 es2 es3 : pair_of <$> es2 ≡ₚ pair_of <$> es3 → cyclic (es1 ++ es2) ↔ cyclic (es1 ++ es3).
Proof.
  intros H. assert (∀ x y, depends (es1 ++ es2) x y ↔ depends (es1 ++ es3) x y) as Hd.
  { intros x y. unfold depends. by rewrite !fmap_app, H. }
  unfold cyclic. split; intros [x Hx]; exists x; (eapply tc_impl; [|done]); intros ? ?; apply Hd.
Qed.

Lemma structural_edges_total p : proposal_constructed p → ∃ es, structural_edges p = Ok es.
Proof.
  intros [Hp He]. unfold structural_edges. apply mapM_total. intros e Hin.
  specialize (He e Hin). unfold ProposedEdge_post_init in He. breflect.
  destruct He as ((((((H1 & H2) & H3) & _) & _) & _) & _).
  unfold DependencyProposal_post_init in Hp. apply bind_ok in Hp as ([] & Hp & _). breflect.
  destruct Hp as (((Hpid & _) & _) & _).
  unfold canonical_pair, make_edge, GraphEdge_post_init.
  destruct (pe_direction e); eexists; apply bind_ok; exists (); (split; [|reflexivity]); apply require_ok; cbn [g_subject_member_id
    g_object_member_id g_kind g_proposal_id g_provenance_digest]; rewrite H1, H2, Hpid;
    rewrite bool_decide_eq_false_2 by done; unfold structural_kind; by destruct (pe_kind e).
Qed.

Lemma validate_accepted p s b active prior provenance v : replacement_baseline active s b = Ok prior →
  validate p s b active provenance = Ok v → v_decision v = ACCEPTED → acceptable p s b prior provenance (v_edges v).
Proof.
  intros Hprior Hv Ha. unfold validate in Hv. apply bind_ok in Hv as ([] & Hb & Hv). cbn zeta in Hv.
  rewrite baseline_rebound, Hprior in Hv.
  destruct (same_elements _ _) eqn:Hc; cbn [negb] in Hv; [|by apply reject_not_accepted in Hv].
  cbn [mbind result_bind] in Hv.
  destruct (no_dup _) eqn:Hnd; cbn [negb orb] in Hv; [|by apply reject_not_accepted in Hv].
  destruct (shares_pair _ _) eqn:Hsh; [by apply reject_not_accepted in Hv|].
  apply bind_ok in Hv as (st & Hst & Hv).
  destruct (has_cycle _) eqn:Hcy in Hv; [by apply reject_not_accepted in Hv|].
  case_bool_decide; [by apply reject_not_accepted in Hv|].
  destruct (_ || _) eqn:Ho in Hv; [apply make_validation_ok in Hv as (Hd & _); congruence|].
  destruct (_ || _) eqn:Hr in Hv; [by apply reject_not_accepted in Hv|].
  unfold validate_provenance in Hv. apply bind_ok in Hv as (proofs & Hpr & Hv).
  apply bind_ok in Hv as ([why|canonical] & Hcan & Hv); [by apply reject_not_accepted in Hv|].
  destruct (no_dup (pair_of <$> canonical)) eqn:Hnd2; cbn [negb] in Hv; [|by apply reject_not_accepted in Hv].
  destruct (shares_pair (pair_of <$> canonical) _) eqn:Hsh2; [by apply reject_not_accepted in Hv|].
  destruct (has_cycle (gs_edges prior ++ canonical)) eqn:Hcy2; [by apply reject_not_accepted in Hv|].
  apply make_validation_ok in Hv as (_ & _ & ->). apply canonical_edges_ok in Hcan.
  constructor; [done| | |by exists proofs, canonical| |].
  - rewrite same_elements_spec in Hc. intros m. by rewrite <- cover_iff, Hc.
  - breflect. naive_solver.
  - split; [by apply no_dup_spec|by apply shares_pair_false].
  - rewrite (acyclic_app _ _ canonical), <- has_cycle_iff by by rewrite sorted_by_perm. congruence.
Qed.

Lemma acceptable_accepted p s b active prior provenance edges : proposal_constructed p →
  replacement_baseline active s b = Ok prior → acceptable p s b prior provenance edges →
  validate p s b active provenance = Ok {| v_decision := ACCEPTED; v_reason_code := "graph-valid"; v_edges := edges |}.
Proof.
  intros Hcon Hprior [Hb Hc [Hr1 Hr2] (proofs & canonical & Hpr & Hback & ->) [Hnd Hsh] Hcy].
  pose proof (backed_pairs _ _ _ _ _ Hback) as Hpairs.
  rewrite (acyclic_app _ _ canonical), <- has_cycle_iff, not_true_iff_false in Hcy by by rewrite sorted_by_perm.
  destruct (structural_edges_total p Hcon) as [st Hst].
  unfold validate. rewrite Hb. cbn [mbind result_bind]. rewrite baseline_rebound, Hprior.
  rewrite (proj2 (same_elements_spec _ _)) by (intros m; by rewrite cover_iff, Hc).
  cbn [negb mbind result_bind]. rewrite (proj2 (no_dup_spec _) Hnd), (proj2 (shares_pair_false _ _) Hsh).
  cbn [negb orb]. rewrite Hst. cbn [mbind result_bind].
  assert (has_cycle (gs_edges prior ++ st) = false) as ->.
  { apply not_true_iff_false. rewrite has_cycle_iff, (acyclic_app _ _ canonical), <- has_cycle_iff; [congruence|].
    by rewrite (structural_pairs _ _ Hst), Hpairs. }
  rewrite Hr1, Hr2. rewrite (bool_decide_eq_false_2 (AUTO_ACTIVATE = REJECT)), (bool_decide_eq_false_2 (AUTO_ACTIVATE = OWNER_REVIEW)) by done.
  assert (existsb (λ e, pe_kind e ==? SEMANTIC_INFERRED) (p_edges p) = false) as ->.
  { apply existsb_elem_false. intros e He. apply bool_decide_eq_false.
    apply list_elem_of_lookup in He as [i Hi]. destruct (Forall2_lookup_l _ _ _ _ _ Hback Hi) as (g & _ & Hk & _).
    intros E. rewrite E in Hk. set_solver. }
  cbn [orb]. rewrite !bool_decide_eq_true_2 by done. cbn [negb orb].
  unfold validate_provenance. rewrite Hpr. cbn [mbind result_bind].
  rewrite (proj2 (canonical_edges_ok _ _ _ _ _ _) Hback). cbn [mbind result_bind].
  rewrite Hpairs, (proj2 (no_dup_spec _) Hnd), (proj2 (shares_pair_false _ _) Hsh), Hcy. done.
Qed.

(** C26 : the cycle search terminates on every graph, within one call per node,
    and finds a cycle exactly when the dependency relation has one. *)
Theorem cycle_search_decides edges :
  ∃ found, cycle_search edges = Some found ∧ (found = true ↔ ∃ x, tc (depends edges) x x).
Proof. apply cycle_search_spec. Qed.

(** C20 : a constructed proposal is accepted, with the given edges, exactly when
    the abstract specification of an acceptable change holds: it covers exactly
    the affected members, asks for automatic activation, each edge is backed by
    a trusted relation of the same binding, and the new edges are fresh and
    close no cycle with the retained graph. *)
Theorem graph_acceptance_exact p s b active prior provenance edges :
  proposal_constructed p → replacement_baseline active s b = Ok prior →
  (∃ v, validate p s b active provenance = Ok v ∧ v_decision v = ACCEPTED ∧ v_edges v = edges)
  ↔ acceptable p s b prior provenance edges.
Proof.
  intros Hp Hprior. split.
  - intros (v & Hv & Ha & <-). by eapply validate_accepted.
  - intros H. eexists. split; [by eapply acceptable_accepted|done].
Qed.

(** ** Lineages of accepted graphs *)

(** [_write_version] then [_read_version]: the snapshot with its version and
    binding. *)
Definition activated (snapshot : GraphSnapshot) (version : string) (b : DependencyGraphBinding) : GraphSnapshot :=
  {| graph_version_id := Some version; gs_binding := Some b; gs_members := gs_members snapshot;
     gs_edges := gs_edges snapshot; gs_proposal_ids := gs_proposal_ids snapshot |}.

(** One activation of an accepted proposal. *)
Record activates (active : GraphSnapshot) (p : DependencyProposal) (s : AffectedSubset)
    (b : DependencyGraphBinding) (version : string) (next : GraphSnapshot) : Prop := {
  act_proposal : proposal_constructed p;
  act_decision : ∃ provenance v, validate p s b active provenance = Ok v ∧ v_decision v = ACCEPTED
    ∧ ∃ snapshot, next_snapshot active s (v_edges v) (proposal_id p) b = Ok snapshot
                  ∧ next = activated snapshot version b;
}.

Inductive lineage : GraphSnapshot → Prop :=
  | lineage_start : lineage empty_snapshot
  | lineage_activate active p s b version next :
      lineage active → activates active p s b version next → lineage next.

Record graph_ok (g : GraphSnapshot) : Prop := {
  go_members : NoDup (mid <$> gs_members g);
  go_endpoints : ∀ e, e ∈ gs_edges g →
    g_subject_member_id e ∈ mid <$> gs_members g ∧ g_object_member_id e ∈ mid <$> gs_members g;
  go_pairs : NoDup (pair_of <$> gs_edges g);
  go_acyclic : ¬ cyclic (gs_edges g);
  go_proposals : NoDup (gs_proposal_ids g)
                 ∧ ∀ pid, pid ∈ gs_proposal_ids g ↔ pid ∈ g_proposal_id <$> gs_edges g;
}.

Lemma make_snapshot_ok v b ms es ps g : make_snapshot v b ms es ps = Ok g →
  g = {| graph_version_id := v; gs_binding := b; gs_members := ms; gs_edges := es; gs_proposal_ids := ps |}
  ∧ NoDup (mid <$> ms) ∧ NoDup ps.
Proof.
  unfold make_snapshot, GraphSnapshot_post_init. intros ([] & H & [= <-])%bind_ok. split; [done|].
  apply bind_ok in H as ([] & _ & H). apply bind_ok in H as ([] & _ & H). by breflect.
Qed.

(** The members of the task that is replaced. *)
Definition replaced_ids (g : GraphSnapshot) (s : AffectedSubset) : list string :=
  mid <$> List.filter (λ m, m_task_id m ==? s_task_id s) (gs_members g).

Lemma filter_elem {A} (f : A → bool) l x : x ∈ List.filter f l ↔ x ∈ l ∧ f x = true.
Proof. rewrite !list_elem_of_In. apply filter_In. Qed.

Lemma baseline_spec active s b prior : replacement_baseline active s b = Ok prior →
  (gs_binding active ≠ Some b ∧ prior = empty_snapshot) ∨
  (gs_binding active = Some b
   ∧ gs_members prior = List.filter (λ m, negb (mid m in? replaced_ids active s)) (gs_members active)
   ∧ gs_edges prior = List.filter (λ e, negb (g_subject_member_id e in? replaced_ids active s)
                                       && negb (g_object_member_id e in? replaced_ids active s)) (gs_edges active)
   ∧ gs_proposal_ids prior = sorted_by (λ p, [p]) (remove_dups (g_proposal_id <$> gs_edges prior))).
Proof.
  unfold replacement_baseline, replaced_ids. case_bool_decide as E; cbn [negb].
  - intros [-> _]%make_snapshot_ok. by right.
  - intros [-> _]%make_snapshot_ok. by left.
Qed.

Lemma filter_ext_true {A} (f : A → bool) l : (∀ x, x ∈ l → f x = true) → List.filter f l = l.
Proof.
  induction l as [|x l IH]; intros H; [done|]. cbn. rewrite H by constructor. f_equal. apply IH.
  intros y Hy. apply H. by right.
Qed.

Lemma filter_ext_false {A} (f : A → bool) l : (∀ x, x ∈ l → f x = false) → List.filter f l = [].
Proof.
  induction l as [|x l IH]; intros H; [done|]. cbn. rewrite H by constructor. apply IH.
  intros y Hy. apply H. by right.
Qed.

(** The shape of the next graph. *)
Lemma next_snapshot_spec active s edges pid b g : next_snapshot active s edges pid b = Ok g →
  ∃ prior added, replacement_baseline active s b = Ok prior
  ∧ gs_members g ≡ₚ gs_members prior ++ added ∧ gs_edges g ≡ₚ gs_edges prior ++ edges
  ∧ gs_proposal_ids g ≡ₚ gs_proposal_ids prior ++ [pid]
  ∧ mid <$> added = member_id <$> s_members s ∧ (∀ m, m ∈ added → m_task_id m = s_task_id s)
  ∧ NoDup (mid <$> gs_members g) ∧ NoDup (gs_proposal_ids g).
Proof.
  unfold next_snapshot. intros (prior & Hprior & H)%bind_ok. apply bind_ok in H as (added & Hadd & H).
  apply make_snapshot_ok in H as (-> & Hm & Hp). exists prior, added. cbn [gs_members gs_edges gs_proposal_ids].
  rewrite !sorted_by_perm. rewrite sorted_by_perm in Hm. rewrite sorted_by_perm in Hp.
  assert (∀ m, m ∈ gs_members prior → m_task_id m ≠ s_task_id s) as Hother.
  { intros m Hin E. destruct (baseline_spec _ _ _ _ Hprior) as [[_ ->]|(_ & Hms & _)]; [by apply elem_of_nil in Hin|].
    rewrite Hms, filter_elem in Hin. destruct Hin as [Hin Hn]. breflect. apply Hn.
    apply list_elem_of_fmap. exists m. split; [done|]. apply filter_elem. by rewrite bool_decide_eq_true_2. }
  assert (List.filter (λ m, m_task_id m ==? s_task_id s) (gs_members prior) = []) as Hnil.
  { apply filter_ext_false. intros m Hin. apply bool_decide_eq_false. by apply Hother. }
  rewrite Hnil in *. rewrite filter_ext_true in * by by intros.
  apply mapM_ok in Hadd. split_and!; try done.
  - clear -Hadd. induction Hadd as [|x y l k Hxy _ IH]; [done|]. cbn. rewrite IH. f_equal.
    unfold make_member in Hxy. by apply bind_ok in Hxy as ([] & _ & [= <-]).
  - intros m [i Hi]%list_elem_of_lookup. destruct (Forall2_lookup_r _ _ _ _ _ Hadd Hi) as (x & _ & Hx).
    unfold make_member in Hx. by apply bind_ok in Hx as ([] & _ & [= <-]).
Qed.

Lemma sublist_filter {A} (f : A → bool) l : List.filter f l `sublist_of` l.
Proof. induction l as [|x l IH]; cbn; [constructor|]. destruct (f x); by constructor. Qed.

Lemma activates_spec active p s b version next : activates active p s b version next →
  ∃ prior provenance v added, replacement_baseline active s b = Ok prior
  ∧ acceptable p s b prior provenance (v_edges v)
  ∧ gs_members next ≡ₚ gs_members prior ++ added ∧ gs_edges next ≡ₚ gs_edges prior ++ v_edges v
  ∧ gs_proposal_ids next ≡ₚ gs_proposal_ids prior ++ [proposal_id p]
  ∧ mid <$> added = member_id <$> s_members s ∧ (∀ m, m ∈ added → m_task_id m = s_task_id s)
  ∧ NoDup (mid <$> gs_members next) ∧ NoDup (gs_proposal_ids next).
Proof.
  intros [_ (provenance & v & Hv & Ha & snapshot & Hn & ->)].
  destruct (next_snapshot_spec _ _ _ _ _ _ Hn) as (prior & added & Hprior & ? & ? & ? & ? & ? & ? & ?).
  exists prior, provenance, v, added. split_and!; try done. by eapply validate_accepted.
Qed.

Lemma accepted_edge_pair p s b prior provenance edges : acceptable p s b prior provenance edges →
  pair_of <$> edges ≡ₚ canonical_pair <$> p_edges p
  ∧ (∀ pid, pid ∈ g_proposal_id <$> edges → pid = proposal_id p).
Proof.
  intros [_ _ _ (proofs & canonical & _ & Hback & ->) _ _]. split.
  - rewrite sorted_by_perm. by rewrite (backed_pairs _ _ _ _ _ Hback).
  - intros pid. rewrite sorted_by_perm. intros (g & -> & [i Hi]%list_elem_of_lookup)%list_elem_of_fmap.
    destruct (Forall2_lookup_r _ _ _ _ _ Hback Hi) as (e & _ & Hb). by apply backed_pair in Hb as [_ ?].
Qed.

Lemma baseline_edge active s b prior e : graph_ok active → replacement_baseline active s b = Ok prior →
  e ∈ gs_edges prior → e ∈ gs_edges active ∧ g_subject_member_id e ∈ mid <$> gs_members prior
  ∧ g_object_member_id e ∈ mid <$> gs_members prior.
Proof.
  intros Hok Hprior He. destruct (baseline_spec _ _ _ _ Hprior) as [[_ ->]|(_ & Hms & Hes & _)]; [by apply elem_of_nil in He|].
  rewrite Hes, filter_elem in He. destruct He as [He Hn]. breflect. destruct Hn as [Hn1 Hn2].
  destruct (go_endpoints _ Hok e He) as [H1 H2]. split; [done|]. rewrite Hms.
  apply list_elem_of_fmap in H1 as (m1 & E1 & H1), H2 as (m2 & E2 & H2).
  rewrite E1 in Hn1 |- *. rewrite E2 in Hn2 |- *.
  split; apply list_elem_of_fmap; [exists m1|exists m2]; (split; [done|]); apply filter_elem; split; try done;
    by rewrite bool_decide_eq_false_2.
Qed.

Lemma activates_ok active p s b version next :
  graph_ok active → activates active p s b version next → graph_ok next.
Proof.
  intros Hok Hact.
  assert (p_edges p ≠ []) as Hne.
  { destruct (act_proposal _ _ _ _ _ _ Hact) as [Hp _]. unfold DependencyProposal_post_init in Hp.
    apply bind_ok in Hp as ([] & Hp & _). breflect. by destruct Hp as [_ ?]. }
  destruct (activates_spec _ _ _ _ _ _ Hact) as (prior & prov & v & added & Hprior & Hacc & Hms & Hes & Hps & Hadd & _ & Hnd & Hnp).
  destruct (accepted_edge_pair _ _ _ _ _ _ Hacc) as [Hpairs Hpid].
  assert (∀ x, x ∈ mid <$> gs_members next ↔ x ∈ mid <$> gs_members prior ∨ x ∈ member_id <$> s_members s) as Hmem
    by (intros x; by rewrite Hms, fmap_app, elem_of_app, Hadd).
  constructor; [done| | | |split; [done|]].
  - intros e. rewrite Hes, elem_of_app, !Hmem. intros [He|He].
    + destruct (baseline_edge _ _ _ _ _ Hok Hprior He) as (_ & ? & ?). by split; left.
    + assert (pair_of e ∈ canonical_pair <$> p_edges p) as Hin
        by (rewrite <- Hpairs; apply list_elem_of_fmap; eauto).
      apply list_elem_of_fmap in Hin as (pe & Hpe & Hin). rewrite !(ac_cover _ _ _ _ _ _ Hacc).
      unfold pair_of, canonical_pair in Hpe. destruct (pe_direction pe); injection Hpe as -> ->; split; right; exists pe; auto.
  - rewrite Hes, fmap_app. apply list.NoDup_app. destruct (ac_new _ _ _ _ _ _ Hacc) as [Hn Hfresh]. split_and!.
    + eapply sublist_NoDup; [apply (go_pairs _ Hok)|].
      destruct (baseline_spec _ _ _ _ Hprior) as [[_ ->]|(_ & _ & -> & _)]; [apply sublist_nil_l|].
      apply fmap_sublist, sublist_filter.
    + intros x Hx. rewrite Hpairs. intros Hx2. by eapply Hfresh.
    + by rewrite Hpairs.
  - intros [x Hx]. apply (ac_acyclic _ _ _ _ _ _ Hacc). exists x. eapply tc_impl; [|done].
    intros a c. unfold depends. by rewrite Hes.
  - intros pid. rewrite Hps, Hes, fmap_app, !elem_of_app, list_elem_of_singleton.
    assert (pid ∈ gs_proposal_ids prior ↔ pid ∈ g_proposal_id <$> gs_edges prior) as ->.
    { destruct (baseline_spec _ _ _ _ Hprior) as [[_ ->]|(_ & _ & _ & ->)]; [done|].
      by rewrite sorted_by_perm, elem_of_remove_dups. }
    split; (intros [?|Hp]; [by left|right]); [|by apply Hpid]. subst pid.
    destruct (v_edges v) as [|e es] eqn:Ev.
    + exfalso. apply Permutation_nil_l in Hpairs. by destruct (p_edges p).
    + rewrite <- (Hpid (g_proposal_id e)); left.
Qed.

Lemma lineage_ok g : lineage g → graph_ok g.
Proof.
  induction 1 as [|active p s b version next _ IH Hact]; [|by eapply activates_ok].
  constructor; cbn [empty_snapshot gs_members gs_edges gs_proposal_ids fmap list_fmap].
  - constructor.
  - by intros ? ?%elem_of_nil.
  - constructor.
  - intros [x Hx]. destruct (tc_last _ _ _ Hx) as [y Hy]. by apply elem_of_nil in Hy.
  - split; [constructor|done].
Qed.

(** C19 : every graph reached by activating accepted proposals, under any
    sequence of bindings, is acyclic; its members are distinct, every edge
    connects two members, no dependency is recorded twice, and its proposals
    are exactly those of its edges. *)
Theorem lineage_graphs_acyclic g : lineage g →
  (¬ ∃ x, tc (depends (gs_edges g)) x x)
  ∧ NoDup (mid <$> gs_members g) ∧ NoDup (pair_of <$> gs_edges g)
  ∧ (∀ e, e ∈ gs_edges g → g_subject_member_id e ∈ mid <$> gs_members g
                           ∧ g_object_member_id e ∈ mid <$> gs_members g)
  ∧ ∀ pid, pid ∈ gs_proposal_ids g ↔ pid ∈ g_proposal_id <$> gs_edges g.
Proof. intros H%lineage_ok. split_and!; apply H. Qed.

(** an activation is local to its task.  Under the same binding the
    members of other tasks and the edges that touch no replaced member stay,
    and every other edge is the new proposal's; under a new binding nothing of
    the old graph survives. *)
Theorem activation_is_local active p s b version next :
  lineage active → activates active p s b version next →
  (gs_binding active = Some b →
     (∀ m, m_task_id m ≠ s_task_id s → m ∈ gs_members next ↔ m ∈ gs_members active)
     ∧ (∀ e, e ∈ gs_edges active → g_subject_member_id e ∉ replaced_ids active s →
          g_object_member_id e ∉ replaced_ids active s → e ∈ gs_edges next)
     ∧ ∀ e, e ∈ gs_edges next → e ∈ gs_edges active ∨ g_proposal_id e = proposal_id p)
  ∧ (gs_binding active ≠ Some b →
     (∀ m, m ∈ gs_members next → m_task_id m = s_task_id s)
     ∧ ∀ e, e ∈ gs_edges next → g_proposal_id e = proposal_id p).
Proof.
  intros Hok%lineage_ok Hact.
  destruct (activates_spec _ _ _ _ _ _ Hact) as (prior & prov & v & added & Hprior & Hacc & Hms & Hes & _ & _ & Htask & _).
  destruct (accepted_edge_pair _ _ _ _ _ _ Hacc) as [_ Hpid].
  assert (∀ e, e ∈ v_edges v → g_proposal_id e = proposal_id p) as Hpe
    by (intros e He; apply Hpid, list_elem_of_fmap; eauto).
  destruct (baseline_spec _ _ _ _ Hprior) as [[Hb ->]|(Hb & Hpm & Hpes & _)];
    [split; [by intros|intros _]|split; [intros _|by intros]].
  - setoid_rewrite Hms. setoid_rewrite Hes. auto.
  - setoid_rewrite Hms. setoid_rewrite Hes. setoid_rewrite elem_of_app. rewrite Hpm, Hpes. setoid_rewrite filter_elem. split_and!.
    + intros m Hm. split.
      * intros [[? _]|Ha%Htask]; [done|congruence].
      * intros Hin. left. split; [done|]. apply negb_true_iff, bool_decide_eq_false.
        unfold replaced_ids. intros (m' & Heq & [Hin' Ht%bool_decide_eq_true]%filter_elem)%list_elem_of_fmap.
        apply Hm. rewrite <- Ht. f_equal.
        apply list_elem_of_lookup in Hin as [i Hi], Hin' as [j Hj].
        assert (i = j) as <-; [|congruence].
        eapply (NoDup_lookup (mid <$> gs_members active)); [apply Hok| |]; rewrite list_lookup_fmap; [by rewrite Hi|rewrite Hj; cbn; by rewrite <- Heq].
    + intros e He H1 H2. left. split; [done|]. by rewrite !bool_decide_eq_false_2.
    + intros e [[? _]|?]; auto.
Qed.

(** ** A concrete activation *)

Definition sha (c : string) : string := String.append "sha256:" (str_repeat c 64).

Definition sample_graph_binding : DependencyGraphBinding :=
  {| b_candidate_sha := str_repeat "1" 40; b_policy_digest := sha "2"; b_configuration_digest := sha "3";
     b_validator_digest := VALIDATOR_DIGEST |}.

Definition sample_subset : AffectedSubset :=
  {| s_snapshot_id := "snap-1"; s_task_id := "task-1"; s_source_digest := str_repeat "4" 64;
     s_candidate_sha := str_repeat "1" 40; s_policy_digest := sha "2"; s_configuration_digest := sha "3";
     s_boundary_digest := sha "5"; s_creation_reason := "review";
     s_members := [ {| member_id := "a"; member_fingerprint := sha "6"; content_digest := sha "7" |};
                    {| member_id := "b"; member_fingerprint := sha "8"; content_digest := sha "9" |} ] |}.

Definition unwrap {A} (dflt : A) (r : py A) : A := match r with Ok a => a | Err _ => dflt end.

Definition blank_provenance : TrustedEdgeProvenance :=
  {| t_kind := EXPLICIT; t_direction := DEPENDS_ON; t_subject_member_id := ""; t_object_member_id := "";
     t_rationale_digest := ""; t_confidence := ""; t_conflicts_digest := ""; t_candidate_sha := "";
     t_policy_digest := ""; t_configuration_digest := ""; t_source_digest := "";
     t_subject_member_fingerprint := ""; t_object_member_fingerprint := ""; t_provenance_digest := "" |}.

Definition sample_provenance : TrustedEdgeProvenance :=
  Eval vm_compute in
  unwrap blank_provenance (from_explicit_source sample_subset sample_graph_binding EXPLICIT BLOCKS "a" "b" (sha "a")
    "high" (sha "b")).

Definition sample_relation : SourceOwnedRelation :=
  {| sr_kind := EXPLICIT; sr_direction := BLOCKS; sr_subject_member_id := "a"; sr_object_member_id := "b";
     sr_rationale_digest := sha "a"; sr_confidence := HIGH; sr_conflicts_digest := sha "b" |}.

Definition sample_relation_digest : string := Eval vm_compute in relation_digest sample_relation.

Definition sample_proposal : DependencyProposal :=
  {| proposal_id := "proposal-1"; attempt_id := "attempt-1"; requested_disposition := AUTO_ACTIVATE;
     owner_route := "not-required";
     p_edges := [ {| pe_kind := EXPLICIT; pe_direction := BLOCKS; pe_subject_member_id := "a";
                     pe_object_member_id := "b"; pe_rationale_digest := sha "a"; pe_confidence := HIGH;
                     pe_conflicts_digest := sha "b"; pe_trusted_relation_digest := Some sample_relation_digest |} ] |}.

Definition blank_validation : GraphValidation := {| v_decision := REJECTED; v_reason_code := ""; v_edges := [] |}.

Definition sample_validation : GraphValidation :=
  Eval vm_compute in
  unwrap blank_validation (validate sample_proposal sample_subset sample_graph_binding empty_snapshot [sample_provenance]).

Definition sample_snapshot : GraphSnapshot :=
  Eval vm_compute in
  unwrap empty_snapshot (next_snapshot empty_snapshot sample_subset (v_edges sample_validation) "proposal-1" sample_graph_binding).

Lemma sample_proposal_constructed : proposal_constructed sample_proposal.
Proof.
  split; [vm_compute; reflexivity|]. intros e He. apply list_elem_of_singleton in He as ->. vm_compute. reflexivity.
Qed.

Lemma sample_validates :
  validate sample_proposal sample_subset sample_graph_binding empty_snapshot [sample_provenance] = Ok sample_validation.
Proof. vm_compute. reflexivity. Qed.

Lemma sample_activates : activates empty_snapshot sample_proposal sample_subset sample_graph_binding "v1"
  (activated sample_snapshot "v1" sample_graph_binding).
Proof.
  split; [apply sample_proposal_constructed|]. exists [sample_provenance], sample_validation.
  split; [apply sample_validates|]. split; [reflexivity|]. exists sample_snapshot. split; [vm_compute; reflexivity|done].
Qed.

Lemma graph_acceptance_exact_witness :
  acceptable sample_proposal sample_subset sample_graph_binding empty_snapshot [sample_provenance]
    [ {| g_subject_member_id := "b"; g_object_member_id := "a"; g_kind := EXPLICIT; g_proposal_id := "proposal-1";
         g_provenance_digest := t_provenance_digest sample_provenance |} ].
Proof.
  apply (graph_acceptance_exact sample_proposal sample_subset sample_graph_binding empty_snapshot empty_snapshot
    [sample_provenance] _ sample_proposal_constructed eq_refl).
  exists sample_validation. split; [apply sample_validates|split; reflexivity].
Defined.

Lemma lineage_graphs_acyclic_witness :
  ¬ ∃ x, tc (depends (gs_edges (activated sample_snapshot "v1" sample_graph_binding))) x x.
Proof.
  refine (proj1 (lineage_graphs_acyclic (activated sample_snapshot "v1" sample_graph_binding) _)).
  exact (lineage_activate _ _ _ _ _ _ lineage_start sample_activates).
Defined.

Lemma activation_is_local_witness :
  Forall (λ e, g_proposal_id e = "proposal-1") (gs_edges (activated sample_snapshot "v1" sample_graph_binding)).
Proof.
  apply list.Forall_forall.
  refine (proj2 (proj2 (activation_is_local empty_snapshot sample_proposal sample_subset sample_graph_binding "v1"
    (activated sample_snapshot "v1" sample_graph_binding) lineage_start sample_activates) _)).
  discriminate.
Defined.
