(* ===== verification/CanaryRestart.v ===== *)
(** * Sealing and rehydrating a canary ledger (src/roundwright/canary_execution.py)

    [CanaryExecutionLedger.sealed_state] and [hydrate]: the material a
    replacement coordinator is started from, and the checks it passes.  Every
    exception [hydrate] can raise on decoded material is turned into one error,
    so the body is a partial function.  An int 0 or 1 in place of the bool
    [retry_used] is refused here. *)

From S2P Require Import Prelude Sha256 Json RepositoryPolicy CanaryPolicy CanaryExecution.
Open Scope Z_scope.

Definition all_results : list CanaryResult := [GENESIS; CANARY_PASS; DENIED; ROLLED_BACK; OWNER_INPUT_REQUIRED].
Definition all_purposes : list CanaryTransitionPurpose := [EXECUTE; P_ROLLBACK; CLEANUP].
Definition all_states : list CanaryTransitionState :=
  [CLAIMED; VERIFIED; RETRY_ALLOWED; QUARANTINED; PRESERVED_FOR_OWNER].

(** ** Sealing *)

(** [public_payload()] with the digest. *)
Definition with_digest (payload : json) (digest : string) : json :=
  match payload with JObj d => JObj (d ++ [("receipt_digest", JStr digest)]) | j => j end.

Definition sealed_authorization (a : CanaryAuthorization) : json :=
  JObj [("policy_digest", JStr (a_policy_digest a)); ("contract_digest", JStr (a_contract_digest a));
        ("request_digest", JStr (a_request_digest a));
        ("receipt_chain_head_digest", JStr (receipt_chain_head_digest a))].

Definition sealed_record (r : TransitionRecord) : json :=
  JObj [("authorization", sealed_authorization (t_authorization r));
        ("request", request_payload (operation (t_request r)) (branch (t_request r)) (paths (t_request r)));
        ("purpose", JStr (CanaryTransitionPurpose_value (t_purpose r)));
        ("state", JStr (CanaryTransitionState_value (t_state r)));
        ("receipt", with_digest (execution_payload (t_receipt r)) (x_receipt_digest (t_receipt r)));
        ("canary_receipt_digest", jopt (receipt_digest <$> t_canary_receipt r));
        ("retry_used", JBool (t_retry_used r));
        ("predecessor_transition_receipt_digest", jopt (t_predecessor_digest r));
        ("pre_state_readback_digest", jopt (t_pre_state_digest r))].

Definition sealed_state (l : Ledger) : json :=
  JObj [("schema", JStr "roundwright-canary-execution-ledger/v1");
        ("policy_digest", JStr (p_policy_digest (l_policy l)));
        ("contract_digest", JStr (p_contract_digest (l_policy l)));
        ("candidate_sha", JStr (p_candidate_sha (l_policy l)));
        ("chain", JArr (map (λ c, with_digest (receipt_payload c) (receipt_digest c)) (chain l)));
        ("records", JArr (map (λ kr, sealed_record kr.2) (records l)))].

(** ** Rehydrating the parts *)

(** [d[key] == s] and the like. *)
Definition str_is (key s : string) (d : list (string * json)) : bool := str_field key d ==? Some s.
Definition int_is (key : string) (z : Z) (d : list (string * json)) : bool := int_field key d ==? Some z.

Definition receipt_keys : list string :=
  ["schema"; "policy_digest"; "contract_digest"; "base_sha"; "candidate_sha"; "target_repository";
   "target_baseline_sha"; "target_leaf_number"; "leaf_number"; "requested_operations"; "operation_counts";
   "total_calls"; "result"; "semantic_readback_digest"; "predecessor_receipt_digest"; "receipt_digest"].

Definition hydrate_canary_receipt (p : BoundedCanaryPolicy) (value : json) : option BoundedCanaryReceipt :=
  match value with
  | JObj d =>
      let names := operation_value <$> requested_operations p in
      _ ← guarded (same_elements d.*1 receipt_keys);
      _ ← guarded (str_is "schema" "roundwright-bounded-canary-receipt/v1" d
                   && str_is "policy_digest" (p_policy_digest p) d && str_is "contract_digest" (p_contract_digest p) d
                   && str_is "base_sha" (p_base_sha p) d && str_is "candidate_sha" (p_candidate_sha p) d
                   && str_is "target_repository" (repository (p_target p)) d
                   && str_is "target_baseline_sha" (baseline_sha (p_target p)) d
                   && int_is "target_leaf_number" (t_leaf_number (p_target p)) d
                   && int_is "leaf_number" (p_leaf_number p) d);
      operations ← list_field "requested_operations" d ≫= mapM str_value;
      _ ← guarded (operations ==? names);
      counts ← dict_field "operation_counts" d;
      _ ← guarded (same_elements counts.*1 names);
      values ← mapM int_value counts.*2;
      _ ← guarded (forallb (λ n, 0 <=? n) values && int_is "total_calls" (foldr Z.add 0 values) d);
      tuple ← mapM (λ o, n ← int_field (operation_value o) counts; Some (o, n)) (requested_operations p);
      res ← str_field "result" d ≫= of_value CanaryResult_value all_results;
      readback ← str_field "semantic_readback_digest" d;
      pred ← optional_str_field "predecessor_receipt_digest" d;
      receipt ← to_option (make_receipt p res tuple readback pred);
      _ ← guarded (str_is "receipt_digest" (receipt_digest receipt) d);
      Some receipt
  | _ => None
  end.

(** The constructor of [CanaryExecutionReceipt] on all its fields. *)
Definition build_execution_receipt (x : CanaryExecutionReceipt) : option CanaryExecutionReceipt :=
  _ ← to_option (execution_receipt_check x);
  Some {| x_policy_digest := x_policy_digest x; x_contract_digest := x_contract_digest x;
          x_claim_digest := x_claim_digest x; x_request_digest := x_request_digest x;
          x_chain_head_digest := x_chain_head_digest x; x_purpose := x_purpose x; x_state := x_state x;
          x_semantic_readback_digest := x_semantic_readback_digest x;
          x_canary_receipt_digest := x_canary_receipt_digest x;
          x_predecessor_transition_receipt_digest := x_predecessor_transition_receipt_digest x;
          x_pre_state_readback_digest := x_pre_state_readback_digest x; x_retry_used := x_retry_used x;
          x_receipt_digest := digest_json (execution_payload x) |}.

Definition execution_keys : list string :=
  ["policy_digest"; "contract_digest"; "claim_digest"; "request_digest"; "receipt_chain_head_digest"; "purpose";
   "state"; "semantic_readback_digest"; "canary_receipt_digest"; "predecessor_transition_receipt_digest";
   "pre_state_readback_digest"; "retry_used"; "receipt_digest"].

Definition hydrate_execution_receipt (value : json) : option CanaryExecutionReceipt :=
  match value with
  | JObj d =>
      _ ← guarded (same_elements d.*1 execution_keys);
      policy ← str_field "policy_digest" d;
      contract ← str_field "contract_digest" d;
      claim ← str_field "claim_digest" d;
      request ← str_field "request_digest" d;
      head ← str_field "receipt_chain_head_digest" d;
      purpose ← str_field "purpose" d ≫= of_value CanaryTransitionPurpose_value all_purposes;
      state ← str_field "state" d ≫= of_value CanaryTransitionState_value all_states;
      readback ← optional_str_field "semantic_readback_digest" d;
      canary ← optional_str_field "canary_receipt_digest" d;
      pred ← optional_str_field "predecessor_transition_receipt_digest" d;
      pre ← optional_str_field "pre_state_readback_digest" d;
      retry ← bool_field "retry_used" d;
      receipt ← build_execution_receipt
        {| x_policy_digest := policy; x_contract_digest := contract; x_claim_digest := claim;
           x_request_digest := request; x_chain_head_digest := head; x_purpose := purpose; x_state := state;
           x_semantic_readback_digest := readback; x_canary_receipt_digest := canary;
           x_predecessor_transition_receipt_digest := pred; x_pre_state_readback_digest := pre;
           x_retry_used := retry; x_receipt_digest := "" |};
      _ ← guarded (str_is "receipt_digest" (x_receipt_digest receipt) d);
      Some receipt
  | _ => None
  end.

Definition record_keys : list string :=
  ["authorization"; "request"; "purpose"; "state"; "receipt"; "canary_receipt_digest"; "retry_used";
   "predecessor_transition_receipt_digest"; "pre_state_readback_digest"].

Definition authorization_keys : list string :=
  ["policy_digest"; "contract_digest"; "request_digest"; "receipt_chain_head_digest"].

(** [by_digest.get(digest)] *)
Definition by_digest (ch : list BoundedCanaryReceipt) (digest : string) : option BoundedCanaryReceipt :=
  assoc digest (map (λ c, (receipt_digest c, c)) ch).

(** The authorization and the request of a sealed record. *)
Definition hydrate_identity (d : list (string * json)) : option (CanaryAuthorization * CanaryMutationRequest) :=
  av ← dict_field "authorization" d;
  rv ← dict_field "request" d;
  _ ← guarded (same_elements av.*1 authorization_keys);
  _ ← guarded (same_elements rv.*1 ["operation"; "branch"; "paths"]);
  ps ← list_field "paths" rv ≫= mapM str_value;
  op ← str_field "operation" rv ≫= of_value operation_value all_github_operations;
  br ← str_field "branch" rv;
  request ← to_option (make_request op br ps);
  ap ← str_field "policy_digest" av;
  ac ← str_field "contract_digest" av;
  ar ← str_field "request_digest" av;
  ah ← str_field "receipt_chain_head_digest" av;
  a ← to_option (make_authorization ap ac ar ah);
  Some (a, request).

Definition hydrate_record (p : BoundedCanaryPolicy) (ch : list BoundedCanaryReceipt) (chain_head : string)
    (value : json) : option TransitionRecord :=
  match value with
  | JObj d =>
      _ ← guarded (same_elements d.*1 record_keys);
      ar ← hydrate_identity d;
      let a := ar.1 in let request := ar.2 in
      _ ← guarded ((a_policy_digest a ==? p_policy_digest p) && (a_contract_digest a ==? p_contract_digest p)
                   && (a_request_digest a ==? request_digest request)
                   && (by_digest ch (receipt_chain_head_digest a) !=? None));
      receipt ← field "receipt" d ≫= hydrate_execution_receipt;
      purpose ← str_field "purpose" d ≫= of_value CanaryTransitionPurpose_value all_purposes;
      state ← str_field "state" d ≫= of_value CanaryTransitionState_value all_states;
      retry ← bool_field "retry_used" d;
      pred ← optional_str_field "predecessor_transition_receipt_digest" d;
      pre ← optional_str_field "pre_state_readback_digest" d;
      _ ← guarded ((x_policy_digest receipt ==? a_policy_digest a) && (x_contract_digest receipt ==? a_contract_digest a)
                   && (x_claim_digest receipt ==? claim_digest a) && (x_request_digest receipt ==? a_request_digest a)
                   && (x_chain_head_digest receipt ==? receipt_chain_head_digest a)
                   && (x_purpose receipt ==? purpose) && (x_state receipt ==? state)
                   && Bool.eqb (x_retry_used receipt) retry
                   && (x_predecessor_transition_receipt_digest receipt ==? pred)
                   && (x_pre_state_readback_digest receipt ==? pre));
      digest ← optional_str_field "canary_receipt_digest" d;
      let canary := digest ≫= by_digest ch in
      _ ← guarded (if state ==? VERIFIED then
                     match canary with
                     | Some c => (x_canary_receipt_digest receipt ==? digest)
                                 && (predecessor_receipt_digest c ==? Some (receipt_chain_head_digest a))
                     | None => false
                     end
                   else (canary ==? None) && (x_canary_receipt_digest receipt ==? None));
      _ ← guarded ((state ==? VERIFIED) || (receipt_chain_head_digest a ==? chain_head));
      Some {| t_authorization := a; t_request := request; t_purpose := purpose; t_state := state;
              t_receipt := receipt; t_canary_receipt := canary; t_retry_used := retry;
              t_predecessor_digest := pred; t_pre_state_digest := pre |}
  | _ => None
  end.

(** ** The bijection between verified records and receipts *)

(** [_require_hydrated_policy_authorization] *)
Definition policy_authorization_ok (p : BoundedCanaryPolicy) (r : TransitionRecord)
    (pred : BoundedCanaryReceipt) : bool :=
  match make_authorization (p_policy_digest p) (p_contract_digest p) (request_digest (t_request r)) (receipt_digest pred) with
  | Ok expected =>
      (operation (t_request r) in? requested_operations p) && (branch (t_request r) ==? p_branch p)
      && forallb (λ path, path in? allowed_paths p) (paths (t_request r)) && (t_authorization r ==? expected)
      && ((t_purpose r !=? EXECUTE) || (t_predecessor_digest r ==? None) && (t_pre_state_digest r ==? None))
  | Err _ => false
  end.

(** [record.canary_receipt is receipt]: receipts of a chain have distinct digests. *)
Definition is_canary (c : BoundedCanaryReceipt) (r : TransitionRecord) : bool :=
  match t_canary_receipt r with Some c' => receipt_digest c' ==? receipt_digest c | None => false end.

(** The check of a rollback or cleanup against the record before it. *)
Definition reverses (verified : list TransitionRecord) (pred : BoundedCanaryReceipt) (r : TransitionRecord) : bool :=
  (t_purpose r ==? EXECUTE)
  || match List.find (is_canary pred) verified with
     | None => false
     | Some prev =>
         (t_predecessor_digest r ==? Some (x_receipt_digest (t_receipt prev)))
         && (t_pre_state_digest r !=? None)
         && match cleanup_action_for (operation (t_request prev)) with
            | Ok inverse => operation (t_request r) ==? inverse
            | Err _ => false
            end
         && (branch (t_request r) ==? branch (t_request prev)) && (paths (t_request r) ==? paths (t_request prev))
     end.

(** The loop over the chain after its genesis receipt; [matched] are the claims
    seen so far. *)
Fixpoint match_chain (p : BoundedCanaryPolicy) (verified : list TransitionRecord) (previous : BoundedCanaryReceipt)
    (matched : list string) (rest : list BoundedCanaryReceipt) : option (list string) :=
  match rest with
  | [] => Some matched
  | c :: rest =>
      ds ← to_option (differences (operation_counts c) (operation_counts previous) (requested_operations p));
      let changed := omap (λ od, if od.2 =? 1 then Some od.1 else None) (zip (requested_operations p) ds) in
      match changed with
      | [op] =>
          _ ← guarded (forallb (λ d, (d =? 0) || (d =? 1)) ds);
          match List.filter (λ r, is_canary c r
                  && (receipt_chain_head_digest (t_authorization r) ==? receipt_digest previous)
                  && (operation (t_request r) ==? op)
                  && (x_canary_receipt_digest (t_receipt r) ==? Some (receipt_digest c))
                  && (x_semantic_readback_digest (t_receipt r) ==? Some (semantic_readback_digest c))) verified with
          | [r] =>
              let claim := claim_digest (t_authorization r) in
              _ ← guarded (negb (claim in? matched) && policy_authorization_ok p r previous
                           && reverses verified previous r);
              match_chain p verified c (claim :: matched) rest
          | _ => None
          end
      | _ => None
      end
  end.

Definition bijection_ok (p : BoundedCanaryPolicy) (ch : list BoundedCanaryReceipt)
    (recs : list TransitionRecord) : bool :=
  let verified := List.filter (λ r, t_state r ==? VERIFIED) recs in
  match ch with
  | [] => false
  | genesis :: rest =>
      (S (length verified) =? length ch)%nat
      && match match_chain p verified genesis [] rest with
         | None => false
         | Some matched =>
             (length matched =? length verified)%nat
             && forallb (λ r,
                  match by_digest ch (receipt_chain_head_digest (t_authorization r)) with
                  | None => false
                  | Some pred => policy_authorization_ok p r pred && reverses verified pred r
                  end) recs
         end
  end.

(** ** Rehydrating a ledger *)

Definition sealed_keys : list string :=
  ["schema"; "policy_digest"; "contract_digest"; "candidate_sha"; "chain"; "records"].

(** The loop over the sealed records: claims and deliveries are distinct. *)
Fixpoint hydrate_records (p : BoundedCanaryPolicy) (ch : list BoundedCanaryReceipt) (head : string)
    (done : list (string * TransitionRecord)) (values : list json) : option (list (string * TransitionRecord)) :=
  match values with
  | [] => Some done
  | v :: values =>
      r ← hydrate_record p ch head v;
      let claim := claim_digest (t_authorization r) in
      _ ← guarded (negb (claim in? done.*1));
      _ ← guarded (negb ((request_digest (t_request r), t_purpose r)
                          in? ((λ kr, (request_digest (t_request kr.2), t_purpose kr.2)) <$> done)));
      hydrate_records p ch head (done ++ [(claim, r)]) values
  end.

Definition hydrate_body (p : BoundedCanaryPolicy) (sealed : json) : option Ledger :=
  match sealed with
  | JObj d =>
      _ ← guarded (same_elements d.*1 sealed_keys);
      _ ← guarded (str_is "schema" "roundwright-canary-execution-ledger/v1" d
                   && str_is "policy_digest" (p_policy_digest p) d
                   && str_is "contract_digest" (p_contract_digest p) d
                   && str_is "candidate_sha" (p_candidate_sha p) d);
      chain_values ← list_field "chain" d;
      record_values ← list_field "records" d;
      ch ← mapM (hydrate_canary_receipt p) chain_values;
      head ← to_option (validate_canary_receipt_chain p (Typed (Typed <$> ch)));
      _ ← guarded (no_dup (receipt_digest <$> ch));
      last ← list.last ch;
      recs ← hydrate_records p ch (receipt_digest last) [] record_values;
      _ ← guarded (bijection_ok p ch (snd <$> recs));
      _ ← to_option (new_ledger p);
      let l := {| l_policy := p; chain := ch; records := recs; hydrated := true |} in
      _ ← (if predecessor_receipt_digest last ==? None then Some None else to_option (predecessor l));
      Some l
  | _ => None
  end.

Definition hydrate (p : BoundedCanaryPolicy) (sealed : json) : py Ledger :=
  match hydrate_body p sealed with
  | Some l => Ok l
  | None => raise CanaryExecutionError "Canary execution ledger hydration is invalid or stale"
  end.

(** ** What a coordinator seals *)

Section sealable.
Context (p : BoundedCanaryPolicy).

(** A receipt the constructor made for this policy, its counts in the order of
    the policy's operations. *)
Record receipt_built (c : BoundedCanaryReceipt) : Prop := {
  bc_made : make_receipt p (result c) (operation_counts c) (semantic_readback_digest c)
              (predecessor_receipt_digest c) = Ok c;
  bc_order : (operation_counts c).*1 = requested_operations p;
}.

Definition request_built (rq : CanaryMutationRequest) : Prop :=
  make_request (operation rq) (branch rq) (paths rq) = Ok rq.

Record record_built (ch : list BoundedCanaryReceipt) (k : string) (r : TransitionRecord) : Prop := {
  bk_key : claim_digest (t_authorization r) = k;
  bk_authorization : let a := t_authorization r in
    make_authorization (a_policy_digest a) (a_contract_digest a) (a_request_digest a) (receipt_chain_head_digest a) = Ok a;
  bk_request : request_built (t_request r);
  bk_receipt : build_execution_receipt (t_receipt r) = Some (t_receipt r);
  bk_canary : ∀ c, t_canary_receipt r = Some c → c ∈ ch;
}.

(** Every object of the ledger was made by its constructor. *)
Record sealable (l : Ledger) : Prop := {
  se_policy : l_policy l = p;
  se_chain : ∀ c, c ∈ chain l → receipt_built c;
  se_records : ∀ k r, (k, r) ∈ records l → record_built (chain l) k r;
}.

Lemma made_receipt_built res counts rb pred c : make_receipt p res counts rb pred = Ok c →
  counts.*1 = requested_operations p → receipt_built c.
Proof.
  intros H Hk. assert (result c = res ∧ operation_counts c = counts ∧ semantic_readback_digest c = rb
    ∧ predecessor_receipt_digest c = pred) as (E1 & E2 & E3 & E4).
  { unfold make_receipt in H. by apply bind_ok in H as ([] & _ & [= <-]). }
  constructor; [by rewrite E1, E2, E3, E4|by rewrite E2].
Qed.

Lemma genesis_built c : genesis_canary_receipt p = Ok c → receipt_built c.
Proof.
  intros H. eapply made_receipt_built; [exact H|]. change (map ?f ?l) with (f <$> l).
  rewrite <- list_fmap_compose. apply list_fmap_id.
Qed.

Lemma advance_built head o rb c : receipt_built head →
  advance_canary_receipt (Typed head) (Typed o) rb = Ok c → receipt_built c.
Proof.
  intros [Hm Hk]. unfold advance_canary_receipt.
  assert (r_policy head = p) as ->.
  { unfold make_receipt in Hm. apply bind_ok in Hm as ([] & _ & Hm). injection Hm as Hm. by rewrite <- Hm. }
  intros ([] & _ & H)%bind_ok. apply bind_ok in H as ([] & _ & H). apply bind_ok in H as (n & _ & H).
  apply bind_ok in H as ([] & _ & H). eapply made_receipt_built; [exact H|].
  unfold increment. change (map ?f ?l) with (f <$> l). rewrite <- list_fmap_compose, <- Hk.
  apply list_fmap_ext. intros i [o' n'] _. cbn. by destruct (bool_decide _).
Qed.

Lemma made_execution_built a purpose state rb canary pred pre retry x :
  make_execution_receipt a purpose state rb canary pred pre retry = Ok x → build_execution_receipt x = Some x.
Proof.
  unfold make_execution_receipt, build_execution_receipt. intros ([] & H & [= <-])%bind_ok.
  match goal with |- context [execution_receipt_check ?y] =>
    replace (execution_receipt_check y) with (Ok (E := exn) ()) by exact (eq_sym H) end.
  reflexivity.
Qed.

(** ** Ledger operations keep a ledger sealable *)

Lemma modify_elem key f l k r' : (k, r') ∈ records (modify key f l) →
  ∃ r, (k, r) ∈ records l ∧ r' = if decide (k = key) then f r else r.
Proof.
  unfold modify. cbn [records set_records]. change (map ?g ?l) with (g <$> l).
  intros ([k2 r] & E & Hin)%list_elem_of_fmap. cbn in E. case_bool_decide; injection E as -> ->; exists r;
    (split; [done|]); by case_decide.
Qed.

Lemma record_built_mono ch ch' k r : (∀ c, c ∈ ch → c ∈ ch') → record_built ch k r → record_built ch' k r.
Proof. intros Hs []. constructor; auto. Qed.

Lemma sealable_modify key f l : sealable l →
  (∀ r, record_built (chain l) key r → record_built (chain l) key (f r)) → sealable (modify key f l).
Proof.
  intros Hs Hf. constructor; [apply Hs|apply Hs|]. intros k r' (r & Hin & ->)%modify_elem.
  apply Hs in Hin. change (chain (modify key f l)) with (chain l). case_decide; [subst; auto|done].
Qed.

Lemma sealable_append l c : sealable l → receipt_built c → sealable (set_chain l (chain l ++ [c])).
Proof.
  intros Hs Hc. constructor; [apply Hs| |].
  - intros c' [Hin|Hin]%elem_of_app; [by apply Hs|]. by apply list_elem_of_singleton in Hin as ->.
  - intros k r Hin. eapply record_built_mono; [|by apply Hs]. intros c' ?. apply elem_of_app. by left.
Qed.

Lemma assign_state_built ch state canary key r : (∀ c, canary = Some c → c ∈ ch) →
  record_built ch key r → record_built ch key (assign_state state canary r).
Proof. intros Hc []. by constructor. Qed.

Lemma assign_receipt_built ch x key r : build_execution_receipt x = Some x →
  record_built ch key r → record_built ch key (assign_receipt x r).
Proof. intros Hx []. by constructor. Qed.

Lemma sealable_update key state rb canary l : sealable l → (∀ c, canary = Some c → receipt_built c) →
  sealable (update key state rb canary l).2.
Proof.
  intros Hs Hc. unfold update. destruct (assoc key (records l)) as [r|]; [|done]. cbn zeta.
  assert (∀ l', sealable l' → (∀ c, canary = Some c → c ∈ chain l') →
    sealable (match make_execution_receipt (t_authorization r) (t_purpose r) state rb (receipt_digest <$> canary)
        (t_predecessor_digest r) (t_pre_state_digest r) (t_retry_used r) with
      | Ok receipt => (Ok (), modify key (assign_receipt receipt) (modify key (assign_state state canary) l'))
      | Err e => (Err e, modify key (assign_state state canary) l')
      end : py unit * Ledger).2) as Hfin.
  { intros l' Hl' Hin. assert (sealable (modify key (assign_state state canary) l')) as H1
      by (apply sealable_modify; [done|]; intros; by apply assign_state_built).
    destruct (make_execution_receipt _ _ _ _ _ _ _ _) as [x|] eqn:E; [|done]. cbn [snd].
    apply sealable_modify; [done|]. intros r' Hr'. apply assign_receipt_built; [by eapply made_execution_built|done]. }
  destruct state, canary as [c|]; cbn [snd]; try done; try (by apply Hfin).
  case_bool_decide; cbn [negb]; [|done]. apply Hfin; [by apply sealable_append; [|apply Hc]|].
  intros c' [= <-]. apply elem_of_app. right. by apply list_elem_of_singleton.
Qed.

Lemma sealable_consume key l : sealable l → sealable (consume_retry key l).2.
Proof.
  intros Hs. unfold consume_retry. destruct (assoc key (records l)) as [r|]; [|done].
  destruct (_ || _); [done|]. cbn zeta.
  assert (sealable (modify key assign_retry l)) as H1
    by (apply sealable_modify; [done|]; intros r' []; by constructor).
  destruct (make_execution_receipt _ _ _ _ _ _ _ _) as [x|] eqn:E; [|done]. cbn [snd].
  apply sealable_modify; [done|]. intros r' Hr'. apply assign_receipt_built; [by eapply made_execution_built|done].
Qed.

Lemma sealable_reserve l a rq purpose pred pre b l' : sealable l → request_built rq →
  make_authorization (a_policy_digest a) (a_contract_digest a) (a_request_digest a) (receipt_chain_head_digest a) = Ok a →
  reserve l a rq purpose pred pre = Ok (b, l') → sealable l'.
Proof.
  intros Hs Hrq Ha. unfold reserve. destruct (assoc _ _); [by destruct (_ || _); [|intros [= _ <-]]|].
  intros (x & Hx & [= _ <-])%bind_ok. constructor; [apply Hs|apply Hs|]. cbn [records set_records chain].
  intros k r [Hin|Hin]%elem_of_app; [by apply Hs|]. apply list_elem_of_singleton in Hin as [= -> ->].
  constructor; cbn; try done. by eapply made_execution_built.
Qed.
End sealable.

(** ** Commands keep a ledger sealable *)

Section commands.
Context {H : Type} `{OwnerHost H} (p : BoundedCanaryPolicy) (context : CanaryAuthorityContext).

Definition Keeps {A} (m : M (H:=H) A) : Prop := ∀ w, sealable p (ledger w) → sealable p (ledger (m w).2).

Lemma Keeps_then {A B} (m : M A) (k : A → M B) : Keeps m → (∀ a, Keeps (k a)) → Keeps (mthen m k).
Proof.
  intros Hm Hk w Hw. unfold mthen. specialize (Hm w Hw). destruct (m w) as [[a|e] w']; cbn in *; [by apply Hk|done].
Qed.

Lemma Keeps_get {B} (k : Ledger → M B) : (∀ l, sealable p l → Keeps (k l)) → Keeps (mthen get_ledger k).
Proof. intros Hk w Hw. by apply Hk. Qed.

Lemma Keeps_lift {A B} (r : py A) (k : A → M B) : (∀ a, r = Ok a → Keeps (k a)) → Keeps (mthen (mlift r) k).
Proof. intros Hk w Hw. unfold mthen, mlift. destruct r; [by apply Hk|done]. Qed.

Lemma Keeps_try {A} (m : M A) c h : Keeps m → Keeps h → Keeps (mtry m c h).
Proof.
  intros Hm Hh w Hw. unfold mtry. specialize (Hm w Hw). destruct (m w) as [[a|e] w']; cbn in *; [done|].
  destruct (c _); [by apply Hh|done].
Qed.

Lemma Keeps_try_lift {A B} (r : py A) c x (k : A → M B) :
  (∀ a, r = Ok a ∨ a = x → Keeps (k a)) → Keeps (mthen (mtry (mlift r) c (mreturn x)) k).
Proof.
  intros Hk w Hw. unfold mthen, mtry, mlift, mreturn. destruct r as [a|e]; [apply Hk; auto|].
  destruct (c _); [apply Hk; auto|done].
Qed.

Lemma Keeps_call {A} (f : H → py A * H) ev : Keeps (host_call f ev).
Proof. intros w Hw. unfold host_call. by destruct (f (host w)). Qed.

Lemma Keeps_return {A} (a : A) : Keeps (mreturn a).
Proof. by intros w Hw. Qed.

Lemma Keeps_raise {A} (r : py A) : Keeps (mlift r).
Proof. by intros w Hw. Qed.

Lemma Keeps_ledger {A} (f : Ledger → py A * Ledger) :
  (∀ l, sealable p l → sealable p (f l).2) → Keeps (on_ledger f).
Proof. intros Hf w Hw. unfold on_ledger. specialize (Hf _ Hw). by destruct (f (ledger w)). Qed.

Lemma Keeps_update key state rb canary : (∀ c, canary = Some c → receipt_built p c) →
  Keeps (on_ledger (update key state rb canary)).
Proof. intros Hc. apply Keeps_ledger. intros l Hl. by apply sealable_update. Qed.

Lemma Keeps_result d key : Keeps (result_of d key).
Proof. apply Keeps_get. intros l _. apply Keeps_return. Qed.

Lemma Keeps_refused why digest key : Keeps (refused_with why digest key).
Proof. apply Keeps_get. intros l _. apply Keeps_return. Qed.

Create HintDb keeps.
#[local] Hint Resolve Keeps_call Keeps_return Keeps_raise Keeps_result Keeps_refused : keeps.
#[local] Hint Extern 1 (Keeps (on_ledger (update _ _ _ None))) => apply Keeps_update; done : keeps.

Lemma Keeps_readback d a rq allow : Keeps (readback d a rq allow).
Proof.
  unfold readback. apply Keeps_then; [apply Keeps_try; auto with keeps|]. intros [[[] dg]|].
  - apply Keeps_then.
    + apply Keeps_try; [|apply Keeps_then; auto with keeps]. apply Keeps_get. intros l Hl.
      destruct (list.last (chain l)) as [head|] eqn:Eh; [|apply Keeps_raise].
      apply Keeps_lift. intros c Hc. apply Keeps_then; [|auto with keeps]. apply Keeps_update.
      intros ? [= <-]. eapply advance_built; [|done]. apply Hl. by apply last_Some_elem_of.
    + intros []; auto with keeps.
  - apply Keeps_get. intros l _. apply Keeps_then; [auto with keeps|]. intros []. apply Keeps_get. intros; apply Keeps_return.
  - apply Keeps_then; auto with keeps.
  - apply Keeps_then; auto with keeps.
Qed.

Lemma Keeps_dispatch d a rq purpose : Keeps (dispatch d a rq purpose).
Proof.
  unfold dispatch, dispatch_call. apply Keeps_then.
  - apply Keeps_try; [|auto with keeps]. apply Keeps_then; auto with keeps.
  - intros [[]|]; [apply Keeps_readback|apply Keeps_try; apply Keeps_readback|apply Keeps_readback].
Qed.

Lemma Keeps_pre_state a rq : Keeps (pre_state a rq).
Proof.
  unfold pre_state. apply Keeps_get. intros l _. apply Keeps_lift. intros [r|] _; [|apply Keeps_raise].
  destruct (t_canary_receipt r); [|apply Keeps_raise]. apply Keeps_lift. intros inverse _.
  destruct (_ || _); [apply Keeps_raise|]. apply Keeps_then; [auto with keeps|intros answer].
  apply Keeps_lift. intros d _. destruct d, answer; auto with keeps.
Qed.

(** An authorized decision carries an authorization its constructor made. *)
Lemma decided_built l rq d a : decide_request p context l rq = Ok d → authorized d = true →
  authorization d = Some a →
  make_authorization (a_policy_digest a) (a_contract_digest a) (a_request_digest a) (receipt_chain_head_digest a) = Ok a.
Proof.
  unfold decide_request. destruct (list.last (chain l)) as [head|]; [|done].
  intros ([] & _ & Hd)%bind_ok Ha Hau. destruct (authorize_claim _ _ _ _ _ Hd Ha) as (h & a' & _ & Ha' & Hm).
  rewrite Hau in Ha'. injection Ha' as <-. pose proof Hm as Hk.
  apply make_authorization_key in Hk as (_ & -> & -> & -> & -> & _). done.
Qed.

Lemma Keeps_begin rq purpose : request_built rq → Keeps (begin p context rq purpose).
Proof.
  intros Hrq. unfold begin. apply Keeps_get. intros l Hl.
  destruct (matching l rq purpose) as [[prior|]|e]; [auto with keeps| |auto with keeps].
  apply Keeps_try_lift. intros d Hd.
  destruct (authorized d) eqn:Ea, (authorization d) as [a|] eqn:Eau; [|auto with keeps..].
  destruct Hd as [Hd| ->]; [|done]. pose proof (decided_built _ _ _ _ Hd Ea Eau) as Hb.
  apply Keeps_then.
  - destruct (bool_decide _); [apply Keeps_return|]. apply Keeps_try; [|auto with keeps].
    apply Keeps_then; [apply Keeps_pre_state|auto with keeps].
  - intros [[pred pre]|]; [|auto with keeps].
    destruct (reserve _ _ _ _ _ _) as [[[] l']|e] eqn:Er; [|auto with keeps..].
    apply Keeps_then; [apply Keeps_ledger; intros; cbn [snd]; exact (sealable_reserve _ _ _ _ _ _ _ _ _ Hl Hrq Hb Er)|]. intros [].
    apply Keeps_then; [apply Keeps_try; auto with keeps|]. intros []; cbn [negb]; [apply Keeps_dispatch|].
    apply Keeps_then; auto with keeps.
Qed.

Lemma Keeps_reconcile claim : Keeps (reconcile p context claim).
Proof.
  unfold reconcile. apply Keeps_lift. intros [] _. apply Keeps_get. intros l _.
  destruct (assoc _ _) as [r|]; [|auto with keeps]. apply Keeps_lift. intros d _.
  destruct (_ || _); [auto with keeps|]. destruct (bool_decide _); [apply Keeps_readback|auto with keeps].
Qed.

Lemma Keeps_retry claim : Keeps (retry p context claim).
Proof.
  unfold retry. apply Keeps_lift. intros [] _. apply Keeps_get. intros l _.
  destruct (assoc _ _) as [r|]; [|auto with keeps]. apply Keeps_lift. intros d _.
  destruct (_ || _); [auto with keeps|]. destruct (negb _); [auto with keeps|].
  apply Keeps_then; [destruct (hydrated l); [apply Keeps_try|]; auto with keeps|]. intros []; cbn [negb].
  - apply Keeps_then; [apply Keeps_ledger; intros; by apply sealable_consume|]. intros []; cbn [negb]; [apply Keeps_dispatch|auto with keeps].
  - apply Keeps_then; auto with keeps.
Qed.

(** Requests are objects of their class. *)
Definition command_built (c : Command) : Prop :=
  match c with CExecute rq | CRollback rq | CCleanup rq => request_built rq | _ => True end.

Lemma Keeps_run c : command_built c → Keeps (run p context c).
Proof. destruct c; cbn; intros Hc; [by apply Keeps_begin..|apply Keeps_reconcile|apply Keeps_retry]. Qed.
End commands.

(** ** What is restored is what was sealed *)

Lemma result_read r : of_value CanaryResult_value all_results (CanaryResult_value r) = Some r.
Proof. by destruct r. Qed.

Lemma purpose_read p : of_value CanaryTransitionPurpose_value all_purposes (CanaryTransitionPurpose_value p) = Some p.
Proof. by destruct p. Qed.

Lemma state_read s : of_value CanaryTransitionState_value all_states (CanaryTransitionState_value s) = Some s.
Proof. by destruct s. Qed.

Lemma operation_read o : of_value operation_value all_github_operations (operation_value o) = Some o.
Proof. by destruct o. Qed.

Lemma operation_value_inj o1 o2 : operation_value o1 = operation_value o2 → o1 = o2.
Proof. by destruct o1, o2. Qed.

Lemma counts_read (counts : list (GitHubMutationOperation * Z)) : NoDup counts.*1 →
  mapM (λ o, n ← int_field (operation_value o) (map (λ oc, (operation_value oc.1, JInt oc.2)) counts); Some (o, n)) counts.*1
  = Some counts.
Proof.
  intros Hnd. apply mapM_Some. apply Forall2_same_length_lookup_2; [by rewrite length_fmap|].
  intros i o [o' n] Ho Hon. rewrite list_lookup_fmap, Hon in Ho. injection Ho as ->. cbn [fst].
  assert (field (operation_value o) (map (λ oc : GitHubMutationOperation * Z, (operation_value oc.1, JInt oc.2)) counts)
    = Some (JInt n)) as E; [|unfold int_field; by rewrite E].
  apply assoc_nodup.
  - assert ((map (λ oc : GitHubMutationOperation * Z, (operation_value oc.1, JInt oc.2)) counts).*1
      = operation_value <$> counts.*1) as ->
      by (change (map ?f counts) with (f <$> counts); by rewrite <- !list_fmap_compose).
    apply NoDup_fmap_2; [|done]. intros ? ?. apply operation_value_inj.
  - apply list_elem_of_fmap. exists (o, n). split; [done|]. by eapply list_elem_of_lookup_2.
Qed.

Lemma built_counts_nodup p c : receipt_built p c → NoDup (operation_counts c).*1.
Proof.
  intros [H _]. unfold make_receipt in H. apply bind_ok in H as ([] & H & _). unfold receipt_fields_check in H.
  apply bind_ok in H as ([] & _ & H). apply bind_ok in H as ([] & H & _). apply require_ok in H. by apply no_dup_spec.
Qed.

Lemma hydrate_receipt_exact p c c' : receipt_built p c →
  hydrate_canary_receipt p (with_digest (receipt_payload c) (receipt_digest c)) = Some c' → c' = c.
Proof.
  intros Hc. pose proof (built_counts_nodup _ _ Hc) as Hnd. destruct Hc as [Hm Hk].
  unfold hydrate_canary_receipt, with_digest, receipt_payload.
  set (d := [_; _] ++ _) || set (d := _ ++ [_]).
  change (dict_field "operation_counts" d) with (Some (map (λ oc, (operation_value oc.1, JInt oc.2)) (operation_counts c))).
  change (str_field "result" d) with (Some (CanaryResult_value (result c))).
  change (str_field "semantic_readback_digest" d) with (Some (semantic_readback_digest c)).
  assert (optional_str_field "predecessor_receipt_digest" d = Some (predecessor_receipt_digest c)) as ->
    by (unfold d; by destruct (predecessor_receipt_digest c)).
  cbn [mbind option_bind]. intros (_ & _ & H)%bind_Some. apply bind_Some in H as (_ & _ & H).
  apply bind_Some in H as (ops & _ & H). apply bind_Some in H as (_ & _ & H). apply bind_Some in H as (_ & _ & H).
  apply bind_Some in H as (values & _ & H). apply bind_Some in H as (_ & _ & H).
  rewrite <- Hk, counts_read in H by done. cbn [mbind option_bind] in H.
  rewrite result_read in H. cbn [mbind option_bind] in H.
  rewrite Hm in H. cbn [to_option mbind option_bind] in H. by apply bind_Some in H as (_ & _ & [= <-]).
Qed.

Lemma hydrate_execution_exact x x' : build_execution_receipt x = Some x →
  hydrate_execution_receipt (with_digest (execution_payload x) (x_receipt_digest x)) = Some x' → x' = x.
Proof.
  intros Hx. unfold hydrate_execution_receipt, with_digest, execution_payload. set (d := _ ++ [_]).
  change (str_field "policy_digest" d) with (Some (x_policy_digest x)).
  change (str_field "contract_digest" d) with (Some (x_contract_digest x)).
  change (str_field "claim_digest" d) with (Some (x_claim_digest x)).
  change (str_field "request_digest" d) with (Some (x_request_digest x)).
  change (str_field "receipt_chain_head_digest" d) with (Some (x_chain_head_digest x)).
  change (str_field "purpose" d) with (Some (CanaryTransitionPurpose_value (x_purpose x))).
  change (str_field "state" d) with (Some (CanaryTransitionState_value (x_state x))).
  change (bool_field "retry_used" d) with (Some (x_retry_used x)).
  assert (optional_str_field "semantic_readback_digest" d = Some (x_semantic_readback_digest x)) as ->
    by (unfold d; by destruct (x_semantic_readback_digest x)).
  assert (optional_str_field "canary_receipt_digest" d = Some (x_canary_receipt_digest x)) as ->
    by (unfold d; by destruct (x_canary_receipt_digest x)).
  assert (optional_str_field "predecessor_transition_receipt_digest" d = Some (x_predecessor_transition_receipt_digest x)) as ->
    by (unfold d; by destruct (x_predecessor_transition_receipt_digest x)).
  assert (optional_str_field "pre_state_readback_digest" d = Some (x_pre_state_readback_digest x)) as ->
    by (unfold d; by destruct (x_pre_state_readback_digest x)).
  cbn [mbind option_bind]. rewrite purpose_read, state_read.
  cbn [mbind option_bind]. intros (_ & _ & H)%bind_Some. apply bind_Some in H as (y & Hy & H).
  apply bind_Some in H as (_ & _ & [= <-]).
  assert (build_execution_receipt x = Some y) as E; [|congruence]. rewrite <- Hy. unfold build_execution_receipt. reflexivity.
Qed.

Lemma by_digest_elem ch c : NoDup (receipt_digest <$> ch) → c ∈ ch → by_digest ch (receipt_digest c) = Some c.
Proof.
  intros Hnd Hin. apply assoc_nodup.
  - assert ((map (λ c, (receipt_digest c, c)) ch).*1 = receipt_digest <$> ch) as ->; [|done].
    change (map ?f ch) with (f <$> ch). by rewrite <- list_fmap_compose.
  - apply list_elem_of_fmap. by exists c.
Qed.

Lemma hydrate_identity_exact d r ar :
  dict_field "authorization" d = Some
    [("policy_digest", JStr (a_policy_digest (t_authorization r)));
     ("contract_digest", JStr (a_contract_digest (t_authorization r)));
     ("request_digest", JStr (a_request_digest (t_authorization r)));
     ("receipt_chain_head_digest", JStr (receipt_chain_head_digest (t_authorization r)))] →
  dict_field "request" d = Some
    [("operation", JStr (operation_value (operation (t_request r)))); ("branch", JStr (branch (t_request r)));
     ("paths", jstrs (paths (t_request r)))] →
  (let a := t_authorization r in
   make_authorization (a_policy_digest a) (a_contract_digest a) (a_request_digest a) (receipt_chain_head_digest a) = Ok a) →
  request_built (t_request r) →
  hydrate_identity d = Some ar → ar = (t_authorization r, t_request r).
Proof.
  intros Ha Hr Hma Hmr. unfold hydrate_identity. rewrite Ha, Hr. cbn [mbind option_bind].
  set (rv := [("operation", _); _; _]). set (av := [("policy_digest", _); _; _; _]).
  change (list_field "paths" rv) with (Some (map JStr (paths (t_request r)))).
  change (str_field "operation" rv) with (Some (operation_value (operation (t_request r)))).
  change (str_field "branch" rv) with (Some (branch (t_request r))).
  change (str_field "policy_digest" av) with (Some (a_policy_digest (t_authorization r))).
  change (str_field "contract_digest" av) with (Some (a_contract_digest (t_authorization r))).
  change (str_field "request_digest" av) with (Some (a_request_digest (t_authorization r))).
  change (str_field "receipt_chain_head_digest" av) with (Some (receipt_chain_head_digest (t_authorization r))).
  cbn [mbind option_bind]. cbv zeta in Hma. rewrite Hma.
  assert (mapM str_value (map JStr (paths (t_request r))) = Some (paths (t_request r))) as ->.
  { apply mapM_Some, Forall2_fmap_l, Forall2_same_length_lookup_2; [done|]. intros i x y Hx Hy. by simplify_eq. }
  rewrite operation_read.
  cbn [mbind option_bind]. unfold request_built in Hmr. rewrite Hmr. cbn [to_option mbind option_bind].
  intros (_ & _ & H)%bind_Some. by apply bind_Some in H as (_ & _ & [= <-]).
Qed.

Lemma hydrate_record_exact p ch head k r r' : NoDup (receipt_digest <$> ch) → record_built ch k r →
  hydrate_record p ch head (sealed_record r) = Some r' → r' = r.
Proof.
  intros Hnd [_ Ha Hrq Hx Hc]. unfold hydrate_record, sealed_record. set (d := [_; _; _; _; _; _; _; _; _]).
  intros (_ & _ & H)%bind_Some. apply bind_Some in H as (ar & Har & H).
  assert (ar = (t_authorization r, t_request r)) as ->
    by (by apply (hydrate_identity_exact d r ar)).
  cbn [fst snd] in H. apply bind_Some in H as (_ & _ & H).
  change (field "receipt" d) with (Some (with_digest (execution_payload (t_receipt r)) (x_receipt_digest (t_receipt r)))) in H.
  change (str_field "purpose" d) with (Some (CanaryTransitionPurpose_value (t_purpose r))) in H.
  change (str_field "state" d) with (Some (CanaryTransitionState_value (t_state r))) in H.
  change (bool_field "retry_used" d) with (Some (t_retry_used r)) in H.
  assert (optional_str_field "predecessor_transition_receipt_digest" d = Some (t_predecessor_digest r)) as E1
    by (unfold d; by destruct (t_predecessor_digest r)).
  assert (optional_str_field "pre_state_readback_digest" d = Some (t_pre_state_digest r)) as E2
    by (unfold d; by destruct (t_pre_state_digest r)).
  assert (optional_str_field "canary_receipt_digest" d = Some (receipt_digest <$> t_canary_receipt r)) as E3
    by (unfold d; by destruct (t_canary_receipt r)).
  rewrite E1, E2, E3 in H. cbn [mbind option_bind] in H. clear E1 E2 E3.
  apply bind_Some in H as (x & Hrec & H). apply hydrate_execution_exact in Hrec as ->; [|done].
  rewrite purpose_read, state_read in H.
  cbn [mbind option_bind] in H.
  assert ((receipt_digest <$> t_canary_receipt r) ≫= by_digest ch = t_canary_receipt r) as Hcan.
  { destruct (t_canary_receipt r) as [c|]; [|done]. cbn. apply by_digest_elem; [done|]. by apply Hc. }
  cbn [mbind option_bind] in Hcan. rewrite Hcan in H.
  apply bind_Some in H as (_ & _ & H). apply bind_Some in H as (_ & _ & H). apply bind_Some in H as (_ & _ & [= <-]).
  by destruct r.
Qed.

Lemma hydrate_records_exact p ch head recs done_ out : NoDup (receipt_digest <$> ch) →
  (∀ k r, (k, r) ∈ recs → record_built ch k r) →
  hydrate_records p ch head done_ (map (λ kr, sealed_record kr.2) recs) = Some out → out = done_ ++ recs.
Proof.
  intros Hnd. revert done_. induction recs as [|[k r] recs IH]; intros done_ Hb H.
  { injection H as <-. by rewrite app_nil_r. }
  cbn [map hydrate_records snd] in H. apply bind_Some in H as (r' & Hr & H).
  assert (record_built ch k r) as Hk by (apply Hb; constructor).
  apply (hydrate_record_exact p ch head k r r' Hnd Hk) in Hr as ->.
  apply bind_Some in H as (_ & _ & H). apply bind_Some in H as (_ & _ & H).
  rewrite (bk_key _ _ _ Hk) in H. apply IH in H; [|intros; apply Hb; by right].
  by rewrite H, <- app_assoc.
Qed.

(** The ledger a replacement coordinator starts with. *)
Definition rehydrated (l : Ledger) : Ledger :=
  {| l_policy := l_policy l; chain := chain l; records := records l; hydrated := true |}.

Lemma hydrate_exact p l l' : sealable p l → hydrate p (sealed_state l) = Ok l' → l' = rehydrated l.
Proof.
  intros Hs. unfold hydrate. destruct (hydrate_body p (sealed_state l)) as [out|] eqn:E; [|done]. intros [= <-].
  unfold hydrate_body, sealed_state in E. set (d := [_; _; _; _; _; _]) in E.
  change (list_field "chain" d) with (Some (map (λ c, with_digest (receipt_payload c) (receipt_digest c)) (chain l))) in E.
  change (list_field "records" d) with (Some (map (λ kr, sealed_record kr.2) (records l))) in E.
  cbn [mbind option_bind] in E. apply bind_Some in E as (_ & _ & E). apply bind_Some in E as (_ & _ & E).
  apply bind_Some in E as (ch & Hch & E).
  assert (ch = chain l) as ->.
  { apply mapM_Some in Hch. apply Forall2_fmap_l in Hch.
    assert (∀ c, c ∈ chain l → receipt_built p c) as Hb by apply Hs. revert Hb Hch. clear.
    revert ch. induction (chain l) as [|c cs IH]; intros ch Hb Hch; inversion Hch as [|? c' ? cs' Hc Hcs]; subst; [done|].
    f_equal; [|apply IH; [intros; apply Hb; by right|done]]. eapply hydrate_receipt_exact; [|exact Hc]. apply Hb. constructor. }
  apply bind_Some in E as (hd & _ & E). apply bind_Some in E as (u & Hnd & E).
  unfold guarded in Hnd. destruct (no_dup (receipt_digest <$> chain l)) eqn:Hd; [|done]. apply no_dup_spec in Hd.
  apply bind_Some in E as (last & _ & E). apply bind_Some in E as (recs & Hrecs & E).
  apply hydrate_records_exact in Hrecs as ->; [|done|apply Hs].
  apply bind_Some in E as (_ & _ & E). apply bind_Some in E as (_ & _ & E). apply bind_Some in E as (_ & _ & [= <-]).
  unfold rehydrated. by rewrite (se_policy _ _ Hs).
Qed.

(** ** Coordinator lifetimes: commands under any context, and restarts *)

Section lifetimes.
Context {H : Type} `{OwnerHostTyped H} (p : BoundedCanaryPolicy).

(** A restart replaces the coordinator; the owner's host, and what was asked of
    it, stay. *)
Inductive lifetime : World (H:=H) → Prop :=
  | life_start l h : new_ledger p = Ok l → lifetime {| ledger := l; host := h; trace := [] |}
  | life_command context c w : lifetime w → command_built c → lifetime (run p context c w).2
  | life_restart w l : lifetime w → hydrate p (sealed_state (ledger w)) = Ok l →
      lifetime {| ledger := l; host := host w; trace := trace w |}.

Lemma new_ledger_sealable l : new_ledger p = Ok l → sealable p l.
Proof.
  unfold new_ledger. intros (g & Hg & [= <-])%bind_ok. constructor; cbn; [done| |].
  - intros c ->%list_elem_of_singleton. by apply genesis_built.
  - intros k r Hr. by apply elem_of_nil in Hr.
Qed.

Lemma rehydrated_sealable l : sealable p l → sealable p (rehydrated l).
Proof. intros []. by constructor. Qed.

Lemma rehydrated_good (w : World (H:=H)) : good p w →
  good p {| ledger := rehydrated (ledger w); host := host w; trace := trace w |}.
Proof. intros [[] []]. by split; constructor. Qed.

Lemma lifetime_invariant w : policy_constructed p → lifetime w → good p w ∧ sealable p (ledger w).
Proof.
  intros Hp. induction 1 as [l h Hl|context c w _ [Hg Hs] Hc|w l _ [Hg Hs] Hh].
  - split; [by apply new_ledger_good|by apply new_ledger_sealable].
  - split; [by apply (ad_good _ _ _ (run_advances p context Hp w c Hg))|by apply Keeps_run].
  - apply (hydrate_exact p) in Hh as ->; [|done]. split; [by apply rehydrated_good|by apply rehydrated_sealable].
Qed.
End lifetimes.

Lemma hydrate_record_head p ch head value r : hydrate_record p ch head value = Some r →
  t_state r = VERIFIED ∨ receipt_chain_head_digest (t_authorization r) = head.
Proof.
  unfold hydrate_record. destruct value; try done.
  repeat (let x := fresh "x" in let E := fresh "E" in
          intros (x & E & H)%bind_Some; revert H; cbv zeta).
  intros [= <-]. cbn. unfold guarded in *.
  match goal with E : (if (_ ==? VERIFIED) || _ then _ else _) = _ |- _ => revert E end.
  destruct (_ || _) eqn:Eo; [|done]. intros _. apply orb_true_iff in Eo as [Eo|Eo]; [left|right]; by breflect.
Qed.

Lemma hydrate_records_head p ch head values done_ out : hydrate_records p ch head done_ values = Some out →
  ∀ k r, (k, r) ∈ out → (k, r) ∈ done_ ∨ t_state r = VERIFIED ∨ receipt_chain_head_digest (t_authorization r) = head.
Proof.
  revert done_. induction values as [|v values IH]; intros done_ H k r Hin.
  { injection H as <-. by left. }
  cbn [hydrate_records] in H. apply bind_Some in H as (r' & Hr & H). apply hydrate_record_head in Hr.
  apply bind_Some in H as (_ & _ & H). apply bind_Some in H as (_ & _ & H).
  destruct (IH _ H k r Hin) as [[Hd|[= -> ->]%list_elem_of_singleton]%elem_of_app|Hd]; auto.
Qed.

Lemma hydrate_head p sealed l c : hydrate p sealed = Ok l → list.last (chain l) = Some c →
  ∀ k r, (k, r) ∈ records l → t_state r = VERIFIED ∨ receipt_chain_head_digest (t_authorization r) = receipt_digest c.
Proof.
  unfold hydrate. destruct (hydrate_body p sealed) as [out|] eqn:E; [|done]. intros [= <-].
  unfold hydrate_body in E. destruct sealed; try done.
  repeat (let x := fresh "x" in let H := fresh "H" in
          apply bind_Some in E as (x & H & E); cbv beta zeta in E).
  injection E as <-. cbn. intros Hl k r Hr.
  match goal with H : hydrate_records _ _ _ _ _ = _ |- _ => destruct (hydrate_records_head _ _ _ _ _ _ H k r Hr) as [Hn|Hn] end;
    [by apply elem_of_nil in Hn|]. by simplify_eq.
Qed.

(** ** The guarantees across restarts *)

(** a replacement coordinator that restores the sealed state of any ledger
    the program can have reached has exactly its policy, receipt chain and
    transition records, and is marked as restored. *)
Theorem rehydration_is_exact {H} `{OwnerHostTyped H} policy (w : World (H:=H)) l :
  policy_constructed policy → lifetime policy w → hydrate policy (sealed_state (ledger w)) = Ok l →
  l_policy l = l_policy (ledger w) ∧ chain l = chain (ledger w) ∧ records l = records (ledger w) ∧ hydrated l = true.
Proof.
  intros Hp [_ Hs]%lifetime_invariant Hh; [|done]. by apply (hydrate_exact policy) in Hh as ->.
Qed.

(** C29 : restarts keep the coordinator's safety: over any lifetime of commands,
    run one after another under any contexts, and restarts from the sealed state, the chain stays
    valid with one link per verified transition and within the call budget, and
    no claim is dispatched more often than once plus its recorded retry. *)
Theorem restarts_keep_safety {H} `{OwnerHostTyped H} policy (w : World (H:=H)) :
  policy_constructed policy → lifetime policy w →
  (∃ head, validate_canary_receipt_chain policy (Typed (Typed <$> chain (ledger w))) = Ok head)
  ∧ length (chain (ledger w)) = S (length (verified (ledger w)))
  ∧ Z.of_nat (length (verified (ledger w))) ≤ total_calls (budget policy)
  ∧ (∀ k, dispatches k (trace w) ≤ match assoc k (records (ledger w)) with
                                   | None => 0
                                   | Some r => if t_retry_used r then 2 else 1
                                   end)%nat
  ∧ ∀ before k p after, trace w = before ++ EvDispatch k p :: after → ∃ key, EvClaim key k true ∈ before.
Proof.
  intros Hp [Hg _]%lifetime_invariant; [|done]. destruct (good_safe policy Hp w Hg) as (? & ? & ? & ? & ? & _).
  by split_and!.
Qed.

(** a ledger in which an unverified reservation was made at an earlier
    chain head than the current one cannot be restored from its own sealed
    state. *)
Theorem stale_reservation_blocks_restart {H} `{OwnerHostTyped H} policy (w : World (H:=H)) c k r :
  policy_constructed policy → lifetime policy w → list.last (chain (ledger w)) = Some c →
  (k, r) ∈ records (ledger w) → t_state r ≠ VERIFIED →
  receipt_chain_head_digest (t_authorization r) ≠ receipt_digest c →
  hydrate policy (sealed_state (ledger w))
  = raise CanaryExecutionError "Canary execution ledger hydration is invalid or stale".
Proof.
  intros Hp [_ Hs]%lifetime_invariant Hc Hr Hv Hh; [|done].
  destruct (hydrate policy (sealed_state (ledger w))) as [l|e] eqn:E.
  - pose proof (hydrate_exact policy _ _ Hs E) as ->.
    destruct (hydrate_head _ _ _ c E Hc k r Hr); contradiction.
  - unfold hydrate in E. by destruct (hydrate_body _ _) in E.
Qed.

(** ** A host with an exclusive lease, and a ledger it strands *)

Definition leased : Type := list (string * string) * script.

Definition leased_claim (key claim : string) (h : leased) : py bool * leased :=
  match assoc key h.1 with
  | Some owner => (Ok (owner ==? claim), h)
  | None => (Ok true, ((key, claim) :: h.1, h.2))
  end.

Definition leased_answer (h : leased) : py (dyn CanarySemanticReadback) * leased :=
  let '(r, s) := scripted h.2 in (r, (h.1, s)).

#[local] Instance leased_host : OwnerHost leased := {|
  lease_claim := leased_claim;
  broker_dispatch a rq purpose h := (Ok (Typed true), h);
  broker_readback a rq h := leased_answer h;
  broker_pre_readback a rq d h := leased_answer h;
|}.

Lemma leased_constructed h r h' : leased_answer h = (Ok (Typed r), h') → CanarySemanticReadback_post_init r = Ok ().
Proof.
  unfold leased_answer. destruct (scripted h.2) as [r' s] eqn:E. intros [= -> _]. by eapply scripted_constructed.
Qed.

#[local] Instance leased_host_typed : OwnerHostTyped leased.
Proof. split; intros; by eapply leased_constructed. Qed.

(** Create a branch, ambiguous; comment, whose lease is refused; reconcile the
    branch, applied. *)
Definition sample_branch_claim : string :=
  Eval vm_compute in claim_digest sample_execute_authorization.

Definition stranding_commands : list Command :=
  [CExecute (sample_request GH_CREATE_BRANCH); CExecute (sample_request GH_COMMENT); CReconcile sample_branch_claim].

Definition leased_world (s : script) : World (H:=leased) :=
  {| ledger := sample_ledger; host := ([], s); trace := [] |}.

Definition quarantined_world : World (H:=leased) :=
  Eval vm_compute in run_all sample_canary sample_start (take 1 stranding_commands) (leased_world [AMBIGUOUS; APPLIED]).

Definition stranded_world : World (H:=leased) :=
  Eval vm_compute in run_all sample_canary sample_start (drop 1 stranding_commands) quarantined_world.

Lemma quarantined_run :
  run_all sample_canary sample_start (take 1 stranding_commands) (leased_world [AMBIGUOUS; APPLIED]) = quarantined_world.
Proof. vm_compute. reflexivity. Qed.

Lemma stranded_run :
  run_all sample_canary sample_start (drop 1 stranding_commands) quarantined_world = stranded_world.
Proof. vm_compute. reflexivity. Qed.

Lemma run_all_lifetime {H} `{OwnerHostTyped H} policy context cs (w : World (H:=H)) :
  lifetime policy w → Forall command_built cs → lifetime policy (run_all policy context cs w).
Proof.
  intros Hw Hcs. revert w Hw. induction Hcs as [|c cs Hc _ IH]; intros w Hw; [done|].
  apply IH. by apply life_command.
Qed.

Lemma sample_new_ledger : new_ledger sample_canary = Ok sample_ledger.
Proof. vm_compute. reflexivity. Qed.

Lemma sample_request_built op : op ∈ [GH_CREATE_BRANCH; GH_COMMENT] → request_built (sample_request op).
Proof. intros Hop. repeat (apply elem_of_cons in Hop as [->|Hop]; [vm_compute; reflexivity|]). by apply elem_of_nil in Hop. Qed.

Lemma quarantined_lifetime : lifetime sample_canary quarantined_world.
Proof.
  rewrite <- quarantined_run. apply run_all_lifetime; [apply life_start, sample_new_ledger|].
  repeat constructor; cbn; apply sample_request_built; repeat constructor.
Qed.

Lemma stranded_lifetime : lifetime sample_canary stranded_world.
Proof.
  rewrite <- stranded_run. apply run_all_lifetime; [apply quarantined_lifetime|].
  repeat constructor; cbn; apply sample_request_built; repeat constructor.
Qed.

Lemma quarantined_hydrates :
  hydrate sample_canary (sealed_state (ledger quarantined_world)) = Ok (rehydrated (ledger quarantined_world)).
Proof. vm_compute. reflexivity. Qed.

Lemma rehydration_is_exact_witness :
  hydrate sample_canary (sealed_state (ledger quarantined_world)) = Ok (rehydrated (ledger quarantined_world))
  ∧ records (rehydrated (ledger quarantined_world)) = records (ledger quarantined_world).
Proof.
  split; [exact quarantined_hydrates|].
  exact (proj1 (proj2 (proj2 (rehydration_is_exact sample_canary quarantined_world _ sample_canary_constructed
    quarantined_lifetime quarantined_hydrates)))).
Defined.

Lemma restarts_keep_safety_witness :
  let w := {| ledger := rehydrated (ledger quarantined_world); host := host quarantined_world; trace := trace quarantined_world |} in
  length (chain (ledger w)) = S (length (verified (ledger w))).
Proof.
  exact (proj1 (proj2 (restarts_keep_safety sample_canary _ sample_canary_constructed
    (life_restart sample_canary _ _ quarantined_lifetime quarantined_hydrates)))).
Defined.

(** With an exclusive lease the commands above reach a ledger that cannot be
    restored. *)
Lemma stale_reservation_blocks_restart_witness :
  hydrate sample_canary (sealed_state (ledger stranded_world))
  = raise CanaryExecutionError "Canary execution ledger hydration is invalid or stale".
Proof.
  eapply (stale_reservation_blocks_restart sample_canary stranded_world);
    [exact sample_canary_constructed|exact stranded_lifetime|reflexivity|right; left| |].
  - discriminate.
  - discriminate.
Defined.
