(* ===== verification/Handoff.v ===== *)
(** * Deployment handoff (src/roundwright/deployment_handoff.py)

    The store of the canonical authority and the coordinators that issue, claim,
    hand over, revoke and tear down deployment authority.  The store is explicit
    state; an operation gives the decision (or the exception) and the store
    after it.  A coordinator is identified by its private owner object. *)

From S2P Require Import Prelude Sha256 Json PyTime Uuid RuntimeBinding.
Open Scope Z_scope.

Inductive HandoffPhase := STOPPING | RECONCILED | REVOKED.

Inductive AuthorityReceiptVerificationStatus :=
  | RV_FRESH | RV_MISSING | RV_STALE | RV_COPIED | RV_CONFLICTING | RV_REVOKED.

Inductive HandoffRecoveryStatus := STALE_OWNER | HR_MISSING | HR_CONFLICTING.

#[export] Instance HandoffPhase_eq_dec : EqDecision HandoffPhase.
Proof. solve_decision. Defined.
#[export] Instance AuthorityReceiptVerificationStatus_eq_dec : EqDecision AuthorityReceiptVerificationStatus.
Proof. solve_decision. Defined.
#[export] Instance HandoffRecoveryStatus_eq_dec : EqDecision HandoffRecoveryStatus.
Proof. solve_decision. Defined.

(** ** Evidence *)

Definition require_fingerprint (value description : string) : py unit :=
  require (match_hex 64 value) DeploymentHandoffError (String.append description " fingerprint is invalid").

Definition require_candidate (value description : string) : py unit :=
  require (match_hex 40 value || match_hex 64 value) DeploymentHandoffError
    (String.append description " candidate identity is invalid").

Definition require_utc (value : datetime) (description : string) : py unit :=
  require (is_utc value) DeploymentHandoffError (String.append description " is invalid").

Definition require_fingerprints : list (string * string) → py unit :=
  for_each (λ vd, require_fingerprint vd.1 vd.2).

Record DeploymentAuthorityIdentity := {
  i_repository : string;
  i_checkout : string;
  i_state_store : string;
  i_state_id : UUID;
  i_deployment : string;
  i_candidate : string;
  i_environment : string;
  i_runtime_binding : RuntimeBinding;
}.

Definition DeploymentAuthorityIdentity_post_init (i : DeploymentAuthorityIdentity) : py unit :=
  _ ← require_fingerprints
        [(i_repository i, "repository"); (i_checkout i, "canonical checkout");
         (i_state_store i, "state store"); (i_deployment i, "deployment"); (i_environment i, "environment")];
  require_candidate (i_candidate i) "deployment".

(** [==] of two identities: dataclass equality, which compares the runtime
    bindings by their own dataclass equality. *)
Definition identity_eq (a b : DeploymentAuthorityIdentity) : bool :=
  all_true [i_repository a ==? i_repository b; i_checkout a ==? i_checkout b;
            i_state_store a ==? i_state_store b; i_state_id a ==? i_state_id b;
            i_deployment a ==? i_deployment b; i_candidate a ==? i_candidate b;
            i_environment a ==? i_environment b;
            RuntimeBinding_eq (i_runtime_binding a) (i_runtime_binding b)].

Record DeploymentAuthorityHandoffReceipt := {
  r_fingerprint : string;
  r_identity : DeploymentAuthorityIdentity;
  r_issued_at : datetime;
  r_expires_at : datetime;
}.

Definition DeploymentAuthorityHandoffReceipt_post_init (r : DeploymentAuthorityHandoffReceipt) : py unit :=
  _ ← require_fingerprint (r_fingerprint r) "authority receipt";
  _ ← require_utc (r_issued_at r) "authority receipt issue time";
  _ ← require_utc (r_expires_at r) "authority receipt expiry";
  require (negb (dt_leb (r_expires_at r) (r_issued_at r))) DeploymentHandoffError
    "authority receipt validity window is invalid".

Definition receipt_eq (a b : DeploymentAuthorityHandoffReceipt) : bool :=
  all_true [r_fingerprint a ==? r_fingerprint b; identity_eq (r_identity a) (r_identity b);
            r_issued_at a ==? r_issued_at b; r_expires_at a ==? r_expires_at b].

Definition binding_payload (r : DeploymentAuthorityHandoffReceipt) : json :=
  let i := r_identity r in
  JObj [("receipt_fingerprint", JStr (r_fingerprint r));
        ("repository_fingerprint", JStr (i_repository i));
        ("canonical_checkout_fingerprint", JStr (i_checkout i));
        ("state_store_fingerprint", JStr (i_state_store i));
        ("state_id", JStr (uuid_str (i_state_id i)));
        ("deployment_fingerprint", JStr (i_deployment i));
        ("candidate_sha", JStr (i_candidate i));
        ("environment_fingerprint", JStr (i_environment i));
        ("runtime_binding", JStr (fingerprint (i_runtime_binding i)));
        ("issued_at", JStr (isoformat (r_issued_at r)));
        ("expires_at", JStr (isoformat (r_expires_at r)))].

Definition binding_digest (r : DeploymentAuthorityHandoffReceipt) : string := sha256_json (binding_payload r).
Arguments binding_digest : simpl never.

Record DeploymentAuthorityReceiptVerification := {
  v_evidence : string;
  v_receipt : string;
  v_binding_digest : string;
  v_repository : string;
  v_state_store : string;
  v_state_id : UUID;
  v_candidate : string;
  v_environment : string;
  v_status : AuthorityReceiptVerificationStatus;
}.

Definition DeploymentAuthorityReceiptVerification_post_init (v : DeploymentAuthorityReceiptVerification) : py unit :=
  _ ← require_fingerprints
        [(v_evidence v, "receipt verification evidence"); (v_receipt v, "verified receipt");
         (v_binding_digest v, "verified receipt binding"); (v_repository v, "verified repository");
         (v_state_store v, "verified state store"); (v_environment v, "verified environment")];
  require_candidate (v_candidate v) "verified".

Record HandoffReconciliation := {
  rc_handoff : string;
  rc_old_receipt : string;
  rc_state_store : string;
  rc_state_id : UUID;
  dispatcher_stopped : bool;
  children_reconciled : bool;
  lease_reconciled : bool;
  rc_evidence : string;
}.

Definition HandoffReconciliation_post_init (e : HandoffReconciliation) : py unit :=
  require_fingerprints
    [(rc_handoff e, "handoff"); (rc_old_receipt e, "old receipt"); (rc_state_store e, "state store");
     (rc_evidence e, "reconciliation evidence")].

Definition complete (e : HandoffReconciliation) : bool :=
  dispatcher_stopped e && children_reconciled e && lease_reconciled e.

Record HandoffTeardown := {
  td_handoff : string;
  td_old_receipt : string;
  td_state_store : string;
  td_state_id : UUID;
  resources_torn_down : bool;
  td_evidence : string;
}.

Definition HandoffTeardown_post_init (e : HandoffTeardown) : py unit :=
  require_fingerprints
    [(td_handoff e, "handoff"); (td_old_receipt e, "old receipt"); (td_state_store e, "state store");
     (td_evidence e, "teardown evidence")].

Record HandoffRecoveryClaim := {
  cl_evidence : string;
  cl_handoff : string;
  cl_old_receipt : string;
  cl_binding_digest : string;
  cl_prior_owner : string;
  cl_prior_generation : Z;
  cl_replacement_owner : string;
  cl_state_store : string;
  cl_state_id : UUID;
  cl_status : HandoffRecoveryStatus;
  cl_observed_at : datetime;
  cl_expires_at : datetime;
}.

Definition HandoffRecoveryClaim_post_init (c : HandoffRecoveryClaim) : py unit :=
  _ ← require_fingerprints
        [(cl_evidence c, "handoff recovery evidence"); (cl_handoff c, "handoff recovery");
         (cl_old_receipt c, "recovery old receipt"); (cl_binding_digest c, "recovery receipt binding");
         (cl_prior_owner c, "recovery prior owner claim");
         (cl_replacement_owner c, "recovery replacement owner claim"); (cl_state_store c, "recovery state store")];
  _ ← require (1 <=? cl_prior_generation c) DeploymentHandoffError "handoff recovery claim is invalid";
  _ ← require_utc (cl_observed_at c) "handoff recovery observation time";
  _ ← require_utc (cl_expires_at c) "handoff recovery expiry";
  require (negb (dt_leb (cl_expires_at c) (cl_observed_at c))) DeploymentHandoffError
    "handoff recovery validity window is invalid".

Record HandoffProgress := {
  p_handoff : string;
  p_old_receipt : string;
  p_new_identity : DeploymentAuthorityIdentity;
  p_phase : HandoffPhase;
  p_reconciliation : option HandoffReconciliation;
  p_owner_claim : option string;
  p_owner_generation : Z;
  p_consumed : list string;
}.

Definition reconciliation_complete (p : HandoffProgress) : bool :=
  match p_reconciliation p with Some e => complete e | None => false end.

Definition HandoffProgress_post_init (p : HandoffProgress) : py unit :=
  _ ← require_fingerprint (p_handoff p) "handoff";
  _ ← require_fingerprint (p_old_receipt p) "old receipt";
  _ ← require (match p_owner_claim p with Some c => match_hex 64 c | None => false end) DeploymentHandoffError
        "handoff owner claim fingerprint is invalid";
  _ ← require (1 <=? p_owner_generation p) DeploymentHandoffError "handoff owner claim generation is invalid";
  _ ← require (no_dup (p_consumed p)) DeploymentHandoffError "handoff recovery evidence history is invalid";
  _ ← for_each (λ v, require_fingerprint v "handoff recovery evidence") (p_consumed p);
  match p_phase p with
  | STOPPING => require (match p_reconciliation p with None => true | Some _ => false end) DeploymentHandoffError
                  "stopping handoff cannot have reconciliation evidence"
  | RECONCILED => require (reconciliation_complete p) DeploymentHandoffError
                    "reconciled handoff lacks complete evidence"
  | REVOKED => require (reconciliation_complete p) DeploymentHandoffError
                 "revoked handoff lacks complete evidence"
  end.

Record HandoffDecision := {
  authorized : bool;
  reason : string;
  d_receipt_fingerprint : option string;
}.

Definition accept (reason : string) (receipt : string) : HandoffDecision :=
  {| authorized := true; reason := reason; d_receipt_fingerprint := Some receipt |}.

Definition deny (reason : string) : HandoffDecision :=
  {| authorized := false; reason := reason; d_receipt_fingerprint := None |}.

Record SchedulerWakeupDecision := {
  requested : bool;
  w_reason : string;
  w_receipt_fingerprint : option string;
}.

(** ** The store *)

(** A coordinator's private owner object, by its identity. *)
Abbreviation coordinator := nat.

(** The fields [_claim_*] but for the generation, and the fields [_handoff_*];
    they are set and cleared together. *)
Record AuthorityClaim := {
  c_owner : option coordinator;
  c_receipt : option string;
  c_binding : option string;
  c_fingerprint : option string;
}.

Record HandoffClaim := {
  h_owner : option coordinator;
  h_fingerprint : option string;
  h_binding : option string;
  h_claim : option string;
  h_generation : option Z;
}.

Definition no_claim : AuthorityClaim :=
  {| c_owner := None; c_receipt := None; c_binding := None; c_fingerprint := None |}.

Definition no_handoff : HandoffClaim :=
  {| h_owner := None; h_fingerprint := None; h_binding := None; h_claim := None; h_generation := None |}.

Record Store := {
  state_store_fingerprint : string;
  state_id : UUID;
  active : option DeploymentAuthorityHandoffReceipt;
  verification : option DeploymentAuthorityReceiptVerification;
  progress : option HandoffProgress;
  revoked : gset string;
  claim : AuthorityClaim;
  claim_generation : Z;
  handoff : HandoffClaim;
  consumed : gset string;
}.

Definition new_store (fp : string) (id : UUID) : py Store :=
  _ ← require_fingerprint fp "state store";
  Ok {| state_store_fingerprint := fp; state_id := id; active := None; verification := None; progress := None;
        revoked := ∅; claim := no_claim; claim_generation := 0; handoff := no_handoff; consumed := ∅ |}.

Definition set_active (r : option DeploymentAuthorityHandoffReceipt)
    (v : option DeploymentAuthorityReceiptVerification) (s : Store) : Store :=
  {| state_store_fingerprint := state_store_fingerprint s; state_id := state_id s; active := r; verification := v;
     progress := progress s; revoked := revoked s; claim := claim s; claim_generation := claim_generation s;
     handoff := handoff s; consumed := consumed s |}.

Definition set_progress (p : option HandoffProgress) (s : Store) : Store :=
  {| state_store_fingerprint := state_store_fingerprint s; state_id := state_id s; active := active s;
     verification := verification s; progress := p; revoked := revoked s; claim := claim s;
     claim_generation := claim_generation s; handoff := handoff s; consumed := consumed s |}.

Definition set_claim (c : AuthorityClaim) (generation : Z) (s : Store) : Store :=
  {| state_store_fingerprint := state_store_fingerprint s; state_id := state_id s; active := active s;
     verification := verification s; progress := progress s; revoked := revoked s; claim := c;
     claim_generation := generation; handoff := handoff s; consumed := consumed s |}.

Definition set_handoff (h : HandoffClaim) (s : Store) : Store :=
  {| state_store_fingerprint := state_store_fingerprint s; state_id := state_id s; active := active s;
     verification := verification s; progress := progress s; revoked := revoked s; claim := claim s;
     claim_generation := claim_generation s; handoff := h; consumed := consumed s |}.

Definition add_revoked (r : string) (s : Store) : Store :=
  {| state_store_fingerprint := state_store_fingerprint s; state_id := state_id s; active := active s;
     verification := verification s; progress := progress s; revoked := {[ r ]} ∪ revoked s; claim := claim s;
     claim_generation := claim_generation s; handoff := handoff s; consumed := consumed s |}.

Definition add_consumed (e : string) (s : Store) : Store :=
  {| state_store_fingerprint := state_store_fingerprint s; state_id := state_id s; active := active s;
     verification := verification s; progress := progress s; revoked := revoked s; claim := claim s;
     claim_generation := claim_generation s; handoff := handoff s; consumed := {[ e ]} ∪ consumed s |}.

Definition clear_authority_claim (s : Store) : Store := set_claim no_claim (claim_generation s) s.
Definition clear_handoff_claim (s : Store) : Store := set_handoff no_handoff s.

(** ** Guards *)

Definition identity_names_store (i : DeploymentAuthorityIdentity) (s : Store) : bool :=
  (i_state_store i ==? state_store_fingerprint s) && (i_state_id i ==? state_id s).

Definition receipt_names_store (r : DeploymentAuthorityHandoffReceipt) (s : Store) : bool :=
  identity_names_store (r_identity r) s.

Definition holds_claim (me : coordinator) (r : DeploymentAuthorityHandoffReceipt) (fp : option string) (s : Store) : bool :=
  (c_owner (claim s) ==? Some me) && (c_receipt (claim s) ==? Some (r_fingerprint r))
  && (c_binding (claim s) ==? Some (binding_digest r)) && (c_fingerprint (claim s) ==? fp).

Definition holds_handoff_claim (me : coordinator) (p : HandoffProgress) (s : Store) : bool :=
  (h_owner (handoff s) ==? Some me) && (h_fingerprint (handoff s) ==? Some (p_handoff p))
  && (h_binding (handoff s) !=? None) && (h_claim (handoff s) ==? p_owner_claim p)
  && (h_generation (handoff s) ==? Some (p_owner_generation p)).

(** [type(now) is datetime and now.tzinfo is timezone.utc and first <= now < last] *)
Definition within (first last : datetime) (now : dyn datetime) : bool :=
  match checked is_utc now with
  | Some t => dt_leb first t && dt_ltb t last
  | None => false
  end.

Definition receipt_current (r : DeploymentAuthorityHandoffReceipt) (now : dyn datetime) : bool :=
  within (r_issued_at r) (r_expires_at r) now.

Definition verification_matches (r : DeploymentAuthorityHandoffReceipt)
    (v : dyn DeploymentAuthorityReceiptVerification) : bool :=
  match v with
  | Typed v =>
      (v_status v ==? RV_FRESH) && (v_receipt v ==? r_fingerprint r) && (v_binding_digest v ==? binding_digest r)
      && (v_repository v ==? i_repository (r_identity r)) && (v_state_store v ==? i_state_store (r_identity r))
      && (v_state_id v ==? i_state_id (r_identity r)) && (v_candidate v ==? i_candidate (r_identity r))
      && (v_environment v ==? i_environment (r_identity r))
  | Foreign => false
  end.

(** [None] is no verification. *)
Definition of_option {A} (a : option A) : dyn A := match a with Some a => Typed a | None => Foreign end.

(** The [old_receipt] argument of [_recovery_matches]: a receipt, the digest of
    one whose fingerprint is given separately, or [None]. *)
Inductive OldReceipt := OldTyped (r : DeploymentAuthorityHandoffReceipt) | OldDigest (digest fp : string) | OldNone.

Definition recovery_matches (c : dyn HandoffRecoveryClaim) (handoff_fp : string) (old : OldReceipt) (s : Store)
    (prior_claim : option string) (prior_generation : Z) (now : dyn datetime) : bool :=
  match c with
  | Typed c =>
      (cl_status c ==? STALE_OWNER)
      && match match old with
               | OldTyped r => Some (binding_digest r, r_fingerprint r)
               | OldDigest d fp => Some (d, fp)
               | OldNone => None
               end with
         | Some (digest, fp) =>
             (cl_handoff c ==? handoff_fp) && (cl_old_receipt c ==? fp) && (cl_binding_digest c ==? digest)
             && (cl_state_store c ==? state_store_fingerprint s) && (cl_state_id c ==? state_id s)
             && (Some (cl_prior_owner c) ==? prior_claim) && (cl_prior_generation c =? prior_generation)
             && within (cl_observed_at c) (cl_expires_at c) now
         | None => false
         end
  | Foreign => false
  end.

Definition same_authority_domain (l r : DeploymentAuthorityIdentity) : bool :=
  (i_repository l ==? i_repository r) && (i_checkout l ==? i_checkout r)
  && (i_state_store l ==? i_state_store r) && (i_state_id l ==? i_state_id r)
  && RuntimeBinding_eq (i_runtime_binding l) (i_runtime_binding r).

(** ** Operations *)

(** The result of an operation and the store after it; an exception keeps the
    changes made before it. *)
Abbreviation outcome := (py HandoffDecision * Store)%type.

Definition denied (why : string) (s : Store) : outcome := (Ok (deny why), s).
Definition accepted (why receipt : string) (s : Store) : outcome := (Ok (accept why receipt), s).

(** [store._progress = HandoffProgress(...)], then the rest. *)
Definition record_progress (p : HandoffProgress) (s : Store) (rest : Store → outcome) : outcome :=
  match HandoffProgress_post_init p with
  | Ok _ => rest (set_progress (Some p) s)
  | Err e => (Err e, s)
  end.

Definition activate_initial (receipt : dyn DeploymentAuthorityHandoffReceipt)
    (v : dyn DeploymentAuthorityReceiptVerification) (now : dyn datetime) (s : Store) : outcome :=
  match checked (λ r, receipt_names_store r s) receipt with
  | None => denied "receipt does not name the canonical authority state" s
  | Some r =>
      if negb (receipt_current r now) then denied "receipt is not current" s
      else match checked (λ v, verification_matches r (Typed v)) v with
      | None => denied "receipt lacks fresh canonical verification" s
      | Some v =>
          if match active s, progress s with None, None => false | _, _ => true end then
            denied "an authority is already active or handing off" s
          else if r_fingerprint r in? revoked s then denied "receipt was revoked" s
          else accepted "initial receipt is the sole active authority" (r_fingerprint r)
                 (clear_handoff_claim (clear_authority_claim (set_active (Some r) (Some v) s)))
      end
  end.

(** [store._active != receipt or not names_this_store(receipt)], negated. *)
Definition is_active (receipt : dyn DeploymentAuthorityHandoffReceipt) (s : Store) :
    option DeploymentAuthorityHandoffReceipt :=
  checked (λ r, match active s with Some a => receipt_eq a r | None => false end && receipt_names_store r s) receipt.

Definition claim_orchestrator (me : coordinator) (receipt : dyn DeploymentAuthorityHandoffReceipt)
    (claim_fp : string) (now : dyn datetime) (s : Store) : outcome :=
  match require_fingerprint claim_fp "orchestrator claim" with
  | Err e => (Err e, s)
  | Ok _ =>
      match progress s with
      | Some _ => denied "authority handoff is incomplete; no orchestrator may claim it" s
      | None =>
          match is_active receipt s with
          | None => denied "receipt is absent, copied, revoked, or not the active authority" s
          | Some r =>
              if negb (receipt_current r now) || negb (verification_matches r (of_option (verification s))) then
                denied "receipt lacks fresh canonical verification" s
              else if c_owner (claim s) ==? None then
                accepted "exclusive canonical orchestrator claim acquired" (r_fingerprint r)
                  (set_claim {| c_owner := Some me; c_receipt := Some (r_fingerprint r);
                                c_binding := Some (binding_digest r); c_fingerprint := Some claim_fp |}
                     (claim_generation s + 1) s)
              else if holds_claim me r (Some claim_fp) s then
                accepted "exclusive canonical orchestrator claim remains current" (r_fingerprint r) s
              else denied "receipt is copied or conflicting; another orchestrator holds the canonical claim" s
          end
      end
  end.

Definition authorize_locked (me : coordinator) (identity : dyn DeploymentAuthorityIdentity)
    (receipt : dyn DeploymentAuthorityHandoffReceipt) (now : dyn datetime) (s : Store) : HandoffDecision :=
  match identity, checked (λ r, receipt_names_store r s) receipt with
  | Typed identity, Some r =>
      match progress s with
      | Some _ => deny "authority handoff is incomplete; dispatch remains blocked"
      | None =>
          if negb (match active s with Some a => receipt_eq a r | None => false end) then
            deny "receipt is absent, copied, revoked, or not the active authority"
          else if r_fingerprint r in? revoked s then deny "receipt was revoked"
          else if negb (verification_matches r (of_option (verification s))) then
            deny "receipt lacks fresh canonical verification"
          else if negb (holds_claim me r (c_fingerprint (claim s)) s) then
            deny "receipt has no exclusive canonical orchestrator claim"
          else if negb (identity_eq (r_identity r) identity) then
            deny "receipt does not match deployment candidate or environment"
          else if negb (receipt_current r now) then deny "receipt is stale or not yet active"
          else accept "one exact authority receipt is current" (r_fingerprint r)
      end
  | _, _ => deny "authority identity is unavailable or names another state store"
  end.

Definition authorize (me : coordinator) (identity : dyn DeploymentAuthorityIdentity)
    (receipt : dyn DeploymentAuthorityHandoffReceipt) (now : dyn datetime) (s : Store) : outcome :=
  (Ok (authorize_locked me identity receipt now s), s).

(** The transition runs under the re-entrant lock: it may use the store.  The
    store is the part [store_of] of whatever state the transition works on. *)
Definition transition_if_authorized {W A} (store_of : W → Store) (me : coordinator)
    (identity : dyn DeploymentAuthorityIdentity) (receipt : dyn DeploymentAuthorityHandoffReceipt) (now : dyn datetime)
    (transition : dyn (W → py A * W)) (w : W) : py (HandoffDecision * option A) * W :=
  match transition with
  | Foreign => (raise DeploymentHandoffError "authority transition is invalid", w)
  | Typed transition =>
      let authority := authorize_locked me identity receipt now (store_of w) in
      if negb (authorized authority) then (Ok (authority, None), w)
      else match transition w with
           | (Ok a, w) => (Ok (authority, Some a), w)
           | (Err e, w) => (Err e, w)
           end
  end.

Definition request_scheduler_wakeup (me : coordinator) (identity : dyn DeploymentAuthorityIdentity)
    (receipt : dyn DeploymentAuthorityHandoffReceipt) (now : dyn datetime) (s : Store) : SchedulerWakeupDecision :=
  let decision := authorize_locked me identity receipt now s in
  if negb (authorized decision) then
    {| requested := false; w_reason := reason decision; w_receipt_fingerprint := d_receipt_fingerprint decision |}
  else
    {| requested := true; w_reason := "work may be requested from the receipt-bound orchestrator";
       w_receipt_fingerprint := d_receipt_fingerprint decision |}.

(** [recovery] is the argument [recovery_claim], [None] when it is absent. *)
Definition begin_handoff (me : coordinator) (old_receipt : dyn DeploymentAuthorityHandoffReceipt)
    (new_identity : dyn DeploymentAuthorityIdentity) (handoff_fp : string) (now : dyn datetime)
    (recovery : option (dyn HandoffRecoveryClaim)) (s : Store) : outcome :=
  match require_fingerprint handoff_fp "handoff" with
  | Err e => (Err e, s)
  | Ok _ =>
      match progress s with
      | Some _ => denied "another handoff is already incomplete" s
      | None =>
          match is_active old_receipt s with
          | None => denied "old receipt is not the active canonical authority" s
          | Some old =>
              let fresh := holds_claim me old (c_fingerprint (claim s)) s && receipt_current old now in
              if fresh && (match recovery with Some _ => true | None => false end) then
                denied "fresh authority cannot begin a handoff with recovery evidence" s
              else
                let valid := match recovery with
                  | Some c => checked (λ c', recovery_matches c handoff_fp (OldTyped old) s
                                               (c_fingerprint (claim s)) (claim_generation s) now
                                             && negb (cl_evidence c' in? consumed s)) c
                  | None => None
                  end in
                if negb fresh && (match valid with Some _ => false | None => true end) then
                  denied "old authority claim is unavailable and lacks fresh unreplayed recovery verification" s
                else match checked (λ i, identity_names_store i s) new_identity with
                | None => denied "new authority names another state store" s
                | Some new =>
                    if negb (same_authority_domain (r_identity old) new) then
                      denied "new authority does not match the canonical repository state" s
                    else if identity_eq (r_identity old) new then
                      denied "handoff must select a distinct candidate or environment" s
                    else
                      let p := {| p_handoff := handoff_fp; p_old_receipt := r_fingerprint old;
                                  p_new_identity := new; p_phase := STOPPING; p_reconciliation := None;
                                  p_owner_claim := match valid with Some c => Some (cl_replacement_owner c)
                                                                  | None => c_fingerprint (claim s) end;
                                  p_owner_generation := match valid with Some c => cl_prior_generation c + 1
                                                                       | None => claim_generation s end;
                                  p_consumed := match valid with Some c => [cl_evidence c] | None => [] end |} in
                      record_progress p s (λ s,
                        let s := set_handoff {| h_owner := Some me; h_fingerprint := Some handoff_fp;
                                                h_binding := Some (binding_digest old);
                                                h_claim := p_owner_claim p;
                                                h_generation := Some (p_owner_generation p) |} s in
                        let s := match valid with Some c => add_consumed (cl_evidence c) s | None => s end in
                        accepted "old authority is now non-dispatching pending reconciliation" (r_fingerprint old) s)
                end
          end
      end
  end.

Definition recover_handoff (me : coordinator) (c : dyn HandoffRecoveryClaim) (now : dyn datetime) (s : Store) : outcome :=
  match progress s with
  | None => denied "no interrupted handoff can be recovered" s
  | Some p =>
      let old := match active s, h_binding (handoff s) with
                 | Some a, _ => OldTyped a
                 | None, Some d => OldDigest d (p_old_receipt p)
                 | None, None => OldNone
                 end in
      match checked (λ c', recovery_matches c (p_handoff p) old s (p_owner_claim p) (p_owner_generation p) now
                           && negb (cl_evidence c' in? consumed s)) c with
      | None => denied "handoff recovery lacks exact stale-owner verification" s
      | Some c =>
          let s := set_handoff {| h_owner := Some me; h_fingerprint := Some (p_handoff p);
                                  h_binding := Some (cl_binding_digest c);
                                  h_claim := Some (cl_replacement_owner c);
                                  h_generation := Some (cl_prior_generation c + 1) |} s in
          let s := add_consumed (cl_evidence c) s in
          record_progress
            {| p_handoff := p_handoff p; p_old_receipt := p_old_receipt p; p_new_identity := p_new_identity p;
               p_phase := p_phase p; p_reconciliation := p_reconciliation p;
               p_owner_claim := Some (cl_replacement_owner c); p_owner_generation := cl_prior_generation c + 1;
               p_consumed := p_consumed p ++ [cl_evidence c] |} s
            (accepted "independently verified stale-owner recovery claim acquired" (p_old_receipt p))
      end
  end.

Definition with_phase (p : HandoffProgress) (phase : HandoffPhase) (e : option HandoffReconciliation) : HandoffProgress :=
  {| p_handoff := p_handoff p; p_old_receipt := p_old_receipt p; p_new_identity := p_new_identity p;
     p_phase := phase; p_reconciliation := e; p_owner_claim := p_owner_claim p;
     p_owner_generation := p_owner_generation p; p_consumed := p_consumed p |}.

Definition not_owner : string := "handoff is owned by another coordinator or requires recovery verification".

Definition reconcile (me : coordinator) (e : HandoffReconciliation) (s : Store) : outcome :=
  match progress s with
  | Some p =>
      if p_phase p !=? STOPPING then denied "no stopping handoff can accept reconciliation evidence" s
      else if negb (holds_handoff_claim me p s) then denied not_owner s
      else if (rc_handoff e !=? p_handoff p) || (rc_old_receipt e !=? p_old_receipt p)
              || (rc_state_store e !=? state_store_fingerprint s) || (rc_state_id e !=? state_id s)
              || negb (complete e) then
        denied "reconciliation evidence is incomplete or does not match machine truth" s
      else record_progress (with_phase p RECONCILED (Some e)) s
             (accepted "old authority is reconciled and may be revoked" (p_old_receipt p))
  | None => denied "no stopping handoff can accept reconciliation evidence" s
  end.

Definition revoke_old_receipt (me : coordinator) (handoff_fp : string) (s : Store) : outcome :=
  match require_fingerprint handoff_fp "handoff" with
  | Err e => (Err e, s)
  | Ok _ =>
      match progress s with
      | Some p =>
          if (p_phase p !=? RECONCILED) || (p_handoff p !=? handoff_fp) then
            denied "old receipt cannot be revoked before matching reconciliation" s
          else if negb (holds_handoff_claim me p s) then denied not_owner s
          else match active s with
          | Some a =>
              if r_fingerprint a !=? p_old_receipt p then
                denied "machine truth no longer contains the old active receipt" s
              else
                record_progress (with_phase p REVOKED (p_reconciliation p))
                  (clear_authority_claim (set_active None None (add_revoked (r_fingerprint a) s)))
                  (accepted "old receipt is revoked; no authority is dispatching" (r_fingerprint a))
          | None => denied "machine truth no longer contains the old active receipt" s
          end
      | None => denied "old receipt cannot be revoked before matching reconciliation" s
      end
  end.

Definition issue_new_receipt (me : coordinator) (r : DeploymentAuthorityHandoffReceipt)
    (v : dyn DeploymentAuthorityReceiptVerification) (handoff_fp : string) (now : dyn datetime) (s : Store) : outcome :=
  match require_fingerprint handoff_fp "handoff" with
  | Err e => (Err e, s)
  | Ok _ =>
      match progress s with
      | Some p =>
          if (p_phase p !=? REVOKED) || (p_handoff p !=? handoff_fp) then
            denied "new receipt cannot issue before old receipt revocation" s
          else if negb (holds_handoff_claim me p s) then denied not_owner s
          else if negb (identity_eq (r_identity r) (p_new_identity p)) || negb (receipt_names_store r s) then
            denied "new receipt does not match the reconciled handoff target" s
          else match checked (λ v, receipt_current r now && negb (r_fingerprint r in? revoked s)
                                   && verification_matches r (Typed v)) v with
          | None => denied "new receipt is stale, revoked, or not yet active" s
          | Some v =>
              accepted "new receipt is the sole active authority" (r_fingerprint r)
                (set_progress None (clear_handoff_claim
                  (set_claim {| c_owner := Some me; c_receipt := Some (r_fingerprint r);
                                c_binding := Some (binding_digest r); c_fingerprint := p_owner_claim p |}
                     (p_owner_generation p) (set_active (Some r) (Some v) s))))
          end
      | None => denied "new receipt cannot issue before old receipt revocation" s
      end
  end.

Definition complete_teardown (me : coordinator) (evidence : dyn HandoffTeardown) (s : Store) : outcome :=
  match progress s with
  | Some p =>
      if p_phase p !=? REVOKED then denied "no revoked handoff can complete teardown" s
      else if negb (holds_handoff_claim me p s) then denied not_owner s
      else match checked (λ e, (td_handoff e ==? p_handoff p) && (td_old_receipt e ==? p_old_receipt p)
                               && (td_state_store e ==? state_store_fingerprint s) && (td_state_id e ==? state_id s)
                               && resources_torn_down e
                               && match active s with None => true | Some _ => false end) evidence with
      | Some e => accepted "revoked handoff resources are torn down and no authority is active" (td_old_receipt e)
                    (clear_handoff_claim (set_progress None s))
      | None => denied "teardown evidence is incomplete or does not match revoked machine truth" s
      end
  | None => denied "no revoked handoff can complete teardown" s
  end.

(** ** Histories *)

Inductive Command :=
  | CActivate (receipt : dyn DeploymentAuthorityHandoffReceipt) (v : dyn DeploymentAuthorityReceiptVerification) (now : dyn datetime)
  | CClaim (receipt : dyn DeploymentAuthorityHandoffReceipt) (claim_fp : string) (now : dyn datetime)
  | CAuthorize (identity : dyn DeploymentAuthorityIdentity) (receipt : dyn DeploymentAuthorityHandoffReceipt) (now : dyn datetime)
  | CBegin (old : dyn DeploymentAuthorityHandoffReceipt) (new : dyn DeploymentAuthorityIdentity) (handoff_fp : string)
      (now : dyn datetime) (recovery : option (dyn HandoffRecoveryClaim))
  | CRecover (c : dyn HandoffRecoveryClaim) (now : dyn datetime)
  | CReconcile (e : HandoffReconciliation)
  | CRevoke (handoff_fp : string)
  | CIssue (r : DeploymentAuthorityHandoffReceipt) (v : dyn DeploymentAuthorityReceiptVerification) (handoff_fp : string)
      (now : dyn datetime)
  | CTeardown (e : dyn HandoffTeardown).

Definition run (me : coordinator) (c : Command) (s : Store) : outcome :=
  match c with
  | CActivate receipt v now => activate_initial receipt v now s
  | CClaim receipt claim_fp now => claim_orchestrator me receipt claim_fp now s
  | CAuthorize identity receipt now => authorize me identity receipt now s
  | CBegin old new handoff_fp now recovery => begin_handoff me old new handoff_fp now recovery s
  | CRecover c now => recover_handoff me c now s
  | CReconcile e => reconcile me e s
  | CRevoke handoff_fp => revoke_old_receipt me handoff_fp s
  | CIssue r v handoff_fp now => issue_new_receipt me r v handoff_fp now s
  | CTeardown e => complete_teardown me e s
  end.

(** What an accepted operation did. *)
Inductive Event :=
  | Activated (r : string)
  | Claimed (me : coordinator) (r : string)
  | Authorized (me : coordinator) (r : string)
  | Began (me : coordinator) (h r : string) (recovery : option string)
  | Recovered (me : coordinator) (evidence : string)
  | Reconciled (me : coordinator) (e : HandoffReconciliation)
  | RevokedOld (me : coordinator) (h r : string)
  | Issued (me : coordinator) (h r : string)
  | TornDown (me : coordinator) (h r : string).

Definition event_of (me : coordinator) (c : Command) (d : HandoffDecision) : option Event :=
  if negb (authorized d) then None
  else r ← d_receipt_fingerprint d;
    match c with
    | CActivate _ _ _ => Some (Activated r)
    | CClaim _ _ _ => Some (Claimed me r)
    | CAuthorize _ _ _ => Some (Authorized me r)
    | CBegin _ _ h _ recovery =>
        Some (Began me h r (match recovery with Some (Typed c) => Some (cl_evidence c) | _ => None end))
    | CRecover (Typed c) _ => Some (Recovered me (cl_evidence c))
    | CRecover Foreign _ => None
    | CReconcile e => Some (Reconciled me e)
    | CRevoke h => Some (RevokedOld me h r)
    | CIssue _ _ h _ => Some (Issued me h r)
    | CTeardown (Typed e) => Some (TornDown me (td_handoff e) r)
    | CTeardown Foreign => None
    end.

Definition logged (me : coordinator) (c : Command) (o : outcome) : list Event :=
  match o.1 with Ok d => option_list (event_of me c d) | Err _ => [] end.

(** ** The protocol: what the store promises *)

Inductive Stage :=
  | Idle
  | Authority (r : string) (holder : option coordinator)
  | Handing (phase : HandoffPhase) (h r : string) (owner : coordinator).

Record Protocol := { stage : Stage; gone : gset string; used : gset string }.

Definition initial : Protocol := {| stage := Idle; gone := ∅; used := ∅ |}.

Definition moved (s : Stage) (p : Protocol) : Protocol := {| stage := s; gone := gone p; used := used p |}.

(** One authority at a time; a receipt is replaced or dropped only after its
    handoff was begun, completely reconciled and the receipt revoked, each by
    the owner of the handoff; revoked receipts and used recovery evidence never
    come back. *)
Definition protocol_step (p : Protocol) (e : Event) : option Protocol :=
  match stage p, e with
  | Idle, Activated r => if r in? gone p then None else Some (moved (Authority r None) p)
  | Authority r holder, Claimed me r' =>
      if (r' ==? r) && ((holder ==? None) || (holder ==? Some me)) then Some (moved (Authority r (Some me)) p) else None
  | Authority r holder, Authorized me r' => if (r' ==? r) && (holder ==? Some me) then Some p else None
  | Authority r holder, Began me h r' None =>
      if (r' ==? r) && (holder ==? Some me) then Some (moved (Handing STOPPING h r me) p) else None
  | Authority r holder, Began me h r' (Some e) =>
      if (r' ==? r) && negb (e in? used p) then
        Some {| stage := Handing STOPPING h r me; gone := gone p; used := {[ e ]} ∪ used p |}
      else None
  | Handing phase h r _, Recovered me e =>
      if e in? used p then None
      else Some {| stage := Handing phase h r me; gone := gone p; used := {[ e ]} ∪ used p |}
  | Handing STOPPING h r owner, Reconciled me e =>
      if (me ==? owner) && (rc_handoff e ==? h) && (rc_old_receipt e ==? r) && complete e then
        Some (moved (Handing RECONCILED h r owner) p)
      else None
  | Handing RECONCILED h r owner, RevokedOld me h' r' =>
      if (me ==? owner) && (h' ==? h) && (r' ==? r) then
        Some {| stage := Handing REVOKED h r owner; gone := {[ r ]} ∪ gone p; used := used p |}
      else None
  | Handing REVOKED h r owner, Issued me h' r' =>
      if (me ==? owner) && (h' ==? h) && negb (r' in? gone p) then Some (moved (Authority r' (Some me)) p) else None
  | Handing REVOKED h r owner, TornDown me h' r' =>
      if (me ==? owner) && (h' ==? h) && (r' ==? r) then Some (moved Idle p) else None
  | _, _ => None
  end.

Fixpoint replay (log : list Event) (p : Protocol) : option Protocol :=
  match log with
  | [] => Some p
  | e :: log => protocol_step p e ≫= replay log
  end.

(** The protocol state a store stands for. *)
Definition stage_of (s : Store) : Stage :=
  match progress s with
  | Some p => match h_owner (handoff s) with
              | Some owner => Handing (p_phase p) (p_handoff p) (p_old_receipt p) owner
              | None => Idle
              end
  | None => match active s with Some a => Authority (r_fingerprint a) (c_owner (claim s)) | None => Idle end
  end.

Definition protocol_of (s : Store) : Protocol :=
  {| stage := stage_of s; gone := revoked s; used := consumed s |}.

(** ** The store invariant *)

Definition progress_ok (p : HandoffProgress) : Prop := HandoffProgress_post_init p = Ok ().

Record inv (s : Store) : Prop := {
  inv_progress : ∀ p, progress s = Some p → progress_ok p ∧ is_Some (h_owner (handoff s))
    ∧ match p_phase p with
      | REVOKED => active s = None
      | _ => ∃ a, active s = Some a ∧ r_fingerprint a = p_old_receipt p
      end
    ∧ ∀ e, e ∈ p_consumed p → e ∈ consumed s;
  inv_active : ∀ a, active s = Some a → r_fingerprint a ∉ revoked s ∧ match_hex 64 (r_fingerprint a) = true;
  inv_claim : ∀ t, c_owner (claim s) = Some t → ∃ fp, c_fingerprint (claim s) = Some fp
    ∧ match_hex 64 fp = true ∧ 1 ≤ claim_generation s;
  inv_generation : 0 ≤ claim_generation s;
  inv_unclaimed : c_owner (claim s) = None → c_fingerprint (claim s) = None;
}.

(** Objects of the evidence classes passed their constructors. *)
Definition built {A} (post_init : A → py unit) (d : dyn A) : Prop :=
  match d with Typed a => post_init a = Ok () | Foreign => True end.

Definition command_built (c : Command) : Prop :=
  match c with
  | CActivate r v _ => built DeploymentAuthorityHandoffReceipt_post_init r
      ∧ built DeploymentAuthorityReceiptVerification_post_init v
  | CClaim r _ _ => built DeploymentAuthorityHandoffReceipt_post_init r
  | CAuthorize i r _ => built DeploymentAuthorityIdentity_post_init i
      ∧ built DeploymentAuthorityHandoffReceipt_post_init r
  | CBegin r i _ _ recovery => built DeploymentAuthorityHandoffReceipt_post_init r
      ∧ built DeploymentAuthorityIdentity_post_init i
      ∧ ∀ c, recovery = Some c → built HandoffRecoveryClaim_post_init c
  | CRecover c _ => built HandoffRecoveryClaim_post_init c
  | CReconcile e => HandoffReconciliation_post_init e = Ok ()
  | CIssue r v _ _ => DeploymentAuthorityHandoffReceipt_post_init r = Ok ()
      ∧ built DeploymentAuthorityReceiptVerification_post_init v
  | CRevoke _ => True
  | CTeardown e => built HandoffTeardown_post_init e
  end.

(** The fingerprints a command is given as text. *)
Definition fingerprints_ok (c : Command) : bool :=
  match c with
  | CClaim _ fp _ | CBegin _ _ fp _ _ | CRevoke fp | CIssue _ _ fp _ => match_hex 64 fp
  | _ => true
  end.

(** An operation keeps the invariant and, when it accepts, is a step of the
    protocol; a denial or an exception changes nothing. *)
Definition Refines (me : coordinator) (c : Command) (s : Store) (o : outcome) : Prop :=
  match o with
  | (Ok d, s') => inv s' ∧
      if authorized d then ∃ e, event_of me c d = Some e ∧ protocol_step (protocol_of s) e = Some (protocol_of s')
      else s' = s
  | (Err _, s') => s' = s ∧ fingerprints_ok c = false
  end.

Section refinement.
Context (me : coordinator) (s : Store) (Hs : inv s).

Lemma refines_denied c why : Refines me c s (denied why s).
Proof using Hs. by split. Qed.

Lemma refines_accepted c why r s' e : event_of me c (accept why r) = Some e →
  protocol_step (protocol_of s) e = Some (protocol_of s') → inv s' → Refines me c s (accepted why r s').
Proof. intros He Hp Hi. split; [done|]. by exists e. Qed.

Lemma refines_fingerprint c fp d o : fingerprints_ok c = match_hex 64 fp →
  (match_hex 64 fp = true → Refines me c s o) →
  Refines me c s (match require_fingerprint fp d with Err e => (Err e, s) | Ok _ => o end).
Proof.
  intros Hc Ho. unfold require_fingerprint, require. destruct (match_hex 64 fp); [by apply Ho|by split].
Qed.

Lemma record_progress_ok p s0 rest : progress_ok p → record_progress p s0 rest = rest (set_progress (Some p) s0).
Proof. unfold record_progress, progress_ok. by intros ->. Qed.

Lemma receipt_built_hex r : DeploymentAuthorityHandoffReceipt_post_init r = Ok () → match_hex 64 (r_fingerprint r) = true.
Proof. unfold DeploymentAuthorityHandoffReceipt_post_init, require_fingerprint. intros (u & H & _)%bind_ok. by apply require_ok in H. Qed.

Lemma refines_activate r v now : command_built (CActivate r v now) →
  Refines me (CActivate r v now) s (activate_initial r v now s).
Proof using Hs.
  intros [Hr _]. unfold activate_initial. destruct (checked _ r) as [r'|] eqn:Er; [|apply refines_denied].
  apply checked_some in Er as [-> _]. cbn in Hr. apply receipt_built_hex in Hr.
  destruct (negb _); [apply refines_denied|]. destruct (checked _ v) as [v'|]; [|apply refines_denied].
  destruct (active s) eqn:Ea, (progress s) eqn:Ep; try apply refines_denied.
  case_bool_decide as Hrev; [apply refines_denied|]. eapply refines_accepted; [reflexivity| |].
  - unfold protocol_step, protocol_of, stage_of. cbn. rewrite Ep, Ea. by rewrite bool_decide_eq_false_2.
  - destruct Hs. constructor; cbn; try done; [intros p ?; congruence|]. by intros a [= <-].
Qed.

Lemma refines_claim r fp now : Refines me (CClaim r fp now) s (claim_orchestrator me r fp now s).
Proof using Hs.
  unfold claim_orchestrator. apply refines_fingerprint; [done|intros Hfp].
  destruct (progress s) eqn:Ep; [apply refines_denied|].
  destruct (is_active r s) as [r'|] eqn:Er; [|apply refines_denied].
  apply checked_some in Er as [-> Her]. destruct (active s) as [a|] eqn:Ea; [|done].
  assert (r_fingerprint a = r_fingerprint r') as Hfpr by (unfold receipt_eq in Her; breflect; tauto).
  destruct (_ || _); [apply refines_denied|]. case_bool_decide as Ho.
  - eapply refines_accepted; [reflexivity| |].
    + unfold protocol_step, protocol_of, stage_of. cbn. rewrite Ep, Ea, Ho, Hfpr.
      rewrite !bool_decide_eq_true_2 by done. reflexivity.
    + destruct Hs as [? ? ? Hg ?]. constructor; cbn; try done; [|lia].
      intros t _. exists fp. split_and!; [done|done|lia].
  - destruct (holds_claim _ _ _ _) eqn:Eh; [|apply refines_denied]. eapply refines_accepted; [reflexivity| |done].
    unfold holds_claim in Eh. breflect. destruct Eh as [[[Eh _] _] _].
    unfold protocol_step, protocol_of, stage_of. cbn. rewrite Ep, Ea, Eh, Hfpr.
    by repeat case_bool_decide.
Qed.

Lemma refines_authorize i r now : Refines me (CAuthorize i r now) s (authorize me i r now s).
Proof using Hs.
  unfold authorize, authorize_locked. destruct i as [i|]; [|by apply refines_denied].
  destruct (checked _ r) as [r'|] eqn:Er; [|by apply refines_denied]. apply checked_some in Er as [-> Hn].
  destruct (progress s) eqn:Ep; [by apply refines_denied|].
  destruct (active s) as [a|] eqn:Ea; cbn [negb]; [|by apply refines_denied].
  destruct (receipt_eq a r') eqn:Eq; [|by apply refines_denied]. cbn [negb].
  case_bool_decide; [by apply refines_denied|]. destruct (negb _); [by apply refines_denied|].
  destruct (holds_claim _ _ _ _) eqn:Eh; cbn [negb]; [|by apply refines_denied].
  destruct (negb _); [by apply refines_denied|]. destruct (negb _); [by apply refines_denied|].
  apply refines_accepted with (e := Authorized me (r_fingerprint r')); [done| |done].
  assert (r_fingerprint a = r_fingerprint r') as Hfpr by (unfold receipt_eq in Eq; breflect; tauto).
  unfold holds_claim in Eh. breflect. destruct Eh as [[[Eh _] _] _].
  unfold protocol_step, protocol_of, stage_of. cbn. rewrite Ep, Ea, Eh, Hfpr.
  by rewrite !bool_decide_eq_true_2 by done.
Qed.
(** The parts of a valid progress. *)
Lemma progress_ok_iff p : progress_ok p ↔
  (match_hex 64 (p_handoff p) = true ∧ match_hex 64 (p_old_receipt p) = true
   ∧ (∃ fp, p_owner_claim p = Some fp ∧ match_hex 64 fp = true) ∧ 1 ≤ p_owner_generation p
   ∧ NoDup (p_consumed p) ∧ Forall (λ e, match_hex 64 e = true) (p_consumed p))
  ∧ match p_phase p with STOPPING => p_reconciliation p = None | _ => reconciliation_complete p = true end.
Proof.
  unfold progress_ok, HandoffProgress_post_init, require_fingerprint.
  rewrite <- is_ok_unit. rewrite !is_ok_bind, !is_ok_require, is_ok_for_each, !andb_true_iff, Z.leb_le, no_dup_spec.
  rewrite forallb_forall, Forall_forall. setoid_rewrite is_ok_require. setoid_rewrite <- list_elem_of_In.
  assert ((match p_owner_claim p with Some c => match_hex 64 c | None => false end) = true
    ↔ ∃ fp, p_owner_claim p = Some fp ∧ match_hex 64 fp = true) as ->.
  { destruct (p_owner_claim p); split; [by eexists|by intros (? & [= <-] & ?)|done|by intros (? & ? & ?)]. }
  destruct (p_phase p); rewrite is_ok_require; [|tauto..].
  destruct (p_reconciliation p); split; intros; destruct_and?; split_and?; done.
Qed.

Lemma recovery_built c : HandoffRecoveryClaim_post_init c = Ok () →
  match_hex 64 (cl_evidence c) = true ∧ match_hex 64 (cl_replacement_owner c) = true ∧ 1 ≤ cl_prior_generation c.
Proof.
  unfold HandoffRecoveryClaim_post_init, require_fingerprints, require_fingerprint. rewrite <- is_ok_unit.
  autorewrite with is_ok. cbn [forallb fst snd]. autorewrite with is_ok. rewrite !andb_true_iff, Z.leb_le. tauto.
Qed.

Lemma is_active_spec r r' : is_active r s = Some r' → r = Typed r' ∧
  ∃ a, active s = Some a ∧ r_fingerprint a = r_fingerprint r' ∧ identity_eq (r_identity a) (r_identity r') = true.
Proof.
  intros [-> H]%checked_some. split; [done|]. destruct (active s) as [a|]; [|done]. exists a.
  unfold receipt_eq in H. breflect. tauto.
Qed.

Lemma refines_begin r i fp now recovery : command_built (CBegin r i fp now recovery) →
  Refines me (CBegin r i fp now recovery) s (begin_handoff me r i fp now recovery s).
Proof using Hs.
  intros (_ & _ & Hrec). unfold begin_handoff. apply refines_fingerprint; [done|intros Hfp].
  destruct (progress s) eqn:Ep; [apply refines_denied|].
  destruct (is_active r s) as [old|] eqn:Er; [|apply refines_denied].
  apply is_active_spec in Er as (-> & a & Ea & Hfpr & _). set (fresh := holds_claim _ _ _ _ && receipt_current _ _).
  destruct (fresh && _) eqn:Hfr; [apply refines_denied|].
  set (valid := match recovery with Some _ => _ | None => None end).
  destruct (negb fresh && _) eqn:Hv; [apply refines_denied|].
  destruct (checked _ i) as [new|]; [|apply refines_denied].
  destruct (negb (same_authority_domain _ _)); [apply refines_denied|].
  destruct (identity_eq _ new); [apply refines_denied|].
  assert (match valid with
          | Some c => recovery = Some (Typed c) ∧ cl_evidence c ∉ consumed s
              ∧ match_hex 64 (cl_evidence c) = true ∧ match_hex 64 (cl_replacement_owner c) = true
              ∧ 1 ≤ cl_prior_generation c
          | None => recovery = None ∧ c_owner (claim s) = Some me
          end) as Hvalid.
  { destruct valid as [c|] eqn:Evalid; unfold valid in Evalid.
    - destruct recovery as [c'|]; [|done]. apply checked_some in Evalid as [-> Hm].
      breflect. destruct Hm as [_ Hm]. split_and!; [done|done|by apply (recovery_built c), (Hrec (Typed c))..].
    - destruct fresh eqn:Ef; [|done]. destruct recovery; [done|]. split; [done|].
      unfold fresh, holds_claim in Ef. breflect. tauto. }
  destruct (inv_active _ Hs a Ea) as [_ Hhex].
  set (p := {| p_handoff := fp; p_old_receipt := _; p_new_identity := _; p_phase := _; p_reconciliation := _;
               p_owner_claim := _; p_owner_generation := _; p_consumed := _ |}).
  assert (progress_ok p) as Hp.
  { apply progress_ok_iff. cbn. rewrite <- Hfpr. split; [|done]. destruct valid as [c|].
    - destruct Hvalid as (_ & _ & He & Ho & Hg). split_and!; [done|done|by eexists|lia|apply NoDup_singleton|].
      by constructor.
    - destruct Hvalid as [_ Ho]. destruct (inv_claim _ Hs _ Ho) as (o & -> & Hx & Hg).
      split_and!; [done|done|by eexists|lia|constructor|constructor]. }
  rewrite record_progress_ok by done. eapply refines_accepted; [reflexivity| |].
  - unfold protocol_step, protocol_of, stage_of. rewrite Ep, Ea, Hfpr. clearbody valid. destruct valid as [c|].
    + destruct Hvalid as (-> & Hc & _). cbn. by rewrite bool_decide_eq_true_2, bool_decide_eq_false_2.
    + destruct Hvalid as [-> Ho]. cbn. rewrite Ho. by rewrite !bool_decide_eq_true_2.
  - clearbody valid. destruct Hs as [_ Hact Hcl Hgen Hun]. destruct valid as [c|]; constructor; cbn; try done.
    + intros ? [= <-]. split_and!; [done|done|by exists a|cbn; set_solver].
    + intros ? [= <-]. split_and!; [done|done|by exists a|cbn; set_solver].
Qed.

Lemma refines_recover c now : command_built (CRecover c now) → Refines me (CRecover c now) s (recover_handoff me c now s).
Proof using Hs.
  intros Hb. unfold recover_handoff. destruct (progress s) as [p|] eqn:Ep; [|apply refines_denied].
  destruct (inv_progress _ Hs p Ep) as (Hp & [owner Ho] & Hphase & Hcons).
  destruct (checked _ c) as [c'|] eqn:Ec; [|apply refines_denied]. apply checked_some in Ec as [-> Hm].
  breflect. destruct Hm as [_ Hm]. apply recovery_built in Hb as (He & Hr & Hg).
  set (p' := {| p_handoff := _; p_old_receipt := _; p_new_identity := _; p_phase := _; p_reconciliation := _;
                p_owner_claim := _; p_owner_generation := _; p_consumed := _ |}).
  assert (progress_ok p') as Hp'.
  { apply progress_ok_iff in Hp as [(? & ? & _ & _ & Hnd & Hall) ?]. apply progress_ok_iff. cbn.
    split; [|done]. split_and!; [done|done|by eexists|lia| |by apply Forall_app; split; [|constructor]].
    apply list.NoDup_app. split_and!; [done| |apply NoDup_singleton].
    intros x Hx ->%list_elem_of_singleton. by apply Hm, Hcons. }
  rewrite record_progress_ok by done. eapply refines_accepted; [reflexivity| |].
  - unfold protocol_step, protocol_of, stage_of. cbn. rewrite Ep, Ho.
    destruct (p_phase p); by rewrite bool_decide_eq_false_2.
  - destruct Hs as [_ Hact Hcl Hgen Hun]. constructor; cbn; try done. intros ? [= <-].
    split_and!; [done|done|by destruct (p_phase p)|]. cbn.
    intros x [Hx| ->%list_elem_of_singleton]%elem_of_app; [|set_solver]. apply Hcons in Hx. set_solver.
Qed.
Lemma holds_handoff_owner p : holds_handoff_claim me p s = true → h_owner (handoff s) = Some me.
Proof. unfold holds_handoff_claim. breflect. tauto. Qed.

Lemma with_phase_ok p phase e : progress_ok p → phase ≠ STOPPING →
  reconciliation_complete (with_phase p phase e) = true → progress_ok (with_phase p phase e).
Proof.
  rewrite !progress_ok_iff. intros [Hf _] Hphase He. split; [exact Hf|]. by destruct phase.
Qed.

Lemma refines_reconcile e : Refines me (CReconcile e) s (reconcile me e s).
Proof using Hs.
  unfold reconcile. destruct (progress s) as [p|] eqn:Ep; [|apply refines_denied].
  destruct (inv_progress _ Hs p Ep) as (Hp & _ & Hphase & Hcons).
  case_bool_decide as Hst; [|apply refines_denied]. cbn [negb].
  destruct (holds_handoff_claim me p s) eqn:Eh; [|apply refines_denied]. cbn [negb].
  apply holds_handoff_owner in Eh. destruct (_ || _) eqn:Ee; [apply refines_denied|].
  breflect. destruct Ee as [[[[? ?] ?] ?] Hcomp].
  rewrite record_progress_ok by (by apply with_phase_ok). rewrite Hst in Hphase.
  eapply refines_accepted; [reflexivity| |].
  - unfold protocol_step, protocol_of, stage_of. cbn. rewrite Ep, Eh, Hst, Hcomp.
    by rewrite !bool_decide_eq_true_2.
  - destruct Hs as [_ Hact Hcl Hgen Hun]. constructor; cbn; try done. intros ? [= <-].
    split_and!; [by apply with_phase_ok|by eexists|done|done].
Qed.

Lemma refines_revoke fp : Refines me (CRevoke fp) s (revoke_old_receipt me fp s).
Proof using Hs.
  unfold revoke_old_receipt. apply refines_fingerprint; [done|intros _].
  destruct (progress s) as [p|] eqn:Ep; [|apply refines_denied].
  destruct (inv_progress _ Hs p Ep) as (Hp & _ & Hphase & Hcons).
  destruct (_ || _) eqn:Ee; [apply refines_denied|]. breflect. destruct Ee as [Hst Hfp].
  destruct (holds_handoff_claim me p s) eqn:Eh; [|apply refines_denied]. cbn [negb].
  apply holds_handoff_owner in Eh. rewrite Hst in Hphase. destruct Hphase as (a & Ea & Ha). rewrite Ea.
  rewrite bool_decide_eq_true_2 by done. cbn [negb].
  assert (progress_ok (with_phase p REVOKED (p_reconciliation p))) as Hp'.
  { apply with_phase_ok; [done|done|]. apply progress_ok_iff in Hp as [_ Hr]. by rewrite Hst in Hr. }
  rewrite record_progress_ok by done. eapply refines_accepted; [reflexivity| |].
  - unfold protocol_step, protocol_of, stage_of. cbn. rewrite Ep, Eh, Hst.
    rewrite !bool_decide_eq_true_2 by done. cbn. by rewrite Ha.
  - destruct Hs as [_ Hact Hcl Hgen Hun]. constructor; cbn; try done. intros ? [= <-]. split_and!; [done|by eexists|done|done].
Qed.

Lemma refines_issue r v fp now : command_built (CIssue r v fp now) →
  Refines me (CIssue r v fp now) s (issue_new_receipt me r v fp now s).
Proof using Hs.
  intros [Hr%receipt_built_hex _]. unfold issue_new_receipt. apply refines_fingerprint; [done|intros _].
  destruct (progress s) as [p|] eqn:Ep; [|apply refines_denied].
  destruct (inv_progress _ Hs p Ep) as (Hp & _ & Hphase & Hcons).
  destruct (_ || _) eqn:Ee; [apply refines_denied|]. breflect. destruct Ee as [Hst Hfp].
  destruct (holds_handoff_claim me p s) eqn:Eh; [|apply refines_denied]. cbn [negb].
  apply holds_handoff_owner in Eh. destruct (_ || _); [apply refines_denied|].
  destruct (checked _ v) as [v'|] eqn:Ev; [|apply refines_denied].
  apply checked_some in Ev as [_ Ev]. breflect. destruct Ev as [[_ Hrev] _].
  eapply refines_accepted; [reflexivity| |].
  - unfold protocol_step, protocol_of, stage_of. cbn. rewrite Ep, Eh, Hst.
    rewrite !bool_decide_eq_true_2, bool_decide_eq_false_2 by done. reflexivity.
  - apply progress_ok_iff in Hp as [(_ & _ & (o & Ho & Hx) & Hg & _) _].
    destruct Hs as [_ Hact Hcl Hgen Hun]. constructor; cbn; [done|by intros ? [= <-]| |lia|done].
    intros _ _. by exists o.
Qed.

Lemma refines_teardown e : Refines me (CTeardown e) s (complete_teardown me e s).
Proof using Hs.
  unfold complete_teardown. destruct (progress s) as [p|] eqn:Ep; [|apply refines_denied].
  destruct (inv_progress _ Hs p Ep) as (_ & _ & Hphase & _).
  case_bool_decide as Hst; [|apply refines_denied]. cbn [negb].
  destruct (holds_handoff_claim me p s) eqn:Eh; [|apply refines_denied]. cbn [negb].
  apply holds_handoff_owner in Eh. rewrite Hst in Hphase.
  destruct (checked _ e) as [e'|] eqn:Ev; [|apply refines_denied].
  apply checked_some in Ev as [-> Ev]. breflect. destruct Ev as [[[[[H1 H2] _] _] _] _].
  eapply refines_accepted; [reflexivity| |].
  - unfold protocol_step, protocol_of, stage_of. cbn. rewrite Ep, Eh, Hst, Hphase.
    by rewrite !bool_decide_eq_true_2.
  - destruct Hs as [_ Hact Hcl Hgen Hun]. by constructor.
Qed.

Lemma refines_run c : command_built c → Refines me c s (run me c s).
Proof using Hs.
  destruct c; intros Hb.
  - by apply refines_activate.
  - apply refines_claim.
  - apply refines_authorize.
  - by apply refines_begin.
  - by apply refines_recover.
  - apply refines_reconcile.
  - apply refines_revoke.
  - by apply refines_issue.
  - apply refines_teardown.
Qed.
End refinement.

(** ** Histories of a store *)

(** Any coordinators operate on the store in any order; [log] is what they
    achieved. *)
Inductive history : Store → list Event → Prop :=
  | history_new fp id s : new_store fp id = Ok s → history s []
  | history_step s log me c : history s log → command_built c →
      history (run me c s).2 (log ++ logged me c (run me c s)).

Lemma new_store_spec fp id s : new_store fp id = Ok s → inv s ∧ protocol_of s = initial.
Proof. unfold new_store. intros (u & _ & [= <-])%bind_ok. by split. Qed.

Lemma replay_app log1 log2 p : replay (log1 ++ log2) p = replay log1 p ≫= replay log2.
Proof. revert p. induction log1 as [|e log1 IH]; intros p; cbn; [done|]. destruct (protocol_step p e); cbn; [apply IH|done]. Qed.

Lemma history_invariant s log : history s log → inv s ∧ replay log initial = Some (protocol_of s).
Proof.
  induction 1 as [fp id s Hn|s log me c _ [Hs Hr] Hc].
  - apply new_store_spec in Hn as [Hs <-]. by split.
  - pose proof (refines_run me s Hs c Hc) as Href. rewrite replay_app, Hr. cbn [mbind option_bind].
    unfold logged. destruct (run me c s) as [[d|e] s'] eqn:Erun; cbn [fst snd].
    + destruct Href as [Hs' Hd]. split; [done|]. destruct (authorized d) eqn:Ed.
      * destruct Hd as (ev & -> & Hp). cbn. by rewrite Hp.
      * unfold event_of. rewrite Ed. cbn. by subst s'.
    + destruct Href as [-> _]. by split.
Qed.

(** ** Consequences of the protocol *)

Definition protocol_wf (p : Protocol) : Prop := match stage p with Authority r _ => r ∉ gone p | _ => True end.

(** Case analysis of one step. *)
Ltac protocol_cases H :=
  unfold protocol_step in H; cbn [stage gone used] in H;
  repeat match type of H with
  | (if ?b then _ else _) = _ => let E := fresh "E" in destruct b eqn:E; try discriminate H; breflect
  | match ?x with _ => _ end = _ => destruct x; try discriminate H
  end; injection H as <-; destruct_and?; subst.

Lemma step_wf p e p' : protocol_step p e = Some p' → protocol_wf p → protocol_wf p'.
Proof.
  intros H Hwf. unfold protocol_wf in *. destruct p as [st g u]. cbn in *.
  protocol_cases H; cbn; try done.
Qed.

Lemma step_gone p e p' : protocol_step p e = Some p' → gone p ⊆ gone p' ∧ used p ⊆ used p'.
Proof. intros H. destruct p as [st g u]. protocol_cases H; cbn; set_solver. Qed.

Lemma replay_wf log p p' : replay log p = Some p' → protocol_wf p → protocol_wf p' ∧ gone p ⊆ gone p' ∧ used p ⊆ used p'.
Proof.
  revert p. induction log as [|e log IH]; intros p H Hwf; [by injection H as <-|].
  cbn in H. apply bind_Some in H as (p1 & He & H). destruct (step_gone _ _ _ He) as [Hg Hu].
  apply IH in H as (H1 & H2 & H3); [|by eapply step_wf]. split_and!; [done|set_solver|set_solver].
Qed.

Lemma step_reconciled p e p' h r o : protocol_step p e = Some p' → stage p = Handing RECONCILED h r o →
  (∃ t, stage p' = Handing RECONCILED h r t) ∨ (∃ t, e = RevokedOld t h r ∧ r ∈ gone p').
Proof.
  destruct p as [st g u]. cbn. intros H ->. protocol_cases H; [left; by eexists|right; eexists; split; [done|]].
  cbn. set_solver.
Qed.

Lemma step_stopping p e p' h r o : protocol_step p e = Some p' → stage p = Handing STOPPING h r o →
  (∃ t, stage p' = Handing STOPPING h r t)
  ∨ (∃ t ev, e = Reconciled t ev ∧ rc_handoff ev = h ∧ rc_old_receipt ev = r ∧ complete ev = true
       ∧ stage p' = Handing RECONCILED h r o).
Proof.
  destruct p as [st g u]. cbn. intros H ->. protocol_cases H; [left; by eexists|right; eexists _, _; by split_and!].
Qed.

Lemma step_authority p e p' r t : protocol_step p e = Some p' → stage p = Authority r (Some t) →
  stage p' = Authority r (Some t) ∨ (∃ me h ev, e = Began me h r ev ∧ stage p' = Handing STOPPING h r me).
Proof.
  destruct p as [st g u]. cbn. intros H ->. protocol_cases H; cbn.
  - left. by destruct_or?; simplify_eq.
  - by left.
  - right. by eexists _, _, _.
  - right. by eexists _, _, _.
Qed.

Lemma revoke_follows log : ∀ p p' h r o r' t', replay log p = Some p' → stage p = Handing RECONCILED h r o →
  stage p' = Authority r' (Some t') → ∃ b1 b2 t, log = b1 ++ RevokedOld t h r :: b2 ∧ r ∈ gone p'.
Proof.
  induction log as [|e log IH]; intros p p' h r o r' t' H Hp Hp'; [injection H as <-; congruence|].
  cbn in H. apply bind_Some in H as (p1 & He & H).
  destruct (step_reconciled _ _ _ _ _ _ He Hp) as [[t Ht]|(t & -> & Hr)].
  - destruct (IH _ _ _ _ _ _ _ H Ht Hp') as (b1 & b2 & t1 & -> & Hg). by exists (e :: b1), b2, t1.
  - exists [], log, t. split; [done|]. assert (gone p1 ⊆ gone p'); [|set_solver].
    clear -H. revert p1 H. induction log as [|e log IH]; intros p1 H; [by injection H as <-|].
    cbn in H. apply bind_Some in H as (p2 & He & H). apply step_gone in He as [? _]. apply IH in H. set_solver.
Qed.

Lemma reconcile_follows log : ∀ p p' h r o r' t', replay log p = Some p' → stage p = Handing STOPPING h r o →
  stage p' = Authority r' (Some t') →
  ∃ b1 t1 ev b2 t2 b3, log = b1 ++ Reconciled t1 ev :: b2 ++ RevokedOld t2 h r :: b3
    ∧ rc_handoff ev = h ∧ rc_old_receipt ev = r ∧ complete ev = true ∧ r ∈ gone p'.
Proof.
  induction log as [|e log IH]; intros p p' h r o r' t' H Hp Hp'; [injection H as <-; congruence|].
  cbn in H. apply bind_Some in H as (p1 & He & H).
  destruct (step_stopping _ _ _ _ _ _ He Hp) as [[t Ht]|(t & ev & -> & Hh & Hr & Hc & Ht)].
  - destruct (IH _ _ _ _ _ _ _ H Ht Hp') as (b1 & t1 & ev & b2 & t2 & b3 & -> & Hrest).
    by exists (e :: b1), t1, ev, b2, t2, b3.
  - destruct (revoke_follows _ _ _ _ _ _ _ _ H Ht Hp') as (b2 & b3 & t2 & -> & Hg). by exists [], t, ev, b2, t2, b3.
Qed.

Lemma replacement_follows log : ∀ p p' r t r' t', replay log p = Some p' → stage p = Authority r (Some t) →
  stage p' = Authority r' (Some t') →
  (r' = r ∧ t' = t) ∨ ∃ b0 t0 h rec b1 t1 ev b2 t2 b3,
    log = b0 ++ Began t0 h r rec :: b1 ++ Reconciled t1 ev :: b2 ++ RevokedOld t2 h r :: b3
    ∧ rc_handoff ev = h ∧ rc_old_receipt ev = r ∧ complete ev = true ∧ r ∈ gone p'.
Proof.
  induction log as [|e log IH]; intros p p' r t r' t' H Hp Hp';
    [injection H as <-; left; rewrite Hp in Hp'; by injection Hp' as -> ->|].
  cbn in H. apply bind_Some in H as (p1 & He & H).
  destruct (step_authority _ _ _ _ _ He Hp) as [Ht|(me & h & rec & -> & Ht)].
  - destruct (IH _ _ _ _ _ _ H Ht Hp') as [?|(b0 & t0 & h & rec & b1 & t1 & ev & b2 & t2 & b3 & -> & Hrest)]; [by left|].
    right. by exists (e :: b0), t0, h, rec, b1, t1, ev, b2, t2, b3.
  - right. destruct (reconcile_follows _ _ _ _ _ _ _ _ H Ht Hp') as (b1 & t1 & ev & b2 & t2 & b3 & -> & Hrest).
    by exists [], me, h, rec, b1, t1, ev, b2, t2, b3.
Qed.

(** What an [Authorized] entry of a history tells about the state then. *)
Lemma step_authorized p t r p' : protocol_step p (Authorized t r) = Some p' → p' = p ∧ stage p = Authority r (Some t).
Proof.
  unfold protocol_step. destruct (stage p) as [|r' holder|phase h r' o]; [done| |by destruct phase].
  destruct (_ && _) eqn:E; [|done]. intros [= <-]. breflect. destruct E as [-> ->]. by split.
Qed.

(** ** An uninterrupted handoff completes *)

Lemma RuntimeBinding_eq_refl b : RuntimeBinding_eq b b = true.
Proof. unfold RuntimeBinding_eq. autorewrite with breflect. by split_and!. Qed.

Lemma identity_eq_refl i : identity_eq i i = true.
Proof.
  unfold identity_eq. rewrite RuntimeBinding_eq_refl. autorewrite with breflect. by split_and!.
Qed.

Lemma receipt_eq_refl r : receipt_eq r r = true.
Proof. unfold receipt_eq. rewrite identity_eq_refl. autorewrite with breflect. by split_and!. Qed.

Lemma authorize_run me r v now s : receipt_names_store r s = true → progress s = None → active s = Some r →
  r_fingerprint r ∉ revoked s → verification s = Some v → verification_matches r (Typed v) = true →
  holds_claim me r (c_fingerprint (claim s)) s = true → receipt_current r now = true →
  authorize_locked me (Typed (r_identity r)) (Typed r) now s
  = accept "one exact authority receipt is current" (r_fingerprint r).
Proof.
  intros Hn Hp Ha Hr Hv Hm Hh Hc. unfold authorize_locked. cbn [checked]. rewrite Hn, Hp, Ha, receipt_eq_refl.
  cbn [negb]. rewrite bool_decide_eq_false_2 by done. rewrite Hv. cbn [of_option]. by rewrite Hm, Hh, identity_eq_refl, Hc.
Qed.

(** What a coordinator knows before it hands the authority [old] over to [new]. *)
Record ready (me : coordinator) (old : DeploymentAuthorityHandoffReceipt) (new : DeploymentAuthorityIdentity)
    (h : string) (now : dyn datetime) (s : Store) : Prop := {
  rd_active : active s = Some old;
  rd_idle : progress s = None;
  rd_names : receipt_names_store old s = true;
  rd_holds : holds_claim me old (c_fingerprint (claim s)) s = true;
  rd_current : receipt_current old now = true;
  rd_new : identity_names_store new s = true;
  rd_domain : same_authority_domain (r_identity old) new = true;
  rd_distinct : identity_eq (r_identity old) new = false;
  rd_fingerprint : match_hex 64 h = true;
}.

(** Evidence that the dispatcher, children and lease of [old] are reconciled. *)
Definition reconciles (h : string) (old : DeploymentAuthorityHandoffReceipt) (s : Store) (e : HandoffReconciliation) : Prop :=
  rc_handoff e = h ∧ rc_old_receipt e = r_fingerprint old ∧ rc_state_store e = state_store_fingerprint s
  ∧ rc_state_id e = state_id s ∧ complete e = true.

Section completion.
Context (me : coordinator) (old : DeploymentAuthorityHandoffReceipt) (new : DeploymentAuthorityIdentity) (h : string)
  (now : dyn datetime) (s : Store) (Hs : inv s) (Hready : ready me old new h now s).

Definition stopping_progress : HandoffProgress :=
  {| p_handoff := h; p_old_receipt := r_fingerprint old; p_new_identity := new; p_phase := STOPPING;
     p_reconciliation := None; p_owner_claim := c_fingerprint (claim s); p_owner_generation := claim_generation s;
     p_consumed := [] |}.

Definition mine : HandoffClaim :=
  {| h_owner := Some me; h_fingerprint := Some h; h_binding := Some (binding_digest old);
     h_claim := c_fingerprint (claim s); h_generation := Some (claim_generation s) |}.

Lemma stopping_ok : progress_ok stopping_progress.
Proof using All.
  destruct Hready as [Ha Hp Hn Hh Hc _ _ _ Hfp]. unfold holds_claim in Hh. breflect. destruct Hh as [[[Ho _] _] _].
  destruct (inv_claim _ Hs _ Ho) as (fp & Hcf & Hx & Hg). destruct (inv_active _ Hs _ Ha) as [_ Hhex].
  apply progress_ok_iff. cbn. split; [|done]. split_and!; [done|done|by exists fp|lia|constructor|constructor].
Qed.

Lemma begin_run : begin_handoff me (Typed old) (Typed new) h now None s
  = accepted "old authority is now non-dispatching pending reconciliation" (r_fingerprint old)
      (set_handoff mine (set_progress (Some stopping_progress) s)).
Proof using All.
  destruct Hready as [Ha Hp Hn Hh Hc Hi Hd Hx Hfp].
  unfold begin_handoff, require_fingerprint, require, is_active. rewrite Hfp, Hp, Ha. cbn [checked].
  rewrite receipt_eq_refl, Hn. cbn [andb]. rewrite Hh, Hc. cbn [andb negb checked]. rewrite Hi, Hd, Hx. cbn [negb].
  rewrite record_progress_ok by exact stopping_ok. reflexivity.
Qed.

Lemma mine_held p : p_handoff p = h → p_owner_claim p = c_fingerprint (claim s) →
  p_owner_generation p = claim_generation s → ∀ s', handoff s' = mine → holds_handoff_claim me p s' = true.
Proof. intros H1 H2 H3 s' Hm. unfold holds_handoff_claim. rewrite Hm, H1, H2, H3. cbn. by rewrite !bool_decide_eq_true_2. Qed.

Lemma reconcile_run e : reconciles h old s e →
  reconcile me e (set_handoff mine (set_progress (Some stopping_progress) s))
  = accepted "old authority is reconciled and may be revoked" (r_fingerprint old)
      (set_progress (Some (with_phase stopping_progress RECONCILED (Some e))) (set_handoff mine s)).
Proof using All.
  intros (H1 & H2 & H3 & H4 & H5). unfold reconcile. cbn [progress set_handoff set_progress].
  rewrite bool_decide_eq_true_2 by done. cbn [negb]. rewrite mine_held by done. cbn [negb].
  cbn. rewrite H1, H2, H3, H4, H5, !bool_decide_eq_true_2 by done. cbn [negb orb].
  rewrite record_progress_ok; [reflexivity|]. apply (with_phase_ok stopping_progress); [exact stopping_ok|done|done].
Qed.

Definition retired : Store := clear_authority_claim (set_active None None (add_revoked (r_fingerprint old) (set_handoff mine s))).

Lemma revoke_run e : complete e = true →
  revoke_old_receipt me h (set_progress (Some (with_phase stopping_progress RECONCILED (Some e))) (set_handoff mine s))
  = accepted "old receipt is revoked; no authority is dispatching" (r_fingerprint old)
      (set_progress (Some (with_phase stopping_progress REVOKED (Some e))) retired).
Proof using All.
  intros He. unfold revoke_old_receipt, require_fingerprint, require. rewrite (rd_fingerprint _ _ _ _ _ _ Hready).
  cbn [progress set_progress]. cbn [p_phase p_handoff with_phase stopping_progress]. rewrite !bool_decide_eq_true_2 by done.
  cbn [negb orb]. rewrite mine_held by done. cbn [negb active set_progress set_handoff]. rewrite (rd_active _ _ _ _ _ _ Hready).
  cbn [p_old_receipt with_phase stopping_progress]. rewrite bool_decide_eq_true_2 by done. cbn [negb].
  rewrite record_progress_ok; [reflexivity|]. apply (with_phase_ok stopping_progress); [exact stopping_ok|done|done].
Qed.
Definition issued (r : DeploymentAuthorityHandoffReceipt) (v : DeploymentAuthorityReceiptVerification) : Store :=
  set_progress None (clear_handoff_claim
    (set_claim {| c_owner := Some me; c_receipt := Some (r_fingerprint r); c_binding := Some (binding_digest r);
                  c_fingerprint := c_fingerprint (claim s) |} (claim_generation s) (set_active (Some r) (Some v) retired))).

Lemma issue_run e r v now' : identity_eq (r_identity r) new = true → receipt_names_store r s = true →
  receipt_current r now' = true → r_fingerprint r ∉ revoked s → r_fingerprint r ≠ r_fingerprint old →
  verification_matches r (Typed v) = true →
  issue_new_receipt me r (Typed v) h now' (set_progress (Some (with_phase stopping_progress REVOKED (Some e))) retired)
  = accepted "new receipt is the sole active authority" (r_fingerprint r) (issued r v).
Proof using All.
  intros Hi Hn Hc Hr Hne Hv. unfold issue_new_receipt, require_fingerprint, require.
  rewrite (rd_fingerprint _ _ _ _ _ _ Hready). cbn [progress set_progress].
  cbn [p_phase p_handoff with_phase stopping_progress]. rewrite !bool_decide_eq_true_2 by done.
  cbn [negb orb]. rewrite mine_held by done. cbn [negb p_new_identity with_phase stopping_progress].
  assert (∀ p, receipt_names_store r (set_progress p retired) = receipt_names_store r s) as -> by done.
  rewrite Hi, Hn. cbn [negb orb checked revoked set_progress]. rewrite Hc, Hv.
  rewrite bool_decide_eq_false_2 by (cbn; set_solver). reflexivity.
Qed.

Lemma issued_authorizes r v now' : receipt_names_store r s = true → receipt_current r now' = true →
  r_fingerprint r ∉ revoked s → r_fingerprint r ≠ r_fingerprint old → verification_matches r (Typed v) = true →
  authorized (authorize_locked me (Typed (r_identity r)) (Typed r) now' (issued r v)) = true.
Proof.
  intros Hn Hc Hr Hne Hv. erewrite authorize_run; try done; [cbn; set_solver|].
  unfold holds_claim. cbn. by rewrite !bool_decide_eq_true_2.
Qed.
End completion.

(** A coordinator's commands in order, while each is accepted. *)
Fixpoint accept_all (me : coordinator) (cs : list Command) (s : Store) : option Store :=
  match cs with
  | [] => Some s
  | c :: cs => match run me c s with
               | (Ok d, s') => if authorized d then accept_all me cs s' else None
               | (Err _, _) => None
               end
  end.

(** ** A receipt that expires unclaimed *)

(** The clock a command reads is not before [t]. *)
Definition reads_after (t : datetime) (now : dyn datetime) : Prop :=
  match now with Typed n => dt_leb t n = true | Foreign => True end.

Definition clock_after (t : datetime) (c : Command) : Prop :=
  match c with
  | CActivate _ _ now | CClaim _ _ now | CAuthorize _ _ now | CBegin _ _ _ now _ | CRecover _ now | CIssue _ _ _ now =>
      reads_after t now
  | CReconcile _ | CRevoke _ | CTeardown _ => True
  end.

Lemma expired r now : reads_after (r_expires_at r) now → receipt_current r now = false.
Proof.
  unfold receipt_current, within. destruct now as [n|]; [|done]. cbn [checked reads_after].
  intros Hn%negb_true_iff. destruct (is_utc n); [|done]. by rewrite Hn, andb_false_r.
Qed.

Section unclaimed.
Context (s : Store) (Hs : inv s) (a : DeploymentAuthorityHandoffReceipt).
Context (Hp : progress s = None) (Ha : active s = Some a) (Hc : c_owner (claim s) = None).

Lemma nobody_holds me r fp : holds_claim me r fp s = false.
Proof using Hc. unfold holds_claim. by rewrite Hc. Qed.

Lemma active_expires r r' now : is_active r s = Some r' → reads_after (r_expires_at a) now → receipt_current r' now = false.
Proof using Ha.
  intros [-> H]%checked_some Hn. rewrite Ha in H. unfold receipt_eq in H. breflect.
  destruct H as [(_ & _ & _ & He & _) _]. apply expired. by rewrite <- He.
Qed.

Lemma unclaimed_denies me c : clock_after (r_expires_at a) c → (run me c s).2 = s
  ∧ ∀ d, (run me c s).1 = Ok d → authorized d = false.
Proof using All.
  assert (∀ why, (denied why s).2 = s ∧ ∀ d, (denied why s).1 = Ok d → authorized d = false) as Hden
    by (intros why; split; [done|by intros d [= <-]]).
  assert (∀ fp d o, (o.2 = s ∧ ∀ d', o.1 = Ok d' → authorized d' = false) →
    (match require_fingerprint fp d with Err e => (Err e, s) | Ok _ => o end).2 = s
    ∧ ∀ d', (match require_fingerprint fp d with Err e => (Err e, s) | Ok _ => o end).1 = Ok d' → authorized d' = false) as Hfp
    by (intros fp d o Ho; by destruct (require_fingerprint fp d)).
  destruct c as [r v now|r fp now|i r now|r i fp now rec|c now|e|fp|r v fp now|e]; cbn [run clock_after]; intros Hn.
  - unfold activate_initial. destruct (checked _ r); [|apply Hden]. destruct (negb _); [apply Hden|].
    destruct (checked _ v); [|apply Hden]. rewrite Ha. apply Hden.
  - apply Hfp. rewrite Hp. destruct (is_active r s) as [r'|] eqn:Er; [|apply Hden].
    rewrite (active_expires r r' now) by done. apply Hden.
  - unfold authorize, authorize_locked. split; [done|]. intros d [= <-].
    destruct i; [|done]. destruct (checked _ r); [|done]. rewrite Hp. destruct (negb _); [done|].
    case_bool_decide; [done|]. destruct (negb (verification_matches _ _)); [done|]. by rewrite nobody_holds.
  - apply Hfp. rewrite Hp. destruct (is_active r s) as [r'|] eqn:Er; [|apply Hden].
    rewrite nobody_holds. cbn [andb negb]. rewrite (inv_unclaimed _ Hs Hc). destruct rec as [rc|]; [|apply Hden].
    destruct (checked _ rc) as [rc'|] eqn:Erc; [|apply Hden]. exfalso. apply checked_some in Erc as [-> Erc].
    unfold recovery_matches in Erc. breflect. destruct Erc as [[_ Erc] _]. breflect. by destruct_and!.
  - unfold recover_handoff. rewrite Hp. apply Hden.
  - unfold reconcile. rewrite Hp. apply Hden.
  - apply Hfp. rewrite Hp. apply Hden.
  - apply Hfp. rewrite Hp. apply Hden.
  - unfold complete_teardown. rewrite Hp. apply Hden.
Qed.
End unclaimed.

(** ** The guarantees *)

(** C30 : every operation of every coordinator is a step of the handoff
    protocol: from any state the store can have reached, a well-formed call never
    raises, an accepted call is the step its event names, a denied call changes
    nothing, and the whole history is a run of the protocol. *)
Theorem handoff_refines_protocol s log : history s log →
  replay log initial = Some (protocol_of s)
  ∧ ∀ me c, command_built c → fingerprints_ok c = true → ∃ d s', run me c s = (Ok d, s')
    ∧ if authorized d then ∃ e, event_of me c d = Some e ∧ protocol_step (protocol_of s) e = Some (protocol_of s')
      else s' = s.
Proof.
  intros [Hs Hr]%history_invariant. split; [done|]. intros me c Hb Hf.
  pose proof (refines_run me s Hs c Hb) as H. destruct (run me c s) as [[d|e] s']; cbn in H.
  - exists d, s'. split; [done|apply H].
  - destruct H as [_ H]. congruence.
Qed.

(** C16 : authority never overlaps.  Between two uses of authority the receipt
    and its holder are the same, or the first receipt's handoff was begun, its
    dispatcher, children and lease were reported reconciled, and it was revoked,
    in this order; and a revoked receipt is never used again. *)
Theorem authority_moves_only_by_revocation s log : history s log →
  (∀ a t r b t' r' c, log = a ++ Authorized t r :: b ++ Authorized t' r' :: c →
     (r' = r ∧ t' = t)
     ∨ r' ≠ r ∧ ∃ b0 t0 h rec b1 t1 ev b2 t2 b3,
         b = b0 ++ Began t0 h r rec :: b1 ++ Reconciled t1 ev :: b2 ++ RevokedOld t2 h r :: b3
         ∧ rc_handoff ev = h ∧ rc_old_receipt ev = r ∧ complete ev = true)
  ∧ ∀ a t h r b, log = a ++ RevokedOld t h r :: b → ∀ t', Authorized t' r ∉ b.
Proof.
  intros [_ Hr]%history_invariant. split.
  - intros a t r b t' r' c ->. rewrite replay_app in Hr. apply bind_Some in Hr as (p0 & H0 & Hr). cbn in Hr.
    apply bind_Some in Hr as (p1 & [-> H1]%step_authorized & Hr). rewrite replay_app in Hr.
    apply bind_Some in Hr as (p2 & H2 & Hr). cbn in Hr. apply bind_Some in Hr as (p3 & [-> H3]%step_authorized & _).
    destruct (replacement_follows _ _ _ _ _ _ _ H2 H1 H3)
      as [?|(b0 & t0 & h & rec & b1 & t1 & ev & b2 & t2 & b3 & -> & Hh & Ho & Hcomp & Hgone)]; [by left|right].
    split; [|by exists b0, t0, h, rec, b1, t1, ev, b2, t2, b3].
    intros ->. apply replay_wf in H0 as (Hwf & _); [|done]. apply replay_wf in H2 as (Hwf2 & _); [|done].
    unfold protocol_wf in Hwf2. by rewrite H3 in Hwf2.
  - intros a t h r b -> t' (b1 & b2 & ->)%list_elem_of_split. rewrite replay_app in Hr.
    apply bind_Some in Hr as (p0 & H0 & Hr). cbn in Hr. apply bind_Some in Hr as (p1 & H1 & Hr).
    assert (r ∈ gone p1) as Hg.
    { destruct p0 as [st g u]. clear -H1. protocol_cases H1. cbn. set_solver. }
    rewrite replay_app in Hr. apply bind_Some in Hr as (p2 & H2 & Hr). cbn in Hr.
    apply bind_Some in Hr as (p3 & [-> H3]%step_authorized & _).
    apply replay_wf in H0 as (Hwf & _); [|done]. apply step_wf in H1; [|done].
    apply replay_wf in H2 as (Hwf2 & Hgone & _); [|done]. unfold protocol_wf in Hwf2. rewrite H3 in Hwf2. set_solver.
Qed.

(** C31 : a handoff completes.  A coordinator that holds a current authority and
    targets a distinct identity of the same domain is accepted in each of the
    four steps, given complete reconciliation evidence and a current, freshly
    verified, unrevoked receipt for the target; then it holds the new authority
    and the old receipt is revoked. *)
Theorem handoff_completes s log me old new h now e r v now' : history s log → ready me old new h now s →
  reconciles h old s e → identity_eq (r_identity r) new = true → receipt_names_store r s = true →
  receipt_current r now' = true → r_fingerprint r ∉ revoked s → r_fingerprint r ≠ r_fingerprint old →
  verification_matches r (Typed v) = true →
  ∃ s', accept_all me [CBegin (Typed old) (Typed new) h now None; CReconcile e; CRevoke h; CIssue r (Typed v) h now'] s = Some s'
    ∧ active s' = Some r ∧ r_fingerprint old ∈ revoked s'
    ∧ authorized (authorize_locked me (Typed (r_identity r)) (Typed r) now' s') = true.
Proof.
  intros [Hs _]%history_invariant Hrd He Hi Hn Hc Hr Hne Hv. exists (issued me old h s r v). split.
  - cbn [accept_all run]. rewrite (begin_run me old new h now s Hs Hrd). cbn [accepted authorized accept].
    rewrite (reconcile_run me old new h now s Hs Hrd e He). cbn [accepted authorized accept].
    rewrite (revoke_run me old new h now s Hs Hrd e) by apply He. cbn [accepted authorized accept].
    by rewrite (issue_run me old new h now s Hs Hrd e r v now').
  - split; [done|]. split; [cbn; set_solver|]. by apply (issued_authorizes me old new h now s Hs Hrd).
Qed.

(** once the active receipt has expired without an orchestrator's claim,
    every operation of every coordinator, with any evidence, is refused and
    leaves the store as it is: no authority can be activated, claimed, handed
    over or torn down any more. *)
Theorem unclaimed_expiry_blocks_store s log a : history s log → progress s = None → active s = Some a →
  c_owner (claim s) = None → ∀ me c, clock_after (r_expires_at a) c →
  (run me c s).2 = s ∧ ∀ d, (run me c s).1 = Ok d → authorized d = false.
Proof. intros [Hs _]%history_invariant Hp Ha Hc me c Hn. by apply (unclaimed_denies s Hs a). Qed.

(** ** Sample histories *)

Lemma history_accept me c s log d s' : history s log → command_built c → run me c s = (Ok d, s') →
  history s' (log ++ option_list (event_of me c d)).
Proof. intros Hh Hc Hr. pose proof (history_step s log me c Hh Hc) as H. by rewrite Hr in H. Qed.

Lemma activate_run r v now s : receipt_names_store r s = true → receipt_current r now = true →
  verification_matches r (Typed v) = true → active s = None → progress s = None → r_fingerprint r ∉ revoked s →
  activate_initial (Typed r) (Typed v) now s
  = accepted "initial receipt is the sole active authority" (r_fingerprint r)
      (clear_handoff_claim (clear_authority_claim (set_active (Some r) (Some v) s))).
Proof.
  intros Hn Hc Hv Ha Hp Hr. unfold activate_initial. cbn [checked]. rewrite Hn, Hc. cbn [negb]. rewrite Hv, Ha, Hp.
  by rewrite bool_decide_eq_false_2.
Qed.

Lemma claim_run me r v fp now s : progress s = None → active s = Some r → verification s = Some v →
  receipt_names_store r s = true → receipt_current r now = true → verification_matches r (Typed v) = true →
  c_owner (claim s) = None → match_hex 64 fp = true →
  claim_orchestrator me (Typed r) fp now s
  = accepted "exclusive canonical orchestrator claim acquired" (r_fingerprint r)
      (set_claim {| c_owner := Some me; c_receipt := Some (r_fingerprint r); c_binding := Some (binding_digest r);
                    c_fingerprint := Some fp |} (claim_generation s + 1) s).
Proof.
  intros Hp Ha Hv Hn Hc Hm Ho Hf. unfold claim_orchestrator, require_fingerprint, require, is_active.
  rewrite Hf, Hp, Ha. cbn [checked]. rewrite receipt_eq_refl, Hn. cbn [andb]. rewrite Hv. cbn [of_option].
  rewrite Hc, Hm, Ho. reflexivity.
Qed.

Definition sample_fp (c : string) : string := str_repeat c 64.

Definition sample_runtime : RuntimeBinding :=
  {| schema_version := SCHEMA; resolved_digest := String.append "sha256:" (sample_fp "1");
     worker_profile_identity := String.append "sha256:" (sample_fp "2");
     supervisor_profile_identities := [String.append "sha256:" (sample_fp "3")];
     review_complete_rounds := 0; review_max_rounds := 0; review_max_supervisor_attempts_per_round := 0;
     review_on_final_findings := ""; review_policy_digest := "" |}.

Definition sample_identity (candidate : string) : DeploymentAuthorityIdentity :=
  {| i_repository := sample_fp "a"; i_checkout := sample_fp "b"; i_state_store := sample_fp "c";
     i_state_id := {| uuid_int := 7 |}; i_deployment := sample_fp "d"; i_candidate := str_repeat candidate 40;
     i_environment := sample_fp "e"; i_runtime_binding := sample_runtime |}.

Definition sample_receipt (candidate fp : string) : DeploymentAuthorityHandoffReceipt :=
  {| r_fingerprint := sample_fp fp; r_identity := sample_identity candidate;
     r_issued_at := DateTime 2026 8 6 9 0 0 0 TzUtc; r_expires_at := DateTime 2026 8 6 10 0 0 0 TzUtc |}.

Definition sample_verification (r : DeploymentAuthorityHandoffReceipt) : DeploymentAuthorityReceiptVerification :=
  {| v_evidence := sample_fp "0"; v_receipt := r_fingerprint r; v_binding_digest := binding_digest r;
     v_repository := i_repository (r_identity r); v_state_store := i_state_store (r_identity r);
     v_state_id := i_state_id (r_identity r); v_candidate := i_candidate (r_identity r);
     v_environment := i_environment (r_identity r); v_status := RV_FRESH |}.

Definition sample_now : dyn datetime := Typed (DateTime 2026 8 6 9 30 0 0 TzUtc).

Definition sample_old : DeploymentAuthorityHandoffReceipt := sample_receipt "a" "f".
Definition sample_new : DeploymentAuthorityHandoffReceipt := sample_receipt "b" "9".

Definition sample_store : Store :=
  {| state_store_fingerprint := sample_fp "c"; state_id := {| uuid_int := 7 |}; active := None; verification := None;
     progress := None; revoked := ∅; claim := no_claim; claim_generation := 0; handoff := no_handoff; consumed := ∅ |}.

Definition sample_reconciliation : HandoffReconciliation :=
  {| rc_handoff := sample_fp "4"; rc_old_receipt := sample_fp "f"; rc_state_store := sample_fp "c";
     rc_state_id := {| uuid_int := 7 |}; dispatcher_stopped := true; children_reconciled := true;
     lease_reconciled := true; rc_evidence := sample_fp "5" |}.

Lemma sample_verified r : verification_matches r (Typed (sample_verification r)) = true.
Proof. unfold verification_matches, sample_verification. cbn. by rewrite !bool_decide_eq_true_2. Qed.

Lemma sample_verification_built c fp : match_hex 64 (sample_fp fp) = true → match_hex 40 (str_repeat c 40) = true →
  DeploymentAuthorityReceiptVerification_post_init (sample_verification (sample_receipt c fp)) = Ok ().
Proof.
  intros Hf Hc. apply is_ok_unit. unfold DeploymentAuthorityReceiptVerification_post_init, require_fingerprints, require_fingerprint, require_candidate.
  validator. cbn [sample_verification v_evidence v_receipt v_binding_digest v_repository v_state_store v_environment v_candidate
    sample_receipt r_fingerprint r_identity sample_identity i_repository i_state_store i_environment i_candidate].
  unfold binding_digest, sha256_json. rewrite sha256_hex_match, Hf, Hc. by split_and?.
Qed.

Definition sample_active : Store :=
  clear_handoff_claim (clear_authority_claim
    (set_active (Some sample_old) (Some (sample_verification sample_old)) sample_store)).

Definition sample_claimed : Store :=
  set_claim {| c_owner := Some 0%nat; c_receipt := Some (r_fingerprint sample_old);
               c_binding := Some (binding_digest sample_old); c_fingerprint := Some (sample_fp "6") |}
    (claim_generation sample_active + 1) sample_active.

Lemma sample_active_history : history sample_active [Activated (sample_fp "f")].
Proof.
  apply (history_accept 0%nat (CActivate (Typed sample_old) (Typed (sample_verification sample_old)) sample_now)
    sample_store [] (accept "initial receipt is the sole active authority" (sample_fp "f"))).
  - by apply (history_new (sample_fp "c") {| uuid_int := 7 |}).
  - split; [reflexivity|]. by apply sample_verification_built.
  - cbn [run]. rewrite activate_run; [reflexivity|reflexivity|reflexivity|apply sample_verified|done|done|set_solver].
Qed.

Lemma sample_claimed_history : history sample_claimed [Activated (sample_fp "f"); Claimed 0 (sample_fp "f")].
Proof.
  apply (history_accept 0%nat (CClaim (Typed sample_old) (sample_fp "6") sample_now)
    sample_active [Activated (sample_fp "f")]
    (accept "exclusive canonical orchestrator claim acquired" (sample_fp "f"))).
  - apply sample_active_history.
  - reflexivity.
  - cbn [run]. rewrite (claim_run _ _ (sample_verification sample_old));
    [reflexivity|reflexivity|reflexivity|reflexivity|reflexivity|reflexivity|apply sample_verified|reflexivity|reflexivity].
Qed.

Lemma sample_ready : ready 0%nat sample_old (sample_identity "b") (sample_fp "4") sample_now sample_claimed.
Proof.
  constructor; [reflexivity|reflexivity|reflexivity| |reflexivity|reflexivity|reflexivity|reflexivity|reflexivity].
  unfold holds_claim, sample_claimed. cbn. by rewrite !bool_decide_eq_true_2.
Qed.

Lemma sample_reconciles : reconciles (sample_fp "4") sample_old sample_claimed sample_reconciliation.
Proof. by split_and!. Qed.

Definition sample_log : list Event :=
  [Activated (sample_fp "f"); Claimed 0 (sample_fp "f"); Authorized 0 (sample_fp "f");
   Began 0 (sample_fp "4") (sample_fp "f") None; Reconciled 0 sample_reconciliation].

Definition sample_issued : Store :=
  issued 0%nat sample_old (sample_fp "4") sample_claimed sample_new (sample_verification sample_new).

Lemma sample_authorized : authorize_locked 0%nat (Typed (sample_identity "a")) (Typed sample_old) sample_now sample_claimed
  = accept "one exact authority receipt is current" (sample_fp "f").
Proof.
  exact (authorize_run 0%nat sample_old (sample_verification sample_old) sample_now sample_claimed eq_refl eq_refl eq_refl
    (not_elem_of_empty (C:=gset string) _) eq_refl (sample_verified sample_old) (rd_holds _ _ _ _ _ _ sample_ready) eq_refl).
Qed.

Lemma sample_issued_history : history sample_issued
  (sample_log ++ [RevokedOld 0 (sample_fp "4") (sample_fp "f"); Issued 0 (sample_fp "4") (sample_fp "9")]).
Proof.
  pose proof sample_claimed_history as H. pose proof (proj1 (history_invariant _ _ H)) as Hi.
  assert (DeploymentAuthorityHandoffReceipt_post_init sample_old = Ok ()) as Hb by reflexivity.
  eapply (history_accept 0%nat (CAuthorize (Typed (sample_identity "a")) (Typed sample_old) sample_now)) in H;
    [|by split|cbn [run]; unfold authorize; rewrite sample_authorized; reflexivity].
  eapply (history_accept 0%nat (CBegin (Typed sample_old) (Typed (sample_identity "b")) (sample_fp "4") sample_now None)) in H;
    [|by split_and!|exact (begin_run _ _ _ _ _ _ Hi sample_ready)].
  eapply (history_accept 0%nat (CReconcile sample_reconciliation)) in H;
    [|reflexivity|exact (reconcile_run _ _ _ _ _ _ Hi sample_ready _ sample_reconciles)].
  eapply (history_accept 0%nat (CRevoke (sample_fp "4"))) in H; [|done|exact (revoke_run _ _ _ _ _ _ Hi sample_ready sample_reconciliation eq_refl)].
  eapply (history_accept 0%nat (CIssue sample_new (Typed (sample_verification sample_new)) (sample_fp "4") sample_now)) in H;
    [|split; [reflexivity|by apply sample_verification_built]
     |apply (issue_run _ _ _ _ _ _ Hi sample_ready sample_reconciliation sample_new (sample_verification sample_new) sample_now);
      [apply identity_eq_refl|reflexivity|reflexivity|apply not_elem_of_empty|done|apply sample_verified]].
  exact H.
Qed.

Lemma handoff_refines_protocol_witness : replay sample_log initial
  ≫= replay [RevokedOld 0 (sample_fp "4") (sample_fp "f"); Issued 0 (sample_fp "4") (sample_fp "9")]
  = Some (protocol_of sample_issued).
Proof. rewrite <- replay_app. exact (proj1 (handoff_refines_protocol _ _ sample_issued_history)). Defined.

Lemma authority_moves_only_by_revocation_witness : Forall (λ t, Authorized t (sample_fp "f") ∉ [Issued 0 (sample_fp "4") (sample_fp "9")]) [0%nat; 1%nat].
Proof.
  apply Forall_forall. intros t _.
  exact (proj2 (authority_moves_only_by_revocation _ _ sample_issued_history) sample_log 0%nat (sample_fp "4") (sample_fp "f") _ eq_refl t).
Defined.

Lemma handoff_completes_witness : ∃ s',
  accept_all 0%nat [CBegin (Typed sample_old) (Typed (sample_identity "b")) (sample_fp "4") sample_now None;
                    CReconcile sample_reconciliation; CRevoke (sample_fp "4");
                    CIssue sample_new (Typed (sample_verification sample_new)) (sample_fp "4") sample_now] sample_claimed = Some s'
  ∧ active s' = Some sample_new.
Proof.
  destruct (handoff_completes sample_claimed _ 0%nat sample_old (sample_identity "b") (sample_fp "4") sample_now
    sample_reconciliation sample_new (sample_verification sample_new) sample_now sample_claimed_history sample_ready
    sample_reconciles) as (s' & Hs' & Ha & _); [apply identity_eq_refl|reflexivity|reflexivity|apply not_elem_of_empty|done|apply sample_verified|].
  exists s'. split; [exact Hs'|exact Ha].
Defined.

(** An hour after it expired, the receipt cannot be handed over even with
    recovery evidence. *)
Lemma unclaimed_expiry_blocks_store_witness :
  (run 1%nat (CBegin (Typed sample_old) (Typed (sample_identity "b")) (sample_fp "4")
                (Typed (DateTime 2026 8 6 11 0 0 0 TzUtc)) None) sample_active).2 = sample_active.
Proof.
  exact (proj1 (unclaimed_expiry_blocks_store sample_active _ sample_old sample_active_history eq_refl eq_refl eq_refl
    1%nat (CBegin (Typed sample_old) (Typed (sample_identity "b")) (sample_fp "4")
             (Typed (DateTime 2026 8 6 11 0 0 0 TzUtc)) None) eq_refl)).
Defined.
