(* ===== verification/NativeHost.v ===== *)
(** * Native host (src/roundwright/native_host.py)

    The host lifecycle of one platform installation: the SQLite control store
    that holds the process bookkeeping, and the hosts that admit_process, finish and
    recover processes only while their deployment authority is current.  The
    database is explicit state; each operation of the store is one transaction,
    which may fail as a whole ([io] is false when the database cannot be used:
    an [OSError] or [sqlite3.Error]). *)

From S2P Require Import Prelude Sqlite Json PyTime RuntimeBinding Handoff.
Open Scope Z_scope.

Inductive NativeHostState := IDLE | RUNNING | STOPPED.
Inductive InvocationSource := ONE_SHOT | SCHEDULER_WAKE.

Definition InvocationSource_value (s : InvocationSource) : string :=
  match s with ONE_SHOT => "one-shot" | SCHEDULER_WAKE => "scheduler-wake" end.

#[export] Instance NativeHostState_eq_dec : EqDecision NativeHostState.
Proof. solve_decision. Defined.

(** ** Values *)

Definition require_host_fingerprint (value description : string) : py unit :=
  require (match_hex 64 value) NativeHostError (String.append description " fingerprint is invalid").

Definition match_token (s : string) : bool :=
  match_ident is_alnum (λ c, is_alnum c || one_of "._:/-" c) 127 s.

Definition require_process_id (value : string) : py string :=
  _ ← require (match_token value) NativeHostError "native host process identity is invalid"; Ok value.

Record NativeHostInstallation := {
  installation_fingerprint : string;
  n_identity : DeploymentAuthorityIdentity;
  n_receipt : DeploymentAuthorityHandoffReceipt;
}.

Definition NativeHostInstallation_post_init (i : NativeHostInstallation) : py unit :=
  _ ← require_host_fingerprint (installation_fingerprint i) "native host installation";
  require (identity_eq (r_identity (n_receipt i)) (n_identity i)) NativeHostError
    "native host installation is not bound to its authority".

Record NativeHostDecision := {
  is_accepted : bool;
  n_reason : string;
  d_installation : option string;
  d_receipt : option string;
  d_process : option string;
}.

Record NativeHostObservation := {
  o_installation : string;
  o_receipt : string;
  o_candidate : string;
}.

Definition NativeHostObservation_post_init (o : NativeHostObservation) : py unit :=
  _ ← require_host_fingerprint (o_installation o) "observed native host installation";
  _ ← require_host_fingerprint (o_receipt o) "observed native host receipt";
  require (match_hex 40 (o_candidate o)) NativeHostError "observed native host candidate SHA is invalid".

Record NativeHostMountedRuntimeEvidence := {
  m_installation : string;
  m_receipt : string;
  m_candidate : string;
  m_runtime_binding : RuntimeBinding;
  m_authentication : string;
  m_environment : string;
}.

Definition NativeHostMountedRuntimeEvidence_post_init (e : NativeHostMountedRuntimeEvidence) : py unit :=
  _ ← for_each (λ vd, require_host_fingerprint vd.1 vd.2)
        [(m_installation e, "mounted native host installation"); (m_receipt e, "mounted native host receipt");
         (m_authentication e, "mounted authentication"); (m_environment e, "mounted environment")];
  require (match_hex 40 (m_candidate e)) NativeHostError "mounted native host candidate SHA is invalid".

Record NativeHostLifecycleObservation := {
  l_installation : NativeHostObservation;
  l_active_lock : bool;
  l_completed : Z;
  l_cancelled : Z;
  l_recovered : Z;
}.

Definition NativeHostLifecycleObservation_post_init (o : NativeHostLifecycleObservation) : py unit :=
  require (all_true [0 <=? l_completed o; 0 <=? l_cancelled o; 0 <=? l_recovered o]) NativeHostError
    "native host lifecycle observation is invalid".

(** ** The database *)

(** A row of [native_host_process]; the table's primary key is [pr_id]. *)
Record ProcessRow := {
  pr_id : string;
  pr_receipt : string;
  pr_candidate : string;
  pr_source : string;
  pr_state : string;
  pr_started : Z;
  pr_lease : Z;
  pr_updated : Z;
}.

(** The key/value tables as dicts and the process table in insertion order. *)
Record Database := {
  metadata : list (string * string);
  mounted : list (string * string);
  processes : list ProcessRow;
}.

Definition empty_database : Database := {| metadata := []; mounted := []; processes := [] |}.

Definition set_processes (rows : list ProcessRow) (db : Database) : Database :=
  {| metadata := metadata db; mounted := mounted db; processes := rows |}.

(** A write transaction: [_connection], [_prepare], the body, then commit; an
    exception rolls back.  No database yet means that its tables are created. *)
Definition transaction {A} (io : bool) (unavailable : A) (body : Database → py (A * Database))
    (db : option Database) : py A * option Database :=
  if negb io then (Ok unavailable, db)
  else match body (default empty_database db) with
       | Ok (a, db') => (Ok a, Some db')
       | Err e => (Err e, db)
       end.

(** A read-only connection; without a database it fails. *)
Definition reading (io : bool) (db : option Database) : option Database := if io then db else None.

(** [==] of two dicts. *)
Definition dict_eq (d1 d2 : list (string * string)) : bool := same_elements d1 d2.

Definition accept_install (i : NativeHostInstallation) (reason : string) (process : option string) : NativeHostDecision :=
  {| is_accepted := true; n_reason := reason; d_installation := Some (installation_fingerprint i);
     d_receipt := Some (r_fingerprint (n_receipt i)); d_process := process |}.

Definition deny_install (i : NativeHostInstallation) (reason : string) (process : option string) : NativeHostDecision :=
  {| is_accepted := false; n_reason := reason; d_installation := Some (installation_fingerprint i);
     d_receipt := Some (r_fingerprint (n_receipt i)); d_process := process |}.

Definition bare (ok : bool) (reason : string) : NativeHostDecision :=
  {| is_accepted := ok; n_reason := reason; d_installation := None; d_receipt := None; d_process := None |}.

Definition unavailable : string := "native host state database is unavailable".
Definition not_authoritative : string := "native host state is not authoritative for this candidate".

Definition installed_metadata (installation receipt candidate : string) : list (string * string) :=
  [("installation_fingerprint", installation); ("receipt_fingerprint", receipt); ("candidate_sha", candidate)].

Definition metadata_for (i : NativeHostInstallation) : list (string * string) :=
  installed_metadata (installation_fingerprint i) (r_fingerprint (n_receipt i)) (i_candidate (n_identity i)).

Definition matches_installation (i : NativeHostInstallation) (db : Database) : bool := dict_eq (metadata db) (metadata_for i).

(** ** Time *)

Definition timestamp (value : dyn datetime) : py Z :=
  match checked is_utc value with
  | Some d => Ok (epoch_microseconds d)
  | None => raise NativeHostError "native host timestamp must be an aware UTC datetime"
  end.

(** [type(value) is not timedelta or value <= timedelta()] raises. *)
Definition require_interval (value : dyn timedelta) (why : string) : py Z :=
  match checked (λ t, 0 <? td_microseconds t) value with
  | Some t => Ok (td_microseconds t)
  | None => raise NativeHostError why
  end.

Definition default_process_lease : timedelta := {| td_microseconds := 60000000 |}.

(** ** The control store *)

Abbreviation store_op := (option Database → py NativeHostDecision * option Database).

(** A database path is accepted by its name. *)
Definition control_store_name_ok (name : string) : bool := name ==? "native-host.sqlite3".

Definition store_install (io : bool) (i : NativeHostInstallation) : store_op :=
  transaction io (deny_install i unavailable None) (λ db,
      match metadata db with
      | [] => Ok (accept_install i "native host installation recorded" None,
                  {| metadata := metadata_for i; mounted := mounted db; processes := processes db |})
      | _ :: _ => if dict_eq (metadata db) (metadata_for i) then
                    Ok (accept_install i "native host installation recorded" None, db)
                  else Ok (deny_install i "native host state belongs to a different receipt or candidate" None, db)
      end).

Definition store_verify (io : bool) (i : NativeHostInstallation) (db : option Database) : NativeHostDecision :=
  match reading io db with
  | None => deny_install i unavailable None
  | Some db => if matches_installation i db then accept_install i "native host installation verified" None
               else deny_install i not_authoritative None
  end.

Definition metadata_keys : list string := ["installation_fingerprint"; "receipt_fingerprint"; "candidate_sha"].

(** [NativeHostObservation(metadata[...], ...)] of a complete metadata table. *)
Definition observation_of (md : list (string * string)) : py NativeHostObservation :=
  _ ← require (same_elements md.*1 metadata_keys) NativeHostError "native host state metadata is invalid";
  let o := {| o_installation := default "" (assoc "installation_fingerprint" md);
              o_receipt := default "" (assoc "receipt_fingerprint" md);
              o_candidate := default "" (assoc "candidate_sha" md) |} in
  _ ← NativeHostObservation_post_init o; Ok o.

(** Every [ValueError] is replaced, the module's own included. *)
Definition reraised {A} (r : py A) : py A :=
  match r with Ok a => Ok a | Err _ => raise NativeHostError unavailable end.

Definition store_observe (io : bool) (db : option Database) : py NativeHostObservation :=
  match reading io db with
  | None => raise NativeHostError unavailable
  | Some db => reraised (observation_of (metadata db))
  end.

Definition mounted_runtime_values (e : NativeHostMountedRuntimeEvidence) : list (string * string) :=
  [("authentication_identity", m_authentication e); ("environment_fingerprint", m_environment e);
   ("runtime_binding", canonical_material (m_runtime_binding e))].

Definition metadata_of_evidence (e : NativeHostMountedRuntimeEvidence) : list (string * string) :=
  installed_metadata (m_installation e) (m_receipt e) (m_candidate e).

Definition record_mounted_runtime_evidence (io : bool) (evidence : dyn NativeHostMountedRuntimeEvidence) : store_op :=
  λ db, match evidence with
  | Foreign => (raise NativeHostError "mounted runtime evidence is invalid", db)
  | Typed e =>
      transaction io (bare false unavailable) (λ db,
        if negb (dict_eq (metadata db) (metadata_of_evidence e)) then
          Ok (bare false "native host state is not authoritative for mounted evidence", db)
        else match mounted db with
        | [] => Ok (bare true "native host mounted evidence recorded",
                    {| metadata := metadata db; mounted := mounted_runtime_values e; processes := processes db |})
        | _ :: _ => if dict_eq (mounted db) (mounted_runtime_values e) then
                      Ok (bare true "native host mounted evidence recorded", db)
                    else Ok (bare false "native host mounted evidence conflicts", db)
        end) db
  end.

Definition verify_mounted_runtime_evidence (io : bool) (evidence : dyn NativeHostMountedRuntimeEvidence)
    (db : option Database) : py NativeHostDecision :=
  match evidence with
  | Foreign => raise NativeHostError "mounted runtime evidence is invalid"
  | Typed e =>
      match reading io db with
      | None => Ok (bare false unavailable)
      | Some db => if dict_eq (metadata db) (metadata_of_evidence e) && dict_eq (mounted db) (mounted_runtime_values e)
                   then Ok (bare true "native host mounted evidence verified")
                   else Ok (bare false "native host mounted evidence is mismatched")
      end
  end.

Definition terminal_states : list string := ["completed"; "cancelled"; "recovered"].

(** The number of rows [GROUP BY state] counts for one state. *)
Definition count_state (state : string) (db : Database) : Z :=
  Z.of_nat (length (List.filter (λ r, pr_state r ==? state) (processes db))).

Definition store_observe_lifecycle (io : bool) (db : option Database) : py NativeHostLifecycleObservation :=
  match reading io db with
  | None => raise NativeHostError unavailable
  | Some db =>
      reraised (
        _ ← require (same_elements (metadata db).*1 metadata_keys) NativeHostError "native host state metadata is invalid";
        _ ← require (forallb (λ r, pr_state r in? "running" :: terminal_states) (processes db)) NativeHostError
              "native host process state is invalid";
        o ← observation_of (metadata db);
        let l := {| l_installation := o; l_active_lock := 0 <? count_state "running" db;
                    l_completed := count_state "completed" db; l_cancelled := count_state "cancelled" db;
                    l_recovered := count_state "recovered" db |} in
        _ ← NativeHostLifecycleObservation_post_init l; Ok l)
  end.

Definition find_process (id : string) (db : Database) : option ProcessRow :=
  List.find (λ r, pr_id r ==? id) (processes db).

Definition update_process (id : string) (f : ProcessRow → ProcessRow) (db : Database) : Database :=
  set_processes (map (λ r, if pr_id r ==? id then f r else r) (processes db)) db.

Definition set_state (state : string) (now : Z) (r : ProcessRow) : ProcessRow :=
  {| pr_id := pr_id r; pr_receipt := pr_receipt r; pr_candidate := pr_candidate r; pr_source := pr_source r;
     pr_state := state; pr_started := pr_started r; pr_lease := pr_lease r; pr_updated := now |}.

Definition set_lease (lease now : Z) (r : ProcessRow) : ProcessRow :=
  {| pr_id := pr_id r; pr_receipt := pr_receipt r; pr_candidate := pr_candidate r; pr_source := pr_source r;
     pr_state := pr_state r; pr_started := pr_started r; pr_lease := lease; pr_updated := now |}.

Definition admit_body (i : NativeHostInstallation) (id : string) (source : InvocationSource) (now : dyn datetime)
    (lease : Z) (db : Database) : py (NativeHostDecision * Database) :=
  if negb (matches_installation i db) then Ok (deny_install i not_authoritative (Some id), db)
  else if existsb (λ r, pr_state r ==? "running") (processes db) then
    Ok (deny_install i "native host lock has an active process" (Some id), db)
  else match find_process id db with
  | Some _ => Ok (deny_install i "native host process identity was already consumed" (Some id), db)
  | None =>
      t ← timestamp now;
      started ← sqlite_int t; expires ← sqlite_int (t + lease); updated ← sqlite_int t;
      Ok (accept_install i
            (String.append "native host " (String.append (InvocationSource_value source) " process admitted")) (Some id),
          set_processes (processes db ++
            [{| pr_id := id; pr_receipt := r_fingerprint (n_receipt i); pr_candidate := i_candidate (n_identity i);
                pr_source := InvocationSource_value source; pr_state := "running"; pr_started := started;
                pr_lease := expires; pr_updated := updated |}]) db)
  end.

Definition admit_process (io : bool) (i : NativeHostInstallation) (id : string) (source : InvocationSource)
    (now : dyn datetime) (lease_for : dyn timedelta) : store_op := λ db,
  match require_interval lease_for "native host process lease is invalid" with
  | Err e => (Err e, db)
  | Ok lease => transaction io (deny_install i unavailable (Some id)) (admit_body i id source now lease) db
  end.

Definition renew_lease (io : bool) (i : NativeHostInstallation) (id : string) (now : dyn datetime)
    (lease_for : dyn timedelta) : store_op := λ db,
  match require_interval lease_for "native host process lease is invalid" with
  | Err e => (Err e, db)
  | Ok lease =>
      transaction io (deny_install i unavailable (Some id)) (λ db,
        if negb (matches_installation i db) then Ok (deny_install i not_authoritative (Some id), db)
        else
          t ← timestamp now; expires ← sqlite_int (t + lease); updated ← sqlite_int t;
          match find_process id db with
          | Some r => if pr_state r ==? "running" then
                        Ok (accept_install i "native host process lease renewed" (Some id),
                            update_process id (set_lease expires updated) db)
                      else Ok (deny_install i "native host process is not active" (Some id), db)
          | None => Ok (deny_install i "native host process is not active" (Some id), db)
          end) db
  end.

Definition finish (io : bool) (i : NativeHostInstallation) (id state : string) (now : dyn datetime) : store_op := λ db,
  match require (state in? terminal_states) NativeHostError "native host terminal state is invalid" with
  | Err e => (Err e, db)
  | Ok _ =>
      transaction io (deny_install i unavailable (Some id)) (λ db,
        if negb (matches_installation i db) then Ok (deny_install i not_authoritative (Some id), db)
        else match find_process id db with
        | None => Ok (deny_install i "native host process is not active" (Some id), db)
        | Some r =>
            if pr_state r !=? "running" then
              if (state ==? "cancelled") && (pr_state r ==? "cancelled") then
                Ok (accept_install i "native host process is already cancelled" (Some id), db)
              else Ok (deny_install i "native host process is not active" (Some id), db)
            else
              t ← timestamp now; updated ← sqlite_int t;
              Ok (accept_install i (String.append "native host process " state) (Some id),
                  update_process id (set_state state updated) db)
        end) db
  end.

Definition recover_stale (io : bool) (i : NativeHostInstallation) (id : string) (now : dyn datetime)
    (stale_after : dyn timedelta) : store_op := λ db,
  match require_interval stale_after "native host stale-child interval is invalid" with
  | Err e => (Err e, db)
  | Ok interval =>
      transaction io (deny_install i unavailable (Some id)) (λ db,
        if negb (matches_installation i db) then Ok (deny_install i not_authoritative (Some id), db)
        else match find_process id db with
        | Some r =>
            if pr_state r !=? "running" then
              Ok (deny_install i "native host process is not an active stale child" (Some id), db)
            else
              t ← timestamp now;
              if (t <? pr_started r + interval) || (t <? pr_lease r) then
                Ok (deny_install i "native host child has a live lease or is not stale" (Some id), db)
              else
                updated ← sqlite_int t;
                Ok (accept_install i "native host stale child recovered" (Some id),
                    update_process id (set_state "recovered" updated) db)
        | None => Ok (deny_install i "native host process is not an active stale child" (Some id), db)
        end) db
  end.

(** ** Hosts *)

(** What a [NativeHost] is created with: its coordinator, its installation and
    whether it has a control store. *)
Record Host := {
  host_coordinator : coordinator;
  host_installation : NativeHostInstallation;
  host_durable : bool;
}.

(** Its own state. *)
Record Memory := {
  host_state : NativeHostState;
  active_process_id : option string;
  consumed_process_ids : gset string;
}.

Definition new_memory : Memory := {| host_state := IDLE; active_process_id := None; consumed_process_ids := ∅ |}.

(** What an operation of a host works on: the authority store, the database and
    its own memory. *)
Record World := { w_authority : Store; w_db : option Database; w_mem : Memory }.

Abbreviation host_result := (py NativeHostDecision * World)%type.

Definition set_memory (m : Memory) (w : World) : World :=
  {| w_authority := w_authority w; w_db := w_db w; w_mem := m |}.

Definition idle (w : World) : World :=
  set_memory {| host_state := IDLE; active_process_id := None; consumed_process_ids := consumed_process_ids (w_mem w) |} w.

Definition host_accepted (h : Host) (reason : string) (process : option string) (w : World) : host_result :=
  (Ok (accept_install (host_installation h) reason process), w).

Definition host_denied (h : Host) (reason : string) (process : option string) (w : World) : host_result :=
  (Ok (deny_install (host_installation h) reason process), w).

(** A call of the control store, when the host has one; a denial is returned as
    it is, otherwise the operation goes on. *)
Definition durably (h : Host) (op : store_op) (rest : NativeHostDecision → World → host_result) (w : World) : host_result :=
  let '(r, db) := op (w_db w) in
  let w := {| w_authority := w_authority w; w_db := db; w_mem := w_mem w |} in
  match r with
  | Err e => (Err e, w)
  | Ok d => if negb (is_accepted d) then (Ok d, w) else rest d w
  end.

Definition if_durable (h : Host) (op : store_op) (rest : World → host_result) (w : World) : host_result :=
  if host_durable h then durably h op (λ _, rest) w else rest w.

Definition run_authorized_transition (h : Host) (process : string) (now : dyn datetime)
    (transition : World → host_result) (w : World) : host_result :=
  match transition_if_authorized w_authority (host_coordinator h) (Typed (n_identity (host_installation h)))
          (Typed (n_receipt (host_installation h))) now (Typed transition) w with
  | (Err e, w) => (Err e, w)
  | (Ok (authority, decision), w) =>
      if negb (authorized authority) then host_denied h (reason authority) (Some process) w
      else match decision with
           | Some d => (Ok d, w)
           | None => (raise NativeHostError "native host authority transition returned an invalid decision", w)
           end
  end.

(** [_require_process_id(process_id)], then the rest. *)
Definition with_process (process_id : string) (rest : string → World → host_result) (w : World) : host_result :=
  match require_process_id process_id with Ok p => rest p w | Err e => (Err e, w) end.

(** [_timestamp(now)] for its exception only. *)
Definition checking_time (now : dyn datetime) (rest : World → host_result) (w : World) : host_result :=
  match timestamp now with Ok _ => rest w | Err e => (Err e, w) end.

Definition start (h : Host) (io : bool) (process_id : string) (source : InvocationSource) (now : dyn datetime) :
    World → host_result := with_process process_id (λ process w,
  match host_state (w_mem w) with
  | STOPPED => host_denied h "native host is stopped" (Some process) w
  | RUNNING => host_denied h "native host already has an active process" (Some process) w
  | IDLE =>
      if process in? consumed_process_ids (w_mem w) then
        host_denied h "native host process identity was already consumed" (Some process) w
      else
        run_authorized_transition h process now
          (if_durable h (admit_process io (host_installation h) process source now (Typed default_process_lease)) (λ w,
            host_accepted h (String.append "native host " (String.append (InvocationSource_value source) " process admitted"))
              (Some process)
              (set_memory {| host_state := RUNNING; active_process_id := Some process;
                             consumed_process_ids := {[ process ]} ∪ consumed_process_ids (w_mem w) |} w))) w
  end).

Definition run_once (h : Host) (io : bool) (process_id : string) (now : dyn datetime) : World → host_result :=
  start h io process_id ONE_SHOT now.

Definition request_scheduler_wake (h : Host) (io : bool) (process_id : string) (now : dyn datetime) :
    World → host_result := with_process process_id (λ process w,
  let wake := request_scheduler_wakeup (host_coordinator h) (Typed (n_identity (host_installation h)))
                (Typed (n_receipt (host_installation h))) now (w_authority w) in
  if negb (requested wake) then host_denied h (w_reason wake) (Some process) w
  else start h io process SCHEDULER_WAKE now w).

(** The process is the one this host runs. *)
Definition is_running (process : string) (w : World) : bool :=
  match host_state (w_mem w) with RUNNING => active_process_id (w_mem w) ==? Some process | _ => false end.

Definition complete_process (h : Host) (io : bool) (process_id : string) (now : dyn datetime) : World → host_result :=
  with_process process_id (λ process, checking_time now (λ w,
    match host_state (w_mem w) with
    | STOPPED => host_denied h "native host is stopped" (Some process) w
    | _ =>
        if negb (is_running process w) then host_denied h "native host process is not active" (Some process) w
        else run_authorized_transition h process now
          (if_durable h (finish io (host_installation h) process "completed" now) (λ w,
            host_accepted h "native host process completed" (Some process) (idle w))) w
    end)).

(** [complete(process_id)]: without [now] the clock is read. *)
Definition complete_now (h : Host) (io : bool) (process_id : string) (now : option (dyn datetime)) (clock : datetime) :
    World → host_result := complete_process h io process_id (default (Typed clock) now).

Definition cancel (h : Host) (io : bool) (process_id : string) (now : dyn datetime) : World → host_result :=
  with_process process_id (λ process, checking_time now (λ w,
    match host_state (w_mem w) with
    | STOPPED => host_denied h "native host is stopped" (Some process) w
    | state =>
        if (state ==? IDLE) && host_durable h && (process in? consumed_process_ids (w_mem w)) then
          run_authorized_transition h process now
            (durably h (finish io (host_installation h) process "cancelled" now) (λ _,
              host_accepted h "native host process is already cancelled" (Some process))) w
        else if negb (is_running process w) then host_denied h "native host process is not active" (Some process) w
        else run_authorized_transition h process now
          (if_durable h (finish io (host_installation h) process "cancelled" now) (λ w,
            host_accepted h "native host process cancelled" (Some process) (idle w))) w
    end)).

Definition renew_child_lease (h : Host) (io : bool) (process_id : string) (now : dyn datetime) (lease_for : dyn timedelta) :
    World → host_result := with_process process_id (λ process, checking_time now (λ w,
  if negb (host_durable h) then host_denied h "native host has no durable child lease" (Some process) w
  else if negb (is_running process w) then host_denied h "native host process is not active" (Some process) w
  else run_authorized_transition h process now
    (durably h (renew_lease io (host_installation h) process now lease_for) (λ d w, (Ok d, w))) w)).

Definition recover_stale_child (h : Host) (io : bool) (process_id : string) (now : dyn datetime) (stale_after : dyn timedelta) :
    World → host_result := with_process process_id (λ process, checking_time now (λ w,
  if negb (host_durable h) then host_denied h "native host has no durable child state to recover" (Some process) w
  else run_authorized_transition h process now
    (durably h (recover_stale io (host_installation h) process now stale_after) (λ d w,
      (Ok d, if active_process_id (w_mem w) ==? Some process then idle w else w))) w)).

(** The action is code of the platform wrapper: it may do anything to the world
    and raise.  [io] and [io'] are the database at admission and at the end. *)
Definition execute_one_shot (h : Host) (io io' : bool) (process_id : string) (action : dyn (World → py unit * World))
    (now : dyn datetime) (w : World) : host_result :=
  match action with
  | Foreign => (raise NativeHostError "native host one-shot action is invalid", w)
  | Typed action =>
      match run_once h io process_id now w with
      | (Err e, w) => (Err e, w)
      | (Ok decision, w) =>
          if negb (is_accepted decision) then (Ok decision, w)
          else match action w with
          | (Ok _, w) => complete_process h io' process_id now w
          | (Err e, w) =>
              match cancel h io' process_id now w with
              | (Ok _, w) => (Err e, w)
              | (Err e', w) => (Err e', w)
              end
          end
      end
  end.

Definition stop (h : Host) (w : World) : host_result :=
  match host_state (w_mem w) with
  | STOPPED => host_accepted h "native host is already stopped" None w
  | RUNNING => host_denied h "native host has an active process" (active_process_id (w_mem w)) w
  | IDLE => host_accepted h "native host stopped" None
              (set_memory {| host_state := STOPPED; active_process_id := active_process_id (w_mem w);
                             consumed_process_ids := consumed_process_ids (w_mem w) |} w)
  end.

(** [worktree] is [None] without paths, and otherwise the outcome of
    [require_authoritative_worktree]. *)
Definition install_native_host (me : coordinator) (i : dyn NativeHostInstallation) (now : dyn datetime)
    (worktree : option (string → py unit)) (io : bool) (w : World) :
    py (option (Host * Memory) * NativeHostDecision) * World :=
  match i with
  | Foreign => (raise NativeHostError "native host installation is invalid", w)
  | Typed i =>
      let transition (w : World) : py (option (Host * Memory) * NativeHostDecision) * World :=
        match worktree with
        | None => (Ok (Some ({| host_coordinator := me; host_installation := i; host_durable := false |}, new_memory),
                       accept_install i "native host installation admitted" None), w)
        | Some require_worktree =>
            match require_worktree (i_candidate (n_identity i)) with
            | Err e => if exn_kind e ==? NativeHostError then (Ok (None, deny_install i (exn_message e) None), w)
                       else (Err e, w)
            | Ok _ =>
                let '(r, db) := store_install io i (w_db w) in
                let w := {| w_authority := w_authority w; w_db := db; w_mem := w_mem w |} in
                match r with
                | Err e => (Err e, w)
                | Ok d => if negb (is_accepted d) then (Ok (None, d), w)
                          else (Ok (Some ({| host_coordinator := me; host_installation := i; host_durable := true |}, new_memory), d), w)
                end
            end
        end in
      match transition_if_authorized w_authority me (Typed (n_identity i)) (Typed (n_receipt i)) now (Typed transition) w with
      | (Err e, w) => (Err e, w)
      | (Ok (authority, result), w) =>
          if negb (authorized authority) then (Ok (None, deny_install i (reason authority) None), w)
          else match result with
               | Some r => (Ok r, w)
               | None => (raise NativeHostError "native host authority transition returned an invalid installation result", w)
               end
      end
  end.

(** ** The database invariant *)

Definition is_running_row (r : ProcessRow) : Prop := pr_state r = "running".

Record db_inv (db : Database) : Prop := {
  db_ids : NoDup (pr_id <$> processes db);
  db_one_running : ∀ r1 r2, r1 ∈ processes db → r2 ∈ processes db → is_running_row r1 → is_running_row r2 → r1 = r2;
  db_states : ∀ r, r ∈ processes db → is_running_row r ∨ pr_state r ∈ terminal_states;
  db_bound : metadata db = [] ∧ processes db = []
    ∨ ∃ inst receipt candidate, metadata db = installed_metadata inst receipt candidate
      ∧ ∀ r, r ∈ processes db → pr_receipt r = receipt ∧ pr_candidate r = candidate;
  db_times : ∀ r, r ∈ processes db → int64 (pr_started r) ∧ int64 (pr_lease r) ∧ int64 (pr_updated r);
}.

(** What may become of a row: its identity stays, and a row that is not running
    stays as it is. *)
Definition row_kept (r r' : ProcessRow) : Prop :=
  pr_id r' = pr_id r ∧ pr_receipt r' = pr_receipt r ∧ pr_candidate r' = pr_candidate r
  ∧ pr_source r' = pr_source r ∧ pr_started r' = pr_started r ∧ (¬ is_running_row r → r' = r).

(** What may become of a database. *)
Definition grows (db db' : Database) : Prop :=
  (metadata db = [] ∨ metadata db' = metadata db)
  ∧ ∃ kept new, processes db' = kept ++ new ∧ Forall2 row_kept (processes db) kept ∧ (length new ≤ 1)%nat.

Lemma row_kept_refl r : row_kept r r.
Proof. by split_and!. Qed.

Lemma grows_rows db db' : (metadata db = [] ∨ metadata db' = metadata db) → processes db' = processes db → grows db db'.
Proof.
  intros Hm Hp. split; [done|]. exists (processes db), []. rewrite app_nil_r. split_and!; [done| |cbn; lia].
  apply Forall2_same_length_lookup_2; [done|]. intros i x y Hx Hy. simplify_eq. apply row_kept_refl.
Qed.

Lemma grows_refl db : grows db db.
Proof. apply grows_rows; auto. Qed.

Lemma find_process_some id db r : find_process id db = Some r → r ∈ processes db ∧ pr_id r = id.
Proof. intros [H1 H2]%List.find_some. breflect. split; [by apply list_elem_of_In|done]. Qed.

Lemma find_process_none id db : find_process id db = None → id ∉ pr_id <$> processes db.
Proof.
  intros H (r & -> & Hr)%list_elem_of_fmap. apply list_elem_of_In in Hr.
  eapply List.find_none in H; [|exact Hr]. by rewrite bool_decide_eq_true_2 in H.
Qed.

Lemma find_process_spec db r : NoDup (pr_id <$> processes db) → r ∈ processes db → find_process (pr_id r) db = Some r.
Proof.
  unfold find_process. induction (processes db) as [|x l IH]; [by intros _ ?%elem_of_nil|]. cbn.
  intros [Hx Hl]%list.NoDup_cons [->|Hr]%elem_of_cons; [by rewrite bool_decide_eq_true_2|].
  rewrite bool_decide_eq_false_2; [by apply IH|]. intros E. apply Hx. rewrite E. by apply list_elem_of_fmap_2.
Qed.

Section update.
Context (db : Database) (id : string) (r0 : ProcessRow) (f : ProcessRow → ProcessRow).
Context (Hdb : db_inv db) (Hfind : find_process id db = Some r0) (Hrun : is_running_row r0).
Context (Hstate : is_running_row (f r0) ∨ pr_state (f r0) ∈ terminal_states).
Context (Htimes : int64 (pr_lease (f r0)) ∧ int64 (pr_updated (f r0))).
Context (Hkeep : pr_id (f r0) = pr_id r0 ∧ pr_receipt (f r0) = pr_receipt r0 ∧ pr_candidate (f r0) = pr_candidate r0
  ∧ pr_source (f r0) = pr_source r0 ∧ pr_started (f r0) = pr_started r0).

(** Only the row found is changed. *)
Lemma update_eq r : r ∈ processes db → (if pr_id r ==? id then f r else r) = if pr_id r ==? id then f r0 else r.
Proof using Hdb Hfind.
  intros Hr. case_bool_decide as E; [|done]. f_equal. apply find_process_some in Hfind as [Hr0 E0].
  pose proof (find_process_spec db r (db_ids _ Hdb) Hr) as H1.
  pose proof (find_process_spec db r0 (db_ids _ Hdb) Hr0) as H2. congruence.
Qed.

Lemma update_elem r' : r' ∈ processes (update_process id f db) →
  r' = f r0 ∨ (r' ∈ processes db ∧ pr_id r' ≠ id).
Proof using Hdb Hfind.
  cbn. intros (r & -> & Hr)%list_elem_of_fmap. rewrite update_eq by done. case_bool_decide; auto.
Qed.

Lemma update_inv : db_inv (update_process id f db).
Proof using All.
  apply find_process_some in Hfind as Hr0. destruct Hr0 as [Hr0 Hid]. destruct Hdb as [Hn H1 Hst Hb Ht]. constructor.
  - cbn. rewrite <- list_fmap_compose. rewrite (list_fmap_ext _ pr_id); [done|].
    intros i r Hr%list_elem_of_lookup_2. cbn. rewrite (update_eq r Hr). case_bool_decide; [|done]. by destruct Hkeep as [-> _]; rewrite Hid.
  - intros r1 r2 [->|[Hr1 N1]]%update_elem [->|[Hr2 N2]]%update_elem R1 R2; [done| | |by apply H1].
    + exfalso. apply N2. by rewrite <- (H1 r0 r2).
    + exfalso. apply N1. by rewrite <- (H1 r0 r1).
  - intros r [->|[Hr _]]%update_elem; [done|auto].
  - destruct Hb as [[_ Hp]|(a & b & c & Hm & Hp)].
    + rewrite Hp in Hr0. by apply elem_of_nil in Hr0.
    + right. exists a, b, c. split; [done|]. intros r [->|[Hr _]]%update_elem; [|auto].
      destruct Hkeep as (_ & -> & -> & _). auto.
  - intros r [->|[Hr _]]%update_elem; [|auto]. destruct Hkeep as (_ & _ & _ & _ & ->). split; [by apply Ht|done].
Qed.

Lemma update_grows : grows db (update_process id f db).
Proof using All.
  split; [by right|]. exists (processes (update_process id f db)), []. rewrite app_nil_r.
  split_and!; [done| |cbn; lia]. cbn. apply Forall2_fmap_r, Forall2_same_length_lookup_2; [done|].
  intros i x y Hx Hy. rewrite Hx in Hy. injection Hy as <-.
  pose proof (list_elem_of_lookup_2 _ _ _ Hx) as Hin. cbn. rewrite (update_eq x Hin).
  case_bool_decide as E; [|apply row_kept_refl]. assert (x = r0) as ->.
  { pose proof (find_process_spec db x (db_ids _ Hdb) Hin). congruence. }
  destruct Hkeep as (H1 & H2 & H3 & H4 & H5). split_and!; [done..|]. intros Hnr. by destruct Hnr.
Qed.
End update.

(** ** Every transaction keeps the invariant *)

Definition contents (db : option Database) : Database := default empty_database db.

Lemma empty_inv : db_inv empty_database.
Proof.
  constructor; cbn; [constructor| | | |]; try (intros ? H; by apply elem_of_nil in H); try (intros ? ? H; by apply elem_of_nil in H).
  by left.
Qed.

Definition keeps (op : store_op) : Prop := ∀ db, db_inv (contents db) →
  db_inv (contents (op db).2) ∧ grows (contents db) (contents (op db).2).

(** What the body of a transaction must guarantee. *)
Definition body_keeps {A} (db : Database) (r : py (A * Database)) : Prop :=
  match r with Ok (_, db') => db_inv db' ∧ grows db db' | Err _ => True end.

Lemma transaction_keeps io u body : (∀ db, db_inv db → body_keeps db (body db)) → keeps (transaction io u body).
Proof.
  intros Hb db Hdb. unfold transaction. destruct io; cbn [negb]; [|split; [done|apply grows_refl]].
  specialize (Hb (contents db) Hdb). fold (contents db). unfold body_keeps in Hb.
  destruct (body (contents db)) as [[a db']|e]; cbn; [done|split; [done|apply grows_refl]].
Qed.

Lemma same_keeps {A} db (a : A) : db_inv db → body_keeps db (Ok (a, db)).
Proof. intros Hdb. split; [done|apply grows_refl]. Qed.

Lemma interval_keeps value why k : (∀ z, keeps (k z)) →
  keeps (λ db, match require_interval value why with Err e => (Err e, db) | Ok z => k z db end).
Proof.
  intros Hk db Hdb. destruct (require_interval value why); [by apply Hk|]. split; [done|apply grows_refl].
Qed.

Lemma timestamp_ok now t : timestamp now = Ok t → ∃ d, now = Typed d ∧ is_utc d = true ∧ t = epoch_microseconds d.
Proof.
  unfold timestamp. destruct now as [d|]; [|done]. cbn. destruct (is_utc d) eqn:E; [|done]. intros [= <-]. by exists d.
Qed.

Lemma body_keeps_bind {A B} db (m : py A) (k : A → py (B * Database)) :
  (∀ a, m = Ok a → body_keeps db (k a)) → body_keeps db (m ≫= k).
Proof. destruct m; cbn; auto. Qed.

(** The metadata of an installation is that of the rows it may touch. *)
Lemma matches_eq i db : db_inv db → matches_installation i db = true → metadata db = metadata_for i.
Proof.
  intros Hdb Hm. unfold matches_installation, dict_eq in Hm. breflect.
  destruct (db_bound _ Hdb) as [[E _]|(a & b & c & E & _)].
  - rewrite E in Hm. specialize (Hm ("installation_fingerprint", installation_fingerprint i)).
    destruct Hm as [_ Hm]. exfalso. assert (("installation_fingerprint", installation_fingerprint i) ∈ metadata_for i) as H by left.
    apply Hm in H. by apply elem_of_nil in H.
  - rewrite E in Hm |- *. unfold metadata_for, installed_metadata in *.
    assert (∀ k v, (k, v) ∈ [("installation_fingerprint", a); ("receipt_fingerprint", b); ("candidate_sha", c)] →
      (k, v) ∈ [("installation_fingerprint", installation_fingerprint i); ("receipt_fingerprint", r_fingerprint (n_receipt i));
                ("candidate_sha", i_candidate (n_identity i))]) as Hin by (intros k v; apply Hm).
    pose proof (Hin _ _ ltac:(left)) as H1. pose proof (Hin _ _ ltac:(right; left)) as H2.
    pose proof (Hin _ _ ltac:(right; right; left)) as H3.
    rewrite !elem_of_cons, elem_of_nil in H1, H2, H3.
    repeat match goal with H : _ ∨ _ |- _ => destruct H; simplify_eq end; done.
Qed.

Lemma admit_keeps io i id source now lease : keeps (admit_process io i id source now lease).
Proof.
  apply interval_keeps. intros z. apply transaction_keeps. intros db Hdb. unfold admit_body.
  destruct (matches_installation i db) eqn:Em; cbn [negb]; [|by apply same_keeps].
  destruct (existsb _ _) eqn:Er; [by apply same_keeps|].
  destruct (find_process id db) eqn:Ef; [by apply same_keeps|].
  apply body_keeps_bind. intros t _. apply body_keeps_bind. intros st [-> Hst]%sqlite_int_ok.
  apply body_keeps_bind. intros ex [-> Hex]%sqlite_int_ok. apply body_keeps_bind. intros up [-> _]%sqlite_int_ok.
  cbn [body_keeps]. set (row := {| pr_id := id; pr_receipt := _; pr_candidate := _; pr_source := _; pr_state := _;
                                  pr_started := _; pr_lease := _; pr_updated := _ |}).
  rewrite existsb_elem_false in Er. apply find_process_none in Ef. apply matches_eq in Em; [|done].
  split; [|split; [by right|]].
  - destruct Hdb as [Hn H1 Hs Hb Ht]. constructor; cbn.
    + rewrite fmap_app. apply list.NoDup_app. split_and!; [done| |apply NoDup_singleton].
      by intros x Hx ->%list_elem_of_singleton.
    + assert (∀ r, r ∈ processes db → ¬ is_running_row r) as Hno
        by (intros r Hr Hrun; specialize (Er r Hr); by rewrite bool_decide_eq_true_2 in Er).
      intros r1 r2 [Hr1| ->%list_elem_of_singleton]%elem_of_app [Hr2| ->%list_elem_of_singleton]%elem_of_app R1 R2;
        [by apply H1|by apply Hno in R1|by apply Hno in R2|done].
    + intros r [Hr| ->%list_elem_of_singleton]%elem_of_app; [auto|by left].
    + right. exists (installation_fingerprint i), (r_fingerprint (n_receipt i)), (i_candidate (n_identity i)).
      split; [done|]. intros r [Hr| ->%list_elem_of_singleton]%elem_of_app; [|done].
      destruct Hb as [[_ Hp]|(a & b & c & E & Hp)]; [rewrite Hp in Hr; by apply elem_of_nil in Hr|].
      rewrite E in Em. destruct (Hp r Hr) as [-> ->]. injection Em as _ Hb2 Hc2. by split.
    + intros r [Hr| ->%list_elem_of_singleton]%elem_of_app; [auto|done].
  - exists (processes db), [row]. split_and!; [done| |cbn; lia].
    apply Forall2_same_length_lookup_2; [done|]. intros j x y Hx Hy. rewrite Hx in Hy. injection Hy as <-. apply row_kept_refl.
Qed.

Lemma update_keeps {A} db id r0 f (a : A) : db_inv db → find_process id db = Some r0 → is_running_row r0 →
  is_running_row (f r0) ∨ pr_state (f r0) ∈ terminal_states → int64 (pr_lease (f r0)) ∧ int64 (pr_updated (f r0)) →
  pr_id (f r0) = pr_id r0 ∧ pr_receipt (f r0) = pr_receipt r0 ∧ pr_candidate (f r0) = pr_candidate r0
  ∧ pr_source (f r0) = pr_source r0 ∧ pr_started (f r0) = pr_started r0 →
  body_keeps db (Ok (a, update_process id f db)).
Proof. intros. split; [by eapply update_inv|by eapply update_grows]. Qed.

Lemma renew_keeps io i id now lease : keeps (renew_lease io i id now lease).
Proof.
  apply interval_keeps. intros z. apply transaction_keeps. intros db Hdb.
  destruct (negb _); [by apply same_keeps|]. apply body_keeps_bind. intros t _.
  apply body_keeps_bind. intros ex [-> Hex]%sqlite_int_ok. apply body_keeps_bind. intros up [-> Hup]%sqlite_int_ok.
  destruct (find_process id db) as [r|] eqn:Ef; [|by apply same_keeps].
  case_bool_decide as Hr; [|by apply same_keeps]. eapply update_keeps; [done|done|done|by left|done|done].
Qed.

Lemma set_state_keeps {A} db id r state t (a : A) : db_inv db → find_process id db = Some r → is_running_row r →
  state ∈ terminal_states → int64 t → body_keeps db (Ok (a, update_process id (set_state state t) db)).
Proof.
  intros Hdb Hf Hr Hs Ht. eapply update_keeps; [done|done|done|by right| |done].
  apply find_process_some in Hf as [Hin _]. split; [by apply (db_times _ Hdb r Hin)|done].
Qed.

Lemma finish_keeps io i id state now : keeps (finish io i id state now).
Proof.
  unfold finish. intros db. unfold require. destruct (state in? terminal_states) eqn:Es.
  - apply bool_decide_eq_true in Es. revert db. apply transaction_keeps. intros db Hdb.
    destruct (negb _); [by apply same_keeps|].
    destruct (find_process id db) as [r|] eqn:Ef; [|by apply same_keeps]. case_bool_decide as Hr; cbn [negb].
    + apply body_keeps_bind. intros t _. apply body_keeps_bind. intros up [-> Hup]%sqlite_int_ok.
      by eapply set_state_keeps.
    + destruct (_ && _); by apply same_keeps.
  - intros Hdb. split; [done|apply grows_refl].
Qed.

Lemma recover_keeps io i id now stale : keeps (recover_stale io i id now stale).
Proof.
  apply interval_keeps. intros z. apply transaction_keeps. intros db Hdb. destruct (negb _); [by apply same_keeps|].
  destruct (find_process id db) as [r|] eqn:Ef; [|by apply same_keeps]. case_bool_decide as Hr; cbn [negb]; [|by apply same_keeps].
  apply body_keeps_bind. intros t _. destruct (_ || _); [by apply same_keeps|].
  apply body_keeps_bind. intros up [-> Hup]%sqlite_int_ok. eapply set_state_keeps; [done|done|done| |done].
  right. right. left.
Qed.

Lemma install_keeps io i : keeps (store_install io i).
Proof.
  apply transaction_keeps. intros db Hdb. destruct (metadata db) as [|kv md] eqn:Em.
  - destruct (db_bound _ Hdb) as [[_ Hp]|(a & b & c & E & _)]; [|by rewrite E in Em].
    split; [|by apply grows_rows; [left|]]. constructor; cbn; rewrite Hp;
      try (intros ? H; by apply elem_of_nil in H); try (intros ? ? H; by apply elem_of_nil in H); [constructor|].
    right. eexists _, _, _. split; [done|]. intros r Hr. by apply elem_of_nil in Hr.
  - destruct (dict_eq _ _); by apply same_keeps.
Qed.

Lemma mounted_keeps io e : keeps (record_mounted_runtime_evidence io e).
Proof.
  intros db. unfold record_mounted_runtime_evidence. destruct e as [e|]; [|intros Hdb; split; [done|apply grows_refl]].
  revert db. apply transaction_keeps. intros db Hdb. destruct (negb _); [by apply same_keeps|].
  destruct (mounted db); [|destruct (dict_eq _ _); by apply same_keeps].
  split; [by destruct Hdb; constructor|by apply grows_rows; [right|]].
Qed.

(** ** What a host operation does to the world *)

Lemma transition_run {W A} (store_of : W → Store) me i r now (f : W → py A * W) (w : W) :
  transition_if_authorized store_of me i r now (Typed f) w
  = let authority := authorize_locked me i r now (store_of w) in
    if negb (authorized authority) then (Ok (authority, None), w)
    else match f w with (Ok a, w) => (Ok (authority, Some a), w) | (Err e, w) => (Err e, w) end.
Proof. reflexivity. Qed.

(** The authority the host's installation has now. *)
Definition host_authority (h : Host) (now : dyn datetime) (w : World) : HandoffDecision :=
  authorize_locked (host_coordinator h) (Typed (n_identity (host_installation h)))
    (Typed (n_receipt (host_installation h))) now (w_authority w).

Lemma authorized_run h process now transition w :
  run_authorized_transition h process now transition w
  = if authorized (host_authority h now w) then transition w
    else host_denied h (reason (host_authority h now w)) (Some process) w.
Proof.
  unfold run_authorized_transition. rewrite transition_run. cbv zeta. fold (host_authority h now w).
  destruct (authorized (host_authority h now w)) eqn:E; cbn [negb].
  - destruct (transition w) as [[d|e] w']; [|done]. by rewrite E.
  - by rewrite E.
Qed.

(** A host operation keeps the authority store, and keeps or extends the
    database. *)
Definition touches (w : World) (r : host_result) : Prop :=
  w_authority r.2 = w_authority w
  ∧ (db_inv (contents (w_db w)) → db_inv (contents (w_db r.2)) ∧ grows (contents (w_db w)) (contents (w_db r.2))).

Definition Touches (f : World → host_result) : Prop := ∀ w, touches w (f w).

Lemma touches_same w r m : touches w (r, set_memory m w).
Proof. split; [done|]. intros H. split; [done|apply grows_refl]. Qed.

Lemma touches_here w r : touches w (r, w).
Proof. split; [done|]. intros H. split; [done|apply grows_refl]. Qed.

Lemma Touches_durably h op rest : keeps op → (∀ d w, ∃ r m, rest d w = (r, set_memory m w)) → Touches (durably h op rest).
Proof.
  intros Ho Hr w. unfold durably. destruct (op (w_db w)) as [r db] eqn:E.
  pose proof (Ho (w_db w)) as Hk. rewrite E in Hk. cbn [snd] in Hk.
  destruct r as [d|e]; [|by split]. destruct (negb _); [by split|].
  destruct (Hr d {| w_authority := w_authority w; w_db := db; w_mem := w_mem w |}) as (r & m & ->). by split.
Qed.

Lemma Touches_if_durable h op rest : keeps op → (∀ w, ∃ r m, rest w = (r, set_memory m w)) → Touches (if_durable h op rest).
Proof.
  intros Ho Hr w. unfold if_durable. destruct (host_durable h); [by apply Touches_durably|].
  destruct (Hr w) as (r & m & ->). apply touches_same.
Qed.

Lemma Touches_authorized h process now f : Touches f → Touches (run_authorized_transition h process now f).
Proof. intros Hf w. rewrite authorized_run. destruct (authorized _); [apply Hf|apply touches_here]. Qed.

Lemma Touches_process id f : (∀ p, Touches (f p)) → Touches (with_process id f).
Proof. intros Hf w. unfold with_process. destruct (require_process_id id); [apply Hf|apply touches_here]. Qed.

Lemma Touches_time now f : Touches f → Touches (checking_time now f).
Proof. intros Hf w. unfold checking_time. destruct (timestamp now); [apply Hf|apply touches_here]. Qed.

Create HintDb touches.
#[local] Hint Resolve admit_keeps renew_keeps finish_keeps recover_keeps touches_here touches_same : touches.

Lemma Touches_start h io id source now : Touches (start h io id source now).
Proof.
  apply Touches_process. intros p w. destruct (host_state (w_mem w)); [|apply touches_here..].
  case_bool_decide; [apply touches_here|]. apply Touches_authorized, Touches_if_durable; [auto with touches|].
  intros w'. by eexists _, _.
Qed.

Lemma Touches_wake h io id now : Touches (request_scheduler_wake h io id now).
Proof.
  apply Touches_process. intros p w. cbv beta zeta. destruct (negb _); [apply touches_here|]. apply Touches_start.
Qed.

Lemma Touches_complete h io id now : Touches (complete_process h io id now).
Proof.
  apply Touches_process. intros p. apply Touches_time. intros w.
  destruct (host_state (w_mem w)); [| |apply touches_here];
    (destruct (negb _); [apply touches_here|]; apply Touches_authorized, Touches_if_durable; [auto with touches|];
     intros w'; by eexists _, _).
Qed.

Lemma Touches_cancel h io id now : Touches (cancel h io id now).
Proof.
  apply Touches_process. intros p. apply Touches_time. intros w.
  assert (Touches (run_authorized_transition h p now
    (if_durable h (finish io (host_installation h) p "cancelled" now) (λ w,
      host_accepted h "native host process cancelled" (Some p) (idle w))))) as H.
  { apply Touches_authorized, Touches_if_durable; [auto with touches|]. intros w'. by eexists _, _. }
  assert (Touches (run_authorized_transition h p now
    (durably h (finish io (host_installation h) p "cancelled" now) (λ _,
      host_accepted h "native host process is already cancelled" (Some p))))) as H'.
  { apply Touches_authorized, Touches_durably; [auto with touches|]. intros d w'.
    exists (Ok (accept_install (host_installation h) "native host process is already cancelled" (Some p))), (w_mem w').
    by destruct w'. }
  destruct (host_state (w_mem w)); [| |apply touches_here];
    (match goal with |- touches _ (if ?b then _ else _) => destruct b end;
     [apply H'|destruct (negb _); [apply touches_here|apply H]]).
Qed.

Lemma Touches_renew h io id now lease : Touches (renew_child_lease h io id now lease).
Proof.
  apply Touches_process. intros p. apply Touches_time. intros w. destruct (negb _); [apply touches_here|].
  destruct (negb _); [apply touches_here|]. apply Touches_authorized, Touches_durably; [auto with touches|].
  intros d w'. exists (Ok d), (w_mem w'). by destruct w'.
Qed.

Lemma Touches_recover h io id now stale : Touches (recover_stale_child h io id now stale).
Proof.
  apply Touches_process. intros p. apply Touches_time. intros w. destruct (negb _); [apply touches_here|].
  apply Touches_authorized, Touches_durably; [auto with touches|]. intros d w'. case_bool_decide; [by eexists _, _|].
  exists (Ok d), (w_mem w'). by destruct w'.
Qed.

Lemma Touches_stop h : Touches (stop h).
Proof. intros w. unfold stop. destruct (host_state (w_mem w)); [apply touches_same|apply touches_here..]. Qed.

(** ** What a host operation does to the host *)

Inductive HostCommand :=
  | HRun (id : string) (now : dyn datetime)
  | HWake (id : string) (now : dyn datetime)
  | HComplete (id : string) (now : option (dyn datetime)) (clock : datetime)
  | HCancel (id : string) (now : dyn datetime)
  | HRenew (id : string) (now : dyn datetime) (lease_for : dyn timedelta)
  | HRecover (id : string) (now : dyn datetime) (stale_after : dyn timedelta)
  | HStop.

Definition perform (h : Host) (io : bool) (c : HostCommand) : World → host_result :=
  match c with
  | HRun id now => run_once h io id now
  | HWake id now => request_scheduler_wake h io id now
  | HComplete id now clock => complete_now h io id now clock
  | HCancel id now => cancel h io id now
  | HRenew id now lease_for => renew_child_lease h io id now lease_for
  | HRecover id now stale_after => recover_stale_child h io id now stale_after
  | HStop => stop h
  end.

Lemma Touches_perform h io c : Touches (perform h io c).
Proof.
  destruct c; [apply Touches_start|apply Touches_wake|apply Touches_complete|apply Touches_cancel
    |apply Touches_renew|apply Touches_recover|apply Touches_stop].
Qed.

Definition ids (db : option Database) : list string := pr_id <$> processes (contents db).

(** The memory changes an operation may make. *)
Inductive mem_step (h : Host) (w w' : World) : Prop :=
  | ms_same : w_mem w' = w_mem w → mem_step h w w'
  | ms_start p : host_state (w_mem w) = IDLE →
      w_mem w' = {| host_state := RUNNING; active_process_id := Some p;
                    consumed_process_ids := {[ p ]} ∪ consumed_process_ids (w_mem w) |} →
      (host_durable h = true → p ∉ ids (w_db w) ∧ p ∈ ids (w_db w')) → mem_step h w w'
  | ms_idle p : active_process_id (w_mem w) = Some p →
      w_mem w' = {| host_state := IDLE; active_process_id := None;
                    consumed_process_ids := consumed_process_ids (w_mem w) |} → mem_step h w w'
  | ms_stop : host_state (w_mem w) = IDLE →
      w_mem w' = {| host_state := STOPPED; active_process_id := active_process_id (w_mem w);
                    consumed_process_ids := consumed_process_ids (w_mem w) |} → mem_step h w w'.

Definition Steps (h : Host) (f : World → host_result) : Prop := ∀ w, mem_step h w (f w).2.

(** The control store and the authority check leave the memory alone. *)
Lemma durably_memory h op rest w : w_mem (durably h op rest w).2 = w_mem w
  ∨ ∃ d db, op (w_db w) = (Ok d, db) ∧ is_accepted d = true
      ∧ durably h op rest w = rest d {| w_authority := w_authority w; w_db := db; w_mem := w_mem w |}.
Proof.
  unfold durably. destruct (op (w_db w)) as [[d|e] db] eqn:E; [|by left].
  destruct (is_accepted d) eqn:Ea; [right|by left]. by exists d, db.
Qed.

Lemma if_durable_memory h op rest w : w_mem (if_durable h op rest w).2 = w_mem w
  ∨ ∃ db, if_durable h op rest w = rest {| w_authority := w_authority w; w_db := db; w_mem := w_mem w |}
      ∧ (host_durable h = true → ∃ d, op (w_db w) = (Ok d, db) ∧ is_accepted d = true).
Proof.
  unfold if_durable. destruct (host_durable h).
  - destruct (durably_memory h op (λ _, rest) w) as [?|(d & db & H & Ha & ->)]; [by left|right].
    exists db. split; [done|]. intros _. by exists d.
  - right. exists (w_db w). split; [by destruct w|done].
Qed.

Lemma authorized_memory h process now f w : w_mem (run_authorized_transition h process now f w).2 = w_mem w
  ∨ run_authorized_transition h process now f w = f w.
Proof. rewrite authorized_run. destruct (authorized _); [by right|by left]. Qed.

Lemma Steps_process h id f : (∀ p, Steps h (f p)) → Steps h (with_process id f).
Proof. intros Hf w. unfold with_process. destruct (require_process_id id); [apply Hf|by apply ms_same]. Qed.

Lemma Steps_time h now f : Steps h f → Steps h (checking_time now f).
Proof. intros Hf w. unfold checking_time. destruct (timestamp now); [apply Hf|by apply ms_same]. Qed.

(** An accepted admission inserts a row under a new identity while no process
    runs. *)
Lemma admit_accepted io i id source now lease db d db' :
  admit_process io i id source now lease db = (Ok d, db') → is_accepted d = true →
  io = true ∧ matches_installation i (contents db) = true
  ∧ (∀ r, r ∈ processes (contents db) → ¬ is_running_row r) ∧ id ∉ ids db
  ∧ ∃ row, processes (contents db') = processes (contents db) ++ [row] ∧ pr_id row = id ∧ is_running_row row.
Proof.
  unfold admit_process. destruct (require_interval _ _) as [z|]; [|done]. unfold transaction, admit_body, ids. fold (contents db).
  destruct io; cbn [negb]; [|by intros [= <- <-]].
  destruct (matches_installation i (contents db)) eqn:Em; cbn [negb]; [|by intros [= <- <-]].
  destruct (existsb _ _) eqn:Er; [by intros [= <- <-]|].
  destruct (find_process id (contents db)) eqn:Ef; [by intros [= <- <-]|].
  destruct (timestamp now) as [t|]; cbn; [|done].
  destruct (sqlite_int t) as [st|]; cbn; [|done]. destruct (sqlite_int (t + z)) as [ex|]; cbn; [|done].
  intros [= <- <-] _. rewrite existsb_elem_false in Er. split_and!; [done|done| |by apply find_process_none|].
  - intros r Hr Hrun. specialize (Er r Hr). by rewrite bool_decide_eq_true_2 in Er.
  - eexists. split; [reflexivity|]. by split.
Qed.

Lemma Steps_start h io id source now : Steps h (start h io id source now).
Proof.
  apply Steps_process. intros p w. destruct (host_state (w_mem w)) eqn:Es; [|by apply ms_same..].
  case_bool_decide; [by apply ms_same|].
  set (f := if_durable _ _ _). destruct (authorized_memory h p now f w) as [?| ->]; [by apply ms_same|].
  unfold f. match goal with |- mem_step _ _ (if_durable _ ?op ?rest _).2 =>
    destruct (if_durable_memory h op rest w) as [?|(db & -> & Hd)] end; [by apply ms_same|].
  apply ms_start with p; [done|done|]. intros Hdur. destruct (Hd Hdur) as (d & Hop & Ha).
  apply admit_accepted in Hop as (_ & _ & _ & Hn & row & Hrow & Hid & _); [|done]. split; [done|].
  unfold ids. cbn [snd w_db host_accepted set_memory]. rewrite Hrow, fmap_app. apply elem_of_app. right. cbn. rewrite Hid. by left.
Qed.

Lemma is_running_active p w : is_running p w = true → active_process_id (w_mem w) = Some p.
Proof. unfold is_running. destruct (host_state _); [done| |done]. by breflect. Qed.

(** An operation that, once accepted, makes the host idle. *)
Lemma ends_idle h p now (op : store_op) why w : is_running p w = true →
  mem_step h w (run_authorized_transition h p now (if_durable h op (λ w, host_accepted h why (Some p) (idle w))) w).2.
Proof.
  intros Hr%is_running_active. destruct (authorized_memory h p now
    (if_durable h op (λ w, host_accepted h why (Some p) (idle w))) w) as [?| ->]; [by apply ms_same|].
  destruct (if_durable_memory h op (λ w, host_accepted h why (Some p) (idle w)) w) as [?|(db & -> & _)]; [by apply ms_same|].
  by apply ms_idle with p.
Qed.

Lemma Steps_complete h io id now : Steps h (complete_process h io id now).
Proof.
  apply Steps_process. intros p. apply Steps_time. intros w.
  destruct (host_state (w_mem w)); [| |by apply ms_same];
    (destruct (is_running p w) eqn:E; cbn [negb]; [by apply ends_idle|by apply ms_same]).
Qed.

Lemma Steps_cancel h io id now : Steps h (cancel h io id now).
Proof.
  apply Steps_process. intros p. apply Steps_time. intros w.
  destruct (host_state (w_mem w)); [| |by apply ms_same];
    (match goal with |- mem_step _ _ (if ?b then _ else _).2 => destruct b end;
     [|destruct (is_running p w) eqn:E; cbn [negb]; [by apply ends_idle|by apply ms_same]]);
    (match goal with |- mem_step _ _ (run_authorized_transition _ _ _ ?f _).2 =>
       destruct (authorized_memory h p now f w) as [?| ->] end; [by apply ms_same|]);
    (match goal with |- mem_step _ _ (durably _ ?op ?rest _).2 =>
       destruct (durably_memory h op rest w) as [?|(d & db & _ & _ & ->)] end; by apply ms_same).
Qed.

Lemma Steps_renew h io id now lease : Steps h (renew_child_lease h io id now lease).
Proof.
  apply Steps_process. intros p. apply Steps_time. intros w. destruct (negb _); [by apply ms_same|].
  destruct (negb _); [by apply ms_same|].
  match goal with |- mem_step _ _ (run_authorized_transition _ _ _ ?f _).2 =>
    destruct (authorized_memory h p now f w) as [?| ->] end; [by apply ms_same|].
  match goal with |- mem_step _ _ (durably _ ?op ?rest _).2 =>
    destruct (durably_memory h op rest w) as [?|(d & db & _ & _ & ->)] end; by apply ms_same.
Qed.

Lemma Steps_recover h io id now stale : Steps h (recover_stale_child h io id now stale).
Proof.
  apply Steps_process. intros p. apply Steps_time. intros w. destruct (negb _); [by apply ms_same|].
  match goal with |- mem_step _ _ (run_authorized_transition _ _ _ ?f _).2 =>
    destruct (authorized_memory h p now f w) as [?| ->] end; [by apply ms_same|].
  match goal with |- mem_step _ _ (durably _ ?op ?rest _).2 =>
    destruct (durably_memory h op rest w) as [?|(d & db & _ & _ & ->)] end; [by apply ms_same|].
  cbn [snd w_mem]. case_bool_decide; [by apply ms_idle with p|by apply ms_same].
Qed.

Lemma Steps_perform h io c : Steps h (perform h io c).
Proof.
  destruct c; [apply Steps_start| |apply Steps_complete|apply Steps_cancel|apply Steps_renew|apply Steps_recover|].
  - apply Steps_process. intros p w. cbv beta zeta. destruct (negb _); [by apply ms_same|]. apply Steps_start.
  - intros w. cbn [perform]. unfold stop. destruct (host_state (w_mem w)) eqn:E; [by apply ms_stop|by apply ms_same..].
Qed.

(** ** A machine: any number of hosts over one database *)

Record System := {
  sys_authority : Store;
  sys_database : option Database;
  sys_hosts : list (Host * Memory);
}.

Definition world_of (s : System) (m : Memory) : World :=
  {| w_authority := sys_authority s; w_db := sys_database s; w_mem := m |}.

Definition after_install (s : System) (me : coordinator) (i : dyn NativeHostInstallation) (now : dyn datetime)
    (worktree : option (string → py unit)) (io : bool) : System :=
  let '(r, w) := install_native_host me i now worktree io (world_of s new_memory) in
  {| sys_authority := w_authority w; sys_database := w_db w;
     sys_hosts := sys_hosts s ++ match r with Ok (Some host, _) => [host] | _ => [] end |}.

Definition after_host (s : System) (n : nat) (h : Host) (m : Memory) (io : bool) (c : HostCommand) : System :=
  let w := (perform h io c (world_of s m)).2 in
  {| sys_authority := w_authority w; sys_database := w_db w; sys_hosts := <[n := (h, w_mem w)]> (sys_hosts s) |}.

Inductive system : System → Prop :=
  | sys_new fp id st : new_store fp id = Ok st → system {| sys_authority := st; sys_database := None; sys_hosts := [] |}
  | sys_handoff s me c : system s → command_built c →
      system {| sys_authority := (run me c (sys_authority s)).2; sys_database := sys_database s; sys_hosts := sys_hosts s |}
  | sys_install s me i now worktree io : system s → system (after_install s me i now worktree io)
  | sys_mounted s io e : system s →
      system {| sys_authority := sys_authority s; sys_database := (record_mounted_runtime_evidence io e (sys_database s)).2;
                sys_hosts := sys_hosts s |}
  | sys_host s n h m io c : system s → sys_hosts s !! n = Some (h, m) → system (after_host s n h m io c).

(** What the memory of a host says. *)
Record host_ok (db : option Database) (h : Host) (m : Memory) : Prop := {
  ho_active : match host_state m with
              | RUNNING => ∃ p, active_process_id m = Some p ∧ p ∈ consumed_process_ids m
              | _ => active_process_id m = None
              end;
  ho_rows : host_durable h = true → ∀ p, p ∈ consumed_process_ids m → p ∈ ids db;
}.

Record sys_inv (s : System) : Prop := {
  si_db : db_inv (contents (sys_database s));
  si_hosts : ∀ n h m, sys_hosts s !! n = Some (h, m) → host_ok (sys_database s) h m;
  si_disjoint : ∀ n1 n2 h1 m1 h2 m2, n1 ≠ n2 → sys_hosts s !! n1 = Some (h1, m1) → sys_hosts s !! n2 = Some (h2, m2) →
    host_durable h1 = true → host_durable h2 = true → ∀ p, p ∈ consumed_process_ids m1 → p ∉ consumed_process_ids m2;
}.

Lemma grows_ids db db' p : grows (contents db) (contents db') → p ∈ ids db → p ∈ ids db'.
Proof.
  intros (_ & kept & new & Hp & Hk & _) Hin. unfold ids in *. rewrite Hp, fmap_app. apply elem_of_app. left.
  apply list_elem_of_fmap in Hin as (r & -> & [j Hj]%list_elem_of_lookup).
  destruct (Forall2_lookup_l _ _ _ _ _ Hk Hj) as (r' & Hr' & Hid & _). rewrite <- Hid.
  apply list_elem_of_fmap_2. by eapply list_elem_of_lookup_2.
Qed.

Lemma host_ok_grows db db' h m : grows (contents db) (contents db') → host_ok db h m → host_ok db' h m.
Proof. intros Hg [Ha Hr]. split; [done|]. intros Hd p Hp. eapply grows_ids; [done|auto]. Qed.

(** A change of the database alone. *)
Lemma sys_inv_db s a db : sys_inv s → db_inv (contents db) → grows (contents (sys_database s)) (contents db) →
  sys_inv {| sys_authority := a; sys_database := db; sys_hosts := sys_hosts s |}.
Proof.
  intros [Hdb Hh Hd] Hdb' Hg. constructor; cbn; [done| |done]. intros n h m Hn. eapply host_ok_grows; eauto.
Qed.

(** A host operation. *)
Lemma mem_step_ok h w w' : mem_step h w w' → host_ok (w_db w) h (w_mem w) → grows (contents (w_db w)) (contents (w_db w')) →
  host_ok (w_db w') h (w_mem w')
  ∧ ∀ p, p ∈ consumed_process_ids (w_mem w') → p ∈ consumed_process_ids (w_mem w)
      ∨ (host_durable h = true → p ∉ ids (w_db w)).
Proof.
  intros Hm Hok Hg. pose proof (host_ok_grows _ _ _ _ Hg Hok) as [Ha Hr].
  destruct Hm as [E|p Hi E Hd|p Hp E|Hi E]; rewrite E; cbn.
  - split; [done|auto].
  - split; [|intros q [->%elem_of_singleton|Hq]%elem_of_union; [right; intros; by apply Hd|by left]].
    split; cbn; [exists p; split; [done|set_solver]|].
    intros Hdur q [->%elem_of_singleton|Hq]%elem_of_union; [by apply Hd|auto].
  - split; [|auto]. by split.
  - split; [|auto]. split; cbn; [by rewrite Hi in Ha|done].
Qed.

Lemma sys_inv_host s n h m io c : sys_inv s → sys_hosts s !! n = Some (h, m) → sys_inv (after_host s n h m io c).
Proof.
  intros [Hdb Hh Hd] Hn. unfold after_host. set (w := world_of s m).
  destruct (Touches_perform h io c w) as [_ Ht]. destruct (Ht Hdb) as [Hdb' Hg]. clear Ht.
  destruct (mem_step_ok h w _ (Steps_perform h io c w) (Hh n h m Hn) Hg) as [Hok Hnew].
  set (w' := (perform h io c w).2) in *. pose proof (lookup_lt_Some _ _ _ Hn) as Hlt.
  assert (∀ k h' m', <[n:=(h, w_mem w')]> (sys_hosts s) !! k = Some (h', m') →
    (k = n ∧ h' = h ∧ m' = w_mem w') ∨ (k ≠ n ∧ sys_hosts s !! k = Some (h', m'))) as Hlook.
  { intros k h' m'. destruct (decide (k = n)) as [->|Hk].
    - rewrite list_lookup_insert_eq by done. intros [= <- <-]. by left.
    - rewrite list_lookup_insert_ne by done. by right. }
  assert (∀ k h' m', k ≠ n → sys_hosts s !! k = Some (h', m') → host_durable h' = true → host_durable h = true →
    ∀ p, p ∈ consumed_process_ids (w_mem w') → p ∉ consumed_process_ids m') as Hdis.
  { intros k h' m' Hk Hk' Hd1 Hd2 p Hp Hp'. destruct (Hnew p Hp) as [Hold|Hfresh].
    - by eapply (Hd n k h m h' m').
    - apply (Hfresh Hd2). by apply (ho_rows _ _ _ (Hh k h' m' Hk')). }
  constructor; cbn; [done| |].
  - intros k h' m' [(-> & -> & ->)|[Hk Hk']]%Hlook; [done|]. by eapply host_ok_grows, Hh.
  - intros n1 n2 h1 m1 h2 m2 Hne [(-> & -> & ->)|[Hk1 H1]]%Hlook [(-> & -> & ->)|[Hk2 H2]]%Hlook D1 D2 p Hp.
    + done.
    + by eapply Hdis.
    + intros Hp'. by eapply (Hdis n1 h1 m1).
    + by eapply (Hd n1 n2 h1 m1 h2 m2).
Qed.

Lemma install_effect me i now worktree io w r w' : install_native_host me i now worktree io w = (r, w') →
  db_inv (contents (w_db w)) →
  (db_inv (contents (w_db w')) ∧ grows (contents (w_db w)) (contents (w_db w')))
  ∧ ∀ hm d, r = Ok (Some hm, d) → hm.2 = new_memory.
Proof.
  intros H Hdb. assert (db_inv (contents (w_db w)) ∧ grows (contents (w_db w)) (contents (w_db w))) as Hsame
    by (split; [done|apply grows_refl]).
  unfold install_native_host in H. destruct i as [i|]; [|injection H as <- <-; split; [done|by intros]].
  rewrite transition_run in H. cbv zeta in H.
  destruct (authorized (authorize_locked _ _ _ _ _)) eqn:Ea; cbn [negb] in H; [|rewrite Ea in H; injection H as <- <-; split; [done|by intros]].
  destruct worktree as [require_worktree|].
  - destruct (require_worktree _) as [u|e].
    + pose proof (install_keeps io i (w_db w) Hdb) as Hk. destruct (store_install io i (w_db w)) as [[d|e] db]; cbn [snd] in Hk.
      * destruct (is_accepted d); cbn [negb] in H; rewrite Ea in H; cbn [negb] in H; injection H as <- <-;
          (split; [done|]); [by intros hm d' [= <- _]|done].
      * injection H as <- <-. split; [done|by intros].
    + destruct (_ ==? _); [rewrite Ea in H; cbn [negb] in H|]; injection H as <- <-; (split; [done|by intros]).
  - rewrite Ea in H. cbn [negb] in H. injection H as <- <-. split; [done|]. by intros hm d [= <- _].
Qed.

Lemma sys_inv_install s me i now worktree io : sys_inv s → sys_inv (after_install s me i now worktree io).
Proof.
  intros [Hdb Hh Hd]. unfold after_install.
  destruct (install_native_host me i now worktree io (world_of s new_memory)) as [r w] eqn:E.
  apply install_effect in E as [[Hdb' Hg] Hnew]; [|done].
  destruct r as [[[hm|] d]|e]; [|rewrite app_nil_r; apply (sys_inv_db s _ _); [by constructor|done|done]..].
  specialize (Hnew hm d eq_refl). destruct hm as [h0 m0]. cbn in Hnew. subst m0.
  assert (∀ k h m, (sys_hosts s ++ [(h0, new_memory)]) !! k = Some (h, m) →
    sys_hosts s !! k = Some (h, m) ∨ m = new_memory) as Hlook.
  { intros k h m [Hk|[_ Hk]]%lookup_app_Some; [by left|right]. destruct (k - length (sys_hosts s))%nat; [by injection Hk as <- <-|done]. }
  constructor; cbn; [done| |].
  - intros n h m [Hn| ->]%Hlook; [by eapply host_ok_grows, Hh|]. split; cbn; [done|set_solver].
  - intros n1 n2 h1 m1 h2 m2 Hne [H1| ->]%Hlook [H2| ->]%Hlook D1 D2 p Hp; [|by apply not_elem_of_empty|cbn in Hp; set_solver..].
    by eapply (Hd n1 n2 h1 m1 h2 m2).
Qed.

Lemma system_invariant s : system s → sys_inv s.
Proof.
  induction 1 as [fp id st _|s me c _ IH _|s me i now worktree io _ IH|s io e _ IH|s n h m io c _ IH Hn].
  - constructor; cbn; [apply empty_inv|done|done].
  - apply sys_inv_db; [done|apply IH|apply grows_refl].
  - by apply sys_inv_install.
  - destruct (mounted_keeps io e (sys_database s) (si_db _ IH)) as [H1 H2]. by apply sys_inv_db.
  - by apply sys_inv_host.
Qed.

(** ** Admission *)

Lemma authority_clock h now w : authorized (host_authority h now w) = true → ∃ t, now = Typed t ∧ is_utc t = true.
Proof.
  unfold host_authority, authorize_locked. cbn [checked]. destruct (receipt_names_store _ _); [|done].
  destruct (progress _); [done|].
  repeat match goal with
  | |- authorized (if negb (receipt_current _ _) then _ else _) = true → _ => idtac
  | |- authorized (if ?b then _ else _) = true → _ => destruct b; [done|]
  end.
  unfold receipt_current, within. destruct now as [t|]; [|done]. cbn [checked].
  destruct (is_utc t) eqn:E; [|done]. by exists t.
Qed.

(** Admission through the control store. *)
Definition admissible (i : NativeHostInstallation) (id : string) (io : bool) (db : option Database) : Prop :=
  io = true ∧ matches_installation i (contents db) = true
  ∧ (∀ r, r ∈ processes (contents db) → ¬ is_running_row r) ∧ id ∉ ids db.

Lemma admit_body_run i id source t db : is_utc t = true → datetime_in_range t = true → ∃ dec db',
  admit_body i id source (Typed t) 60000000 db = Ok (dec, db')
  ∧ (is_accepted dec = true ↔ admissible i id true (Some db)).
Proof.
  intros Hu Hr. unfold admit_body, admissible, ids. change (contents (Some db)) with db.
  destruct (matches_installation i db) eqn:Em; cbn [negb]; [|eexists _, _; split; [reflexivity|by split; [|intros (_ & ? & _)]]].
  destruct (existsb _ _) eqn:Er.
  { eexists _, _. split; [reflexivity|]. split; [done|]. intros (_ & _ & H & _).
    apply existsb_elem in Er as (r & Hr' & E). exfalso. apply (H r Hr'). by breflect. }
  destruct (find_process id db) as [row|] eqn:Ef.
  { eexists _, _. split; [reflexivity|]. split; [done|]. intros (_ & _ & _ & H). exfalso.
    apply find_process_some in Ef as [Hin <-]. apply H. by apply list_elem_of_fmap_2. }
  pose proof (epoch_microseconds_bound t Hr) as Hb. unfold timestamp. cbn [checked]. rewrite Hu. cbn [mbind result_bind].
  revert Hb. generalize (epoch_microseconds t) as z. intros z Hb.
  rewrite (sqlite_int_fits z) by lia. cbn [mbind result_bind].
  rewrite (sqlite_int_fits (z + 60000000)) by lia. cbn [mbind result_bind].
  eexists _, _. split; [reflexivity|]. split; [intros _|done].
  split_and!; [done|done| |by apply find_process_none]. rewrite existsb_elem_false in Er.
  intros r Hr' Hrun. specialize (Er r Hr'). by rewrite bool_decide_eq_true_2 in Er.
Qed.

Lemma admit_run io i id source t db : is_utc t = true → datetime_in_range t = true → ∃ dec db',
  admit_process io i id source (Typed t) (Typed default_process_lease) db = (Ok dec, db')
  ∧ (is_accepted dec = true ↔ admissible i id io db).
Proof.
  intros Hu Hr. unfold admit_process. change (require_interval (Typed default_process_lease) _) with (Ok (E:=exn) 60000000).
  cbv iota beta. unfold transaction. fold (contents db). destruct io; cbn [negb].
  - destruct (admit_body_run i id source t (contents db) Hu Hr) as (dec & db' & -> & H). by exists dec, (Some db').
  - eexists _, _. split; [reflexivity|]. by split; [|intros [? _]].
Qed.

(** ** The guarantees *)

(** C15 : whatever hosts are installed on a database and whatever they are asked,
    with the database failing at any point, at most one process row is running;
    the rows belong to the one installation that is recorded; two hosts with a
    control store never run the same process nor two running rows at once; and a
    further operation of any host removes no row, changes no row's identity and
    no row that has ended, and adds at most one. *)
Theorem one_live_child s : system s →
  db_inv (contents (sys_database s))
  ∧ (∀ n1 n2 h1 m1 h2 m2 p1 p2, n1 ≠ n2 → sys_hosts s !! n1 = Some (h1, m1) → sys_hosts s !! n2 = Some (h2, m2) →
       host_durable h1 = true → host_durable h2 = true →
       active_process_id m1 = Some p1 → active_process_id m2 = Some p2 →
       p1 ≠ p2 ∧ ¬ ∃ r1 r2, r1 ∈ processes (contents (sys_database s)) ∧ r2 ∈ processes (contents (sys_database s))
                    ∧ pr_id r1 = p1 ∧ pr_id r2 = p2 ∧ is_running_row r1 ∧ is_running_row r2)
  ∧ ∀ n h m io c, sys_hosts s !! n = Some (h, m) →
       grows (contents (sys_database s)) (contents (sys_database (after_host s n h m io c))).
Proof.
  intros [Hdb Hh Hd]%system_invariant. split_and!; [done| |].
  - intros n1 n2 h1 m1 h2 m2 p1 p2 Hne H1 H2 D1 D2 A1 A2.
    assert (∀ h m p, host_ok (sys_database s) h m → active_process_id m = Some p → p ∈ consumed_process_ids m) as Hact.
    { intros h m p [Ha _] Hp. rewrite Hp in Ha. destruct (host_state m); [done| |done]. by destruct Ha as (q & [= ->] & ?). }
    assert (p1 ≠ p2) as Hp.
    { intros ->. eapply (Hd n1 n2 h1 m1 h2 m2); [done..| |]; (eapply Hact; [by eapply Hh|done]). }
    split; [done|]. intros (r1 & r2 & I1 & I2 & <- & <- & R1 & R2). apply Hp.
    by rewrite (db_one_running _ Hdb r1 r2).
  - intros n h m io c Hn. by apply (Touches_perform h io c (world_of s m)).
Qed.

(** a start never raises on a well-formed process identity, and admits the
    process exactly when the host is idle and has not used the identity, its
    installation holds current authority and, with a control store, the database
    is usable, belongs to the installation, has no running process and has not
    seen the identity; then the host runs the process. *)
Theorem start_admits_exactly h io id source now w :
  db_inv (contents (w_db w)) → (∀ t, now = Typed t → datetime_in_range t = true) → match_token id = true →
  ∃ d w', start h io id source now w = (Ok d, w')
    ∧ (is_accepted d = true ↔ host_state (w_mem w) = IDLE ∧ id ∉ consumed_process_ids (w_mem w)
         ∧ authorized (host_authority h now w) = true
         ∧ (host_durable h = true → admissible (host_installation h) id io (w_db w)))
    ∧ if is_accepted d then host_state (w_mem w') = RUNNING ∧ active_process_id (w_mem w') = Some id
      else w_mem w' = w_mem w.
Proof.
  intros Hdb Hr Hid. unfold start, with_process, require_process_id, require. rewrite Hid. cbn [mbind result_bind].
  destruct (host_state (w_mem w)) eqn:Es;
    [|eexists _, _; split; [reflexivity|]; split; [split; [done|by intros [? _]]|done]..].
  case_bool_decide as Hc; [eexists _, _; split; [reflexivity|]; split; [split; [done|by intros (_ & ? & _)]|done]|].
  rewrite authorized_run. destruct (authorized (host_authority h now w)) eqn:Ea;
    [|eexists _, _; split; [reflexivity|]; split; [split; [done|by intros (_ & _ & ? & _)]|done]].
  destruct (authority_clock _ _ _ Ea) as (t & -> & Hu). unfold if_durable.
  destruct (host_durable h) eqn:Ed; [|by eexists _, _; split; [reflexivity|]; split; [|done]].
  unfold durably. destruct (admit_run io (host_installation h) id source t (w_db w) Hu (Hr t eq_refl))
    as (dec & db' & E & Hiff). rewrite E. destruct (is_accepted dec) eqn:Edec; cbn [negb].
  - eexists _, _. split; [reflexivity|]. split; [|done]. split; [intros _|done]. split_and!; [done|done|done|].
    intros _. by apply Hiff.
  - eexists _, _. split; [reflexivity|]. rewrite Edec. split; [|done]. split; [done|]. intros (_ & _ & _ & H).
    by apply Hiff, H.
Qed.

(** C32 : renewing the lease of a running process stores the exact expiry when it
    fits the 64 bits of an SQLite integer; otherwise it raises [OverflowError]
    and leaves the database as it is. *)
Theorem renewal_bounds i id t lease db r :
  matches_installation i db = true → find_process id db = Some r → is_running_row r → is_utc t = true →
  datetime_in_range t = true → 0 < td_microseconds lease →
  let expiry := epoch_microseconds t + td_microseconds lease in
  renew_lease true i id (Typed t) (Typed lease) (Some db)
  = if expiry <? 2 ^ 63 then
      (Ok (accept_install i "native host process lease renewed" (Some id)),
       Some (update_process id (set_lease expiry (epoch_microseconds t)) db))
    else (raise OverflowError "Python int too large to convert to SQLite INTEGER", Some db).
Proof.
  intros Hm Hf Hrun Hu Hr Hl expiry. unfold renew_lease, require_interval, transaction, timestamp. cbn [checked negb].
  assert ((0 <? td_microseconds lease) = true) as -> by (by apply Z.ltb_lt). cbn [negb].
  change (default empty_database (Some db)) with db. rewrite Hm, Hu. cbn [negb mbind result_bind]. fold expiry.
  pose proof (epoch_microseconds_bound t Hr) as Hb. revert expiry Hb. generalize (epoch_microseconds t) as z.
  intros z expiry Hb. change (2 ^ 63) with 9223372036854775808. destruct (Z.ltb_spec expiry 9223372036854775808) as [He|He].
  - rewrite (sqlite_int_fits expiry) by (unfold expiry in *; lia). cbn [mbind result_bind].
    rewrite (sqlite_int_fits z) by lia. cbn [mbind result_bind]. rewrite Hf. by rewrite bool_decide_eq_true_2.
  - assert (sqlite_int expiry = raise OverflowError "Python int too large to convert to SQLite INTEGER") as ->; [|done].
    unfold sqlite_int. apply Z.ltb_ge in He. change (2 ^ 63) with 9223372036854775808. by rewrite He, andb_false_r.
Qed.

(** ** Samples *)

Definition sample_installation : NativeHostInstallation :=
  {| installation_fingerprint := sample_fp "1"; n_identity := sample_identity "a"; n_receipt := sample_old |}.

Definition sample_host : Host :=
  {| host_coordinator := 0%nat; host_installation := sample_installation; host_durable := true |}.

Definition sample_database : Database := {| metadata := metadata_for sample_installation; mounted := []; processes := [] |}.

Definition sample_host_world : World :=
  {| w_authority := sample_claimed; w_db := Some sample_database; w_mem := new_memory |}.

Lemma history_system st log : history st log → system {| sys_authority := st; sys_database := None; sys_hosts := [] |}.
Proof.
  induction 1 as [fp id st Hn|st log me c _ IH Hc]; [by eapply sys_new|].
  exact (sys_handoff {| sys_authority := st; sys_database := None; sys_hosts := [] |} me c IH Hc).
Qed.

Definition sample_system : System :=
  {| sys_authority := sample_claimed; sys_database := Some sample_database; sys_hosts := [(sample_host, new_memory)] |}.

Lemma install_run me i now require_worktree io w d db :
  authorized (authorize_locked me (Typed (n_identity i)) (Typed (n_receipt i)) now (w_authority w)) = true →
  require_worktree (i_candidate (n_identity i)) = Ok () → store_install io i (w_db w) = (Ok d, db) → is_accepted d = true →
  install_native_host me (Typed i) now (Some require_worktree) io w
  = (Ok (Some ({| host_coordinator := me; host_installation := i; host_durable := true |}, new_memory), d),
     {| w_authority := w_authority w; w_db := db; w_mem := w_mem w |}).
Proof.
  intros Ha Hw Hi Hd. unfold install_native_host. rewrite transition_run. cbv zeta.
  rewrite Ha, Hw, Hi, Hd. cbn [negb]. rewrite Ha. reflexivity.
Qed.

Lemma sample_is_authorized :
  authorized (authorize_locked 0%nat (Typed (n_identity sample_installation)) (Typed (n_receipt sample_installation)) sample_now
    sample_claimed) = true.
Proof. exact (f_equal authorized sample_authorized). Qed.

Lemma sample_system_reached : system sample_system.
Proof.
  pose proof (sys_install _ 0%nat (Typed sample_installation) sample_now (Some (λ _, Ok ())) true
    (history_system _ _ sample_claimed_history)) as H.
  unfold after_install, world_of in H. cbn [sys_authority sys_database sys_hosts] in H.
  erewrite install_run in H; [exact H|exact sample_is_authorized|reflexivity|reflexivity|reflexivity].
Qed.

Lemma sample_matches : matches_installation sample_installation sample_database = true.
Proof. vm_compute. reflexivity. Qed.

Lemma one_live_child_witness : db_inv sample_database
  ∧ grows sample_database
      (contents (sys_database (after_host sample_system 0 sample_host new_memory true (HRun "child-1" sample_now)))).
Proof.
  destruct (one_live_child sample_system sample_system_reached) as (Hdb & _ & Hg). split; [exact Hdb|].
  exact (Hg 0%nat sample_host new_memory true (HRun "child-1" sample_now) eq_refl).
Defined.

Lemma start_admits_exactly_witness : ∃ d w',
  start sample_host true "child-1" ONE_SHOT sample_now sample_host_world = (Ok d, w') ∧ is_accepted d = true.
Proof.
  destruct (start_admits_exactly sample_host true "child-1" ONE_SHOT sample_now sample_host_world) as (d & w' & E & Hiff & _).
  - apply (si_db _ (system_invariant _ sample_system_reached)).
  - by intros t [= <-].
  - reflexivity.
  - exists d, w'. split; [exact E|]. apply Hiff. split_and!; [reflexivity|apply not_elem_of_empty| |].
    + exact sample_is_authorized.
    + intros _. change (w_db sample_host_world) with (Some sample_database).
      split; [reflexivity|]. split; [exact sample_matches|]. split.
      * intros r Hr. change (r ∈ @nil ProcessRow) in Hr. exact (False_ind _ (proj1 (elem_of_nil r) Hr)).
      * intros Hr. change ("child-1" ∈ @nil string) in Hr. exact (proj1 (elem_of_nil "child-1") Hr).
Defined.

Definition sample_row : ProcessRow :=
  {| pr_id := "child-1"; pr_receipt := sample_fp "f"; pr_candidate := str_repeat "a" 40; pr_source := "one-shot";
     pr_state := "running"; pr_started := 0; pr_lease := 0; pr_updated := 0 |}.

(** A lease of a million years. *)
Lemma renewal_bounds_witness :
  renew_lease true sample_installation "child-1" sample_now (Typed {| td_microseconds := 31536000000000000000 |})
    (Some (set_processes [sample_row] sample_database))
  = (raise OverflowError "Python int too large to convert to SQLite INTEGER", Some (set_processes [sample_row] sample_database)).
Proof.
  exact (renewal_bounds sample_installation "child-1" (DateTime 2026 8 6 9 30 0 0 TzUtc) {| td_microseconds := 31536000000000000000 |}
    (set_processes [sample_row] sample_database) sample_row sample_matches eq_refl eq_refl eq_refl eq_refl eq_refl).
Defined.
