(* ===== verification/HostedEvidence.v ===== *)
(** * Hosted evidence (src/roundwright/hosted_evidence.py)

    Exact-candidate evidence of a hosted CI provider: the normalized
    observation, its validation and the gate outcome.  An object whose fields do
    not have the declared types is [Foreign], like one of another class. *)

From S2P Require Import Prelude Json.
Open Scope Z_scope.

Inductive HostedCheckState := QUEUED | IN_PROGRESS | SUCCESS | FAILURE | CANCELLED | SKIPPED | NEUTRAL.

Inductive HostedEvidenceOutcome :=
  | O_PASS | O_QUEUED | O_IN_PROGRESS | O_FAILURE | O_CANCELLED | O_SKIPPED | O_NEUTRAL
  | O_STALE | O_MISSING | O_DUPLICATE | O_MALFORMED | O_BLOCKED.

#[export] Instance HostedCheckState_eq_dec : EqDecision HostedCheckState.
Proof. solve_decision. Defined.
#[export] Instance HostedEvidenceOutcome_eq_dec : EqDecision HostedEvidenceOutcome.
Proof. solve_decision. Defined.

Definition HostedCheckState_value (s : HostedCheckState) : string :=
  match s with
  | QUEUED => "queued" | IN_PROGRESS => "in-progress" | SUCCESS => "success" | FAILURE => "failure"
  | CANCELLED => "cancelled" | SKIPPED => "skipped" | NEUTRAL => "neutral"
  end.

Record HostedCheck := {
  check_id : string;
  c_suite_id : string;
  c_name : string;
  c_state : HostedCheckState;
  c_head_sha : string;
  c_checked_out_sha : string;
}.

Record HostedWorkflowJob := {
  job_id : string;
  j_name : string;
  j_state : HostedCheckState;
  j_checked_out_sha : string;
}.

Record HostedWorkflowRun := {
  run_id : string;
  w_workflow : string;
  w_state : HostedCheckState;
  w_head_sha : string;
  w_ref : string;
  jobs : list (dyn HostedWorkflowJob);
  w_suite_id : string;
}.

(** An artifact entry: a pair of a name and a digest, or anything else. *)
Definition artifact : Type := dyn (string * dyn string).

Record HostedCheckEvidence := {
  e_repository : string;
  e_workflow : string;
  e_candidate_sha : string;
  e_branch : string;
  observed_at : Z;
  checks : dyn (list (dyn HostedCheck));
  workflow_runs : dyn (list (dyn HostedWorkflowRun));
  artifacts : dyn (list artifact);
}.

Record HostedCheckPolicy := {
  required_checks : list string;
  required_artifacts : list string;
  max_age_seconds : Z;
}.

Record HostedCheckEvaluation := {
  outcome : HostedEvidenceOutcome;
  v_candidate_sha : string;
  v_required_checks : list string;
  observed_checks : list string;
  evidence_digest : string;
  workflow_run_id : string;
  check_suite_id : string;
}.

Definition fail {A} (why : string) : py A := raise HostedEvidenceError why.
Definition demand (b : bool) (why : string) : py unit := require b HostedEvidenceError why.

(** ** Text *)

Definition match_commit (s : string) : bool := match_hex 40 s.
Definition match_sha256 (s : string) : bool := match_hex 64 s.

Definition valid_token (s : string) : bool :=
  match_ident is_alnum (λ c, is_alnum c || one_of "._:-" c) 255 s.

Definition valid_branch (s : string) : bool :=
  match_ident is_alnum (λ c, is_alnum c || one_of "._/-" c) 255 s.

Definition is_control (c : ascii) : bool := (N_of_ascii c <=? 31)%N || (N_of_ascii c =? 127)%N.

Definition valid_name (s : string) : bool :=
  (1 <=? String.length s)%nat && (String.length s <=? 256)%nat && str_all (λ c, negb (is_control c)) s.

Definition branch_ref (branch : string) : string := String.append "refs/heads/" branch.

(** [tuple(sorted(l)) == l] and no repetition. *)
Definition sorted_names (l : list string) : bool := (sorted_by (λ x, [x]) l ==? l) && no_dup l.

(** ** Validation *)

Definition require_candidate (s : string) : py unit := demand (match_commit s) "candidate identity is invalid".

Definition validate_policy (p : HostedCheckPolicy) : py (list string) :=
  _ ← demand ((required_checks p !=? []) && forallb valid_name (required_checks p) && sorted_names (required_checks p)
              && forallb valid_name (required_artifacts p) && sorted_names (required_artifacts p)
              && (0 <=? max_age_seconds p) && (max_age_seconds p <=? 86400))
        "hosted check policy is invalid";
  Ok (required_checks p).

Definition validate_identity (e : HostedCheckEvidence) (repository workflow candidate branch : string)
    (now max_age : Z) : py unit :=
  _ ← demand (valid_name repository && valid_name workflow && valid_branch branch) "hosted expected identity is invalid";
  _ ← demand (e_repository e ==? repository) "hosted evidence names a different repository";
  _ ← demand (e_workflow e ==? workflow) "hosted evidence names a different workflow";
  _ ← demand (e_candidate_sha e ==? candidate) "hosted evidence is stale for the candidate";
  _ ← demand ((e_branch e ==? branch) && negb (startswith "refs/pull/" (e_branch e)))
        "hosted evidence does not name the candidate branch";
  _ ← demand (0 <=? observed_at e) "hosted observation is malformed";
  demand ((observed_at e <=? now) && (now - observed_at e <=? max_age)) "hosted evidence is stale".

Definition check_ok (candidate suite : string) (c : HostedCheck) : bool :=
  valid_token (check_id c) && valid_token (c_suite_id c) && valid_name (c_name c)
  && (c_head_sha c ==? candidate) && (c_checked_out_sha c ==? candidate) && (c_suite_id c ==? suite).

(** The loop over attested records, with the identities and names seen so far. *)
Fixpoint attested_each {A} (ok : A → bool) (id name : A → string) (malformed duplicate : string)
    (ids names : list string) (l : list (dyn A)) : py (list A) :=
  match l with
  | [] => Ok []
  | x :: l =>
      match checked ok x with
      | None => fail malformed
      | Some x =>
          _ ← demand (negb (id x in? ids) && negb (name x in? names)) duplicate;
          rest ← attested_each ok id name malformed duplicate (id x :: ids) (name x :: names) l;
          Ok (x :: rest)
      end
  end.

Definition check_each (candidate suite : string) : list (dyn HostedCheck) → py (list HostedCheck) :=
  attested_each (check_ok candidate suite) check_id c_name
    "hosted check evidence is malformed" "hosted check evidence is duplicate" [] [].

Definition validate_checks (l : dyn (list (dyn HostedCheck))) (candidate suite : string) : py (list HostedCheck) :=
  match l with
  | Typed (c :: cs) => check_each candidate suite (c :: cs)
  | _ => fail "hosted checks are missing"
  end.

Definition job_ok (candidate : string) (j : HostedWorkflowJob) : bool :=
  valid_token (job_id j) && valid_name (j_name j) && (j_checked_out_sha j ==? candidate).

Definition job_each (candidate : string) : list (dyn HostedWorkflowJob) → py (list HostedWorkflowJob) :=
  attested_each (job_ok candidate) job_id j_name
    "hosted workflow job evidence is malformed" "hosted workflow job evidence is duplicate" [] [].

Definition run_ok (workflow candidate branch run suite : string) (w : HostedWorkflowRun) : bool :=
  (run_id w ==? run) && valid_token (w_suite_id w) && (w_suite_id w ==? suite) && (w_workflow w ==? workflow)
  && (w_head_sha w ==? candidate) && (w_ref w ==? branch_ref branch) && (match jobs w with [] => false | _ => true end).

(** A successful run has only successful jobs; a run that ended otherwise has
    another one. *)
Definition states_agree (w : HostedWorkflowRun) (js : list HostedWorkflowJob) : bool :=
  negb ((w_state w ==? SUCCESS) && existsb (λ j, j_state j !=? SUCCESS) js)
  && negb (negb (w_state w in? [QUEUED; IN_PROGRESS; SUCCESS]) && forallb (λ j, j_state j ==? SUCCESS) js).

(** The one run with its jobs. *)
Definition validate_workflows (l : dyn (list (dyn HostedWorkflowRun))) (workflow candidate branch run suite : string) :
    py (HostedWorkflowRun * list HostedWorkflowJob) :=
  match l with
  | Typed [w] =>
      match checked (run_ok workflow candidate branch run suite) w with
      | None => fail "hosted workflow evidence is malformed"
      | Some w =>
          js ← job_each candidate (jobs w);
          _ ← demand (states_agree w js) "hosted workflow and job states conflict";
          Ok (w, js)
      end
  | Typed (_ :: _ :: _) => fail "hosted workflow evidence is duplicate"
  | _ => fail "hosted workflow evidence is missing"
  end.

(** The loop over the artifacts, with the names seen so far. *)
Fixpoint artifact_each (names : list string) (l : list artifact) : py (list (string * string)) :=
  match l with
  | [] => Ok []
  | a :: l =>
      match a with
      | Foreign => fail "hosted artifact evidence is malformed"
      | Typed (name, digest) =>
          _ ← demand (negb (name in? names)) "hosted artifact evidence is duplicate";
          match checked match_sha256 digest with
          | Some d =>
              _ ← demand (valid_name name) "hosted artifact evidence is malformed";
              rest ← artifact_each (name :: names) l;
              Ok ((name, d) :: rest)
          | None => fail "hosted artifact evidence is malformed"
          end
      end
  end.

Definition validate_artifacts (l : dyn (list artifact)) (required : list string) : py (list (string * string)) :=
  match l with
  | Foreign => fail "hosted artifact evidence is malformed"
  | Typed l =>
      values ← artifact_each [] l;
      _ ← demand (forallb (λ n, n in? values.*1) required) "hosted artifact evidence is incomplete";
      Ok values
  end.

(** ** Evaluation *)

Definition combined_outcome (values : list HostedCheckState) : HostedEvidenceOutcome :=
  match values with
  | [] => O_MISSING
  | _ =>
      match List.find (λ so, so.1 in? values)
              [(FAILURE, O_FAILURE); (CANCELLED, O_CANCELLED); (SKIPPED, O_SKIPPED); (NEUTRAL, O_NEUTRAL);
               (IN_PROGRESS, O_IN_PROGRESS); (QUEUED, O_QUEUED)] with
      | Some (_, o) => o
      | None => O_PASS
      end
  end.

Definition check_payload (c : HostedCheck) : json :=
  jstrs [check_id c; c_suite_id c; c_name c; HostedCheckState_value (c_state c); c_head_sha c; c_checked_out_sha c].

Definition job_payload (j : HostedWorkflowJob) : json :=
  jstrs [job_id j; j_name j; HostedCheckState_value (j_state j); j_checked_out_sha j].

Definition run_payload (w : HostedWorkflowRun) (js : list HostedWorkflowJob) : json :=
  JArr [JStr (run_id w); JStr (w_suite_id w); JStr (w_workflow w); JStr (HostedCheckState_value (w_state w));
        JStr (w_head_sha w); JStr (w_ref w); JArr (map job_payload js)].

(** The identity of a validated observation: its checks, its run with the jobs,
    and its artifacts. *)
Definition evidence_digest_of (e : HostedCheckEvidence) (cs : list HostedCheck)
    (run : HostedWorkflowRun * list HostedWorkflowJob) (arts : list (string * string)) : string :=
  sha256_json (JObj [
    ("repository", JStr (e_repository e)); ("workflow", JStr (e_workflow e));
    ("candidate_sha", JStr (e_candidate_sha e)); ("branch", JStr (e_branch e));
    ("observed_at", JInt (observed_at e));
    ("checks", JArr (map check_payload cs));
    ("runs", JArr [run_payload run.1 run.2]);
    ("artifacts", JArr (map (λ a, jstrs [a.1; a.2]) arts))]).

Definition gated_states (required : list string) (cs : list HostedCheck)
    (run : HostedWorkflowRun * list HostedWorkflowJob) : list HostedCheckState :=
  map c_state (List.filter (λ c, c_name c in? required) cs) ++ [w_state run.1] ++ map j_state run.2.

Definition evaluate_hosted_check_evidence (evidence : dyn HostedCheckEvidence)
    (repository workflow candidate branch : string) (policy : dyn HostedCheckPolicy) (now : dyn Z)
    (run suite : string) : py HostedCheckEvaluation :=
  _ ← require_candidate candidate;
  match evidence, policy with
  | Typed e, Typed p =>
      match checked (λ z, 0 <=? z) now with
      | None => fail "hosted observation time is invalid"
      | Some t =>
          _ ← demand (valid_token run && valid_token suite) "hosted run and suite identity is invalid";
          required ← validate_policy p;
          _ ← validate_identity e repository workflow candidate branch t (max_age_seconds p);
          arts ← validate_artifacts (artifacts e) (required_artifacts p);
          cs ← validate_checks (checks e) candidate suite;
          wj ← validate_workflows (workflow_runs e) workflow candidate branch run suite;
          let observed := sorted_by (λ x, [x]) (map c_name cs) in
          let verdict :=
            if forallb (λ n, n in? observed) required then combined_outcome (gated_states required cs wj)
            else O_MISSING in
          Ok {| outcome := verdict; v_candidate_sha := candidate; v_required_checks := required;
                observed_checks := observed; evidence_digest := evidence_digest_of e cs wj arts;
                workflow_run_id := run; check_suite_id := suite |}
      end
  | _, _ => fail "hosted evidence is malformed"
  end.

(** ** Adapters

    A source is an operation of a provider: it may raise, and it may return
    anything. *)

Definition source : Type := string → string → string → string → py (dyn HostedCheckEvidence).

Record HostedCheckAdapter := { a_source : option source; a_enabled : bool }.

Definition adapter_read (a : HostedCheckAdapter) (repository workflow candidate branch : string) :
    py HostedCheckEvidence :=
  match a_enabled a, a_source a with
  | true, Some read =>
      e ← read repository workflow candidate branch;
      match e with
      | Typed e => Ok e
      | Foreign => fail "hosted adapter returned malformed evidence"
      end
  | _, _ => fail "hosted adapter is disabled"
  end.

(** The adapter of the tests: a fixed observation and a record of the calls. *)
Record FakeHostedCheckAdapter := {
  f_evidence : option HostedCheckEvidence;
  f_calls : list (string * string * string * string);
}.

Definition fake_read (a : FakeHostedCheckAdapter) (repository workflow candidate branch : string) :
    FakeHostedCheckAdapter * py HostedCheckEvidence :=
  ({| f_evidence := f_evidence a; f_calls := f_calls a ++ [(repository, workflow, candidate, branch)] |},
   match f_evidence a with
   | Some e => Ok e
   | None => fail "hosted evidence is missing"
   end).

(** ** Package builds *)

Record HostedEvidence := {
  b_repository : string;
  b_workflow : string;
  b_head_sha : string;
  b_ref : string;
  b_artifacts : dyn (list artifact);
}.

(** The loop over the artifacts of a build, with the names seen so far. *)
Fixpoint build_artifacts (names : list string) (l : list artifact) : py (list string) :=
  match l with
  | [] => Ok names
  | Typed (name, Typed digest) :: l =>
      _ ← demand ((name !=? "") && match_sha256 digest && negb (name in? names)) "hosted artifact evidence is invalid";
      build_artifacts (name :: names) l
  | _ => fail "hosted artifact evidence is invalid"
  end.

Definition validate_hosted_evidence (records : list HostedEvidence) (repository workflow head_sha branch : string) :
    py HostedEvidence :=
  _ ← require_candidate head_sha;
  match records with
  | [] => fail "hosted evidence is missing"
  | [r] =>
      _ ← demand (b_repository r ==? repository) "hosted evidence names a different repository";
      _ ← demand (b_workflow r ==? workflow) "hosted evidence names a different workflow";
      _ ← demand ((b_ref r ==? branch_ref branch) && negb (startswith "refs/pull/" (b_ref r)))
            "hosted evidence does not name the candidate branch";
      _ ← demand (b_head_sha r ==? head_sha) "hosted evidence is stale for the candidate";
      match b_artifacts r with
      | Typed (a :: l) =>
          names ← build_artifacts [] (a :: l);
          _ ← demand (existsb (endswith ".whl") names && existsb (endswith ".tar.gz") names)
                "hosted artifact evidence is incomplete";
          Ok r
      | _ => fail "hosted artifact evidence is invalid"
      end
  | _ => fail "hosted evidence is duplicate"
  end.

(** * Specification

    What makes a hosted observation sufficient: it is exactly about the expected
    repository, workflow, branch and candidate, fresh, complete, without
    repetitions, and everything the gate depends on succeeded. *)

Record gate_question := {
  q_repository : string;
  q_workflow : string;
  q_candidate : string;
  q_branch : string;
  q_policy : HostedCheckPolicy;
  q_now : Z;
  q_run : string;
  q_suite : string;
}.

Definition ask (e : HostedCheckEvidence) (q : gate_question) : py HostedCheckEvaluation :=
  evaluate_hosted_check_evidence (Typed e) (q_repository q) (q_workflow q) (q_candidate q) (q_branch q)
    (Typed (q_policy q)) (Typed (q_now q)) (q_run q) (q_suite q).

Record question_ok (q : gate_question) : Prop := {
  qo_candidate : match_commit (q_candidate q) = true;
  qo_names : valid_name (q_repository q) = true ∧ valid_name (q_workflow q) = true ∧ valid_branch (q_branch q) = true;
  qo_tokens : valid_token (q_run q) = true ∧ valid_token (q_suite q) = true;
  qo_now : 0 ≤ q_now q;
  qo_policy : validate_policy (q_policy q) = Ok (required_checks (q_policy q));
}.

(** Distinct records of the expected form. *)
Definition distinct {A} (ok : A → bool) (id name : A → string) (l : list A) : Prop :=
  Forall (λ x, ok x = true) l ∧ NoDup (map id l) ∧ NoDup (map name l).

Record observation_complete (e : HostedCheckEvidence) (q : gate_question) (cs : list HostedCheck)
    (w : HostedWorkflowRun) (js : list HostedWorkflowJob) (arts : list (string * string)) : Prop := {
  oc_identity : e_repository e = q_repository q ∧ e_workflow e = q_workflow q ∧ e_candidate_sha e = q_candidate q
                ∧ e_branch e = q_branch q ∧ startswith "refs/pull/" (q_branch q) = false;
  oc_fresh : 0 ≤ observed_at e ≤ q_now q ∧ q_now q - observed_at e ≤ max_age_seconds (q_policy q);
  oc_artifacts : artifacts e = Typed (map (λ a, Typed (a.1, Typed a.2)) arts)
                 ∧ NoDup arts.*1 ∧ Forall (λ a, valid_name a.1 = true ∧ match_sha256 a.2 = true) arts
                 ∧ ∀ n, n ∈ required_artifacts (q_policy q) → n ∈ arts.*1;
  oc_checks : checks e = Typed (map Typed cs) ∧ cs ≠ []
              ∧ distinct (check_ok (q_candidate q) (q_suite q)) check_id c_name cs;
  oc_run : workflow_runs e = Typed [Typed w]
           ∧ run_ok (q_workflow q) (q_candidate q) (q_branch q) (q_run q) (q_suite q) w = true
           ∧ jobs w = map Typed js ∧ distinct (job_ok (q_candidate q)) job_id j_name js
           ∧ states_agree w js = true;
}.

(** Every required check was observed and succeeded, and so did the run and all
    of its jobs. *)
Record gate_succeeded (q : gate_question) (cs : list HostedCheck) (w : HostedWorkflowRun)
    (js : list HostedWorkflowJob) : Prop := {
  gs_required : ∀ n, n ∈ required_checks (q_policy q) → n ∈ map c_name cs;
  gs_checks : ∀ c, c ∈ cs → c_name c ∈ required_checks (q_policy q) → c_state c = SUCCESS;
  gs_run : w_state w = SUCCESS;
  gs_jobs : ∀ j, j ∈ js → j_state j = SUCCESS;
}.

Definition hosted_ready (e : HostedCheckEvidence) (q : gate_question) : Prop :=
  question_ok q ∧ ∃ cs w js arts, observation_complete e q cs w js arts ∧ gate_succeeded q cs w js.

(** * Lemmas *)

Lemma attested_each_ok {A} (ok : A → bool) id name m d l : ∀ ids names xs,
  attested_each ok id name m d ids names l = Ok xs ↔
  l = map Typed xs ∧ distinct ok id name xs ∧ ∀ x, x ∈ xs → id x ∉ ids ∧ name x ∉ names.
Proof.
  induction l as [|x l IH]; intros ids names xs; cbn [attested_each].
  - split.
    + intros [= <-]. split_and!; [done| |by intros x ?%elem_of_nil]. split_and!; constructor.
    + intros (H & _). by destruct xs.
  - destruct (checked ok x) as [a|] eqn:Hx.
    + apply checked_some in Hx as [-> Ha]. unfold demand. rewrite bind_ok. setoid_rewrite bind_ok.
      setoid_rewrite IH. setoid_rewrite require_ok. split.
      * intros (_ & Hd & ys & (-> & (H1 & H2 & H3) & Hys) & [= <-]). breflect. destruct Hd as [Hd1 Hd2].
        split_and!; [done| |].
        { split_and!; [by constructor| |]; cbn; apply list.NoDup_cons; (split; [|done]);
            intros (y & Hy & ?)%list_elem_of_fmap; destruct (Hys y) as [Hi Hn]; [done| |done|];
            rewrite elem_of_cons in Hi, Hn; intuition. }
        intros y [->|Hy]%elem_of_cons; [done|]. destruct (Hys y Hy) as [Hi Hn].
        rewrite elem_of_cons in Hi, Hn. intuition.
      * intros (Hl & (H1 & H2 & H3) & Hxs). destruct xs as [|x xs]; [done|]. cbn in Hl. simplify_eq.
        cbn in H2, H3. rewrite list.NoDup_cons in H2, H3. destruct H2 as [N1 H2], H3 as [N2 H3].
        apply Forall_cons_iff in H1 as [_ H1]. destruct (Hxs x) as [? ?]; [by constructor|].
        exists (). split; [breflect; done|]. exists xs. split; [|done]. split_and!; [done|split_and!; done|].
        intros y Hy. destruct (Hxs y) as [? ?]; [by constructor|].
        rewrite !elem_of_cons. split; intros [E|?]; try done.
        -- apply N1. rewrite <- E. by apply list_elem_of_fmap_2.
        -- apply N2. rewrite <- E. by apply list_elem_of_fmap_2.
    + split; [done|]. intros (Hl & (H1 & _) & _). destruct xs as [|y xs]; [done|]. cbn in Hl. simplify_eq.
      apply Forall_cons_iff in H1 as [H1 _]. cbn in Hx. by rewrite H1 in Hx.
Qed.

Lemma artifact_each_ok l : ∀ names arts,
  artifact_each names l = Ok arts ↔
  l = map (λ a, Typed (a.1, Typed a.2)) arts ∧ NoDup arts.*1
  ∧ Forall (λ a, valid_name a.1 = true ∧ match_sha256 a.2 = true) arts ∧ ∀ a, a ∈ arts → a.1 ∉ names.
Proof.
  induction l as [|x l IH]; intros names arts; cbn [artifact_each].
  - split.
    + intros [= <-]. split_and!; [done|constructor|constructor|by intros a ?%elem_of_nil].
    + intros (H & _). by destruct arts.
  - destruct x as [[n dd]|]; [|by split; [|intros (H & _); destruct arts; cbn in H; simplify_eq]].
    unfold demand. rewrite bind_ok. setoid_rewrite require_ok.
    destruct (checked match_sha256 dd) as [d|] eqn:Hd.
    + apply checked_some in Hd as [-> Hd]. setoid_rewrite bind_ok. setoid_rewrite bind_ok. setoid_rewrite IH.
      setoid_rewrite require_ok. split.
      * intros (_ & Hn & _ & Hv & rest & (-> & H1 & H2 & H3) & [= <-]). breflect. split_and!.
        { done. }
        { cbn. apply list.NoDup_cons. split; [|done]. intros (a & Ha & Hin)%list_elem_of_fmap.
          destruct (H3 a Hin). rewrite Ha. by constructor. }
        { by constructor. }
        intros a [->|Ha]%elem_of_cons; [done|]. specialize (H3 a Ha). rewrite elem_of_cons in H3. intuition.
      * intros (Hl & H1 & H2 & H3). destruct arts as [|[n' d'] arts]; [done|]. cbn in Hl. simplify_eq.
        cbn in H1. rewrite list.NoDup_cons in H1. destruct H1 as [N1 H1]. apply Forall_cons_iff in H2 as [[Hv Hs] H2].
        exists (). split; [breflect; exact (H3 (n', d') ltac:(by constructor))|]. exists (). split; [done|]. exists arts.
        split; [|done]. split_and!; [done..|]. intros a Ha [E|Hin]%elem_of_cons.
        { apply N1. rewrite <- E. by apply list_elem_of_fmap_2. }
        apply (H3 a); [by constructor|done].
    + split; [by intros (_ & _ & ?)|]. intros (Hl & _ & H2 & _). destruct arts as [|[n' d'] arts]; [done|].
      cbn in Hl. simplify_eq. apply Forall_cons_iff in H2 as [[_ Hs] _]. cbn in Hd, Hs. by rewrite Hs in Hd.
Qed.

Lemma validate_artifacts_ok l required arts :
  validate_artifacts l required = Ok arts ↔
  l = Typed (map (λ a, Typed (a.1, Typed a.2)) arts) ∧ NoDup arts.*1
  ∧ Forall (λ a, valid_name a.1 = true ∧ match_sha256 a.2 = true) arts ∧ ∀ n, n ∈ required → n ∈ arts.*1.
Proof.
  destruct l as [l|]; cbn; [|by split; [|intros [? _]]].
  rewrite bind_ok. setoid_rewrite bind_ok. setoid_rewrite artifact_each_ok. unfold demand. setoid_rewrite require_ok.
  split.
  - intros (a & (-> & H1 & H2 & _) & [] & Hr & [= ->]). breflect. setoid_rewrite bool_decide_eq_true in Hr. done.
  - intros ([= ->] & H1 & H2 & Hr). exists arts. split; [split_and!; [done..|by intros a _ ?%elem_of_nil]|].
    exists (). split; [|done]. breflect. intros n Hn. apply bool_decide_eq_true. auto.
Qed.

Lemma validate_checks_ok l candidate suite cs :
  validate_checks l candidate suite = Ok cs ↔
  l = Typed (map Typed cs) ∧ cs ≠ [] ∧ distinct (check_ok candidate suite) check_id c_name cs.
Proof.
  destruct l as [[|c l]|]; cbn [validate_checks].
  - split; [done|]. intros (H & Hn & _). by destruct cs.
  - unfold check_each. rewrite attested_each_ok. split.
    + intros (Hl & Hd & _). split_and!; [by f_equal| |done]. by intros ->.
    + intros ([= Hl] & _ & Hd). split_and!; [done..|]. by intros x _; split; intros ?%elem_of_nil.
  - by split; [|intros [? _]].
Qed.

Lemma job_each_ok candidate l js :
  job_each candidate l = Ok js ↔ l = map Typed js ∧ distinct (job_ok candidate) job_id j_name js.
Proof.
  unfold job_each. rewrite attested_each_ok. split; [by intros (? & ? & _)|].
  intros [? ?]. split_and!; [done..|]. by intros x _; split; intros ?%elem_of_nil.
Qed.

Lemma validate_workflows_ok l workflow candidate branch run suite w js :
  validate_workflows l workflow candidate branch run suite = Ok (w, js) ↔
  l = Typed [Typed w] ∧ run_ok workflow candidate branch run suite w = true
  ∧ jobs w = map Typed js ∧ distinct (job_ok candidate) job_id j_name js ∧ states_agree w js = true.
Proof.
  destruct l as [[|x [|y l]]|]; cbn [validate_workflows]; try by split; [|intros [? _]].
  destruct (checked _ x) as [v|] eqn:Hx.
  - apply checked_some in Hx as [-> Hv]. rewrite bind_ok. setoid_rewrite bind_ok. setoid_rewrite job_each_ok.
    unfold demand. setoid_rewrite require_ok. split.
    + intros (ks & [? ?] & _ & ? & [= -> ->]). done.
    + intros ([= ->] & ? & ? & ? & ?). exists js. split; [done|]. by exists ().
  - split; [done|]. intros ([= ->] & Hv & _). cbn in Hx. by rewrite Hv in Hx.
Qed.

Lemma validate_policy_same p l : validate_policy p = Ok l ↔ validate_policy p = Ok (required_checks p) ∧ l = required_checks p.
Proof. unfold validate_policy, demand. destruct (require _ _ _) as [[]|]; cbn; naive_solver. Qed.

Lemma combined_pass l : combined_outcome l = O_PASS ↔ l ≠ [] ∧ ∀ s, s ∈ l → s = SUCCESS.
Proof.
  destruct l as [|s l]; [by split; [|intros [? _]]|]. cbn [combined_outcome]. split.
  - destruct (List.find _ _) as [[t o]|] eqn:Hf; intros Ho.
    + apply List.find_some in Hf as [Hin _]. cbn in Hin. subst o.
      intuition congruence.
    + split; [done|]. intros t Ht.
      assert (Hall : ∀ so, so ∈ [(FAILURE, O_FAILURE); (CANCELLED, O_CANCELLED); (SKIPPED, O_SKIPPED); (NEUTRAL, O_NEUTRAL);
               (IN_PROGRESS, O_IN_PROGRESS); (QUEUED, O_QUEUED)] → so.1 ≠ t).
      { intros so Hso%list_elem_of_In <-. eapply List.find_none in Hf; [|done]. by apply bool_decide_eq_false in Hf. }
      destruct t; [..|done| | | |]; exfalso;
        [apply (Hall (QUEUED, O_QUEUED))|apply (Hall (IN_PROGRESS, O_IN_PROGRESS))|apply (Hall (FAILURE, O_FAILURE))
        |apply (Hall (CANCELLED, O_CANCELLED))|apply (Hall (SKIPPED, O_SKIPPED))|apply (Hall (NEUTRAL, O_NEUTRAL))];
        by rewrite ?elem_of_cons; eauto 10.
  - intros [_ Hall]. destruct (List.find _ _) as [[t o]|] eqn:Hf; [|done].
    apply List.find_some in Hf as [Hin Ht%bool_decide_eq_true]. cbn in Ht. apply Hall in Ht as ->. cbn in Hin.
    intuition congruence.
Qed.

Lemma gate_pass_spec required cs w js :
  (if forallb (λ n, n in? sorted_by (λ x, [x]) (map c_name cs)) required
   then combined_outcome (gated_states required cs (w, js)) else O_MISSING) = O_PASS ↔
  (∀ n, n ∈ required → n ∈ map c_name cs) ∧ (∀ c, c ∈ cs → c_name c ∈ required → c_state c = SUCCESS)
  ∧ w_state w = SUCCESS ∧ ∀ j, j ∈ js → j_state j = SUCCESS.
Proof.
  destruct (forallb _ _) eqn:Hr.
  - breflect. setoid_rewrite bool_decide_eq_true in Hr. setoid_rewrite sorted_by_perm in Hr.
    rewrite combined_pass. unfold gated_states. cbn [fst snd].
    setoid_rewrite elem_of_app. setoid_rewrite elem_of_app. setoid_rewrite list_elem_of_singleton. split.
    + intros [_ H]. split_and!; [done| | |].
      * intros c Hc Hn. apply H. left. apply list_elem_of_fmap_2. apply list_elem_of_In, List.filter_In.
        split; [by apply list_elem_of_In|]. by apply bool_decide_eq_true.
      * apply H. auto.
      * intros j Hj. apply H. right; right. by apply list_elem_of_fmap_2.
    + intros (_ & Hc & Hw & Hj). split; [by destruct (map c_state _)|].
      intros s [(c & -> & Hin%list_elem_of_In)%list_elem_of_fmap|[->|(j & -> & ?)%list_elem_of_fmap]]; auto.
      apply List.filter_In in Hin as [Hin%list_elem_of_In Hn]. apply bool_decide_eq_true in Hn. auto.
  - split; [done|]. intros (Hn & _). exfalso. rewrite <- not_true_iff_false in Hr. apply Hr. breflect.
    intros n Hin. apply bool_decide_eq_true. rewrite sorted_by_perm. auto.
Qed.

Lemma validate_identity_ok e repository workflow candidate branch now age :
  validate_identity e repository workflow candidate branch now age = Ok () ↔
  (valid_name repository = true ∧ valid_name workflow = true ∧ valid_branch branch = true)
  ∧ (e_repository e = repository ∧ e_workflow e = workflow ∧ e_candidate_sha e = candidate ∧ e_branch e = branch
     ∧ startswith "refs/pull/" branch = false)
  ∧ 0 ≤ observed_at e ≤ now ∧ now - observed_at e ≤ age.
Proof.
  rewrite <- is_ok_unit. unfold validate_identity, demand. autorewrite with is_ok. breflect.
  split; intros; destruct_and!; subst; split_and!; done.
Qed.

(** * Exactness *)

(** C28 : a typed observation passes the gate exactly when it is a complete, fresh
    observation of the expected candidate and everything the gate depends on
    succeeded. *)
Theorem hosted_pass_exact (e : HostedCheckEvidence) (q : gate_question) :
  (∃ v, ask e q = Ok v ∧ outcome v = O_PASS) ↔ hosted_ready e q.
Proof.
  unfold ask, evaluate_hosted_check_evidence. split.
  - intros (v & Hv & Ho). apply bind_ok in Hv as ([] & Hc%require_ok & Hv).
    destruct (checked _ _) as [t|] eqn:Ht; [|done]. apply checked_some in Ht as [[= <-] Ht%Z.leb_le].
    apply bind_ok in Hv as ([] & Htok%require_ok & Hv). apply bind_ok in Hv as (req & Hp%validate_policy_same & Hv).
    destruct Hp as [Hp ->]. apply bind_ok in Hv as ([] & Hid & Hv). apply validate_identity_ok in Hid as (Hn & Hid & Hf & Hage).
    apply bind_ok in Hv as (arts & Ha%validate_artifacts_ok & Hv). apply bind_ok in Hv as (cs & Hcs%validate_checks_ok & Hv).
    apply bind_ok in Hv as ([w js] & Hw%validate_workflows_ok & [= <-]). cbn [outcome] in Ho.
    apply gate_pass_spec in Ho as (? & ? & ? & ?). breflect. split; [by constructor|].
    exists cs, w, js, arts. by split.
  - intros (Hq & cs & w & js & arts & Ho & Hs). destruct Hq, Ho, Hs.
    eexists. unfold require_candidate, demand. rewrite qo_candidate0. cbn [require mbind result_bind].
    cbn [checked]. rewrite (proj2 (Z.leb_le _ _) qo_now0).
    destruct qo_tokens0 as [-> ->]. cbn [require andb mbind result_bind]. rewrite qo_policy0. cbn [mbind result_bind].
    rewrite (proj2 (validate_identity_ok _ _ _ _ _ _ _)) by done. cbn [mbind result_bind].
    rewrite (proj2 (validate_artifacts_ok _ _ _) oc_artifacts0). cbn [mbind result_bind].
    rewrite (proj2 (validate_checks_ok _ _ _ _) oc_checks0). cbn [mbind result_bind].
    rewrite (proj2 (validate_workflows_ok _ _ _ _ _ _ _ _) oc_run0). cbn [mbind result_bind].
    split; [reflexivity|]. cbn [outcome]. by apply gate_pass_spec.
Qed.

(** A complete observation passes the gate. *)
Definition sample_question : gate_question :=
  {| q_repository := "owner/roundwright"; q_workflow := "ci"; q_candidate := str_repeat "a" 40; q_branch := "task-1";
     q_policy := {| required_checks := ["tests"]; required_artifacts := []; max_age_seconds := 900 |};
     q_now := 1000; q_run := "run-1"; q_suite := "suite-1" |}.

Definition sample_evidence : HostedCheckEvidence :=
  let c := str_repeat "a" 40 in
  {| e_repository := "owner/roundwright"; e_workflow := "ci"; e_candidate_sha := c; e_branch := "task-1";
     observed_at := 900;
     checks := Typed [Typed {| check_id := "check-1"; c_suite_id := "suite-1"; c_name := "tests"; c_state := SUCCESS;
                               c_head_sha := c; c_checked_out_sha := c |}];
     workflow_runs := Typed [Typed {| run_id := "run-1"; w_workflow := "ci"; w_state := SUCCESS; w_head_sha := c;
                                      w_ref := "refs/heads/task-1"; w_suite_id := "suite-1";
                                      jobs := [Typed {| job_id := "job-1"; j_name := "build"; j_state := SUCCESS;
                                                        j_checked_out_sha := c |}] |}];
     artifacts := Typed [] |}.

Lemma hosted_pass_exact_witness : hosted_ready sample_evidence sample_question.
Proof. apply hosted_pass_exact. eexists. split; [lazy -[evidence_digest_of]; reflexivity|reflexivity]. Defined.
