(* ===== verification/Worktree.v ===== *)
(** * Worktree keys (src/roundwright/state.py)

    The text checks of state.py and [_canonical_worktree_key]: the key under which
    a worktree is owned.  [posixpath.normpath], [ntpath.normpath],
    [ntpath.splitroot] and [ntpath.normcase] are those of the Python 3.12 standard
    library. *)

From S2P Require Import Prelude.
Open Scope Z_scope.

(** ** Character classes of the first 256 code points *)

Definition code (c : ascii) : Z := Z.of_N (N_of_ascii c).

Definition is_space (c : ascii) : bool :=
  ((9 <=? code c) && (code c <=? 13)) || ((28 <=? code c) && (code c <=? 32)) || (code c =? 133) || (code c =? 160).

(** [unicodedata.category(c) == "Cc"] *)
Definition is_control_char (c : ascii) : bool := (code c <=? 31) || ((127 <=? code c) && (code c <=? 159)).

Definition is_alpha (c : ascii) : bool :=
  is_lower c || is_upper c || (code c =? 170) || (code c =? 181) || (code c =? 186)
  || ((192 <=? code c) && negb (code c =? 215) && negb (code c =? 247)).

Definition to_lower (c : ascii) : ascii :=
  if is_upper c || ((192 <=? code c) && (code c <=? 222) && negb (code c =? 215))
  then ascii_of_N (N_of_ascii c + 32) else c.

Fixpoint str_map (f : ascii → ascii) (s : string) : string :=
  match s with
  | EmptyString => EmptyString
  | String c s => String (f c) (str_map f s)
  end.

(** [s.replace(a, b)] for two characters. *)
Definition swap_char (a b : ascii) (c : ascii) : ascii := if Ascii.eqb c a then b else c.
Definition replace_char (a b : ascii) : string → string := str_map (swap_char a b).

Definition slash : ascii := "/"%char.
Definition backslash : ascii := "\"%char.

(** [sep.join(parts)] *)
Fixpoint join (sep : ascii) (parts : list string) : string :=
  match parts with
  | [] => ""
  | [p] => p
  | p :: parts => String.append p (String sep (join sep parts))
  end.

(** ** Path normalization *)

(** The components that remain, the last one first: [..] removes a component,
    and is dropped at the root. *)
Fixpoint collapse (rooted : bool) (kept : list string) (comps : list string) : list string :=
  match comps with
  | [] => rev kept
  | c :: comps =>
      if (c ==? "") || (c ==? ".") then collapse rooted kept comps
      else if c ==? ".." then
        match kept with
        | [] => collapse rooted (if rooted then [] else [c]) comps
        | k :: kept' => if k ==? ".." then collapse rooted (c :: kept) comps else collapse rooted kept' comps
        end
      else collapse rooted (c :: kept) comps
  end.

(** [posixpath.normpath] of a path that starts with exactly one slash. *)
Definition posix_normpath (path : string) : string :=
  String slash (join slash (collapse true [] (split_on slash path))).

Definition upper_ascii (c : ascii) : ascii :=
  if is_lower c then ascii_of_N (N_of_ascii c - 32) else c.

(** The rest of a UNC path after its first [start] characters: server, share. *)
Definition split_unc (start : nat) (p : string) : string * string * string :=
  let not_sep c := negb (Ascii.eqb c backslash) in
  let (server, rest) := span not_sep (String.substring start (String.length p - start) p) in
  match rest with
  | EmptyString => (p, "", "")
  | String s rest =>
      let (share, rest) := span not_sep rest in
      match rest with
      | EmptyString => (p, "", "")
      | String r tail =>
          (String.append (String.substring 0 start p) (String.append server (String s share)), String r "", tail)
      end
  end.

(** [ntpath.splitroot] of a path without forward slashes. *)
Definition splitroot (p : string) : string * string * string :=
  match p with
  | String a rest =>
      if Ascii.eqb a backslash then
        match rest with
        | String b _ =>
            if Ascii.eqb b backslash
            then split_unc (if str_map upper_ascii (String.substring 0 8 p) ==? "\\?\UNC\" then 8 else 2) p
            else ("", String a "", rest)
        | EmptyString => ("", String a "", rest)
        end
      else
        match rest with
        | String b rest' =>
            if Ascii.eqb b ":"%char then
              match rest' with
              | String c tail =>
                  if Ascii.eqb c backslash then (String a (String b ""), String c "", tail)
                  else (String a (String b ""), "", rest')
              | EmptyString => (String a (String b ""), "", rest')
              end
            else ("", "", p)
        | EmptyString => ("", "", p)
        end
  | EmptyString => ("", "", p)
  end.

Definition nt_normpath (path : string) : string :=
  let '(drive, root, tail) := splitroot (replace_char slash backslash path) in
  let prefix := String.append drive root in
  let comps := collapse (root !=? "") [] (split_on backslash tail) in
  String.append prefix (join backslash (if (prefix ==? "") && (comps ==? []) then ["."] else comps)).

Definition nt_normcase (s : string) : string := str_map to_lower (replace_char slash backslash s).

(** ** Keys *)

Definition state_error {A} (why : string) : py A := raise StateError why.
Definition ensure (b : bool) (why : string) : py unit := require b StateError why.

Definition require_worktree (value : string) : py unit :=
  ensure ((value !=? "") && str_all (λ c, negb (is_control_char c)) value) "task worktree is invalid".

Definition drive_path (value : string) : bool :=
  match value with
  | String a (String b (String c _)) => is_alpha a && Ascii.eqb b ":"%char && (Ascii.eqb c slash || Ascii.eqb c backslash)
  | _ => false
  end.

Definition nt_key (value : string) : string := replace_char backslash slash (nt_normcase (nt_normpath value)).

Definition canonical_worktree_key (value : string) : py string :=
  _ ← require_worktree value;
  if drive_path value then Ok (nt_key value)
  else if startswith "\\" value || startswith "//" value then Ok (nt_key value)
  else if startswith "/" value then Ok (posix_normpath value)
  else state_error "task worktree must be an absolute path".

(** ** Other texts *)

Definition require_token (value name : string) : py unit :=
  ensure ((value !=? "") && str_all (λ c, negb (is_space c || (code c <? 32))) value) (String.append name " is invalid").

Definition require_fingerprint (value : string) : py unit :=
  ensure (match_hex 64 value) "evidence fingerprint is not a lowercase SHA-256 value".
