(* ===== verification/Migrations.v ===== *)
(** * Schema verification (src/roundwright/state.py)

    The checks every connection makes before it is used: the migration history,
    the schema objects of [sqlite_master] and the identity of the state.
    Executing the SQL of a migration is the work of SQLite and is not modelled;
    the list of migrations is an argument, as it is of the code. *)

From S2P Require Import Prelude Sha256 Json Worktree.
Open Scope Z_scope.

Record Migration := {
  m_version : Z;
  m_statements : list string;
  m_schema : list (string * string);
}.

(** [str.encode("utf-8")]: a code point from U+0080 takes two bytes. *)
Fixpoint utf8 (s : string) : string :=
  match s with
  | EmptyString => EmptyString
  | String c s =>
      let n := N_of_ascii c in
      if (n <? 128)%N then String c (utf8 s)
      else String (ascii_of_N (192 + N.shiftr n 6)) (String (ascii_of_N (128 + N.land n 63)) (utf8 s))
  end.

Definition newline : ascii := "010"%char.

(** [str(n)] *)
Definition py_str (z : Z) : string := String.string_of_list_ascii (int_chars z).

Definition checksum (m : Migration) : string :=
  sha256_hex (utf8 (join newline (py_str (m_version m) :: m_statements m))).

(** ** Tables of the schema *)

(** One row of [sqlite_master]. *)
Record MasterRow := { o_type : string; o_name : string; o_sql : option string }.

#[export] Instance MasterRow_eq_dec : EqDecision MasterRow.
Proof. solve_decision. Defined.

(** [schema_migrations], in the order of the version, its primary key; a checksum
    that is not a text is [Foreign]. *)
Definition history : Type := list (Z * dyn string).

Record Schema := {
  master : list MasterRow;
  migration_rows : history;
  state_id : option (dyn string);
}.

Definition validate_definitions (migrations : list Migration) : py (list Migration) :=
  _ ← ensure ((migrations !=? []) && forallb (λ v, 1 <=? v) (map m_version migrations)
              && (map m_version migrations ==? map Z.of_nat (seq 1 (length migrations))))
        "migration definitions are invalid or duplicate";
  Ok migrations.

Definition read_applied (s : Schema) : py (list (Z * string)) :=
  match mapM (λ r, match r.2 with Typed c => Some (r.1, c) | Foreign => None end) (migration_rows s) with
  | Some rows => Ok rows
  | None => state_error "migration history is malformed"
  end.

Definition expected_checksum (ordered : list Migration) (version : Z) : option string :=
  assoc version (map (λ m, (m_version m, checksum m)) ordered).

Definition validate_applied (applied : list (Z * string)) (ordered : list Migration) : py unit :=
  _ ← ensure (applied.*1 ==? map Z.of_nat (seq 1 (length applied)))
        "migration history has a missing or duplicate version";
  _ ← ensure (forallb (λ v, v in? map m_version ordered) applied.*1) "database schema is from a future version";
  ensure (forallb (λ a, expected_checksum ordered a.1 ==? Some a.2) applied)
    "migration checksum does not match canonical content".

(** The dict [{name: statement}] over all schemas: the last statement of a name. *)
Definition expected_schema (migrations : list Migration) : list (string * string) :=
  rev (flat_map m_schema migrations).

Definition application_object (r : MasterRow) : bool :=
  (o_type r in? ["table"; "view"; "index"; "trigger"]) && negb (startswith "sqlite_" (o_name r)).

(** The row the query for one name returns first. *)
Definition master_row (name : string) (rows : list MasterRow) : option MasterRow :=
  List.find (λ r, o_name r ==? name) rows.

Definition validate_schema (s : Schema) (migrations : list Migration) : py unit :=
  let expected := expected_schema migrations in
  _ ← ensure (same_elements (map (λ r, (o_type r, o_name r)) (List.filter application_object (master s)))
                            (map (λ n, ("table", n)) expected.*1))
        "database contains unmanaged or missing application schema";
  ensure (forallb (λ n,
            match master_row n (master s) with
            | Some r => (o_type r ==? "table") && (o_sql r ==? assoc n expected)
            | None => false
            end) expected.*1)
    "database schema does not match recorded migration".

(** ** State identity *)

(** [s.replace(old, "")] for a non-empty [old]; the fuel is the length of [s]. *)
Fixpoint remove_all (fuel : nat) (old s : string) : string :=
  match fuel with
  | O => s
  | S fuel =>
      match s with
      | EmptyString => EmptyString
      | String c s' =>
          if String.prefix old s then remove_all fuel old (String.substring (String.length old) (String.length s) s)
          else String c (remove_all fuel old s')
      end
  end.

Definition replace_empty (old s : string) : string := remove_all (String.length s) old s.

Fixpoint lstrip (p : ascii → bool) (s : string) : string :=
  match s with
  | String c s' => if p c then lstrip p s' else s
  | EmptyString => EmptyString
  end.

Definition str_rev (s : string) : string := String.string_of_list_ascii (rev (chars s)).
Definition strip (p : ascii → bool) (s : string) : string := str_rev (lstrip p (str_rev (lstrip p s))).

Definition is_hex (c : ascii) : bool := is_digit c || between "a"%char "f"%char c || between "A"%char "F"%char c.

(** Hexadecimal digits with single underscores between them. *)
Fixpoint hex_digits (s : string) : option (list ascii) :=
  match s with
  | EmptyString => None
  | String c s =>
      if is_hex c then
        match s with
        | EmptyString => Some [c]
        | String "_" s' => l ← hex_digits s'; Some (c :: l)
        | _ => l ← hex_digits s; Some (c :: l)
        end
      else None
  end.

Definition hex_digit_value (c : ascii) : N :=
  let n := N_of_ascii c in
  (if is_digit c then n - 48 else if between "a"%char "f"%char c then n - 87 else n - 55)%N.

Definition hex_number (l : list ascii) : N := foldl (λ v c, 16 * v + hex_digit_value c)%N 0%N l.

(** [int(s, 16)]: surrounding white space, a sign, a prefix [0x]. *)
Definition int_base16 (s : string) : option Z :=
  let t := strip is_space s in
  let (negative, t) :=
    match t with
    | String "-" t => (true, t)
    | String "+" t => (false, t)
    | _ => (false, t)
    end in
  let digits :=
    match t with
    | String "0" (String "x" (String "_" u)) => u
    | String "0" (String "X" (String "_" u)) => u
    | String "0" (String "x" u) => u
    | String "0" (String "X" u) => u
    | _ => t
    end in
  l ← hex_digits digits;
  Some (if negative then - Z.of_N (hex_number l) else Z.of_N (hex_number l)).

(** [uuid.UUID(value)] of a text. *)
Definition parse_uuid (value : string) : option N :=
  let t := strip (one_of "{}") (replace_empty "uuid:" (replace_empty "urn:" value)) in
  let t := replace_empty "-" t in
  _ ← guarded (String.length t =? 32)%nat;
  z ← int_base16 t;
  _ ← guarded ((0 <=? z) && (z <? 2 ^ 128));
  Some (Z.to_N z).

(** [value.bytes], sixteen of them. *)
Definition uuid_bytes (n : N) : string :=
  String.string_of_list_ascii (map ascii_of_N (be_bytes 16 n)).

Definition state_identity_fingerprint (value : dyn string) : py string :=
  match value with
  | Foreign => state_error "state identity is malformed"
  | Typed v =>
      match parse_uuid v with
      | Some n => Ok (String.substring 0 16 (sha256_hex (uuid_bytes n)))
      | None => state_error "state identity is malformed"
      end
  end.

Definition read_state_identity (s : Schema) : py string :=
  match state_id s with
  | None => state_error "state identity is missing"
  | Some v => state_identity_fingerprint v
  end.

(** ** Verification

    [_verify_migrations], with the check of the task ownership, which reads the
    task tables, as an argument. *)
Definition verify_migrations (migrations : list Migration) (ownership : py unit) (s : Schema) : py (Z * string) :=
  ordered ← validate_definitions migrations;
  _ ← ensure (existsb (λ r, (o_type r ==? "table") && (o_name r ==? "schema_migrations")) (master s))
        "migration history is missing";
  applied ← read_applied s;
  _ ← validate_applied applied ordered;
  _ ← ensure (length applied =? length ordered)%nat "database schema is not fully migrated";
  _ ← validate_schema s ordered;
  _ ← ownership;
  fingerprint ← read_state_identity s;
  Ok (match list.last (map m_version ordered) with Some v => v | None => 0 end, fingerprint).

(** What [check_database] finds on the disk. *)
Inductive DatabaseFile :=
  | Unsafe (why : string)       (* [database_path] refused the path *)
  | NoFile
  | NotRegular
  | Unreadable                  (* SQLite raised [DatabaseError] *)
  | Readable (s : Schema) (ownership : py unit).

Record DatabaseStatus := {
  ds_state : string;
  ds_version : option Z;
  ds_detail : string;
  ds_identity : option string;
}.

Definition healthy (s : DatabaseStatus) : bool := ds_state s ==? "healthy".

Definition not_healthy (state detail : string) : DatabaseStatus :=
  {| ds_state := state; ds_version := None; ds_detail := detail; ds_identity := None |}.

(** Only [StateError] and its subclasses are reported; anything else is raised. *)
Definition check_database (migrations : list Migration) (file : DatabaseFile) : py DatabaseStatus :=
  match file with
  | Unsafe why => Ok (not_healthy "incompatible" why)
  | NoFile => Ok (not_healthy "missing" "run roundwright init")
  | NotRegular => Ok (not_healthy "incompatible" "state path is not a regular file")
  | Unreadable => Ok (not_healthy "corrupt" "local database is corrupt or unreadable")
  | Readable s ownership =>
      match verify_migrations migrations ownership s with
      | Ok (version, fingerprint) =>
          Ok {| ds_state := "healthy"; ds_version := Some version; ds_detail := "migration checksums verified";
                ds_identity := Some fingerprint |}
      | Err e => if exn_kind e ==? StateError then Ok (not_healthy "incompatible" (exn_message e)) else Err e
      end
  end.
