(* ===== verification/StateDb.v ===== *)
(** * Repository state (src/roundwright/state.py, git_identity.py)

    The database of one repository: its task tables, the opening of a connection
    and the transition lease that every change of the state requires.  The
    tables that only other parts read (gate evidence, reviews, provider attempts)
    are the component [evidence], whose type is a parameter. *)

From stdpp Require Import gmap.
From S2P Require Import Prelude Sqlite Worktree Migrations.
Open Scope Z_scope.

(** ** Rows *)

Inductive LifecycleState := Queued | Planning | PlanReview | Implementing | DiffReview | ReadyForOwner | Blocked.

#[export] Instance LifecycleState_eq_dec : EqDecision LifecycleState.
Proof. solve_decision. Defined.

Definition LifecycleState_value (s : LifecycleState) : string :=
  match s with
  | Queued => "queued" | Planning => "planning" | PlanReview => "plan-review" | Implementing => "implementing"
  | DiffReview => "diff-review" | ReadyForOwner => "ready-for-owner" | Blocked => "blocked"
  end.

Definition LIFECYCLE_STATES : list LifecycleState :=
  [Queued; Planning; PlanReview; Implementing; DiffReview; ReadyForOwner; Blocked].

Record SourceSnapshot := { s_source_id : string; s_repository_id : string; s_digest : string }.

Record TaskIdentity := {
  task_id : string;
  source_id : string;
  repository_id : string;
  branch : string;
  worktree : string;
  base_sha : string;
}.

Record TransitionLease := {
  l_repository : string;
  l_state_identity : string;
  l_owner : string;
  l_generation : Z;
  l_expires : Z;
}.

#[export] Instance TaskIdentity_eq_dec : EqDecision TaskIdentity.
Proof. solve_decision. Defined.
#[export] Instance TransitionLease_eq_dec : EqDecision TransitionLease.
Proof. solve_decision. Defined.

(** A row of [tasks]: [identity] without the key, the state, and the state the
    task was blocked in, which is there exactly when it is blocked. *)
Record TaskRow := {
  t_source : string;
  t_repository : string;
  t_branch : string;
  t_worktree : string;
  t_base : string;
  t_state : LifecycleState;
  t_blocked_from : option LifecycleState;
  t_key : string;
}.

Record TransitionEvent := {
  e_task : string;
  e_sequence : Z;
  e_from : LifecycleState;
  e_to : LifecycleState;
  e_evidence : string;
}.

(** What a blocker or a next action is: its evidence, and the evidence that
    resolved it. *)
Record Note := { n_kind : string; n_evidence : string; n_resolution : option string }.

Record Database (E : Type) := {
  schema : Schema;
  lease : option TransitionLease;
  lease_generation : option Z;
  sources : gmap string (string * string);
  tasks : gmap string TaskRow;
  branch_owner : gmap string string;
  worktree_owner : gmap string string;
  events : list TransitionEvent;
  artifacts : gset (string * string * string);
  blockers : gmap (string * string) Note;
  next_actions : gmap string Note;
  evidence : E;
}.
Arguments schema {E} _.
Arguments lease {E} _.
Arguments lease_generation {E} _.
Arguments sources {E} _.
Arguments tasks {E} _.
Arguments branch_owner {E} _.
Arguments worktree_owner {E} _.
Arguments events {E} _.
Arguments artifacts {E} _.
Arguments blockers {E} _.
Arguments next_actions {E} _.
Arguments evidence {E} _.

Section Tables.
Context {E : Type}.
Implicit Types (db : Database E).

Definition set_leases (l : option TransitionLease) (g : option Z) db : Database E :=
  {| schema := schema db; lease := l; lease_generation := g; sources := sources db; tasks := tasks db;
     branch_owner := branch_owner db; worktree_owner := worktree_owner db; events := events db;
     artifacts := artifacts db; blockers := blockers db; next_actions := next_actions db; evidence := evidence db |}.

Definition set_admission (ss : gmap string (string * string)) (ts : gmap string TaskRow)
    (bs ws : gmap string string) db : Database E :=
  {| schema := schema db; lease := lease db; lease_generation := lease_generation db; sources := ss; tasks := ts;
     branch_owner := bs; worktree_owner := ws; events := events db;
     artifacts := artifacts db; blockers := blockers db; next_actions := next_actions db; evidence := evidence db |}.

Definition set_progress (ts : gmap string TaskRow) (es : list TransitionEvent) db : Database E :=
  {| schema := schema db; lease := lease db; lease_generation := lease_generation db; sources := sources db; tasks := ts;
     branch_owner := branch_owner db; worktree_owner := worktree_owner db; events := es;
     artifacts := artifacts db; blockers := blockers db; next_actions := next_actions db; evidence := evidence db |}.

Definition set_notes (bl : gmap (string * string) Note) (na : gmap string Note) db : Database E :=
  {| schema := schema db; lease := lease db; lease_generation := lease_generation db; sources := sources db;
     tasks := tasks db; branch_owner := branch_owner db; worktree_owner := worktree_owner db; events := events db;
     artifacts := artifacts db; blockers := bl; next_actions := na; evidence := evidence db |}.

Definition set_artifacts (a : gset (string * string * string)) db : Database E :=
  {| schema := schema db; lease := lease db; lease_generation := lease_generation db; sources := sources db;
     tasks := tasks db; branch_owner := branch_owner db; worktree_owner := worktree_owner db; events := events db;
     artifacts := a; blockers := blockers db; next_actions := next_actions db; evidence := evidence db |}.

Definition set_evidence (e : E) db : Database E :=
  {| schema := schema db; lease := lease db; lease_generation := lease_generation db; sources := sources db;
     tasks := tasks db; branch_owner := branch_owner db; worktree_owner := worktree_owner db; events := events db;
     artifacts := artifacts db; blockers := blockers db; next_actions := next_actions db; evidence := e |}.

(** ** Connections *)

(** The rows of a table in the order of their key. *)
Definition by_task (ts : gmap string TaskRow) : list (string * TaskRow) :=
  sorted_by (λ kv, [kv.1]) (map_to_list ts).

Definition validate_task_ownership db : py unit :=
  _ ← ensure (size (branch_owner db) =? size (tasks db))%nat "task branch ownership is incomplete";
  _ ← ensure (size (worktree_owner db) =? size (tasks db))%nat "task worktree ownership is incomplete";
  for_each (λ kv : string * TaskRow,
    let '(id, t) := kv in
    key ← canonical_worktree_key (t_worktree t);
    _ ← ensure (t_key t ==? key) "task worktree ownership is invalid";
    _ ← ensure (branch_owner db !! t_branch t ==? Some id) "task branch ownership is invalid";
    ensure (worktree_owner db !! t_key t ==? Some id) "task worktree ownership is invalid") (by_task (tasks db)).

(** A repository that may have no database yet. *)
Definition World : Type := option (Database E).

Definition open_connection (migrations : list Migration) (w : World) : py (Database E) :=
  match w with
  | None => state_error "local database is missing"
  | Some db =>
      _ ← verify_migrations migrations (validate_task_ownership db) (schema db);
      Ok db
  end.

(** [BEGIN IMMEDIATE], the body, [commit]; an exception rolls back. *)
Definition transaction {A} (migrations : list Migration) (body : Database E → py (A * Database E)) (w : World) :
    py A * World :=
  match (db ← open_connection migrations w; body db) with
  | Ok (a, db) => (Ok a, Some db)
  | Err e => (Err e, w)
  end.

(** ** The transition lease *)

Definition git_error {A} (why : string) : py A := raise GitIdentityError why.
Definition git_ensure (b : bool) (why : string) : py unit := require b GitIdentityError why.

Definition state_text db : option string :=
  match state_id (schema db) with Some (Typed s) => Some s | _ => None end.

Definition require_current_transition_lease (l : dyn TransitionLease) (repository : string) (clock : Z) db : py unit :=
  match l with
  | Foreign => state_error "a current transition lease is required"
  | Typed l =>
      _ ← ensure (lease db ==? Some l) "transition lease ownership has drifted";
      _ ← ensure (l_repository l ==? repository) "transition lease does not match the task repository";
      _ ← ensure (state_text db ==? Some (l_state_identity l)) "transition lease state identity has drifted";
      ensure (clock <? l_expires l) "transition lease is stale and requires owner recovery"
  end.

(** [_clock(now)]; the reading of the system clock is an argument. *)
Definition clock (system : Z) (now : option Z) : py Z :=
  let value := match now with Some n => n | None => system end in
  _ ← git_ensure (0 <=? value) "lease clock is invalid";
  Ok value.

Definition state_identity db : py string :=
  match state_text db with
  | Some s => Ok s
  | None => git_error "repository state identity is unavailable"
  end.

Definition require_current_lease (l : dyn TransitionLease) (repository : string) (system : Z) (observed : option Z) db :
    py unit :=
  match l with
  | Foreign => git_error "a current transition lease is required"
  | Typed l =>
      _ ← git_ensure (lease db ==? Some l) "transition lease ownership has drifted";
      _ ← git_ensure (l_repository l ==? repository) "transition lease does not match the task repository";
      identity ← state_identity db;
      _ ← git_ensure (identity ==? l_state_identity l) "transition lease state identity has drifted";
      now ← clock system observed;
      git_ensure (now <? l_expires l) "transition lease is stale and requires owner recovery"
  end.

Definition lease_token (value name : string) : py unit :=
  git_ensure (match value with
              | String c rest => is_alnum c && str_all (λ c, is_alnum c || one_of "._:/-" c) rest
              | EmptyString => false
              end) (String.append name " is invalid").

Definition acquire_transition_lease (migrations : list Migration) (repository owner : string) (ttl system : Z)
    (now : option Z) (w : World) : py TransitionLease * World :=
  match (_ ← lease_token repository "repository identity";
         _ ← lease_token owner "lease owner";
         _ ← git_ensure (0 <? ttl) "lease duration is invalid";
         clock system now) with
  | Err e => (Err e, w)
  | Ok observed =>
      transaction migrations (λ db,
        identity ← state_identity db;
        match lease db with
        | None =>
            next ← sqlite_int (match lease_generation db with None => 1 | Some g => g + 1 end);
            expires ← sqlite_int (observed + ttl);
            let l := {| l_repository := repository; l_state_identity := identity; l_owner := owner;
                        l_generation := next; l_expires := expires |} in
            Ok (l, set_leases (Some l) (Some next) db)
        | Some existing =>
            _ ← git_ensure ((l_repository existing ==? repository) && (l_state_identity existing ==? identity))
                  "transition lease identity is unverifiable";
            _ ← git_ensure (observed <? l_expires existing) "transition lease is stale and requires owner recovery";
            _ ← git_ensure (l_owner existing ==? owner) "a conflicting transition lease is active";
            expires ← sqlite_int (observed + ttl);
            let l := {| l_repository := repository; l_state_identity := identity; l_owner := owner;
                        l_generation := l_generation existing; l_expires := expires |} in
            Ok (l, set_leases (Some l) (lease_generation db) db)
        end) w
  end.

Definition renew_transition_lease (migrations : list Migration) (l : TransitionLease) (ttl system : Z) (now : option Z)
    (w : World) : py TransitionLease * World :=
  match (_ ← git_ensure (0 <? ttl) "lease duration is invalid"; clock system now) with
  | Err e => (Err e, w)
  | Ok observed =>
      transaction migrations (λ db,
        _ ← require_current_lease (Typed l) (l_repository l) system (Some observed) db;
        expires ← sqlite_int (observed + ttl);
        let l' := {| l_repository := l_repository l; l_state_identity := l_state_identity l; l_owner := l_owner l;
                     l_generation := l_generation l; l_expires := expires |} in
        Ok (l', set_leases (Some l') (lease_generation db) db)) w
  end.

Definition release_transition_lease (migrations : list Migration) (l : TransitionLease) (system : Z) (now : option Z)
    (w : World) : py unit * World :=
  transaction migrations (λ db,
    observed ← clock system now;
    _ ← require_current_lease (Typed l) (l_repository l) system (Some observed) db;
    Ok ((), set_leases None (lease_generation db) db)) w.

End Tables.
Arguments World : clear implicits.
