(* ===== verification/TaskState.v ===== *)
(** * Task state (src/roundwright/state.py)

    The lifecycle of a task in the repository database: admission, transitions,
    the final transition, artifacts, blockers, next actions, and the projection
    shown to the owner.  Every operation is one SQLite transaction under the
    current transition lease.

    The final transition reads live Git evidence and the persisted gate evidence;
    the class [EvidenceTables] is what it uses of them. *)

From stdpp Require Import gmap.
From S2P Require Import Prelude DependencyPolicy Sha256 Sqlite Worktree Migrations StateDb.
Open Scope Z_scope.

(** ** Values of git_identity.py *)

Record GitEntrypointControl := {
  g_binding : CandidateBinding;
  g_control : DependencyExecutionControl;
  g_now : Z;
}.

Record WorktreeBinding := {
  wb_task : string;
  wb_repository : string;
  wb_branch : string;
  wb_worktree : string;
  wb_base : string;
  wb_state_identity : string;
  wb_control : option GitEntrypointControl;
}.

Record CandidateSeal := {
  cs_task : string;
  cs_base : string;
  cs_candidate : string;
  cs_state_identity : string;
}.

(** What the final transition uses of the other tables: the evidence of a live
    candidate, and whether the persisted aggregate gate decision is PASS. *)
Class EvidenceTables (E : Type) := {
  candidate_evidence : WorktreeBinding → CandidateSeal → dyn TransitionLease → World E → py (list string) * World E;
  decision_passes : Database E → TaskIdentity → py bool;
}.

(** ** Validation *)

Definition validate_source_snapshot (s : SourceSnapshot) : py unit :=
  _ ← require_token (s_source_id s) "source identity";
  _ ← require_token (s_repository_id s) "repository identity";
  ensure (match_hex 64 (s_digest s)) "source digest is not a lowercase SHA-256 value".

Definition validate_task_identity (i : TaskIdentity) : py unit :=
  _ ← require_token (task_id i) "task identity";
  _ ← require_token (source_id i) "source identity";
  _ ← require_token (repository_id i) "repository identity";
  _ ← require_token (branch i) "task branch";
  _ ← require_worktree (worktree i);
  _ ← canonical_worktree_key (worktree i);
  ensure (match_hex 40 (base_sha i)) "base commit is not a full lowercase SHA".

Definition require_state (value : string) : py LifecycleState :=
  match List.find (λ s, LifecycleState_value s ==? value) LIFECYCLE_STATES with
  | Some s => Ok s
  | None => state_error "task state is invalid"
  end.

Definition ALLOWED_TRANSITIONS (s : LifecycleState) : list LifecycleState :=
  match s with
  | Queued => [Planning; Blocked]
  | Planning => [PlanReview; Blocked]
  | PlanReview => [Planning; Implementing; Blocked]
  | Implementing => [DiffReview; Blocked]
  | DiffReview => [Implementing; ReadyForOwner; Blocked]
  | ReadyForOwner => []
  | Blocked => [Queued; Planning; PlanReview; Implementing; DiffReview]
  end.

Definition transition_is_allowed (current next : LifecycleState) (blocked_from : option LifecycleState) : bool :=
  (next in? ALLOWED_TRANSITIONS current) && ((current !=? Blocked) || (blocked_from ==? Some next)).

Definition BLOCKER_CLASSES : list string := ["evidence-ambiguous"; "evidence-incomplete"; "identity-mismatch"; "policy-denied"].
Definition NEXT_ACTION_KINDS : list string :=
  ["provide-evidence"; "reconcile-identity"; "resolve-policy"; "review-plan"; "owner-review"].
Definition ARTIFACT_KINDS : list string := ["diff"; "plan"; "review"; "status"].

Definition require_classification (value : string) (allowed : list string) (name : string) : py unit :=
  ensure (value in? allowed) (String.append name " is not an owner-safe classification").

(** ** Projection *)

Record TaskProjection := {
  p_task_id : string;
  p_repository_id : string;
  p_state : LifecycleState;
  p_base_sha : string;
  p_source_fingerprint : string;
  p_artifacts : list (string * string);
  p_blockers : list string;
  p_next_action : option string;
}.

Section Operations.
Context {E : Type} `{!EvidenceTables E} (migrations : list Migration).
Implicit Types (db : Database E) (w : World E).

Definition require_matching_task (i : TaskIdentity) (expected : option LifecycleState) db : py LifecycleState :=
  match tasks db !! task_id i with
  | None => state_error "task identity does not match committed state"
  | Some t =>
      _ ← ensure ((t_source t ==? source_id i) && (t_repository t ==? repository_id i) && (t_branch t ==? branch i)
                  && (t_worktree t ==? worktree i) && (t_base t ==? base_sha i))
            "task identity does not match committed state";
      key ← canonical_worktree_key (worktree i);
      _ ← ensure (t_key t ==? key) "task worktree ownership is not current";
      _ ← ensure ((branch_owner db !! branch i ==? Some (task_id i)) && (worktree_owner db !! t_key t ==? Some (task_id i)))
            "task ownership is not current";
      _ ← ensure (match expected with Some s => t_state t ==? s | None => true end)
            "task state does not match the requested transition";
      Ok (t_state t)
  end.

(** The artifacts, open blockers and open next action of a task. *)
Definition artifacts_of (id : string) db : list (string * string) :=
  sorted_by (λ a, [a.1; a.2])
    (omap (λ a : string * string * string, let '(t, k, f) := a in if decide (t = id) then Some (k, f) else None)
       (elements (artifacts db))).

Definition unresolved (n : Note) : bool := n_resolution n ==? None.

Definition open_blockers (id : string) db : list string :=
  sorted_by (λ c, [c])
    (omap (λ kv : string * string * Note, if (kv.1.1 ==? id) && unresolved kv.2 then Some kv.1.2 else None)
       (map_to_list (blockers db))).

Definition open_next_action (id : string) db : option string :=
  n ← next_actions db !! id; if unresolved n then Some (n_kind n) else None.

Definition encode_ascii (s : string) : py string :=
  _ ← require (str_all (λ c, code c <? 128) s) ValueError "'ascii' codec can't encode character"; Ok s.

Definition task_projection (i : TaskIdentity) w : py TaskProjection :=
  _ ← validate_task_identity i;
  db ← open_connection migrations w;
  state ← require_matching_task i None db;
  match sources db !! source_id i with
  | None => state_error "task source snapshot is missing"
  | Some (_, digest) =>
      d ← encode_ascii digest;
      Ok {| p_task_id := task_id i; p_repository_id := repository_id i; p_state := state; p_base_sha := base_sha i;
            p_source_fingerprint := String.substring 0 16 (sha256_hex d);
            p_artifacts := artifacts_of (task_id i) db; p_blockers := open_blockers (task_id i) db;
            p_next_action := open_next_action (task_id i) db |}
  end.

(** A write transaction followed by the projection of the committed state. *)
Definition then_project (i : TaskIdentity) (r : py unit * World E) : py TaskProjection * World E :=
  match r.1 with
  | Ok _ => (task_projection i r.2, r.2)
  | Err e => (Err e, r.2)
  end.

(** Checks made before the connection is opened. *)
Definition after {A} (checks : py unit) (op : World E → py A * World E) : World E → py A * World E :=
  λ w, match checks with Ok _ => op w | Err e => (Err e, w) end.

(** A transaction under the current lease on the committed task. *)
Definition on_task (i : TaskIdentity) (expected : option LifecycleState) (l : dyn TransitionLease) (now : Z)
    (body : Database E → py (Database E)) : World E → py unit * World E :=
  transaction migrations (λ db,
    _ ← require_current_transition_lease l (repository_id i) now db;
    _ ← require_matching_task i expected db;
    db' ← body db;
    Ok ((), db')).

(** ** Admission *)

Definition admitted_row (i : TaskIdentity) (key : string) : TaskRow :=
  {| t_source := source_id i; t_repository := repository_id i; t_branch := branch i; t_worktree := worktree i;
     t_base := base_sha i; t_state := Queued; t_blocked_from := None; t_key := key |}.

(** The insertion of a source snapshot that may be there already. *)
Definition keep_source (s : SourceSnapshot) db : py (gmap string (string * string)) :=
  match sources db !! s_source_id s with
  | None =>
      _ ← unique_column id (s_repository_id s, s_digest s) (sources db);
      Ok (<[s_source_id s := (s_repository_id s, s_digest s)]> (sources db))
  | Some row =>
      _ ← ensure (row ==? (s_repository_id s, s_digest s)) "source snapshot identity does not match replayed input";
      Ok (sources db)
  end.

Definition other_owner (o : option string) (id : string) : bool :=
  match o with Some t => t !=? id | None => false end.

Definition mutate_task (i : TaskIdentity) (s : SourceSnapshot) (l : dyn TransitionLease) (now : Z) :
    World E → py unit * World E :=
  transaction migrations (λ db,
    _ ← require_current_transition_lease l (repository_id i) now db;
    ss ← keep_source s db;
    key ← canonical_worktree_key (worktree i);
    _ ← ensure (negb (existsb (λ kv, (t_branch kv.2 ==? branch i) && (kv.1 !=? task_id i)) (map_to_list (tasks db))
                      || other_owner (branch_owner db !! branch i) (task_id i)
                      || other_owner (worktree_owner db !! key) (task_id i)))
          "an active task already owns the branch or worktree";
    match tasks db !! task_id i with
    | None =>
        _ ← unique_column id (task_id i) (worktree_owner db);
        ws ← insert_row key (task_id i) (worktree_owner db);
        _ ← unique_column id (task_id i) (branch_owner db);
        bs ← insert_row (branch i) (task_id i) (branch_owner db);
        Ok ((), set_admission ss (<[task_id i := admitted_row i key]> (tasks db)) bs ws db)
    | Some t =>
        _ ← ensure ((t_source t ==? source_id i) && (t_repository t ==? repository_id i) && (t_branch t ==? branch i)
                    && (t_worktree t ==? worktree i) && (t_base t ==? base_sha i))
              "task identity does not match replayed input";
        state_error "task has already been admitted"
    end).

Definition admit_task (i : TaskIdentity) (snapshots : list SourceSnapshot) (l : dyn TransitionLease) (now : Z) w :
    py TaskProjection * World E :=
  match snapshots with
  | [s] =>
      after (_ ← validate_task_identity i;
             _ ← validate_source_snapshot s;
             ensure ((s_source_id s ==? source_id i) && (s_repository_id s ==? repository_id i))
               "task identity does not match its source snapshot")
        (λ w, then_project i (mutate_task i s l now w)) w
  | _ =>
      after (_ ← validate_task_identity i; state_error "a runnable task must have exactly one source snapshot")
        (λ w, (state_error "", w)) w
  end.

(** ** Transitions *)

Definition task_history (id : string) (es : list TransitionEvent) : list TransitionEvent :=
  List.filter (λ e, e_task e ==? id) es.

Definition evidence_committed (id fp : string) db : bool :=
  existsb (λ e, e_evidence e ==? fp) (task_history id (events db)).

(** [COALESCE(MAX(sequence), 0) + 1] *)
Definition next_sequence (id : string) db : Z :=
  foldr Z.max 0 (map e_sequence (task_history id (events db))) + 1.

Definition set_task_state (s : LifecycleState) (from : option LifecycleState) (t : TaskRow) : TaskRow :=
  {| t_source := t_source t; t_repository := t_repository t; t_branch := t_branch t; t_worktree := t_worktree t;
     t_base := t_base t; t_state := s; t_blocked_from := from; t_key := t_key t |}.

(** The update of the task row and the event it appends. *)
Definition move_task (id : string) (from to : LifecycleState) (fp : string) db : Database E :=
  set_progress (alter (set_task_state to (if to ==? Blocked then Some from else None)) id (tasks db))
    (events db ++ [{| e_task := id; e_sequence := next_sequence id db; e_from := from; e_to := to; e_evidence := fp |}]) db.

Definition resolve (fp : string) (n : Note) : Note :=
  {| n_kind := n_kind n; n_evidence := n_evidence n;
     n_resolution := match n_resolution n with None => Some fp | r => r end |}.

(** [UPDATE ... SET resolution_fingerprint] of the open blockers and next action. *)
Definition resolve_notes (id fp : string) db : Database E :=
  set_notes (map_imap (λ k n, Some (if decide (k.1 = id) then resolve fp n else n)) (blockers db))
    (alter (resolve fp) id (next_actions db)) db.

Definition blocked_from (id : string) db : option LifecycleState := t ← tasks db !! id; t_blocked_from t.

Definition commit_transition (i : TaskIdentity) (from to : LifecycleState) (fp : string) (l : dyn TransitionLease)
    (now : Z) (candidate_validated : bool) w : py TaskProjection * World E :=
  then_project i (on_task i (Some from) l now (λ db,
    _ ← (if (from ==? DiffReview) && (to ==? ReadyForOwner) then
           _ ← ensure candidate_validated "ready-for-owner requires live candidate validation";
           passes ← decision_passes db i;
           ensure passes "ready-for-owner requires persisted aggregate PASS gate evidence"
         else Ok ());
    _ ← ensure (transition_is_allowed from to (blocked_from (task_id i) db))
          "task transition is invalid, regressive, or skips blocked recovery";
    _ ← ensure (negb (evidence_committed (task_id i) fp db)) "task transition evidence has already been committed";
    let moved := move_task (task_id i) from to fp db in
    Ok (if from ==? Blocked then resolve_notes (task_id i) fp moved else moved)) w).

Definition transition_task (i : TaskIdentity) (expected next fp : string) (l : dyn TransitionLease) (now : Z) w :
    py TaskProjection * World E :=
  match (_ ← validate_task_identity i;
         from ← require_state expected;
         to ← require_state next;
         _ ← require_fingerprint fp;
         _ ← ensure (negb ((from ==? DiffReview) && (to ==? ReadyForOwner)))
               "ready-for-owner requires the candidate-bound final transition";
         Ok (from, to)) with
  | Ok (from, to) => commit_transition i from to fp l now false w
  | Err e => (Err e, w)
  end.

Definition transition_ready_for_owner (i : TaskIdentity) (b : dyn WorktreeBinding) (s : dyn CandidateSeal) (fp : string)
    (l : dyn TransitionLease) (now : Z) w : py TaskProjection * World E :=
  match b, s with
  | Typed b, Typed s =>
      after (_ ← validate_task_identity i;
             _ ← require_fingerprint fp;
             _ ← ensure ((wb_task b ==? task_id i) && (wb_repository b ==? repository_id i))
                   "ready-for-owner candidate binding does not match the task";
             ensure ((cs_task s ==? task_id i) && (cs_base s ==? base_sha i))
               "ready-for-owner candidate seal does not match the task")
        (λ w, match candidate_evidence b s l w with
              | (Ok _, w) => commit_transition i DiffReview ReadyForOwner fp l now true w
              | (Err e, w) => (Err e, w)
              end) w
  | _, _ =>
      after (_ ← validate_task_identity i;
             _ ← require_fingerprint fp;
             state_error "ready-for-owner requires an exact live candidate binding")
        (λ w, (state_error "", w)) w
  end.

(** ** Transitions of other modules

    Routing plan findings (worker_planning.py) and diff findings
    (candidate_review.py) moves the task back inside a larger transaction, whose
    other checks and writes are [rest] and whose clock was checked. *)

Definition reopen_planning (i : TaskIdentity) (fp : string) (rest : Database E → py E) (l : dyn TransitionLease)
    (observed : Z) : World E → py unit * World E :=
  transaction migrations (λ db,
    _ ← require_current_lease l (repository_id i) observed (Some observed) db;
    state ← require_matching_task i None db;
    e ← rest db;
    if state ==? Planning then
      _ ← require (evidence_committed (task_id i) fp db) WorkerPlanningError
            "planning state is not a committed findings-routing replay";
      Ok ((), db)
    else
      _ ← require (state ==? PlanReview) WorkerPlanningError "plan findings require the submitted plan-review state";
      _ ← require (negb (evidence_committed (task_id i) fp db)) WorkerPlanningError
            "findings-routing evidence has already been committed";
      Ok ((), set_evidence e (move_task (task_id i) PlanReview Planning fp db))).

Definition return_to_worker (i : TaskIdentity) (fp : string) (rest : Database E → py E) (l : dyn TransitionLease)
    (observed : Z) : World E → py unit * World E :=
  transaction migrations (λ db,
    _ ← require_current_lease l (repository_id i) observed (Some observed) db;
    _ ← require_matching_task i (Some DiffReview) db;
    e ← rest db;
    _ ← require (negb (evidence_committed (task_id i) fp db)) CandidateReviewError
          "diff review transition evidence has already been committed";
    _ ← require (blocked_from (task_id i) db ==? None) CandidateReviewError "diff review findings transition is unavailable";
    Ok ((), set_evidence e (move_task (task_id i) DiffReview Implementing fp db))).

(** ** Artifacts, blockers, next actions *)

Definition record_artifact (i : TaskIdentity) (kind fp : string) (l : dyn TransitionLease) (now : Z) :
    World E → py TaskProjection * World E :=
  after (_ ← validate_task_identity i;
         _ ← require_classification kind ARTIFACT_KINDS "artifact kind";
         require_fingerprint fp)
    (λ w, then_project i (on_task i None l now (λ db,
       Ok (set_artifacts ({[ (task_id i, kind, fp) ]} ∪ artifacts db) db)) w)).

Definition set_blocker (i : TaskIdentity) (class fp : string) (l : dyn TransitionLease) (now : Z) :
    World E → py TaskProjection * World E :=
  after (_ ← validate_task_identity i;
         _ ← require_classification class BLOCKER_CLASSES "blocker class";
         require_fingerprint fp)
    (λ w, then_project i (on_task i None l now (λ db,
       Ok (set_notes (<[(task_id i, class) := {| n_kind := class; n_evidence := fp; n_resolution := None |}]> (blockers db))
             (next_actions db) db)) w)).

Definition set_next_action (i : TaskIdentity) (kind fp : string) (l : dyn TransitionLease) (now : Z) :
    World E → py TaskProjection * World E :=
  after (_ ← validate_task_identity i;
         _ ← require_classification kind NEXT_ACTION_KINDS "next action";
         require_fingerprint fp)
    (λ w, then_project i (on_task i None l now (λ db,
       Ok (set_notes (blockers db)
             (<[task_id i := {| n_kind := kind; n_evidence := fp; n_resolution := None |}]> (next_actions db)) db)) w)).

End Operations.

(** * The repository as a system

    One step is one operation of any process: with any arguments, lease and
    clock.  Operations of other modules write only their own tables. *)

Inductive operation (E : Type) :=
  | Admit (i : TaskIdentity) (snapshots : list SourceSnapshot) (l : dyn TransitionLease) (now : Z)
  | Transition (i : TaskIdentity) (expected next fp : string) (l : dyn TransitionLease) (now : Z)
  | Finalize (i : TaskIdentity) (b : dyn WorktreeBinding) (s : dyn CandidateSeal) (fp : string)
      (l : dyn TransitionLease) (now : Z)
  | Artifact (i : TaskIdentity) (kind fp : string) (l : dyn TransitionLease) (now : Z)
  | BlockerNote (i : TaskIdentity) (class fp : string) (l : dyn TransitionLease) (now : Z)
  | NextAction (i : TaskIdentity) (kind fp : string) (l : dyn TransitionLease) (now : Z)
  | ReopenPlanning (i : TaskIdentity) (fp : string) (rest : Database E → py E) (l : dyn TransitionLease) (now : Z)
  | ReturnToWorker (i : TaskIdentity) (fp : string) (rest : Database E → py E) (l : dyn TransitionLease) (now : Z)
  | Acquire (repository owner : string) (ttl system : Z) (now : option Z)
  | Renew (l : TransitionLease) (ttl system : Z) (now : option Z)
  | Release (l : TransitionLease) (system : Z) (now : option Z)
  | Elsewhere (e : E).
Arguments Admit {E} _ _ _ _.
Arguments Transition {E} _ _ _ _ _ _.
Arguments Finalize {E} _ _ _ _ _ _.
Arguments Artifact {E} _ _ _ _ _.
Arguments BlockerNote {E} _ _ _ _ _.
Arguments NextAction {E} _ _ _ _ _.
Arguments ReopenPlanning {E} _ _ _ _ _.
Arguments ReturnToWorker {E} _ _ _ _ _.
Arguments Acquire {E} _ _ _ _ _.
Arguments Renew {E} _ _ _ _.
Arguments Release {E} _ _ _.
Arguments Elsewhere {E} _.

Section System.
Context {E : Type} `{!EvidenceTables E} (migrations : list Migration).
Implicit Types (db : Database E) (w : World E).

(** The repository after an operation, whatever it returned. *)
Definition run (o : operation E) w : World E :=
  match o with
  | Admit i ss l now => (admit_task migrations i ss l now w).2
  | Transition i from to fp l now => (transition_task migrations i from to fp l now w).2
  | Finalize i b s fp l now => (transition_ready_for_owner migrations i b s fp l now w).2
  | Artifact i k fp l now => (record_artifact migrations i k fp l now w).2
  | BlockerNote i c fp l now => (set_blocker migrations i c fp l now w).2
  | NextAction i k fp l now => (set_next_action migrations i k fp l now w).2
  | ReopenPlanning i fp rest l now => (reopen_planning migrations i fp rest l now w).2
  | ReturnToWorker i fp rest l now => (return_to_worker migrations i fp rest l now w).2
  | Acquire r o ttl system now => (acquire_transition_lease migrations r o ttl system now w).2
  | Renew l ttl system now => (renew_transition_lease migrations l ttl system now w).2
  | Release l system now => (release_transition_lease migrations l system now w).2
  | Elsewhere e => db ← w; Some (set_evidence e db)
  end.

(** A repository after [initialize]: no task, no lease, and the generation that
    the seventh migration of a repository without leases inserts. *)
Definition fresh (s : Schema) (e : E) : Database E :=
  {| schema := s; lease := None; lease_generation := Some 2; sources := ∅; tasks := ∅; branch_owner := ∅;
     worktree_owner := ∅; events := []; artifacts := ∅; blockers := ∅; next_actions := ∅; evidence := e |}.

Definition run_all (os : list (operation E)) w : World E := foldl (λ w o, run o w) w os.

Definition reachable w : Prop := ∃ s e os, w = run_all os (Some (fresh s e)).

End System.

(** * Lemmas *)

(** The laws of the interface: collecting the evidence of a candidate changes at
    most the tables of the evidence, and only under the current lease. *)
Class EvidenceTablesOk (E : Type) `{!EvidenceTables E} := {
  candidate_evidence_writes : ∀ b s l (w : World E), (candidate_evidence b s l w).2 = w ∨
    ∃ db l' e, w = Some db ∧ l = Typed l' ∧ lease db = Some l' ∧ (candidate_evidence b s l w).2 = Some (set_evidence e db);
}.

Section Steps.
Context {E : Type} `{!EvidenceTables E} (migrations : list Migration).
Implicit Types (db : Database E) (w : World E).

Lemma transaction_cases {A} (body : Database E → py (A * Database E)) w :
  (∃ e, transaction migrations body w = (Err e, w)) ∨
  ∃ db a db', w = Some db ∧ validate_task_ownership db = Ok () ∧ body db = Ok (a, db')
              ∧ transaction migrations body w = (Ok a, Some db').
Proof.
  unfold transaction, open_connection. destruct w as [db|]; cbn; [|by left; eexists].
  destruct (verify_migrations _ _ _) as [[v s]|e] eqn:Hv; cbn; [|by left; eexists].
  assert (validate_task_ownership db = Ok ()) as Ho.
  { unfold verify_migrations in Hv. repeat (apply bind_ok in Hv as (? & ? & Hv)).
    match goal with H : validate_task_ownership db = Ok ?u |- _ => by destruct u end. }
  destruct (body db) as [[a db']|e] eqn:Hb; [|by left; eexists]. right. by exists db, a, db'.
Qed.

Lemma then_project_world i (r : py unit * World E) : (then_project migrations i r).2 = r.2.
Proof. unfold then_project. by destruct (r.1). Qed.

Lemma after_cases {A} (checks : py unit) (op : World E → py A * World E) w :
  (∃ e, after checks op w = (Err e, w)) ∨ checks = Ok () ∧ after checks op w = op w.
Proof. unfold after. destruct checks as [[]|e]; [by right|left; by eexists]. Qed.

Lemma lease_checked l repository now db :
  require_current_transition_lease l repository now db = Ok () → ∃ l', l = Typed l' ∧ lease db = Some l' ∧ now < l_expires l'.
Proof.
  unfold require_current_transition_lease, ensure. destruct l as [l|]; [|done].
  rewrite <- is_ok_unit. autorewrite with is_ok. intros H. breflect. exists l. by destruct_and!.
Qed.

Lemma git_lease_checked l repository system now db :
  require_current_lease l repository system now db = Ok () → ∃ l', l = Typed l' ∧ lease db = Some l'.
Proof.
  unfold require_current_lease, git_ensure. destruct l as [l|]; [|done].
  intros (_ & H%require_ok & _)%bind_ok. breflect. by exists l.
Qed.

Lemma matching_task i expected db s :
  require_matching_task i expected db = Ok s →
  ∃ t, tasks db !! task_id i = Some t ∧ t_state t = s ∧ t_source t = source_id i ∧ t_branch t = branch i
       ∧ ∀ s', expected = Some s' → s = s'.
Proof.
  unfold require_matching_task, ensure. destruct (tasks db !! task_id i) as [t|]; [|done].
  intros (_ & H1%require_ok & (key & _ & (_ & _ & (_ & _ & (_ & He%require_ok & [= <-])%bind_ok)%bind_ok)%bind_ok)%bind_ok)%bind_ok.
  breflect. destruct_and!. exists t. split_and!; try done. intros s' ->. by apply bool_decide_eq_true in He.
Qed.

(** What one step of any operation does to the database; only a validated
    candidate ([final]) reaches the owner. *)
Inductive step (final : bool) db : Database E → Prop :=
  | step_admission i key ss d :
      tasks db !! task_id i = None → canonical_worktree_key (worktree i) = Ok key →
      branch_owner db !! branch i = None → worktree_owner db !! key = None →
      (∀ b, branch_owner db !! b ≠ Some (task_id i)) → (∀ k, worktree_owner db !! k ≠ Some (task_id i)) →
      ss !! source_id i = Some (repository_id i, d) → sources db ⊆ ss →
      step final db (set_admission ss (<[task_id i := admitted_row i key]> (tasks db)) (<[branch i := task_id i]> (branch_owner db))
                 (<[key := task_id i]> (worktree_owner db)) db)
  | step_move i t to fp bl na e :
      tasks db !! task_id i = Some t → transition_is_allowed (t_state t) to (t_blocked_from t) = true →
      evidence_committed (task_id i) fp db = false →
      (to = ReadyForOwner → final = true ∧ decision_passes db i = Ok true) →
      step final db (set_evidence e (set_notes bl na (move_task (task_id i) (t_state t) to fp db)))
  | step_notes bl na : step final db (set_notes bl na db)
  | step_artifacts a : step final db (set_artifacts a db)
  | step_evidence e : step final db (set_evidence e db)
  | step_acquire l : lease db = None → l_generation l = match lease_generation db with None => 1 | Some g => g + 1 end →
      step final db (set_leases (Some l) (Some (l_generation l)) db)
  | step_renew l l' : lease db = Some l → l_generation l' = l_generation l → step final db (set_leases (Some l') (lease_generation db) db)
  | step_release l : lease db = Some l → step final db (set_leases None (lease_generation db) db).

Lemma move_as_step id s to fp db e :
  set_evidence e (move_task id s to fp db)
  = set_evidence e (set_notes (blockers db) (next_actions db) (move_task id s to fp db)).
Proof. done. Qed.

(** A change made under the current lease [l]. *)
Definition moves (final : bool) (l : dyn TransitionLease) w w' : Prop :=
  ∃ db db' l', w = Some db ∧ w' = Some db' ∧ step final db db' ∧ l = Typed l' ∧ lease db = Some l'.

Lemma on_task_moves final i expected l now body w :
  (∀ db db' t, tasks db !! task_id i = Some t → (∀ s, expected = Some s → t_state t = s) → body db = Ok db' → step final db db') →
  (on_task migrations i expected l now body w).2 = w ∨ moves final l w (on_task migrations i expected l now body w).2.
Proof.
  intros Hbody. unfold on_task. match goal with |- context [transaction _ ?b w] => destruct (transaction_cases b w)
    as [[e ->]|(db & a & db' & -> & _ & Hb & ->)] end; [by left|right].
  apply bind_ok in Hb as ([] & (l' & -> & Hl & _)%lease_checked & Hb).
  apply bind_ok in Hb as (s & (t & Ht & <- & _ & _ & He)%matching_task & Hb). apply bind_ok in Hb as (d & Hd & [= <- <-]).
  exists db, d, l'. split_and!; try done. by eapply Hbody.
Qed.

Lemma keep_source_ok s db ss :
  keep_source s db = Ok ss → ss !! s_source_id s = Some (s_repository_id s, s_digest s) ∧ sources db ⊆ ss.
Proof.
  unfold keep_source, ensure. destruct (sources db !! s_source_id s) as [row|] eqn:Hr.
  - intros (_ & H%require_ok & [= <-])%bind_ok. breflect. by subst.
  - intros (_ & _ & [= <-])%bind_ok. split; [apply lookup_insert_eq|by apply insert_subseteq].
Qed.

Lemma other_owner_false o id : other_owner o id = false → o = None ∨ o = Some id.
Proof. destruct o as [t|]; cbn; intros H; [right; breflect; by subst|by left]. Qed.

Lemma mutate_task_moves i s l now w : s_source_id s = source_id i → s_repository_id s = repository_id i →
  (mutate_task migrations i s l now w).2 = w ∨ moves false l w (mutate_task migrations i s l now w).2.
Proof.
  intros Hs Hr. unfold mutate_task. match goal with |- context [transaction _ ?b w] => destruct (transaction_cases b w)
    as [[e ->]|(db & a & db' & -> & _ & Hb & ->)] end; [by left|right].
  apply bind_ok in Hb as ([] & (l' & -> & Hl & _)%lease_checked & Hb).
  apply bind_ok in Hb as (ss & (Hss & Hsub)%keep_source_ok & Hb). apply bind_ok in Hb as (key & Hkey & Hb).
  apply bind_ok in Hb as (_ & _ & Hb). destruct (tasks db !! task_id i) as [t|] eqn:Ht; [by apply bind_ok in Hb as (_ & _ & ?)|].
  apply bind_ok in Hb as (u1 & H1 & Hb). pose proof (proj1 (unique_column_ok _ _ _ _) H1) as U1. apply bind_ok in Hb as (ws & (Hws & ->)%insert_row_ok & Hb).
  apply bind_ok in Hb as (u2 & H2 & Hb). pose proof (proj1 (unique_column_ok _ _ _ _) H2) as U2. apply bind_ok in Hb as (bs & (Hbs & ->)%insert_row_ok & [= <- <-]).
  eexists db, _, l'. split_and!; try done. eapply step_admission; try done.
  - intros b Hb. by apply (U2 b _ Hb).
  - intros k Hk. by apply (U1 k _ Hk).
  - by rewrite <- Hs, <- Hr.
Qed.

Lemma blocked_from_row id db t : tasks db !! id = Some t → blocked_from id db = t_blocked_from t.
Proof. unfold blocked_from. by intros ->. Qed.

Lemma commit_cases i from to fp l now validated w :
  (∃ e, commit_transition migrations i from to fp l now validated w = (Err e, w))
  ∨ ∃ db l' t, w = Some db ∧ l = Typed l' ∧ lease db = Some l' ∧ now < l_expires l'
    ∧ tasks db !! task_id i = Some t ∧ t_state t = from
    ∧ (from = DiffReview → to = ReadyForOwner → validated = true ∧ decision_passes db i = Ok true)
    ∧ transition_is_allowed from to (t_blocked_from t) = true ∧ evidence_committed (task_id i) fp db = false
    ∧ let moved := move_task (task_id i) from to fp db in
      let db' := if from ==? Blocked then resolve_notes (task_id i) fp moved else moved in
      commit_transition migrations i from to fp l now validated w = (task_projection migrations i (Some db'), Some db').
Proof.
  unfold commit_transition, on_task. match goal with |- context [transaction _ ?b w] => destruct (transaction_cases b w)
    as [[e ->]|(db & a & db' & -> & _ & Hb & ->)] end; [left; by eexists|right].
  apply bind_ok in Hb as ([] & (l' & -> & Hl & Hnow)%lease_checked & Hb).
  apply bind_ok in Hb as (s & (t & Ht & <- & _ & _ & He)%matching_task & Hb). specialize (He _ eq_refl). subst from.
  apply bind_ok in Hb as (d & Hd & [= <- <-]). apply bind_ok in Hd as (u & Hg & Hd). unfold ensure in Hg, Hd.
  apply bind_ok in Hd as (_ & Ha%require_ok & Hd). apply bind_ok in Hd as (_ & Hf%require_ok & [= <-]).
  rewrite (blocked_from_row _ _ _ Ht) in Ha. apply negb_true_iff in Hf.
  exists db, l', t. split_and!; try done. intros Hs ->. rewrite Hs in Hg. cbn [andb] in Hg.
  rewrite !bool_decide_eq_true_2 in Hg by done. cbn [andb] in Hg.
  apply bind_ok in Hg as (_ & Hv%require_ok & Hg). apply bind_ok in Hg as (passes & Hp & Hg%require_ok). by subst passes.
Qed.

Lemma commit_moves i from to fp l now validated w :
  (commit_transition migrations i from to fp l now validated w).2 = w
  ∨ moves validated l w (commit_transition migrations i from to fp l now validated w).2.
Proof.
  destruct (commit_cases i from to fp l now validated w) as [[e ->]|(db & l' & t & -> & -> & Hl & _ & Ht & <- & Hr & Ha & Hf & ->)];
    [by left|right]. eexists db, _, l'. split_and!; try done. cbn [snd].
  assert (to = ReadyForOwner → validated = true ∧ decision_passes db i = Ok true) as Hready.
  { intros ->. apply Hr; [|done]. unfold transition_is_allowed in Ha. apply andb_true_iff in Ha as [Ha%bool_decide_eq_true _].
    destruct (t_state t); cbn in Ha; rewrite ?elem_of_cons, ?elem_of_nil in Ha; try done; by intuition discriminate. }
  destruct (t_state t ==? Blocked).
  - unfold resolve_notes.
    match goal with |- step _ db (set_notes ?bl ?na ?d) => replace (set_notes bl na d) with (set_evidence (evidence db) (set_notes bl na d)) by done end.
    by apply step_move.
  - match goal with |- step _ db ?d => replace d with (set_evidence (evidence db) (set_notes (blockers db) (next_actions db) d)) by done end.
    by apply step_move.
Qed.

Lemma admit_moves i ss l now w :
  (admit_task migrations i ss l now w).2 = w ∨ moves false l w (admit_task migrations i ss l now w).2.
Proof.
  unfold admit_task. destruct ss as [|s [|s' ss]];
    match goal with |- context [after ?c ?op w] => destruct (after_cases c op w) as [[e ->]|[Hc ->]] end; try by left.
  apply bind_ok in Hc as (_ & _ & Hc). apply bind_ok in Hc as (_ & _ & Hc%require_ok). breflect. destruct Hc.
  rewrite then_project_world. by apply mutate_task_moves.
Qed.

Lemma transition_moves i from to fp l now w :
  (transition_task migrations i from to fp l now w).2 = w ∨ moves false l w (transition_task migrations i from to fp l now w).2.
Proof. unfold transition_task. destruct (_ ≫= _) as [[s s']|]; [apply commit_moves|by left]. Qed.

Lemma artifact_moves i k fp l now w :
  (record_artifact migrations i k fp l now w).2 = w ∨ moves false l w (record_artifact migrations i k fp l now w).2.
Proof.
  unfold record_artifact. match goal with |- context [after ?c ?op w] => destruct (after_cases c op w) as [[e ->]|[_ ->]] end;
    [by left|]. rewrite then_project_world. apply on_task_moves. intros db db' t _ _ [= <-]. constructor.
Qed.

Lemma blocker_moves i k fp l now w :
  (set_blocker migrations i k fp l now w).2 = w ∨ moves false l w (set_blocker migrations i k fp l now w).2.
Proof.
  unfold set_blocker. match goal with |- context [after ?c ?op w] => destruct (after_cases c op w) as [[e ->]|[_ ->]] end;
    [by left|]. rewrite then_project_world. apply on_task_moves. intros db db' t _ _ [= <-]. constructor.
Qed.

Lemma next_action_moves i k fp l now w :
  (set_next_action migrations i k fp l now w).2 = w ∨ moves false l w (set_next_action migrations i k fp l now w).2.
Proof.
  unfold set_next_action. match goal with |- context [after ?c ?op w] => destruct (after_cases c op w) as [[e ->]|[_ ->]] end;
    [by left|]. rewrite then_project_world. apply on_task_moves. intros db db' t _ _ [= <-]. constructor.
Qed.

Lemma reopen_moves i fp rest l now w :
  (reopen_planning migrations i fp rest l now w).2 = w ∨ moves false l w (reopen_planning migrations i fp rest l now w).2.
Proof.
  unfold reopen_planning. match goal with |- context [transaction _ ?b w] => destruct (transaction_cases b w)
    as [[e ->]|(db & a & db' & -> & _ & Hb & ->)] end; [by left|].
  apply bind_ok in Hb as ([] & (l' & -> & Hl)%git_lease_checked & Hb).
  apply bind_ok in Hb as (s & (t & Ht & <- & _)%matching_task & Hb). apply bind_ok in Hb as (e & _ & Hb).
  destruct (t_state t ==? Planning) eqn:Hp; [left; by apply bind_ok in Hb as (_ & _ & [= <- <-])|right].
  apply bind_ok in Hb as (_ & Hs%require_ok & Hb). apply bind_ok in Hb as (_ & Hf%require_ok & [= <- <-]).
  breflect. eexists db, _, l'. split_and!; try done. rewrite move_as_step, <- Hs. apply step_move; try done. by rewrite Hs.
Qed.

Lemma return_moves i fp rest l now w :
  (return_to_worker migrations i fp rest l now w).2 = w ∨ moves false l w (return_to_worker migrations i fp rest l now w).2.
Proof.
  unfold return_to_worker. match goal with |- context [transaction _ ?b w] => destruct (transaction_cases b w)
    as [[e ->]|(db & a & db' & -> & _ & Hb & ->)] end; [by left|right].
  apply bind_ok in Hb as ([] & (l' & -> & Hl)%git_lease_checked & Hb).
  apply bind_ok in Hb as (s & (t & Ht & Hs & _ & _ & He)%matching_task & Hb). specialize (He _ eq_refl). subst s.
  apply bind_ok in Hb as (e & _ & Hb). apply bind_ok in Hb as (_ & Hf%require_ok & Hb).
  apply bind_ok in Hb as (_ & _ & [= <- <-]).
  breflect. eexists db, _, l'. split_and!; try done. rewrite move_as_step, <- He. apply step_move; try done. by rewrite He.
Qed.

Lemma acquire_steps repository owner ttl system now w :
  let w' := (acquire_transition_lease migrations repository owner ttl system now w).2 in
  w' = w ∨ ∃ db db', w = Some db ∧ w' = Some db' ∧ step false db db'.
Proof.
  cbn zeta. unfold acquire_transition_lease. destruct (_ ≫= _) as [observed|e]; [|by left].
  match goal with |- context [transaction _ ?b w] => destruct (transaction_cases b w)
    as [[e ->]|(db & a & db' & -> & _ & Hb & ->)] end; [by left|right].
  apply bind_ok in Hb as (identity & _ & Hb). exists db, db'. split_and!; [done..|]. destruct (lease db) as [l|] eqn:Hl.
  - apply bind_ok in Hb as (_ & _ & Hb). apply bind_ok in Hb as (_ & _ & Hb). apply bind_ok in Hb as (_ & _ & Hb).
    apply bind_ok in Hb as (expires & _ & [= <- <-]). by eapply step_renew.
  - apply bind_ok in Hb as (next & [-> _]%sqlite_int_ok & Hb). apply bind_ok in Hb as (expires & _ & [= <- <-]).
    by apply (step_acquire false db {| l_repository := repository; l_state_identity := identity; l_owner := owner;
      l_generation := match lease_generation db with Some g => g + 1 | None => 1 end; l_expires := expires |}).
Qed.

Lemma renew_moves l ttl system now w :
  let w' := (renew_transition_lease migrations l ttl system now w).2 in w' = w ∨ moves false (Typed l) w w'.
Proof.
  cbn zeta. unfold renew_transition_lease. destruct (_ ≫= _) as [observed|e]; [|by left].
  match goal with |- context [transaction _ ?b w] => destruct (transaction_cases b w)
    as [[e ->]|(db & a & db' & -> & _ & Hb & ->)] end; [by left|right].
  apply bind_ok in Hb as ([] & (l' & [= <-] & Hl)%git_lease_checked & Hb).
  apply bind_ok in Hb as (expires & _ & [= <- <-]). eexists db, _, l. split_and!; try done. by eapply step_renew.
Qed.

Lemma release_moves l system now w :
  let w' := (release_transition_lease migrations l system now w).2 in w' = w ∨ moves false (Typed l) w w'.
Proof.
  cbn zeta. unfold release_transition_lease.
  match goal with |- context [transaction _ ?b w] => destruct (transaction_cases b w)
    as [[e ->]|(db & a & db' & -> & _ & Hb & ->)] end; [by left|right].
  apply bind_ok in Hb as (observed & _ & Hb). apply bind_ok in Hb as ([] & (l' & [= <-] & Hl)%git_lease_checked & [= <- <-]).
  eexists db, _, l. split_and!; try done. by eapply step_release.
Qed.

Definition finalizes (o : operation E) : bool := match o with Finalize _ _ _ _ _ _ => true | _ => false end.

(** The lease an operation presents. *)
Definition presented (o : operation E) : option (dyn TransitionLease) :=
  match o with
  | Admit _ _ l _ | Transition _ _ _ _ l _ | Finalize _ _ _ _ l _ | Artifact _ _ _ l _ | BlockerNote _ _ _ l _
  | NextAction _ _ _ l _ | ReopenPlanning _ _ _ l _ | ReturnToWorker _ _ _ l _ => Some l
  | Renew l _ _ _ | Release l _ _ => Some (Typed l)
  | Acquire _ _ _ _ _ | Elsewhere _ => None
  end.

Context `{!EvidenceTablesOk E}.

(** Every operation is a sequence of steps, and changes nothing unless it
    presents the current lease. *)
Lemma run_steps o w :
  run migrations o w = w
  ∨ ∃ db db', w = Some db ∧ run migrations o w = Some db' ∧ rtc (step (finalizes o)) db db'
              ∧ ∀ l, presented o = Some l → ∃ l', l = Typed l' ∧ lease db = Some l'.
Proof.
  assert (∀ l w', presented o = Some l → finalizes o = false → w' = w ∨ moves false l w w' → w' = w ∨ ∃ db db', w = Some db ∧ w' = Some db' ∧ rtc (step (finalizes o)) db db'
              ∧ ∀ l, presented o = Some l → ∃ l', l = Typed l' ∧ lease db = Some l') as Hone.
  { intros l w' Hp Hfin [->|(db & db' & l' & -> & -> & Hs & -> & Hl)]; [by left|right]. exists db, db'. rewrite Hfin.
    split_and!; [done..|by apply rtc_once|]. intros l0 [= <-]%(eq_trans (eq_sym Hp)). by exists l'. }
  destruct o; cbn [run presented] in *.
  - eapply Hone; [reflexivity..|apply admit_moves].
  - eapply Hone; [reflexivity..|apply transition_moves].
  - clear Hone. unfold transition_ready_for_owner.
    destruct b as [b|], s as [s|];
      match goal with |- context [after ?c ?op w] => destruct (after_cases c op w) as [[x ->]|[Hc ->]] end; try by left.
    pose proof (candidate_evidence_writes b s l w) as Hce. destruct (candidate_evidence b s l w) as [[ev|x] w1] eqn:Hcand;
      cbn [snd] in *; destruct Hce as [->|(db & l' & e & -> & -> & Hl & ->)].
    + destruct (commit_moves i DiffReview ReadyForOwner fp l now true w) as [?|(db & db' & l' & ? & ? & ? & -> & ?)];
        [by left|right]. exists db, db'. split_and!; [done..|by apply rtc_once|]. intros ? [= <-]. by exists l'.
    + right. destruct (commit_moves i DiffReview ReadyForOwner fp (Typed l') now true (Some (set_evidence e db)))
        as [->|(db1 & db' & l1 & [= <-] & -> & Hs & _)]; eexists db, _; (split_and!; [done..| |intros ? [= <-]; by exists l']).
      * apply rtc_once, step_evidence.
      * eapply rtc_l; [apply step_evidence|by apply rtc_once].
    + by left.
    + right. eexists db, _. split_and!; [done..|apply rtc_once, step_evidence|]. intros ? [= <-]. by exists l'.
  - eapply Hone; [reflexivity..|apply artifact_moves].
  - eapply Hone; [reflexivity..|apply blocker_moves].
  - eapply Hone; [reflexivity..|apply next_action_moves].
  - eapply Hone; [reflexivity..|apply reopen_moves].
  - eapply Hone; [reflexivity..|apply return_moves].
  - destruct (acquire_steps repository owner ttl system now w) as [?|(db & db' & -> & ? & ?)]; [by left|right].
    exists db, db'. split_and!; [done..|by apply rtc_once|done].
  - eapply Hone; [reflexivity..|apply renew_moves].
  - eapply Hone; [reflexivity..|apply release_moves].
  - destruct w as [db|]; [right|by left]. eexists db, _. split_and!; [done..|apply rtc_once, step_evidence|done].
Qed.

(** A property of the database that every step keeps holds after any operations. *)
Lemma run_all_keeps (P : Database E → Prop) os w :
  (∀ b db db', P db → step b db db' → P db') → (∀ db, w = Some db → P db) → ∀ db, run_all migrations os w = Some db → P db.
Proof.
  intros Hstep. unfold run_all. revert w. induction os as [|o os IH]; intros w Hw db; cbn; [apply Hw|].
  apply IH. intros d Hd. destruct (run_steps o w) as [Heq|(db0 & db1 & -> & Hr & Hrtc & _)].
  - rewrite Heq in Hd. by apply Hw.
  - rewrite Hr in Hd. injection Hd as <-. specialize (Hw _ eq_refl). clear -Hrtc Hw Hstep. induction Hrtc; eauto.
Qed.

Lemma reachable_keeps (P : Database E → Prop) w :
  (∀ s e, P (fresh s e)) → (∀ b db db', P db → step b db db' → P db') → reachable migrations w → ∀ db, w = Some db → P db.
Proof.
  intros Hf Hs (s & e & os & ->) db. apply run_all_keeps; [done|]. by intros ? [= <-].
Qed.

End Steps.

(** * The invariant of the repository *)

(** Replaying the events of a task from its admission. *)
Definition replay_step (s : option (LifecycleState * option LifecycleState)) (e : TransitionEvent) :
    option (LifecycleState * option LifecycleState) :=
  match s with
  | Some (current, from) =>
      if (e_from e ==? current) && transition_is_allowed current (e_to e) from
      then Some (e_to e, if e_to e ==? Blocked then Some current else None)
      else None
  | None => None
  end.

Definition replay (es : list TransitionEvent) : option (LifecycleState * option LifecycleState) :=
  foldl replay_step (Some (Queued, None)) es.

Section Invariant.
Context {E : Type} `{!EvidenceTables E} (migrations : list Migration).
Implicit Types (db : Database E) (w : World E).

(** The history of every task: the state is the replay of its events, which are
    numbered from 1 without gaps and have distinct evidence. *)
Record histories_sound db : Prop := {
  hs_replay : ∀ id t, tasks db !! id = Some t →
    replay (task_history id (events db)) = Some (t_state t, t_blocked_from t);
  hs_numbered : ∀ id, map e_sequence (task_history id (events db))
                      = map Z.of_nat (seq 1 (length (task_history id (events db))));
  hs_evidence : ∀ id, NoDup (map e_evidence (task_history id (events db)));
  hs_tasks : ∀ e, e ∈ events db → is_Some (tasks db !! e_task e);
}.

(** Every task owns exactly its branch and its worktree, and nothing else is owned. *)
Record ownership_sound db : Prop := {
  os_branch : ∀ b id, branch_owner db !! b = Some id ↔ ∃ t, tasks db !! id = Some t ∧ t_branch t = b;
  os_worktree : ∀ k id, worktree_owner db !! k = Some id ↔ ∃ t, tasks db !! id = Some t ∧ t_key t = k;
  os_key : ∀ id t, tasks db !! id = Some t → canonical_worktree_key (t_worktree t) = Ok (t_key t);
  os_sizes : size (branch_owner db) = size (tasks db) ∧ size (worktree_owner db) = size (tasks db);
  os_source : ∀ id t, tasks db !! id = Some t → ∃ d, sources db !! t_source t = Some (t_repository t, d);
}.

Lemma task_history_snoc id es e :
  task_history id (es ++ [e]) = task_history id es ++ (if e_task e ==? id then [e] else []).
Proof. unfold task_history. by rewrite List.filter_app. Qed.

Lemma replay_snoc es e : replay (es ++ [e]) = replay_step (replay es) e.
Proof. unfold replay. by rewrite foldl_app. Qed.

Lemma next_sequence_length id db :
  map e_sequence (task_history id (events db)) = map Z.of_nat (seq 1 (length (task_history id (events db)))) →
  next_sequence id db = Z.of_nat (length (task_history id (events db))) + 1.
Proof.
  intros H. unfold next_sequence. rewrite H. generalize (length (task_history id (events db))) as n.
  assert (∀ n k, foldr Z.max 0 (map Z.of_nat (seq k n)) = match n with O => 0 | _ => Z.of_nat (k + n) - 1 end) as Hm.
  { induction n as [|n IH]; intros k; [done|]. cbn [seq map foldr]. rewrite IH. destruct n; lia. }
  intros n. rewrite Hm. destruct n; lia.
Qed.

Lemma size_alter {A} (f : A → A) k (m : gmap string A) x : m !! k = Some x → size (alter f k m) = size m.
Proof.
  intros Hx. replace (alter f k m) with (<[k := f x]> m); [by apply map_size_insert_Some|].
  apply map_eq. intros j. destruct (decide (j = k)) as [->|Hne].
  - by rewrite lookup_insert_eq, lookup_alter_eq, Hx.
  - by rewrite lookup_insert_ne, lookup_alter_ne.
Qed.

Lemma moved_row id id' s from to fp db t' :
  tasks (move_task id from to fp db) !! id' = Some t' →
  ∃ t, tasks db !! id' = Some t ∧ t_source t' = t_source t ∧ t_repository t' = t_repository t ∧ t_branch t' = t_branch t
       ∧ t_key t' = t_key t ∧ t_worktree t' = t_worktree t
       ∧ (t_state t' = s → id ≠ id' → t_state t = s)
       ∧ (id ≠ id' → t' = t) ∧ (id = id' → t_state t' = to ∧ t_blocked_from t' = if to ==? Blocked then Some from else None).
Proof.
  cbn [move_task set_progress tasks]. destruct (decide (id = id')) as [->|Hne].
  - rewrite lookup_alter_eq. destruct (tasks db !! id') as [t|]; [|done]. cbn. intros [= <-]. exists t. by split_and!.
  - rewrite lookup_alter_ne by done. intros Ht. exists t'. by split_and!.
Qed.

Lemma histories_step final db db' : histories_sound db → step final db db' → histories_sound db'.
Proof.
  intros [Hr Hn He Ht] Hs. destruct Hs; try by constructor.
  - constructor; cbn [set_admission tasks events]; try done.
    + intros id t. destruct (decide (id = task_id i)) as [->|Hne].
      * rewrite lookup_insert_eq. intros [= <-]. replace (task_history (task_id i) (events db)) with (@nil TransitionEvent); [done|].
        unfold task_history. symmetry. destruct (List.filter _ _) as [|e l] eqn:Hf; [done|exfalso].
        assert (e ∈ List.filter (λ e, e_task e ==? task_id i) (events db)) as Hin by (rewrite Hf; by constructor).
        apply list_elem_of_In, List.filter_In in Hin as [Hin%list_elem_of_In Heq]. apply bool_decide_eq_true in Heq.
        destruct (Ht _ Hin) as [t Hlk]. rewrite Heq in Hlk. congruence.
      * rewrite lookup_insert_ne by done. apply Hr.
    + intros e Hin. destruct (Ht e Hin) as [t Hlk]. destruct (decide (e_task e = task_id i)) as [->|Hne].
      * rewrite lookup_insert_eq. by eexists.
      * rewrite lookup_insert_ne by done. by eexists.
  - constructor; cbn [set_evidence set_notes move_task set_progress tasks events].
    + intros id t' Ht'. apply (moved_row (task_id i) id Queued (t_state t) to fp) in Ht' as (t0 & Ht0 & _ & _ & _ & _ & _ & _ & Hne & Heq).
      rewrite task_history_snoc. cbn [e_task]. destruct (decide (task_id i = id)) as [Hid|Hid].
      * rewrite bool_decide_eq_true_2 by done. destruct (Heq Hid) as [-> ->]. subst id.
        rewrite replay_snoc, (Hr _ _ Ht0). cbn. rewrite H in Ht0. injection Ht0 as <-.
        rewrite bool_decide_eq_true_2 by done. by rewrite H0.
      * rewrite bool_decide_eq_false_2 by done. rewrite app_nil_r, (Hne Hid). by apply Hr.
    + intros id. rewrite task_history_snoc. cbn [e_task]. destruct (decide (task_id i = id)) as [<-|Hid].
      * rewrite bool_decide_eq_true_2 by done. rewrite map_app, length_app, seq_app, map_app, Hn. cbn [map length e_sequence seq].
        rewrite next_sequence_length by done. do 2 f_equal. lia.
      * rewrite bool_decide_eq_false_2 by done. by rewrite app_nil_r.
    + intros id. rewrite task_history_snoc. cbn [e_task]. destruct (decide (task_id i = id)) as [<-|Hid].
      * rewrite bool_decide_eq_true_2 by done. rewrite map_app. cbn [map e_evidence]. apply list.NoDup_app. split; [done|]. split; [|apply NoDup_singleton].
        intros x Hx ->%list_elem_of_singleton. apply list_elem_of_fmap in Hx as (e' & -> & Hin). unfold evidence_committed in H1. rewrite existsb_elem_false in H1.
        specialize (H1 e' Hin). by apply bool_decide_eq_false in H1.
      * rewrite bool_decide_eq_false_2 by done. by rewrite app_nil_r.
    + intros e' [Hin|Hin%list_elem_of_singleton]%elem_of_app.
      * destruct (Ht _ Hin) as [t' Hlk]. by rewrite lookup_alter_is_Some.
      * subst e'. cbn [e_task]. rewrite lookup_alter_is_Some. by eexists.
Qed.

Lemma ownership_step final db db' : ownership_sound db → step final db db' → ownership_sound db'.
Proof.
  intros [Hb Hw Hk [Z1 Z2] Hso] Hs. destruct Hs; try by constructor.
  - constructor; cbn [set_admission tasks branch_owner worktree_owner sources].
    + intros b id. destruct (decide (b = branch i)) as [->|Hne]; rewrite ?lookup_insert_eq, ?lookup_insert_ne by done.
      * split; [intros [= <-]; eexists; by rewrite lookup_insert_eq|]. intros (t & Hlk & Hbr).
        destruct (decide (id = task_id i)) as [->|Hid]; [done|]. rewrite lookup_insert_ne in Hlk by done.
        assert (branch_owner db !! branch i = Some id) by (apply Hb; eauto). congruence.
      * rewrite Hb. destruct (decide (id = task_id i)) as [->|Hid]; rewrite ?lookup_insert_eq, ?lookup_insert_ne by done; [|done].
        split; [intros (t & Hlk & _); congruence|]. by intros (t & [= <-] & Hbr).
    + intros k id. destruct (decide (k = key)) as [->|Hne]; rewrite ?lookup_insert_eq, ?lookup_insert_ne by done.
      * split; [intros [= <-]; eexists; by rewrite lookup_insert_eq|]. intros (t & Hlk & Hbr).
        destruct (decide (id = task_id i)) as [->|Hid]; [done|]. rewrite lookup_insert_ne in Hlk by done.
        assert (worktree_owner db !! key = Some id) by (apply Hw; eauto). congruence.
      * rewrite Hw. destruct (decide (id = task_id i)) as [->|Hid]; rewrite ?lookup_insert_eq, ?lookup_insert_ne by done; [|done].
        split; [intros (t & Hlk & _); congruence|]. by intros (t & [= <-] & Hbr).
    + intros id t. destruct (decide (id = task_id i)) as [->|Hid]; rewrite ?lookup_insert_eq, ?lookup_insert_ne by done; [|apply Hk].
      by intros [= <-].
    + rewrite !map_size_insert_None by done. lia.
    + intros id t. destruct (decide (id = task_id i)) as [->|Hid]; rewrite ?lookup_insert_eq, ?lookup_insert_ne by done.
      * intros [= <-]. by exists d.
      * intros [d' Hd]%Hso. exists d'. by eapply lookup_weaken.
  - constructor; cbn [set_evidence set_notes move_task set_progress branch_owner worktree_owner sources tasks].
    + intros b id. rewrite Hb. destruct (decide (task_id i = id)) as [<-|Hid];
        [rewrite lookup_alter_eq, H; cbn; naive_solver|by rewrite lookup_alter_ne].
    + intros k id. rewrite Hw. destruct (decide (task_id i = id)) as [<-|Hid];
        [rewrite lookup_alter_eq, H; cbn; naive_solver|by rewrite lookup_alter_ne].
    + intros id t' Ht'. apply (moved_row (task_id i) id Queued (t_state t) to fp) in Ht' as (t0 & Ht0 & _ & _ & _ & -> & -> & _).
      by eapply Hk.
    + by rewrite (size_alter _ _ _ t).
    + intros id t' Ht'. apply (moved_row (task_id i) id Queued (t_state t) to fp) in Ht' as (t0 & Ht0 & -> & -> & _).
      by eapply Hso.
Qed.

Lemma fresh_histories s e : histories_sound (fresh s e).
Proof. constructor; cbn; try done; [constructor|by intros e' ?%elem_of_nil]. Qed.

Lemma fresh_ownership s e : ownership_sound (fresh s e).
Proof.
  constructor; cbn; try done; intros ? id; rewrite lookup_empty; (split; [done|]); by intros (t & Ht & _).
Qed.

(** The ownership a connection checks when it is opened always holds. *)
Lemma ownership_valid db : ownership_sound db → validate_task_ownership db = Ok ().
Proof.
  intros [Hb Hw Hk [Z1 Z2] _]. unfold validate_task_ownership, ensure. rewrite <- is_ok_unit. autorewrite with is_ok.
  rewrite Z1, Z2, !Nat.eqb_refl. cbn [andb]. apply forallb_elem. intros [id t] Hin. unfold by_task in Hin.
  rewrite sorted_by_perm in Hin. apply elem_of_map_to_list in Hin. rewrite (Hk _ _ Hin). cbn [mbind result_bind].
  autorewrite with is_ok. breflect. split_and!; [done|apply Hb; eauto|apply Hw; eauto].
Qed.

End Invariant.

(** * Theorems *)

Section Theorems.
Context {E : Type} `{!EvidenceTables E, !EvidenceTablesOk E} (migrations : list Migration).
Implicit Types (db : Database E) (w : World E).

(** C1 : in every reachable repository the state of each task is the replay of its
    events, numbered 1, 2, ... with distinct evidence; each task owns exactly its
    branch and its worktree; and the ownership check made when a connection is
    opened passes. *)
Theorem task_state_is_replay w db :
  reachable migrations w → w = Some db →
  histories_sound db ∧ ownership_sound db ∧ validate_task_ownership db = Ok ().
Proof.
  intros Hr Hw.
  assert (histories_sound db) by (eapply reachable_keeps; eauto using fresh_histories, histories_step).
  assert (ownership_sound db) by (eapply reachable_keeps; eauto using fresh_ownership, ownership_step).
  eauto using ownership_valid.
Qed.

Lemma ready_step db db' id t' :
  step false db db' → tasks db' !! id = Some t' → t_state t' = ReadyForOwner → tasks db !! id = Some t'.
Proof.
  intros Hs. destruct Hs; try done.
  - cbn [set_admission tasks]. destruct (decide (id = task_id i)) as [->|Hne];
      [rewrite lookup_insert_eq; by intros [= <-]|by rewrite lookup_insert_ne].
  - cbn [set_evidence set_notes tasks]. intros Ht' Hst.
    apply (moved_row (task_id i) id Queued (t_state t) to fp) in Ht' as (t0 & Ht0 & _ & _ & _ & _ & _ & _ & Hne & Heq).
    destruct (decide (task_id i = id)) as [Hid|Hid]; [|by rewrite (Hne Hid)].
    destruct (Heq Hid) as [Hto _]. rewrite Hst in Hto. subst to. by destruct (H2 eq_refl).
Qed.

Lemma ready_steps db db' id t' :
  rtc (step false) db db' → tasks db' !! id = Some t' → t_state t' = ReadyForOwner → tasks db !! id = Some t'.
Proof. induction 1; [done|]. intros. eapply ready_step; eauto. Qed.

(** The conditions under which the final transition of a task is committed. *)
Definition finalized_by (o : operation E) db id : Prop :=
  ∃ i b s fp l now found db1 t,
    o = Finalize i (Typed b) (Typed s) fp (Typed l) now ∧ task_id i = id
    ∧ wb_task b = id ∧ wb_repository b = repository_id i ∧ cs_task s = id ∧ cs_base s = base_sha i
    ∧ candidate_evidence b s (Typed l) (Some db) = (Ok found, Some db1)
    ∧ lease db1 = Some l ∧ now < l_expires l ∧ decision_passes db1 i = Ok true
    ∧ tasks db !! id = Some t ∧ t_state t = DiffReview.

(** a task becomes ready for its owner only by the final transition: from
    diff review, under the current unexpired lease, with live evidence of the
    exact candidate and a persisted aggregate PASS. *)
Theorem ready_only_through_gates o db db' id t' :
  run migrations o (Some db) = Some db' → tasks db' !! id = Some t' → t_state t' = ReadyForOwner →
  tasks db !! id = Some t' ∨ finalized_by o db id.
Proof.
  intros Hrun Ht' Hst. destruct (finalizes o) eqn:Hfin.
  - destruct o; try done. clear Hfin. cbn [run] in Hrun. unfold transition_ready_for_owner in Hrun.
    destruct b as [b|], s as [s|];
      match type of Hrun with (after ?c ?op ?w).2 = _ => destruct (after_cases c op w) as [[x Hx]|[Hc Hx]]; rewrite Hx in Hrun end;
      try by (injection Hrun as <-; left).
    apply bind_ok in Hc as (_ & _ & Hc). apply bind_ok in Hc as (_ & _ & Hc). unfold ensure in Hc.
    apply bind_ok in Hc as (_ & Hb%require_ok & Hc%require_ok). breflect. destruct Hb as [Hb1 Hb2], Hc as [Hs1 Hs2].
    pose proof (candidate_evidence_writes b s l (Some db)) as Hce.
    destruct (candidate_evidence b s l (Some db)) as [[found|x] w1] eqn:Hcand; cbn [snd] in *.
    + assert (∃ db1, w1 = Some db1 ∧ tasks db1 = tasks db) as (db1 & -> & Hsame).
      { destruct Hce as [->|(d & l' & e & [= <-] & _ & _ & ->)]; by eexists. }
      destruct (commit_cases migrations i DiffReview ReadyForOwner fp l now true (Some db1))
        as [[x Hy]|(d & l' & t & [= <-] & -> & Hl & Hnow & Ht & Hdr & Hready & _ & _ & Hy)]; rewrite Hy in Hrun;
        injection Hrun as <-.
      * left. by rewrite <- Hsame.
      * cbn [snd] in *.
        apply (moved_row (task_id i) id Queued DiffReview ReadyForOwner fp) in Ht' as (t0 & Ht0 & _ & _ & _ & _ & _ & _ & Hne & _).
        destruct (decide (task_id i = id)) as [<-|Hid]; [|left; by rewrite (Hne Hid), <- Hsame].
        right. exists i, b, s, fp, l', now, found, db1, t. destruct (Hready eq_refl eq_refl) as [_ Hpass].
        rewrite Hsame in Ht. by split_and!.
    + destruct Hce as [->|(d & l' & e & [= <-] & _ & _ & ->)]; injection Hrun as <-; by left.
  - left. destruct (run_steps migrations o (Some db)) as [Heq|(d & d' & [= <-] & Hd & Hs & _)].
    + rewrite Hrun in Heq. by injection Heq as ->.
    + rewrite Hrun in Hd. injection Hd as <-. rewrite Hfin in Hs. by eapply ready_steps.
Qed.

Lemma ready_final_step final db db' id t :
  step final db db' → tasks db !! id = Some t → t_state t = ReadyForOwner → tasks db' !! id = Some t.
Proof.
  intros Hs. destruct Hs; try done; cbn [set_admission set_evidence set_notes move_task set_progress tasks]; intros Ht Hst.
  - rewrite lookup_insert_ne; [done|]. intros Heq. congruence.
  - rewrite lookup_alter_ne; [done|]. intros <-. rewrite H in Ht. injection Ht as ->. by rewrite Hst in H0.
Qed.

(** a task that is ready for its owner stays exactly as it is, whatever is
    done to the repository afterwards. *)
Theorem ready_is_final os db db' id t :
  run_all migrations os (Some db) = Some db' → tasks db !! id = Some t → t_state t = ReadyForOwner → tasks db' !! id = Some t.
Proof.
  intros Hrun Ht Hst.
  refine (run_all_keeps migrations (λ d, tasks d !! id = Some t) os (Some db) _ _ db' Hrun).
  - intros b d d' Hd Hs. by eapply ready_final_step.
  - by intros d [= <-].
Qed.

(** ** Leases *)

Definition lease_recorded db : Prop := ∀ l, lease db = Some l → lease_generation db = Some (l_generation l).

Lemma lease_recorded_step final db db' : lease_recorded db → step final db db' → lease_recorded db'.
Proof.
  intros Hr Hs. destruct Hs; try done; intros l0; cbn; try done.
  - by intros [= <-].
  - intros [= <-]. rewrite H0. by apply Hr.
Qed.

(** Every lease from now on has a generation above [g]. *)
Definition leases_above (g : Z) db : Prop :=
  (∃ g', lease_generation db = Some g' ∧ g ≤ g') ∧ ∀ l, lease db = Some l → g < l_generation l.

Lemma leases_above_step g final db db' : leases_above g db → step final db db' → leases_above g db'.
Proof.
  intros [(g' & Hg' & Hle) Hl] Hs. destruct Hs; try (by split; eauto); (split; [cbn; eauto|intros l0; cbn; try done]).
  - rewrite Hg' in H0. exists (l_generation l). split; [done|lia].
  - intros [= <-]. rewrite Hg' in H0. lia.
  - intros [= <-]. rewrite H0. by apply Hl.
Qed.

(** C33 : a lease that was released never authorizes anything again: after its
    release, and any further operations, every operation that presents it leaves
    the repository unchanged. *)
Theorem released_lease_is_dead w l system now w' os o :
  reachable migrations w → release_transition_lease migrations l system now w = (Ok (), w') →
  presented o = Some (Typed l) →
  run migrations o (run_all migrations os w') = run_all migrations os w'.
Proof.
  intros Hreach Hrel Ho. unfold release_transition_lease in Hrel.
  match type of Hrel with transaction _ ?b w = _ => destruct (transaction_cases migrations b w)
    as [[e Hx]|(db & a & db' & -> & _ & Hb & Hx)] end; rewrite Hx in Hrel; [done|].
  injection Hrel as _ <-. apply bind_ok in Hb as (observed & _ & Hb).
  apply bind_ok in Hb as ([] & (l' & [= <-] & Hl)%git_lease_checked & [= _ <-]).
  assert (lease_recorded db) as Hrec.
  { refine (reachable_keeps migrations lease_recorded _ _ lease_recorded_step Hreach db eq_refl). by intros s e l0. }
  destruct (run_steps migrations o (run_all migrations os (Some (set_leases None (lease_generation db) db))))
    as [?|(d & d' & Hd & _ & _ & Hp)]; [done|exfalso].
  assert (leases_above (l_generation l) d) as [_ Habove].
  { eapply (run_all_keeps migrations (leases_above (l_generation l)) os); [intros b d1 d2; apply leases_above_step| |exact Hd].
    intros d0 [= <-]. split; cbn; [|done]. exists (l_generation l). split; [by apply Hrec|done]. }
  destruct (Hp _ Ho) as (l1 & [= <-] & Hl1). specialize (Habove _ Hl1). lia.
Qed.

(** ** Blocked tasks *)

Lemma require_state_ok v s : require_state v = Ok s → v = LifecycleState_value s.
Proof.
  unfold require_state. destruct (List.find _ _) as [s'|] eqn:Hf; [|done]. intros [= ->].
  apply List.find_some in Hf as [_ H%bool_decide_eq_true]. done.
Qed.

Lemma projection_ok i w p :
  task_projection migrations i w = Ok p →
  ∃ db t, w = Some db ∧ tasks db !! task_id i = Some t ∧ p_state p = t_state t
          ∧ p_blockers p = open_blockers (task_id i) db ∧ p_next_action p = open_next_action (task_id i) db.
Proof.
  unfold task_projection, open_connection. intros (_ & _ & H)%bind_ok. apply bind_ok in H as (db & Hdb & H).
  destruct w as [d|]; [|done]. apply bind_ok in Hdb as (_ & _ & [= ->]).
  apply bind_ok in H as (st & (t & Ht & <- & _)%matching_task & H). destruct (sources db !! source_id i) as [[r d]|]; [|done].
  apply bind_ok in H as (d' & _ & [= <-]). exists db, t. by split_and!.
Qed.

Lemma resolved_notes_closed id fp db :
  open_blockers id (resolve_notes id fp db) = [] ∧ open_next_action id (resolve_notes id fp db) = None.
Proof.
  split.
  - unfold open_blockers. match goal with |- sorted_by _ ?l = [] => assert (l = []) as -> end; [|done].
    apply list.elem_of_nil_inv. intros c ([[t c'] n] & Hin & Hc)%list_elem_of_omap.
    apply elem_of_map_to_list in Hin. cbn [resolve_notes set_notes blockers] in Hin. rewrite map_lookup_imap in Hin.
    destruct (blockers db !! (t, c')) as [n0|]; [|done]. cbn in Hin. injection Hin as <-. cbn in Hc.
    destruct (decide (t = id)) as [->|Hne]; [|by rewrite bool_decide_eq_false_2 in Hc].
    rewrite bool_decide_eq_true_2 in Hc by done. cbn in Hc. unfold unresolved, resolve in Hc. cbn in Hc.
    by destruct (n_resolution n0).
  - unfold open_next_action. cbn [resolve_notes set_notes next_actions]. rewrite lookup_alter_eq.
    destruct (next_actions db !! id) as [n|]; [|done]. cbn. unfold unresolved, resolve. cbn. by destruct (n_resolution n).
Qed.

Lemma replay_last es s b : replay es = Some (s, b) → es ≠ [] → ∃ e, list.last es = Some e ∧ e_to e = s ∧ b = if s ==? Blocked then Some (e_from e) else None.
Proof.
  intros Hr Hne. destruct es as [|e es _] using rev_ind; [done|]. rewrite replay_snoc in Hr. exists e.
  rewrite last_snoc. split; [done|]. destruct (replay es) as [[cur from]|]; [|done]. cbn in Hr.
  destruct (_ && _) eqn:Hc; [|done]. injection Hr as <- <-. apply andb_true_iff in Hc as [->%bool_decide_eq_true _]. done.
Qed.

(** a blocked task resumes only in the state it was blocked in, that of its
    last event, and then has no open blocker and no open next action. *)
Theorem blocked_task_resumes i next fp l now db p w' :
  reachable migrations (Some db) →
  transition_task migrations i "blocked" next fp l now (Some db) = (Ok p, w') →
  ∃ e, list.last (task_history (task_id i) (events db)) = Some e ∧ e_to e = Blocked
       ∧ next = LifecycleState_value (e_from e) ∧ p_state p = e_from e ∧ p_blockers p = [] ∧ p_next_action p = None.
Proof.
  intros Hreach Ht. unfold transition_task in Ht.
  match type of Ht with (match ?c with _ => _ end) = _ => destruct c as [[from to]|] eqn:Hc end; [|done].
  apply bind_ok in Hc as (_ & _ & Hc). apply bind_ok in Hc as (f & [= <-] & Hc).
  apply bind_ok in Hc as (t & Hto%require_state_ok & Hc). apply bind_ok in Hc as (_ & _ & Hc).
  apply bind_ok in Hc as (_ & _ & [= <- <-]).
  destruct (commit_cases migrations i Blocked t fp l now false (Some db))
    as [[x Hx]|(d & l' & row & [= <-] & _ & _ & _ & Hrow & Hst & _ & Ha & _ & Hx)]; rewrite Hx in Ht; [done|].
  injection Ht as Hp _. cbn [bool_decide decide_rel] in Hp. apply projection_ok in Hp as (d & t' & [= <-] & Ht' & Hps & Hpb & Hpn).
  destruct (resolved_notes_closed (task_id i) fp (move_task (task_id i) Blocked t fp db)) as [Hb Hn].
  assert (histories_sound db) as [Hrep _ _ _].
  { refine (reachable_keeps migrations histories_sound _ fresh_histories histories_step Hreach db eq_refl). }
  specialize (Hrep _ _ Hrow). rewrite Hst in Hrep.
  unfold transition_is_allowed in Ha. apply andb_true_iff in Ha as [_ Ha]. cbn in Ha. apply bool_decide_eq_true in Ha.
  destruct (replay_last _ _ _ Hrep) as (e & He & Hto' & Hfrom); [intros Hnil; by rewrite Hnil in Hrep|].
  rewrite Ha in Hfrom. cbn in Hfrom. injection Hfrom as ->.
  exists e. split_and!; try done; [|by rewrite Hpb|by rewrite Hpn].
  rewrite Hps. cbn [resolve_notes set_notes tasks] in Ht'.
  apply (moved_row (task_id i) (task_id i) Queued Blocked (e_from e) fp) in Ht' as (_ & _ & _ & _ & _ & _ & _ & _ & _ & Heq).
  by destruct (Heq eq_refl).
Qed.

(** ** Admission *)

(** What makes a task admissible in a repository. *)
Record admissible (i : TaskIdentity) (s : SourceSnapshot) (l : TransitionLease) (now : Z) db : Prop := {
  ad_identity : validate_task_identity i = Ok ();
  ad_snapshot : validate_source_snapshot s = Ok ();
  ad_same : s_source_id s = source_id i ∧ s_repository_id s = repository_id i;
  ad_schema : is_ok (verify_migrations migrations (Ok ()) (schema db)) = true;
  ad_lease : lease db = Some l ∧ l_repository l = repository_id i ∧ state_text db = Some (l_state_identity l) ∧ now < l_expires l;
  ad_new : tasks db !! task_id i = None;
  ad_branch : ∀ id t, tasks db !! id = Some t → t_branch t ≠ branch i;
  ad_worktree : ∀ id t, tasks db !! id = Some t → canonical_worktree_key (t_worktree t) ≠ canonical_worktree_key (worktree i);
  ad_source : sources db !! source_id i = Some (repository_id i, s_digest s)
              ∨ sources db !! source_id i = None ∧ ∀ id, sources db !! id ≠ Some (repository_id i, s_digest s);
}.

Lemma lease_check_spec l repository now db :
  require_current_transition_lease (Typed l) repository now db = Ok () ↔
  lease db = Some l ∧ l_repository l = repository ∧ state_text db = Some (l_state_identity l) ∧ now < l_expires l.
Proof.
  unfold require_current_transition_lease, ensure. rewrite <- is_ok_unit. autorewrite with is_ok. breflect. done.
Qed.

Lemma open_spec db db' : ownership_sound db →
  open_connection migrations (Some db) = Ok db' ↔ db' = db ∧ is_ok (verify_migrations migrations (Ok ()) (schema db)) = true.
Proof.
  intros Ho. unfold open_connection. rewrite ownership_valid by done.
  destruct (verify_migrations _ _ _) as [v|e]; cbn; [|by split; [|intros [_ ?]]].
  split; [intros [= ->]; by split|by intros [-> _]].
Qed.

Lemma keep_source_spec s db ss :
  keep_source s db = Ok ss ↔
  let row := (s_repository_id s, s_digest s) in
  sources db !! s_source_id s = Some row ∧ ss = sources db
  ∨ sources db !! s_source_id s = None ∧ (∀ id, sources db !! id ≠ Some row) ∧ ss = <[s_source_id s := row]> (sources db).
Proof.
  cbn zeta. unfold keep_source, ensure. destruct (sources db !! s_source_id s) as [row|] eqn:Hr.
  - rewrite bind_ok. setoid_rewrite require_ok. split.
    + intros (_ & H & [= <-]). breflect. subst row. by left.
    + intros [[[= ->] ->]|[? _]]; [|done]. exists (). by rewrite bool_decide_eq_true_2.
  - rewrite bind_ok. split.
    + intros (u & Hu & [= <-]). right. split_and!; try done. intros id Hid.
      pose proof (proj1 (unique_column_ok _ _ _ _) Hu) as U. by apply (U _ _ Hid).
    + intros [[? _]|(_ & Hno & ->)]; [done|]. exists (). split; [|done].
      apply (proj2 (unique_column_ok _ _ _ _)). intros k v Hk Heq. apply (Hno k). by rewrite Hk, <- Heq.
Qed.

Lemma hex_is_ascii s : match_hex 64 s = true → encode_ascii s = Ok s.
Proof.
  unfold match_hex. intros [_ Hall]%andb_true_iff. unfold encode_ascii.
  replace (str_all (λ c, Worktree.code c <? 128) s) with true; [done|]. symmetry.
  unfold str_all in *. rewrite forallb_elem in *. intros c Hc%Hall. apply Z.ltb_lt. unfold Worktree.code.
  unfold is_lower_hex, is_digit, between in Hc. rewrite orb_true_iff, !andb_true_iff, !N.leb_le in Hc.
  change (N_of_ascii "9") with 57%N in Hc. change (N_of_ascii "f") with 102%N in Hc. lia.
Qed.

(** The rows of other tasks do not collide with the new one. *)
Lemma no_collision i key db : ownership_sound db → tasks db !! task_id i = None →
  (∀ id t, tasks db !! id = Some t → t_branch t ≠ branch i) → canonical_worktree_key (worktree i) = Ok key →
  (∀ id t, tasks db !! id = Some t → canonical_worktree_key (t_worktree t) ≠ Ok key) →
  existsb (λ kv, (t_branch kv.2 ==? branch i) && (kv.1 !=? task_id i)) (map_to_list (tasks db)) = false
  ∧ branch_owner db !! branch i = None ∧ worktree_owner db !! key = None
  ∧ (∀ b, branch_owner db !! b ≠ Some (task_id i)) ∧ (∀ k, worktree_owner db !! k ≠ Some (task_id i)).
Proof.
  intros [Hb Hw Hk _ _] Hnew Hbr Hkey Hwt. split_and!.
  - apply existsb_elem_false. intros [id t] Hin%elem_of_map_to_list. cbn. by rewrite bool_decide_eq_false_2 by eauto.
  - destruct (branch_owner db !! branch i) as [id|] eqn:Hx; [|done]. apply Hb in Hx as (t & Ht & Heq). by apply Hbr in Ht.
  - destruct (worktree_owner db !! key) as [id|] eqn:Hx; [|done]. apply Hw in Hx as (t & Ht & Heq).
    exfalso. apply (Hwt _ _ Ht). rewrite (Hk _ _ Ht). by f_equal.
  - intros b Hx. apply Hb in Hx as (t & Ht & _). congruence.
  - intros k Hx. apply Hw in Hx as (t & Ht & _). congruence.
Qed.

(** The state a committed admission leaves is projected without an error. *)
Lemma admitted_projects i s key ss db :
  ownership_sound db → validate_task_identity i = Ok () → canonical_worktree_key (worktree i) = Ok key →
  tasks db !! task_id i = None → branch_owner db !! branch i = None → worktree_owner db !! key = None →
  (∀ b, branch_owner db !! b ≠ Some (task_id i)) → (∀ k, worktree_owner db !! k ≠ Some (task_id i)) →
  ss !! source_id i = Some (repository_id i, s_digest s) → sources db ⊆ ss → match_hex 64 (s_digest s) = true →
  is_ok (verify_migrations migrations (Ok ()) (schema db)) = true →
  is_ok (task_projection migrations i (Some (set_admission ss (<[task_id i := admitted_row i key]> (tasks db))
    (<[branch i := task_id i]> (branch_owner db)) (<[key := task_id i]> (worktree_owner db)) db))) = true.
Proof.
  intros Ho Hv Hkey Hnew Hb Hw Hb' Hw' Hss Hsub Hhex Hschema. unfold task_projection. rewrite Hv. cbn [mbind result_bind].
  set (db' := set_admission _ _ _ _ _).
  assert (ownership_sound db') as Ho' by (eapply (ownership_step false); [exact Ho|by eapply step_admission]).
  rewrite (proj2 (open_spec db' db' Ho')) by done. cbn [mbind result_bind].
  unfold require_matching_task, ensure. subst db'. cbn [set_admission tasks branch_owner worktree_owner sources].
  rewrite lookup_insert_eq. cbn [admitted_row t_source t_repository t_branch t_worktree t_base t_key t_state].
  rewrite !lookup_insert_eq, Hkey. repeat (rewrite bool_decide_eq_true_2 by done). cbn [andb require mbind result_bind].
  rewrite bool_decide_eq_true_2 by done. cbn [require mbind result_bind]. rewrite Hss, hex_is_ascii by done. done.
Qed.

(** C34 : in a reachable repository [admit_task] admits a task exactly when its
    identity and snapshot are valid and agree, the lease is current, the task is
    new, no task owns its branch or a spelling of its worktree, and its source is
    new or the recorded one. *)
Theorem admission_exact i s l now db :
  reachable migrations (Some db) →
  is_ok (admit_task migrations i [s] (Typed l) now (Some db)).1 = true ↔ admissible i s l now db.
Proof.
  intros Hreach. destruct (task_state_is_replay _ _ Hreach eq_refl) as (_ & Ho & _). unfold admit_task. split.
  - intros Hok. match type of Hok with context [after ?c ?op ?w] => destruct (after_cases c op w) as [[x Hx]|[Hc Hx]] end;
      rewrite Hx in Hok; [done|]. apply bind_ok in Hc as ([] & Hid & Hc). apply bind_ok in Hc as ([] & Hsn & Hc%require_ok).
    breflect. destruct Hc as [Hs1 Hs2]. unfold mutate_task in Hok.
    match type of Hok with context [transaction _ ?b ?w] => destruct (transaction_cases migrations b w)
      as [[e Hy]|(d & a & db' & [= <-] & _ & Hb & Hy)] end; rewrite Hy in Hok; [done|].
    assert (is_ok (verify_migrations migrations (Ok ()) (schema db)) = true) as Hschema.
    { unfold transaction, open_connection in Hy. rewrite (ownership_valid _ Ho) in Hy.
      by destruct (verify_migrations migrations (Ok ()) (schema db)). }
    apply bind_ok in Hb as ([] & Hl%lease_check_spec & Hb). apply bind_ok in Hb as (ss & Hss%keep_source_spec & Hb).
    apply bind_ok in Hb as (key & Hkey & Hb). apply bind_ok in Hb as (_ & _ & Hb).
    destruct (tasks db !! task_id i) as [t|] eqn:Hnew; [by apply bind_ok in Hb as (_ & _ & ?)|].
    apply bind_ok in Hb as (_ & _ & Hb). apply bind_ok in Hb as (ws & (Hws & _)%insert_row_ok & Hb).
    apply bind_ok in Hb as (_ & _ & Hb). apply bind_ok in Hb as (bs & (Hbs & _)%insert_row_ok & _).
    destruct Ho as [Hb Hw Hk _ _]. constructor; try done.
    + intros id t Ht Heq. assert (branch_owner db !! branch i = Some id) by (apply Hb; eauto). congruence.
    + intros id t Ht Heq. rewrite (Hk _ _ Ht), Hkey in Heq. injection Heq as <-.
      assert (worktree_owner db !! t_key t = Some id) by (apply Hw; eauto). congruence.
    + cbn zeta in Hss. rewrite Hs1, Hs2 in Hss. naive_solver.
  - intros [Hid Hsn [Hs1 Hs2] Hschema Hl Hnew Hbr Hwt Hsrc].
    unfold after. rewrite Hid, Hsn. cbn [mbind result_bind]. rewrite Hs1, Hs2.
    rewrite !bool_decide_eq_true_2 by done. cbn [andb ensure require].
    assert (∃ key, canonical_worktree_key (worktree i) = Ok key) as [key Hkey].
    { unfold validate_task_identity in Hid. do 5 apply bind_ok in Hid as (_ & _ & Hid).
      apply bind_ok in Hid as (key & Hkey & _). by exists key. }
    rewrite Hkey in Hwt. destruct (no_collision i key db Ho Hnew Hbr Hkey Hwt) as (Hcol & Hb & Hw & Hb' & Hw').
    assert (∃ ss, keep_source s db = Ok ss) as [ss Hss].
    { setoid_rewrite keep_source_spec. rewrite Hs1, Hs2. cbn zeta. destruct Hsrc as [?|[? ?]]; eauto. }
    assert (match_hex 64 (s_digest s) = true) as Hhex.
    { unfold validate_source_snapshot in Hsn. do 2 apply bind_ok in Hsn as (_ & _ & Hsn). by apply require_ok in Hsn. }
    destruct (keep_source_ok _ _ _ Hss) as [Hlk Hsub]. rewrite Hs1, Hs2 in Hlk.
    unfold mutate_task, transaction. rewrite (proj2 (open_spec db db Ho)) by done. cbn [mbind result_bind].
    rewrite (proj2 (lease_check_spec _ _ _ _) Hl), Hss, Hkey. cbn [mbind result_bind]. rewrite Hcol, Hb, Hw. cbn [other_owner orb negb ensure require].
    rewrite Hnew. cbn [mbind result_bind].
    rewrite (proj2 (unique_column_ok id (task_id i) (worktree_owner db) ())) by (intros k v Hv Heq; apply (Hw' k); by rewrite Hv, <- Heq).
    unfold insert_row. rewrite Hw. cbn [mbind result_bind].
    rewrite (proj2 (unique_column_ok id (task_id i) (branch_owner db) ())) by (intros k v Hv Heq; apply (Hb' k); by rewrite Hv, <- Heq).
    rewrite Hb. cbn [mbind result_bind]. unfold then_project. cbn [fst snd]. by eapply admitted_projects.
Qed.

End Theorems.

(** * A concrete repository

    The other tables are one flag, the persisted gate decision; collecting
    evidence finds one fingerprint when the lease is current. *)

Module Sample.

#[local] Instance tables : EvidenceTables bool := {
  candidate_evidence b s l w :=
    match w with
    | Some db => match l with
                 | Typed l => if lease db ==? Some l then (Ok [str_repeat "e" 64], w) else (git_error "drifted", w)
                 | Foreign => (git_error "a current transition lease is required", w)
                 end
    | None => (state_error "local database is missing", w)
    end;
  decision_passes db i := Ok (evidence db);
}.

#[local] Instance tables_ok : EvidenceTablesOk bool.
Proof.
  constructor. intros b s l [db|]; [|by left]. cbn. destruct l as [l|]; [|by left]. by case_bool_decide; left.
Qed.

Definition migration : Migration :=
  {| m_version := 1; m_statements := ["CREATE TABLE schema_migrations"];
     m_schema := [("schema_migrations", "CREATE TABLE schema_migrations")] |}.

Definition sample_schema : Schema :=
  {| master := [{| o_type := "table"; o_name := "schema_migrations"; o_sql := Some "CREATE TABLE schema_migrations" |}];
     migration_rows := [(1, Typed (checksum migration))];
     state_id := Some (Typed "12345678-1234-5678-1234-567812345678") |}.

Definition identity : TaskIdentity :=
  {| task_id := "task-1"; source_id := "source-1"; repository_id := "owner/repo"; branch := "task-1";
     worktree := "/work/./task-1"; base_sha := str_repeat "a" 40 |}.

Definition snapshot : SourceSnapshot :=
  {| s_source_id := "source-1"; s_repository_id := "owner/repo"; s_digest := str_repeat "d" 64 |}.

Definition current : TransitionLease :=
  {| l_repository := "owner/repo"; l_state_identity := "12345678-1234-5678-1234-567812345678"; l_owner := "host";
     l_generation := 3; l_expires := 1600 |}.

Definition fp (c : string) : string := str_repeat c 64.

Definition leased : Database bool := set_leases (Some current) (Some 3) (fresh sample_schema true).

Definition binding : WorktreeBinding :=
  {| wb_task := "task-1"; wb_repository := "owner/repo"; wb_branch := "task-1"; wb_worktree := "/work/task-1";
     wb_base := str_repeat "a" 40; wb_state_identity := l_state_identity current; wb_control := None |}.

Definition seal : CandidateSeal :=
  {| cs_task := "task-1"; cs_base := str_repeat "a" 40; cs_candidate := str_repeat "c" 40;
     cs_state_identity := l_state_identity current |}.

(** The database with the task in a state, reached through given events. *)
Definition with_task (s : LifecycleState) (from : option LifecycleState) (es : list TransitionEvent) : Database bool :=
  set_progress {[ "task-1" := set_task_state s from (admitted_row identity "/work/task-1") ]} es
    (set_admission {[ "source-1" := ("owner/repo", fp "d") ]} ∅ {[ "task-1" := "task-1" ]} {[ "/work/task-1" := "task-1" ]} leased).

(** Acquiring the lease, admitting the task, blocking it. *)
Definition start : list (operation bool) :=
  [Acquire "owner/repo" "host" 600 1000 None; Admit identity [snapshot] (Typed current) 1001].

Definition block : operation bool := Transition identity "queued" "blocked" (fp "1") (Typed current) 1002.

Definition first_event : TransitionEvent :=
  {| e_task := "task-1"; e_sequence := 1; e_from := Queued; e_to := Blocked; e_evidence := fp "1" |}.

Lemma schema_verified : verify_migrations [migration] (Ok ()) sample_schema = Ok (1, "ddcbc45ed5383449").
Proof. vm_compute. reflexivity. Qed.

Lemma open_sample (db : Database bool) : schema db = sample_schema → validate_task_ownership db = Ok () →
  open_connection [migration] (Some db) = Ok db.
Proof. intros Hs Ho. unfold open_connection. rewrite Hs, Ho, schema_verified. done. Qed.

Lemma start_admits : run_all [migration] start (Some (fresh sample_schema true)) = Some (with_task Queued None []).
Proof. vm_compute. reflexivity. Qed.

Lemma block_blocks : run [migration] block (Some (with_task Queued None [])) = Some (with_task Blocked (Some Queued) [first_event]).
Proof. vm_compute. reflexivity. Qed.

Lemma reach_leased : reachable [migration] (Some leased).
Proof. exists sample_schema, true, (take 1 start). vm_compute. reflexivity. Qed.

Lemma reach_admitted : reachable [migration] (Some (with_task Queued None [])).
Proof. exists sample_schema, true, start. by rewrite start_admits. Qed.

Lemma reach_blocked : reachable [migration] (Some (with_task Blocked (Some Queued) [first_event])).
Proof.
  exists sample_schema, true, (start ++ [block]). unfold run_all. rewrite foldl_app. fold (run_all [migration] start (Some (fresh sample_schema true))).
  by rewrite start_admits, <- block_blocks.
Qed.

Lemma task_state_is_replay_witness :
  histories_sound (with_task Blocked (Some Queued) [first_event])
  ∧ ownership_sound (with_task Blocked (Some Queued) [first_event])
  ∧ validate_task_ownership (with_task Blocked (Some Queued) [first_event]) = Ok ().
Proof. apply (task_state_is_replay [migration] _ _ reach_blocked eq_refl). Defined.

Definition finalize : operation bool :=
  Finalize identity (Typed binding) (Typed seal) (fp "2") (Typed current) 1003.

Definition second_event : TransitionEvent :=
  {| e_task := "task-1"; e_sequence := 1; e_from := DiffReview; e_to := ReadyForOwner; e_evidence := fp "2" |}.

Lemma finalize_finishes :
  run [migration] finalize (Some (with_task DiffReview None [])) = Some (with_task ReadyForOwner None [second_event]).
Proof. vm_compute. reflexivity. Qed.

Lemma ready_only_through_gates_witness :
  (∃ t, tasks (with_task DiffReview None []) !! "task-1" = Some t ∧ t_state t = ReadyForOwner)
  ∨ finalized_by finalize (with_task DiffReview None []) "task-1".
Proof.
  destruct (ready_only_through_gates [migration] finalize _ _ "task-1"
    (set_task_state ReadyForOwner None (admitted_row identity "/work/task-1")) finalize_finishes eq_refl eq_refl)
    as [H|H]; [left; eexists; split; [exact H|reflexivity]|right; exact H].
Defined.

Lemma nothing_happens : run_all [migration] [block; finalize] (Some (with_task ReadyForOwner None [])) = Some (with_task ReadyForOwner None []).
Proof. vm_compute. reflexivity. Qed.

Lemma ready_is_final_witness :
  tasks (with_task ReadyForOwner None []) !! "task-1" = Some (set_task_state ReadyForOwner None (admitted_row identity "/work/task-1")).
Proof. apply (ready_is_final [migration] [block; finalize] _ _ "task-1"
  (set_task_state ReadyForOwner None (admitted_row identity "/work/task-1")) nothing_happens eq_refl eq_refl). Defined.

Lemma release_works :
  release_transition_lease [migration] current 1500 None (Some leased)
  = (Ok (), Some (set_leases None (Some 3) leased)).
Proof. vm_compute. reflexivity. Qed.

Lemma released_lease_is_dead_witness :
  let w := run_all [migration] [Acquire "owner/repo" "host" 600 1000 None] (Some (set_leases None (Some 3) leased)) in
  run [migration] (Admit identity [snapshot] (Typed current) 1001) w = w.
Proof.
  apply (released_lease_is_dead [migration] _ current 1500 None _ [Acquire "owner/repo" "host" 600 1000 None]
    (Admit identity [snapshot] (Typed current) 1001) reach_leased release_works eq_refl).
Defined.

Lemma resume_works : ∃ p w',
  transition_task [migration] identity "blocked" "queued" (fp "3") (Typed current) 1003
    (Some (with_task Blocked (Some Queued) [first_event])) = (Ok p, w').
Proof. eexists _, _. vm_compute. reflexivity. Qed.

Lemma blocked_task_resumes_witness : ∃ p : TaskProjection, p_state p = Queued ∧ p_blockers p = [].
Proof.
  destruct resume_works as (p & w' & H). exists p.
  destruct (blocked_task_resumes [migration] identity _ _ _ _ _ p w' reach_blocked H) as (e & He & _ & _ & Hs & Hb & _).
  split; [|exact Hb]. rewrite Hs. injection He as <-. reflexivity.
Defined.

Lemma admission_works : is_ok (admit_task [migration] identity [snapshot] (Typed current) 1001 (Some leased)).1 = true.
Proof. vm_compute. reflexivity. Qed.

Lemma admission_exact_witness : admissible [migration] identity snapshot current 1001 leased.
Proof. apply (admission_exact [migration] identity snapshot current 1001 leased reach_leased), admission_works. Defined.

End Sample.
