(* ===== verification/Candidates.v ===== *)
(** * Sealed candidates (src/roundwright/git_identity.py)

    The worktree of a task and the seal of its candidate: provisioning and
    revalidating the worktree, sealing its HEAD, binding evidence to the seal and
    reading it back.  What git and the file system answer is an argument
    ([Readings]); the comparisons of the answers and the tables are the code's.

    The tables are those that the gates live in; [others] is what other
    components keep in the same database. *)

From stdpp Require Import gmap.
From S2P Require Import Prelude DependencyPolicy Sqlite Worktree Migrations StateDb TaskState.
Open Scope Z_scope.

(** ** Rows *)

Record SealRow := { se_base : string; se_candidate : string; se_state : string }.

#[export] Instance SealRow_eq_dec : EqDecision SealRow.
Proof. solve_decision. Defined.

(** [RuntimeBinding.columns] and the review-policy columns. *)
Abbreviation Columns := (string * string * string * string)%type.
Abbreviation PolicyColumns := (Z * Z * Z * string * string)%type.

(** A row of [gate_contexts], whose key is the task and the candidate. *)
Record ContextRow := {
  gc_source_count : Z;
  gc_isolated : bool;
  gc_policy_digest : string;
  gc_receipt_fingerprint : string;
  gc_configuration : Columns;
  gc_review_policy : PolicyColumns;
  gc_supervisor : string;
  gc_graph_version : string;
  gc_graph_digest : string;
  gc_activated_at : string;
  gc_terminal : string;
}.

(** A row of [gate_evidence], whose key is the task, the candidate, the gate,
    the evaluator and the fingerprint. *)
Record GateRow := {
  gr_outcome : string;
  gr_evaluated_at : Z;
  gr_boundary : option string;
  gr_reason : option string;
  gr_follow_ups : string;
}.

#[export] Instance GateRow_eq_dec : EqDecision GateRow.
Proof. solve_decision. Defined.

Record FinalizationRow := {
  fi_round : Z;
  fi_findings : string;
  fi_repair : string;
  fi_candidate : string;
  fi_worker : string;
  fi_attempt : string;
  fi_configuration : string;
  fi_policy : string;
  fi_receipt : string;
}.

#[export] Instance FinalizationRow_eq_dec : EqDecision FinalizationRow.
Proof. solve_decision. Defined.

(** A row of [review_item_records], whose key is the item. *)
Record ReviewItemRow := {
  ri_task : string;
  ri_review : string;
  ri_candidate : string;
  ri_kind : string;
  ri_source : string;
  ri_attempt : string;
  ri_owner : string;
  ri_content : string;
  ri_destination : string;
  ri_blocker : string;
  ri_verification : string;
  ri_disposition : string;
  ri_created : Z;
  ri_command : option string;
}.

#[export] Instance ReviewItemRow_eq_dec : EqDecision ReviewItemRow.
Proof. solve_decision. Defined.

Abbreviation GateKeyColumns := (string * string * string * string * string)%type.

Record GateTables (R : Type) := {
  candidate_seals : gmap string SealRow;
  candidate_rows : gset (string * string * string);
  gate_contexts : gmap (string * string) ContextRow;
  gate_rows : gmap GateKeyColumns GateRow;
  configurations : gmap string Columns;
  review_policies : gmap string (string * PolicyColumns);
  finalizations : gmap string FinalizationRow;
  review_items : gmap string ReviewItemRow;
  others : R;
}.
Arguments candidate_seals {R} _.
Arguments candidate_rows {R} _.
Arguments gate_contexts {R} _.
Arguments gate_rows {R} _.
Arguments configurations {R} _.
Arguments review_policies {R} _.
Arguments finalizations {R} _.
Arguments review_items {R} _.
Arguments others {R} _.

Definition gate_task (k : GateKeyColumns) : string := k.1.1.1.1.
Definition gate_candidate (k : GateKeyColumns) : string := k.1.1.1.2.
Definition gate_fingerprint (k : GateKeyColumns) : string := k.2.

Section Tables.
Context {R : Type}.
Implicit Types (t : GateTables R).

Definition set_gate_tables (ss : gmap string SealRow) (cs : gset (string * string * string))
    (xs : gmap (string * string) ContextRow) (gs : gmap GateKeyColumns GateRow) t : GateTables R :=
  {| candidate_seals := ss; candidate_rows := cs; gate_contexts := xs; gate_rows := gs;
     configurations := configurations t; review_policies := review_policies t; finalizations := finalizations t;
     review_items := review_items t; others := others t |}.

(** [DELETE FROM candidate_evidence, gate_evidence, gate_contexts WHERE task_id = ?] *)
Definition forget_task (task : string) t : GateTables R :=
  set_gate_tables (candidate_seals t)
    (filter (λ r : string * string * string, r.1.1 ≠ task) (candidate_rows t))
    (filter (λ kv : string * string * ContextRow, kv.1.1 ≠ task) (gate_contexts t))
    (filter (λ kv : GateKeyColumns * GateRow, gate_task kv.1 ≠ task) (gate_rows t)) t.

(** [DELETE FROM gate_evidence, candidate_evidence WHERE task_id = ? AND candidate_sha = ?] *)
Definition forget_candidate (task candidate : string) t : GateTables R :=
  set_gate_tables (candidate_seals t)
    (filter (λ r : string * string * string, r.1 ≠ (task, candidate)) (candidate_rows t))
    (gate_contexts t)
    (filter (λ kv : GateKeyColumns * GateRow, (gate_task kv.1, gate_candidate kv.1) ≠ (task, candidate)) (gate_rows t)) t.

Definition set_seals (ss : gmap string SealRow) t : GateTables R :=
  set_gate_tables ss (candidate_rows t) (gate_contexts t) (gate_rows t) t.

Definition bind_row (task candidate fp : string) t : GateTables R :=
  set_gate_tables (candidate_seals t) ({[ (task, candidate, fp) ]} ∪ candidate_rows t) (gate_contexts t) (gate_rows t) t.

End Tables.

Definition write {R} (f : GateTables R → GateTables R) (db : Database (GateTables R)) : Database (GateTables R) :=
  set_evidence (f (evidence db)) db.

(** ** Git and the file system

    The answers of one operation, as functions of the paths asked about;
    [r_repository] is the root as the caller names it, [r_root] the same path
    resolved. *)

Record Readings := {
  r_repository : string;
  r_root : py string;
  r_resolve : string → option string;
  r_requested_exists : string → bool;
  r_exists : string → bool;
  r_is_directory : string → bool;
  r_add_worktree : string → string → py unit;
  r_remote_head : string → py string;
  r_common_directory : string → py string;
  r_branch : string → py string;
  r_checked_head : string → py string;
  r_is_ancestor : string → string → py bool;
  r_path_key : string → py string;
  r_registered : py (list string);
  r_backlink : string → py unit;
  r_status : string → py string;
  r_head : string → py string;
  r_verified_at : Z;
  r_written_at : Z;
}.

(** [_git_commit]: the output must be a full commit. *)
Definition git_commit (output : py string) : py string :=
  value ← output;
  _ ← git_ensure (match_hex 40 value) "Git did not return a full readable commit";
  Ok value.

(** [path.relative_to(directory)] of two absolute paths. *)
Definition path_parts (p : string) : list string := List.filter (λ c, c !=? "") (split_on slash p).

Definition is_within (path directory : string) : bool :=
  take (length (path_parts directory)) (path_parts path) ==? path_parts directory.

Definition path_join (p name : string) : string := String.append p (String slash name).

Definition validated_worktree_path (r : Readings) (root path : string) : py string :=
  match r_resolve r path with
  | None => git_error "task worktree path is unavailable"
  | Some normalized =>
      _ ← git_ensure (negb (existsb (is_within normalized)
            [root; path_join root ".git"; path_join root ".roundwright"])) "task worktree path is unsafe";
      Ok normalized
  end.

Definition branch_char (c : ascii) : bool := is_alnum c || one_of "._/-" c.

Definition require_branch (value : string) : py unit :=
  git_ensure (match value with String c rest => is_alnum c && str_all branch_char rest | EmptyString => false end
              && negb (str_contains ".." value) && negb (endswith "/" value)) "Git branch identity is invalid".

(** [except DependencyPolicyError] around [control.require]. *)
Definition entrypoint_preflight (c : GitEntrypointControl) : py unit :=
  match control_require (g_control c) (Typed (g_binding c)) (Typed GIT_ENTRYPOINT) (Typed (g_now c)) with
  | Err e => if exn_kind e ==? DependencyPolicyError then git_error "git entrypoint preflight blocked execution" else Err e
  | Ok u => Ok u
  end.

(** [GitEntrypointControl.__post_init__] *)
Definition GitEntrypointControl_post_init (c : GitEntrypointControl) : py unit :=
  _ ← git_ensure (0 <=? g_now c) "git entrypoint control is invalid";
  entrypoint_preflight c.

Definition require_git_entrypoint_control (c : GitEntrypointControl) (repository task candidate : string) : py unit :=
  _ ← git_ensure ((DependencyPolicy.repository (g_binding c) ==? repository)
                  && (DependencyPolicy.task_id (g_binding c) ==? task)
                  && (DependencyPolicy.candidate_sha (g_binding c) ==? candidate))
        "git entrypoint control does not match task identity";
  entrypoint_preflight c.

Definition resolve_canonical_base (r : Readings) (default_branch : string) (c : dyn GitEntrypointControl) : py string :=
  match c with
  | Foreign => git_error "git entrypoint control is invalid"
  | Typed c =>
      _ ← entrypoint_preflight c;
      _ ← require_branch default_branch;
      base ← git_commit (r_remote_head r default_branch);
      _ ← git_ensure (base ==? DependencyPolicy.candidate_sha (g_binding c))
            "git entrypoint base does not match sealed candidate";
      Ok base
  end.

Section Operations.
Context {R : Type} (migrations : list Migration) (r : Readings).
Implicit Types (db : Database (GateTables R)) (w : World (GateTables R)).

Definition seal_row (base candidate state : string) : SealRow :=
  {| se_base := base; se_candidate := candidate; se_state := state |}.

Definition row_of_seal (s : CandidateSeal) : SealRow := seal_row (cs_base s) (cs_candidate s) (cs_state_identity s).

Definition verify_lease (l : dyn TransitionLease) (repository : string) w : py unit :=
  match l with
  | Foreign => git_error "a current transition lease is required"
  | Typed l =>
      db ← open_connection migrations w;
      observed ← clock (r_verified_at r) None;
      require_current_lease (Typed l) repository (r_verified_at r) (Some observed) db
  end.

Definition require_task_binding (b : WorktreeBinding) (worktree : string) w : py unit :=
  db ← open_connection migrations w;
  match tasks db !! wb_task b with
  | None => git_error "task worktree ownership does not match committed state"
  | Some t =>
      _ ← git_ensure ((t_repository t ==? wb_repository b) && (t_branch t ==? wb_branch b) && (t_base t ==? wb_base b))
            "task worktree ownership does not match committed state";
      match r_resolve r (t_worktree t) with
      | None => git_error "task worktree ownership is invalid"
      | Some recorded =>
          git_ensure (recorded ==? worktree) "task worktree path does not match committed task identity"
      end
  end.

Definition read_state_identity w : py string := db ← open_connection migrations w; state_identity db.

Definition moved_to (worktree : string) (b : WorktreeBinding) : WorktreeBinding :=
  {| wb_task := wb_task b; wb_repository := wb_repository b; wb_branch := wb_branch b; wb_worktree := worktree;
     wb_base := wb_base b; wb_state_identity := wb_state_identity b; wb_control := wb_control b |}.

Definition revalidate_worktree (c : GitEntrypointControl) (b : WorktreeBinding) w : py WorktreeBinding :=
  _ ← require_git_entrypoint_control c (wb_repository b) (wb_task b) (wb_base b);
  root ← r_root r;
  worktree ← validated_worktree_path r root (wb_worktree b);
  _ ← require_task_binding b worktree w;
  identity ← read_state_identity w;
  _ ← git_ensure (wb_state_identity b ==? identity) "task worktree state identity has drifted";
  _ ← git_ensure (r_exists r worktree && r_is_directory r worktree) "task worktree is unavailable";
  own ← r_common_directory r worktree;
  main ← r_common_directory r root;
  _ ← git_ensure (own ==? main) "task worktree belongs to a foreign repository";
  branch ← r_branch r worktree;
  _ ← git_ensure (branch ==? wb_branch b) "task worktree branch does not match its identity";
  head ← git_commit (r_checked_head r worktree);
  descends ← (if head ==? wb_base b then Ok true else r_is_ancestor r (wb_base b) head);
  _ ← git_ensure descends "task worktree does not descend from its base";
  key ← r_path_key r worktree;
  registered ← r_registered r;
  _ ← git_ensure (key in? registered) "task worktree is not an active registered worktree";
  _ ← r_backlink r worktree;
  Ok (moved_to worktree b).

Definition provision_worktree (i : TaskIdentity) (default_branch worktree : string) (c : dyn GitEntrypointControl)
    (l : dyn TransitionLease) w : py WorktreeBinding :=
  match c with
  | Foreign => git_error "git entrypoint control is invalid"
  | Typed c =>
      _ ← entrypoint_preflight c;
      _ ← git_ensure ((DependencyPolicy.repository (g_binding c) ==? repository_id i)
                      && (DependencyPolicy.task_id (g_binding c) ==? task_id i)
                      && (DependencyPolicy.candidate_sha (g_binding c) ==? base_sha i))
            "git entrypoint control does not match task identity";
      base ← resolve_canonical_base r default_branch (Typed c);
      _ ← git_ensure (base ==? base_sha i) "task base does not match the canonical default branch";
      _ ← require_branch (branch i);
      requested ← validated_worktree_path r (r_repository r) worktree;
      committed ← match r_resolve r (StateDb.worktree i) with Some p => Ok p | None => raise OSError "" end;
      _ ← git_ensure (committed ==? requested) "task worktree path does not match committed task identity";
      _ ← verify_lease l (repository_id i) w;
      identity ← read_state_identity w;
      let b := {| wb_task := task_id i; wb_repository := repository_id i; wb_branch := branch i;
                  wb_worktree := requested; wb_base := base_sha i; wb_state_identity := identity;
                  wb_control := Some c |} in
      _ ← (if r_requested_exists r requested then Ok () else r_add_worktree r (branch i) requested);
      revalidate_worktree c b w
  end.

(** [_require_current_lease] in a write transaction, and the state identity. *)
Definition require_binding_lease (b : WorktreeBinding) (l : dyn TransitionLease) db : py unit :=
  _ ← require_current_lease l (wb_repository b) (r_written_at r) None db;
  match l with
  | Typed l => git_ensure (wb_state_identity b ==? l_state_identity l) "candidate state identity has drifted"
  | Foreign => git_error "candidate state identity has drifted"
  end.

Definition invalidate_candidate (b : WorktreeBinding) (l : dyn TransitionLease) : World (GateTables R) → py unit * World (GateTables R) :=
  transaction migrations (λ db,
    _ ← require_binding_lease b l db;
    Ok ((), write (λ t, set_seals (delete (wb_task b) (candidate_seals t)) (forget_task (wb_task b) t)) db)).

(** Invalidate, then raise. *)
Definition invalidating {A} (b : WorktreeBinding) (l : dyn TransitionLease) (e : exn) w : py A * World (GateTables R) :=
  match invalidate_candidate b l w with
  | (Ok _, w') => (Err e, w')
  | (Err e', w') => (Err e', w')
  end.

Definition drifted (why : string) : exn := Raised GitIdentityError why.

(** The checks before the worktree is revalidated: the control it runs under. *)
Definition live_control (b : WorktreeBinding) (l : dyn TransitionLease) (control : option GitEntrypointControl) w :
    py GitEntrypointControl :=
  _ ← verify_lease l (wb_repository b) w;
  root ← r_root r;
  worktree ← validated_worktree_path r root (wb_worktree b);
  _ ← require_task_binding b worktree w;
  _ ← git_ensure (match l with Typed l => wb_state_identity b ==? l_state_identity l | Foreign => false end)
        "candidate state identity has drifted";
  match (match control with Some c => Some c | None => wb_control b end) with
  | Some c => Ok c
  | None => git_error "candidate worktree Git entrypoint control is unavailable"
  end.

Definition revalidate_live_candidate_binding (b : WorktreeBinding) (l : dyn TransitionLease)
    (control : option GitEntrypointControl) w : py WorktreeBinding * World (GateTables R) :=
  match live_control b l control w with
  | Err e => (Err e, w)
  | Ok c =>
      match revalidate_worktree c b w with
      | Ok verified => (Ok verified, w)
      | Err e => if exn_kind e ==? GitIdentityError then invalidating b l e w else (Err e, w)
      end
  end.

Definition require_live_candidate (b : WorktreeBinding) (s : CandidateSeal) (l : dyn TransitionLease) w :
    py unit * World (GateTables R) :=
  match revalidate_live_candidate_binding b l None w with
  | (Err e, w) => (Err e, w)
  | (Ok verified, w) =>
      match (_ ← git_ensure ((wb_task verified ==? cs_task s) && (wb_base verified ==? cs_base s)
                             && (wb_state_identity verified ==? cs_state_identity s))
                   "candidate seal identity has drifted";
             r_status r (wb_worktree verified)) with
      | Err e => (Err e, w)
      | Ok status =>
          if status !=? "" then invalidating verified l (drifted "candidate worktree is dirty") w
          else
            match git_commit (r_head r (wb_worktree verified)) with
            | Err e => (Err e, w)
            | Ok head =>
                if head !=? cs_candidate s
                then invalidating verified l (drifted "candidate head moved and candidate sealing is required") w
                else (Ok (), w)
            end
      end
  end.

Definition seal_candidate (b : WorktreeBinding) (c : GitEntrypointControl) (l : dyn TransitionLease) w :
    py CandidateSeal * World (GateTables R) :=
  match require_git_entrypoint_control c (wb_repository b) (wb_task b) (wb_base b) with
  | Err e => (Err e, w)
  | Ok _ =>
      match revalidate_live_candidate_binding b l (Some c) w with
      | (Err e, w) => (Err e, w)
      | (Ok verified, w) =>
          match r_status r (wb_worktree verified) with
          | Err e => (Err e, w)
          | Ok status =>
              if status !=? "" then invalidating verified l (drifted "candidate worktree is dirty") w
              else
                match git_commit (r_head r (wb_worktree verified)) with
                | Err e => (Err e, w)
                | Ok candidate =>
                    let row := seal_row (wb_base verified) candidate (wb_state_identity verified) in
                    transaction migrations (λ db,
                      _ ← require_current_lease l (wb_repository b) (r_written_at r) None db;
                      let stale := match candidate_seals (evidence db) !! wb_task verified with
                                   | Some old => old !=? row
                                   | None => false
                                   end in
                      let forgotten := if stale then forget_task (wb_task verified) (evidence db) else evidence db in
                      Ok ({| cs_task := wb_task verified; cs_base := wb_base verified; cs_candidate := candidate;
                             cs_state_identity := wb_state_identity verified |},
                          set_evidence (set_seals (<[wb_task verified := row]> (candidate_seals forgotten)) forgotten) db)) w
                end
          end
      end
  end.

Definition require_current_seal (s : CandidateSeal) db : py unit :=
  git_ensure (candidate_seals (evidence db) !! cs_task s ==? Some (row_of_seal s)) "candidate seal is no longer current".

Definition bind_candidate_evidence (b : WorktreeBinding) (s : CandidateSeal) (fp : string) (l : dyn TransitionLease) w :
    py unit * World (GateTables R) :=
  if negb (match_hex 64 fp) then (git_error "candidate evidence fingerprint is invalid", w)
  else
    match require_live_candidate b s l w with
    | (Err e, w) => (Err e, w)
    | (Ok _, w) =>
        transaction migrations (λ db,
          _ ← require_current_lease l (wb_repository b) (r_written_at r) None db;
          _ ← require_current_seal s db;
          Ok ((), write (bind_row (cs_task s) (cs_candidate s) fp) db)) w
    end.

Definition fingerprints_of (task candidate : string) (t : GateTables R) : list string :=
  sorted_by (λ f, [f])
    (omap (λ r : string * string * string, if decide (r.1 = (task, candidate)) then Some r.2 else None)
       (elements (candidate_rows t))).

(** The evidence of a seal that is still the current one. *)
Definition sealed_evidence (s : CandidateSeal) w : py (list string) :=
  db ← open_connection migrations w;
  _ ← require_current_seal s db;
  Ok (fingerprints_of (cs_task s) (cs_candidate s) (evidence db)).

Definition candidate_evidence (b : WorktreeBinding) (s : CandidateSeal) (l : dyn TransitionLease) w :
    py (list string) * World (GateTables R) :=
  match require_live_candidate b s l w with
  | (Err e, w) => (Err e, w)
  | (Ok _, w) => (sealed_evidence s w, w)
  end.

(** The same checks, which write nothing. *)
Definition preflight_candidate_evidence (b : WorktreeBinding) (s : CandidateSeal) (l : dyn TransitionLease) w :
    py (list string) :=
  c ← live_control b l None w;
  verified ← revalidate_worktree c b w;
  _ ← git_ensure ((wb_task verified ==? cs_task s) && (wb_base verified ==? cs_base s)
                  && (wb_state_identity verified ==? cs_state_identity s)) "candidate seal identity has drifted";
  status ← r_status r (wb_worktree verified);
  _ ← git_ensure (status ==? "") "candidate worktree is dirty";
  head ← git_commit (r_head r (wb_worktree verified));
  _ ← git_ensure (head ==? cs_candidate s) "candidate head moved and candidate sealing is required";
  sealed_evidence s w.

End Operations.

(** [with transition_lease(...) as lease]: the body runs between an acquisition
    and a release, whatever it does. *)
Definition transition_lease {E A} (migrations : list Migration) (repository owner : string) (ttl acquired_at released_at : Z)
    (now : option Z) (body : TransitionLease → World E → py A * World E) (w : World E) : py A * World E :=
  match acquire_transition_lease migrations repository owner ttl acquired_at now w with
  | (Err e, w) => (Err e, w)
  | (Ok l, w) =>
      let (result, w) := body l w in
      match release_transition_lease migrations l released_at now w with
      | (Ok _, w) => (result, w)
      | (Err e, w) => (Err e, w)
      end
  end.

(** * What the operations write

    Every operation changes at most the tables of this component, under the
    current lease, in one of three ways. *)

Section Changes.
Context {R : Type} (migrations : list Migration) (r : Readings).
Implicit Types (t : GateTables R) (db : Database (GateTables R)) (w : World (GateTables R)).

Definition invalidated (task : string) t : GateTables R := set_seals (delete task (candidate_seals t)) (forget_task task t).

(** Sealing forgets what was bound to another seal of the task. *)
Definition resealed (task : string) (row : SealRow) t : GateTables R :=
  let t := if match candidate_seals t !! task with Some old => old !=? row | None => false end
           then forget_task task t else t in
  set_seals (<[task := row]> (candidate_seals t)) t.

Inductive candidate_change t : GateTables R → Prop :=
  | change_invalidated task : candidate_change t (invalidated task t)
  | change_sealed task row : candidate_change t (resealed task row t)
  | change_bound s fp : candidate_seals t !! cs_task s = Some (row_of_seal s) →
      candidate_change t (bind_row (cs_task s) (cs_candidate s) fp t).

(** Nothing is written, or the tables change by [P] under the lease [l]. *)
Definition writes (P : GateTables R → GateTables R → Prop) (l : dyn TransitionLease) w w' : Prop :=
  w' = w ∨ ∃ db l' t, w = Some db ∧ l = Typed l' ∧ lease db = Some l' ∧ P (evidence db) t ∧ w' = Some (set_evidence t db).

Lemma writes_mono (P Q : GateTables R → GateTables R → Prop) l w w' :
  (∀ t t', P t t' → Q t t') → writes P l w w' → writes Q l w w'.
Proof. intros HPQ [H|(db & l' & t & ? & ? & ? & HP & ?)]; [by left|right]. exists db, l', t. auto 6. Qed.

(** A transaction that checks the lease and writes the tables. *)
Lemma transaction_writes {A} P (body : Database (GateTables R) → py (A * Database (GateTables R))) l w :
  (∀ db a db', body db = Ok (a, db') → ∃ l' t, l = Typed l' ∧ lease db = Some l' ∧ P (evidence db) t ∧ db' = set_evidence t db) →
  writes P l w (transaction migrations body w).2.
Proof.
  intros Hbody. destruct (transaction_cases migrations body w) as [[e ->]|(db & a & db' & -> & _ & Hb & ->)]; [by left|right].
  destruct (Hbody _ _ _ Hb) as (l' & t & -> & ? & ? & ->). exists db, l', t. auto.
Qed.

Lemma binding_lease_checked b l db :
  require_binding_lease r b l db = Ok () → ∃ l', l = Typed l' ∧ lease db = Some l' ∧ wb_state_identity b = l_state_identity l'.
Proof.
  unfold require_binding_lease, git_ensure. intros ([] & (l' & -> & Hl)%git_lease_checked & H%require_ok)%bind_ok.
  breflect. by exists l'.
Qed.

Lemma invalidate_writes b l w :
  writes (λ t t', t' = invalidated (wb_task b) t) l w (invalidate_candidate migrations r b l w).2.
Proof.
  apply transaction_writes. intros db a db' ([] & (l' & -> & Hl & _)%binding_lease_checked & [= <- <-])%bind_ok.
  by exists l', (invalidated (wb_task b) (evidence db)).
Qed.

Lemma invalidating_spec {A} b l e w : ∃ e',
  (invalidating migrations r b l e w : py A * World (GateTables R)) = (Err e', (invalidate_candidate migrations r b l w).2).
Proof. unfold invalidating. destruct (invalidate_candidate _ _ _ _ _) as [[]]; by eexists. Qed.

Lemma revalidated c b w v : revalidate_worktree migrations r c b w = Ok v → ∃ p, v = moved_to p b.
Proof. unfold revalidate_worktree. intros H. repeat (apply bind_ok in H as (? & _ & H)). injection H as <-. by eexists. Qed.

(** A live binding is the given one at its resolved path, and nothing is written;
    otherwise at most the candidate is invalidated. *)
Lemma revalidate_live_cases b l control w :
  (∃ p, revalidate_live_candidate_binding migrations r b l control w = (Ok (moved_to p b), w))
  ∨ ∃ e w', revalidate_live_candidate_binding migrations r b l control w = (Err e, w')
            ∧ writes (λ t t', t' = invalidated (wb_task b) t) l w w'.
Proof.
  unfold revalidate_live_candidate_binding. destruct (live_control _ _ _ _ _ _) as [c|e]; [|right; by eexists _, _; split; [|left]].
  destruct (revalidate_worktree migrations r c b w) as [v|e] eqn:Hv.
  - apply revalidated in Hv as [p ->]. left. by exists p.
  - right. case_match; [|by eexists _, _; split; [|left]].
    destruct (invalidating_spec (A:=WorktreeBinding) b l e w) as [e' ->]. eexists _, _. split; [done|]. apply invalidate_writes.
Qed.

Lemma live_cases b s l w :
  (require_live_candidate migrations r b s l w = (Ok (), w)
   ∧ wb_task b = cs_task s ∧ wb_base b = cs_base s ∧ wb_state_identity b = cs_state_identity s)
  ∨ ∃ e w', require_live_candidate migrations r b s l w = (Err e, w')
            ∧ writes (λ t t', t' = invalidated (wb_task b) t) l w w'.
Proof.
  unfold require_live_candidate.
  destruct (revalidate_live_cases b l None w) as [[p ->]|(e & w' & -> & Hw)]; [|right; by eexists _, _].
  destruct (_ ≫= _) as [status|e] eqn:Hs; [|right; by eexists _, _; split; [|left]].
  apply bind_ok in Hs as (_ & Hs%require_ok & _). cbn [moved_to wb_task wb_base wb_state_identity] in Hs. breflect.
  assert (writes (λ t t', t' = invalidated (wb_task b) t) l w (invalidate_candidate migrations r (moved_to p b) l w).2) as Hinv
    by apply (invalidate_writes (moved_to p b)).
  case_match; [destruct (invalidating_spec (A:=unit) (moved_to p b) l (drifted "candidate worktree is dirty") w) as [e ->]; right; eauto|].
  destruct (git_commit _) as [head|e]; [|right; by eexists _, _; split; [|left]].
  case_match; [|by left; destruct_and!].
  destruct (invalidating_spec (A:=unit) (moved_to p b) l (drifted "candidate head moved and candidate sealing is required") w)
    as [e ->]; right; eauto.
Qed.

Lemma candidate_evidence_cases b s l w :
  candidate_evidence migrations r b s l w = (sealed_evidence migrations s w, w) ∧ wb_task b = cs_task s
  ∨ ∃ e w', candidate_evidence migrations r b s l w = (Err e, w')
            ∧ writes (λ t t', t' = invalidated (wb_task b) t) l w w'.
Proof.
  unfold candidate_evidence. destruct (live_cases b s l w) as [(-> & ? & _)|(e & w' & -> & ?)]; [by left|right; by eexists _, _].
Qed.

Lemma bind_writes b s fp l w : writes candidate_change l w (bind_candidate_evidence migrations r b s fp l w).2.
Proof.
  unfold bind_candidate_evidence. case_match; [by left|].
  destruct (live_cases b s l w) as [[-> _]|(e & w' & -> & Hw)].
  - apply transaction_writes. intros db a db' ([] & (l' & -> & Hl)%git_lease_checked & Hb)%bind_ok.
    unfold require_current_seal, git_ensure in Hb. apply bind_ok in Hb as ([] & Hs%require_ok & [= <- <-]). breflect.
    exists l', (bind_row (cs_task s) (cs_candidate s) fp (evidence db)). split_and!; try done. by constructor.
  - eapply writes_mono; [|exact Hw]. intros t t' ->. constructor.
Qed.

Lemma seal_writes b c l w : writes candidate_change l w (seal_candidate migrations r b c l w).2.
Proof.
  unfold seal_candidate. destruct (require_git_entrypoint_control _ _ _ _); [|by left].
  assert (∀ P, writes P l w w) as Hsame by (intros; by left).
  destruct (revalidate_live_cases b l (Some c) w) as [[p ->]|(e & w' & -> & Hw)].
  2: { eapply writes_mono; [|exact Hw]. intros t t' ->. constructor. }
  destruct (r_status r _) as [status|e]; [|apply Hsame]. case_match.
  { destruct (invalidating_spec (A:=CandidateSeal) (moved_to p b) l (drifted "candidate worktree is dirty") w) as [e ->].
    eapply writes_mono; [|apply (invalidate_writes (moved_to p b))]. intros t t' ->. constructor. }
  destruct (git_commit _) as [candidate|e]; [|apply Hsame].
  apply transaction_writes. intros db sealed db' ([] & (l' & -> & Hl)%git_lease_checked & [= <- <-])%bind_ok.
  exists l', (resealed (wb_task b) (seal_row (wb_base b) candidate (wb_state_identity b)) (evidence db)).
  split_and!; try done. constructor.
Qed.

End Changes.
