(* ===== verification/GateStore.v ===== *)
(** * Persisted gates (src/roundwright/gates.py, review_lifecycle.py)

    The SQLite side of the final gates: recording the evidence of one gate,
    reading it back, and the decision over what is persisted, which is the only
    decision the final transition of a task accepts.  The dependency-review and
    dependency-graph stores are the interface [LineageTables]: what gates.py reads
    of them.

    Contexts and receipts are typed as annotated; the evidence keeps the dynamic
    fields of [Gates].  A context carries the receipt of an exhausted review limit
    beside the fields of [GateContext]. *)

From stdpp Require Import gmap.
From S2P Require Import Prelude Sha256 Json JsonParse JsonRead PyTime RuntimeBinding Policy DependencyPolicy.
From S2P Require Import DependencyReview DependencyGraph Sqlite Worktree Migrations StateDb TaskState Candidates Gates.
Open Scope Z_scope.

Definition gate_error {A} (why : string) : py A := raise GateError why.
Definition gate_ensure (b : bool) (why : string) : py unit := require b GateError why.

(** ** Follow-ups as stored text *)

Definition follow_up_payload (f : dyn FollowUp) : py json :=
  match f with
  | Typed {| identifier := Typed i; resolved := Typed b; resolution_fingerprint := Typed fp |} =>
      Ok (JObj [("identifier", JStr i); ("resolved", JBool b); ("resolution_fingerprint", jopt fp)])
  | _ => raise TypeError "Object is not JSON serializable"
  end.

Definition encode_follow_ups (value : dyn (list (dyn FollowUp))) : py string :=
  _ ← gate_ensure (follow_ups_are_valid value) "gate follow-ups are invalid";
  match value with
  | Typed l => items ← mapM follow_up_payload l; Ok (dumps (JArr items))
  | Foreign => gate_error "gate follow-ups are invalid"
  end.

(** A decoded value as a field: text, [None], or something else. *)
Definition text_of (v : doc) : dyn (option string) :=
  match v with
  | DStr p => match narrow p with Some s => Typed (Some s) | None => Foreign end
  | DNull => Typed None
  | _ => Foreign
  end.

Definition decode_follow_up (v : doc) : option (dyn FollowUp) :=
  match v with
  | DObj d =>
      if keys_are ["identifier"; "resolved"; "resolution_fingerprint"] d then
        match get "identifier" d, get "resolved" d, get "resolution_fingerprint" d with
        | Some i, Some b, Some fp =>
            Some (Typed {| identifier := str_of (text_of i);
                           resolved := match b with DBool b => Typed b | _ => Foreign end;
                           resolution_fingerprint := text_of fp |})
        | _, _, _ => None
        end
      else None
  | _ => None
  end.

(** [_decode_follow_ups]; [None] is [Foreign]. *)
Definition decode_follow_ups (text : string) : dyn (list (dyn FollowUp)) :=
  match loads text with
  | Ok (DArr items) =>
      match mapM decode_follow_up items with
      | Some l => if follow_ups_are_valid (Typed l) then Typed l else Foreign
      | None => Foreign
      end
  | _ => Foreign
  end.

(** ** Runtime bindings as columns *)

Definition columns (b : RuntimeBinding) : Columns :=
  (schema_version b, resolved_digest b, worker_profile_identity b, dumps_plain (jstrs (supervisor_profile_identities b))).

Definition review_columns (b : RuntimeBinding) : PolicyColumns :=
  (review_complete_rounds b, review_max_rounds b, review_max_supervisor_attempts_per_round b,
   review_on_final_findings b, review_policy_digest b).

(** [tuple(value)] of a decoded value. *)
Definition iterate (v : doc) : option (list doc) :=
  match v with
  | DArr l => Some l
  | DObj d => Some (map (λ kv, DStr kv.1) d)
  | DStr p => Some (map (λ n, DStr [n]) p)
  | _ => None
  end.

Definition as_text (v : doc) : option string := match v with DStr p => narrow p | _ => None end.

(** [RuntimeBinding(...)] from the columns; a failure of any kind is caught. *)
Definition binding_of_columns (c : Columns) (p : PolicyColumns) : option RuntimeBinding :=
  match loads c.2 with
  | Ok v =>
      profiles ← (items ← iterate v; mapM as_text items);
      let b := {| schema_version := c.1.1.1; resolved_digest := c.1.1.2; worker_profile_identity := c.1.2;
                  supervisor_profile_identities := profiles; review_complete_rounds := p.1.1.1.1;
                  review_max_rounds := p.1.1.1.2; review_max_supervisor_attempts_per_round := p.1.1.2;
                  review_on_final_findings := p.1.2; review_policy_digest := p.2 |} in
      if is_ok (RuntimeBinding_post_init b) then Some b else None
  | Err _ => None
  end.

(** ** Contexts *)

(** The fields of a receipt are the columns of its row. *)
Abbreviation ReviewLimitFinalizationReceipt := FinalizationRow.

Record TypedContext := {
  x_task : string;
  x_candidate : string;
  x_source_count : Z;
  x_isolated : bool;
  x_policy_digest : string;
  x_receipt_fingerprint : string;
  x_binding : RuntimeBinding;
  x_supervisor : string;
  x_review_limit : dyn (option ReviewLimitFinalizationReceipt);
  x_graph_version : option string;
  x_graph_digest : option string;
}.

Definition gate_context (c : TypedContext) : GateContext :=
  {| c_task_id := Typed (x_task c); c_candidate_sha := Typed (x_candidate c); source_count := Typed (x_source_count c);
     isolated_local_task := Typed (x_isolated c); c_policy_digest := Typed (x_policy_digest c);
     c_receipt_fingerprint := Typed (x_receipt_fingerprint c); c_runtime_binding := Typed (x_binding c);
     Gates.selected_supervisor_profile_identity := Typed (x_supervisor c);
     dependency_graph_version_id := Typed (x_graph_version c);
     dependency_graph_decision_digest := Typed (x_graph_digest c) |}.

Definition contexts_match (expected : TypedContext) (actual : option TypedContext) : bool :=
  match actual with
  | None => false
  | Some actual =>
      (x_task expected ==? x_task actual) && (x_candidate expected ==? x_candidate actual)
      && (x_source_count expected =? x_source_count actual) && Bool.eqb (x_isolated expected) (x_isolated actual)
      && (x_policy_digest expected ==? x_policy_digest actual)
      && (x_receipt_fingerprint expected ==? x_receipt_fingerprint actual)
      && (x_supervisor expected ==? x_supervisor actual)
      && (x_graph_version expected ==? x_graph_version actual) && (x_graph_digest expected ==? x_graph_digest actual)
      && runtime_bindings_match (x_binding expected) (Typed (x_binding actual))
  end.

(** The 16 columns written from a context, then the instant and the lineage. *)
Definition context_row (c : TypedContext) (activated terminal : string) : ContextRow :=
  {| gc_source_count := x_source_count c; gc_isolated := x_isolated c; gc_policy_digest := x_policy_digest c;
     gc_receipt_fingerprint := x_receipt_fingerprint c; gc_configuration := columns (x_binding c);
     gc_review_policy := review_columns (x_binding c); gc_supervisor := x_supervisor c;
     gc_graph_version := default "" (x_graph_version c); gc_graph_digest := default "" (x_graph_digest c);
     gc_activated_at := activated; gc_terminal := terminal |}.

(** [value or None] *)
Definition non_empty (s : string) : option string := if s ==? "" then None else Some s.

Definition context_of_row (task candidate : string) (r : ContextRow) : option TypedContext :=
  if negb ((0 <? gc_source_count r) && is_fingerprint (Typed (gc_policy_digest r))
           && is_fingerprint (Typed (gc_receipt_fingerprint r))) then None
  else
    b ← binding_of_columns (gc_configuration r) (gc_review_policy r);
    if gc_supervisor r in? supervisor_profile_identities b then
      Some {| x_task := task; x_candidate := candidate; x_source_count := gc_source_count r; x_isolated := gc_isolated r;
              x_policy_digest := gc_policy_digest r; x_receipt_fingerprint := gc_receipt_fingerprint r; x_binding := b;
              x_supervisor := gc_supervisor r; x_review_limit := Typed None;
              x_graph_version := non_empty (gc_graph_version r); x_graph_digest := non_empty (gc_graph_digest r) |}
    else None.

(** ** Evidence rows *)

Definition evidence_of_row (k : GateKeyColumns) (r : GateRow) : GateEvidence :=
  let '(task, candidate, key, evaluator, fp) := k in
  {| e_task_id := Typed task; e_candidate_sha := Typed candidate; gate_key := Typed key;
     e_outcome := Typed (gr_outcome r); evaluator_id := Typed evaluator; evaluated_at := Typed (gr_evaluated_at r);
     evidence_fingerprint := Typed fp; changed_boundary := Typed (gr_boundary r); e_reason := Typed (gr_reason r);
     follow_ups := decode_follow_ups (gr_follow_ups r) |}.

(** The fields of well-formed evidence. *)
Definition row_of_evidence (e : GateEvidence) : option (GateKeyColumns * (string → GateRow)) :=
  match e_task_id e, e_candidate_sha e, gate_key e, evaluator_id e, evidence_fingerprint e with
  | Typed task, Typed candidate, Typed key, Typed evaluator, Typed fp =>
      match e_outcome e, evaluated_at e, changed_boundary e, e_reason e with
      | Typed o, Typed at_, Typed boundary, Typed why =>
          Some ((task, candidate, key, evaluator, fp),
                λ text, {| gr_outcome := o; gr_evaluated_at := at_; gr_boundary := boundary; gr_reason := why;
                           gr_follow_ups := text |})
      | _, _, _, _ => None
      end
  | _, _, _, _, _ => None
  end.

Definition validate_evidence (e : GateEvidence) : py unit :=
  _ ← gate_ensure (is_string_with (λ k, k in? registry_keys) (gate_key e)) "gate key is unsupported";
  gate_ensure (is_well_formed e) "gate evidence is invalid".

(** [_value(gate_key) == "dependency-graph" and _value(outcome) == "PASS"] *)
Definition is_graph_pass (e : GateEvidence) : bool :=
  (gate_key e ==? Typed (GateKey_value DEPENDENCY_GRAPH)) && (e_outcome e ==? Typed (EvidenceOutcome_value E_PASS)).

(** ** Other tables *)

Record RoutedReview := { rr_round : Z; rr_mode : string; rr_policy : PolicyColumns }.

#[export] Instance RoutedReview_eq_dec : EqDecision RoutedReview.
Proof. solve_decision. Defined.

(** What the gates read of the dependency-review and dependency-graph stores and
    of the reviews of a task.  An attempt that no other supersedes is terminal;
    a terminal attempt has an identity, a snapshot and a state. *)
Class LineageTables (R : Type) := {
  has_attempts : R → string → bool;
  terminal_attempts : R → string → list (string * string * string);
  verify_task_lineage : R → string → py unit;
  read_attempt : R → string → py (string * string * AffectedSubset);
  subset_members : R → string → list (string * string * string);
  read_current : R → py GraphSnapshot;
  edge_of_attempt : R → string → string → bool;
  accepted_decision : R → string → option (string * string * string);
  routed_review : R → string → string → option RoutedReview;
}.

Definition graph_fingerprint (value : string) : string :=
  if startswith "sha256:" value then String.substring 7 (String.length value - 7) value else value.

(** [except cls as error: raise GateError(why)] *)
Definition converted {A} (cls : exn_class) (why : string) (m : py A) : py A :=
  match m with Err e => if exn_kind e ==? cls then gate_error why else Err e | Ok a => Ok a end.

(** ** Owner blockers (review_lifecycle.py) *)

Definition lifecycle_error {A} (why : string) : py A := raise ReviewLifecycleError why.
Definition lifecycle_ensure (b : bool) (why : string) : py unit := require b ReviewLifecycleError why.

Definition lifecycle_rest (c : ascii) : bool := is_lower c || is_digit c || one_of "._/-" c.
Definition lifecycle_token : string → bool := match_ident is_lower lifecycle_rest 127.

(** [str(UUID(value)) == value]: the canonical text of a UUID. *)
Definition is_canonical_uuid (value : string) : bool :=
  match split_on "-"%char value with
  | [a; b; c; d; e] =>
      match_hex 8 a && match_hex 4 b && match_hex 4 c && match_hex 4 d && match_hex 12 e
  | _ => false
  end.

(** An item with its row. *)
Abbreviation StoredItem := (string * ReviewItemRow)%type.

Definition is_owner_blocker (task : string) (x : StoredItem) : bool :=
  let i := x.2 in
  (ri_task i ==? task) && (ri_kind i ==? "pass-follow-up") && (ri_source i ==? "accepted-review")
  && (ri_blocker i ==? "blocking") && (ri_disposition i ==? "pending").

Definition blocker_key (x : StoredItem) : list string :=
  let i := x.2 in
  [x.1; ri_candidate i; ri_attempt i; ri_content i; ri_destination i; ri_verification i; ri_disposition i].

Definition blocker_is_valid (x : StoredItem) : bool :=
  let i := x.2 in
  lifecycle_token x.1 && match_hex 40 (ri_candidate i) && lifecycle_token (ri_attempt i)
  && match_hex 64 (ri_content i) && lifecycle_token (ri_destination i)
  && (ri_verification i ==? "pending") && (ri_disposition i ==? "pending").

Record OwnerBlockerStateReceipt := {
  ob_task : string;
  ob_repository : string;
  ob_candidate : string;
  ob_state : string;
  blockers_pending : bool;
  blocker_state_digest : string;
  receipt_identity : string;
}.

Definition owner_blocker_receipt_identity (task repository candidate state : string) (pending : bool) (digest : string) :
    string :=
  sha256_json (JObj [("schema", JStr "roundwright-owner-blocker-state-receipt/v1"); ("task_id", JStr task);
    ("repository_id", JStr repository); ("candidate_sha", JStr candidate); ("seal_state_identity", JStr state);
    ("blockers_pending", JBool pending); ("blocker_state_digest", JStr digest)]).

Definition blocker_payload (x : StoredItem) : json :=
  let i := x.2 in
  JObj [("item_id", JStr x.1); ("provenance_candidate_sha", JStr (ri_candidate i));
        ("source_attempt_id", JStr (ri_attempt i)); ("content_digest", JStr (ri_content i));
        ("destination", JStr (ri_destination i)); ("verification_state", JStr (ri_verification i));
        ("disposition", JStr (ri_disposition i))].

Definition check_OwnerBlockerStateReceipt (o : OwnerBlockerStateReceipt) : py unit :=
  lifecycle_ensure (lifecycle_token (ob_task o) && lifecycle_token (ob_repository o) && match_hex 40 (ob_candidate o)
    && is_canonical_uuid (ob_state o) && match_hex 64 (blocker_state_digest o)
    && (receipt_identity o ==? owner_blocker_receipt_identity (ob_task o) (ob_repository o) (ob_candidate o) (ob_state o)
                                 (blockers_pending o) (blocker_state_digest o)))
    "owner blocker state receipt is invalid".

Section Reading.
Context {R : Type} `{!LineageTables R}.
Implicit Types (t : GateTables R) (db : Database (GateTables R)).

Definition owner_blocker_state_receipt (task candidate : string) db : py OwnerBlockerStateReceipt :=
  _ ← lifecycle_ensure (lifecycle_token task && match_hex 40 candidate) "owner blocker state scope is invalid";
  match candidate_seals (evidence db) !! task, tasks db !! task with
  | Some s, Some t =>
      _ ← lifecycle_ensure ((se_candidate s ==? candidate) && is_canonical_uuid (se_state s)
                            && lifecycle_token (t_repository t))
            "owner blocker state lacks the exact current candidate seal";
      let rows := sorted_by blocker_key (List.filter (is_owner_blocker task) (map_to_list (review_items (evidence db)))) in
      _ ← lifecycle_ensure (forallb blocker_is_valid rows) "owner blocker state is invalid";
      let digest := sha256_json (JArr (map blocker_payload rows)) in
      let pending := rows !=? [] in
      let o := {| ob_task := task; ob_repository := t_repository t; ob_candidate := candidate; ob_state := se_state s;
                  blockers_pending := pending; blocker_state_digest := digest;
                  receipt_identity := owner_blocker_receipt_identity task (t_repository t) candidate (se_state s) pending digest |} in
      _ ← check_OwnerBlockerStateReceipt o;
      Ok o
  | _, _ => lifecycle_error "owner blocker state lacks the exact current candidate seal"
  end.

Definition unresolved_final_gate_blockers (task candidate : string) db : py bool :=
  o ← owner_blocker_state_receipt task candidate db;
  Ok (blockers_pending o).

(** ** The lineage of the dependency review *)

Definition lineage_payload (attempt disposition : string) (s : AffectedSubset) : json :=
  JObj [("state", JStr "terminal"); ("attempt_id", JStr attempt); ("snapshot_id", JStr (s_snapshot_id s));
        ("subset_digest", JStr (subset_content_digest s));
        ("members", JArr (map (λ m, JObj (member_items m)) (s_members s)));
        ("candidate_sha", JStr (s_candidate_sha s)); ("policy_digest", JStr (s_policy_digest s));
        ("configuration_digest", JStr (s_configuration_digest s)); ("disposition", JStr disposition)].

Definition no_lineage : string := dumps (JObj [("state", JStr "no-lineage")]).

Definition terminal_dependency_binding (task : string) db : py (string * Z) :=
  let tables := others (evidence db) in
  if negb (has_attempts tables task) then Ok (no_lineage, 1)
  else
    match terminal_attempts tables task with
    | [(attempt, _, _)] =>
        a ← converted DependencyReviewError "terminal dependency review subset is unavailable"
              (_ ← verify_task_lineage tables task; read_attempt tables attempt);
        let '(owner, disposition, subset) := a in
        _ ← gate_ensure ((owner ==? task) && negb (length (s_members subset) =? 0)%nat)
              "terminal dependency review subset is unavailable";
        Ok (dumps (lineage_payload attempt disposition subset), Z.of_nat (length (s_members subset)))
    | _ => gate_error "terminal dependency review lineage is unavailable"
    end.

Definition stale_graph : string := "dependency graph evidence is unavailable or stale".

Definition member_row (m : GraphMember) : string * string * string :=
  (member_id (m_member m), member_fingerprint (m_member m), content_digest (m_member m)).

Definition require_current_dependency_graph (task candidate : string) (c : TypedContext) (e : GateEvidence) db : py unit :=
  let tables := others (evidence db) in
  _ ← gate_ensure (1 <? x_source_count c) "dependency graph PASS is not valid for a single-source task";
  match x_graph_version c, x_graph_digest c with
  | Some version, Some digest =>
      _ ← gate_ensure (is_token (Typed version) && is_graph_digest (Typed digest)) "dependency graph context is unavailable";
      current ← converted DependencyGraphError stale_graph (read_current tables);
      let own := List.filter (λ m, m_task_id m ==? task) (gs_members current) in
      let policy := if startswith "sha256:" (x_policy_digest c) then x_policy_digest c
                    else String.append "sha256:" (x_policy_digest c) in
      match terminal_attempts tables task with
      | (attempt, snapshot, state) :: _ =>
          let expected := if state ==? "accepted" then subset_members tables snapshot else [] in
          let members := sorted_by (λ r : string * string * string, [r.1.1; r.1.2; r.2]) (map member_row own) in
          _ ← gate_ensure
                ((graph_version_id current ==? Some version)
                 && (gs_binding current ==? Some {| b_candidate_sha := candidate; b_policy_digest := policy;
                                                    b_configuration_digest := resolved_digest (x_binding c);
                                                    b_validator_digest := VALIDATOR_DIGEST |})
                 && (expected !=? []) && (members ==? expected)
                 && same_elements (map m_snapshot_id own) [snapshot]
                 && edge_of_attempt tables version attempt) stale_graph;
          match accepted_decision tables version with
          | Some (sha, decision, recorded) =>
              gate_ensure ((sha ==? candidate) && (decision ==? "accepted")
                           && (graph_fingerprint recorded ==? graph_fingerprint digest)
                           && (evidence_fingerprint e ==? Typed (graph_fingerprint digest))) stale_graph
          | None => gate_error stale_graph
          end
      | [] => gate_error stale_graph
      end
  | _, _ => gate_error "dependency graph context is unavailable"
  end.

(** ** The persisted decision *)

Definition read_gate_context (task candidate : string) db : option TypedContext :=
  r ← gate_contexts (evidence db) !! (task, candidate); context_of_row task candidate r.

Definition gate_order (kv : GateKeyColumns * GateRow) : list string := [kv.1.1.1.2; kv.1.1.2; kv.1.2].

(** The rows of a candidate, by gate, evaluator and fingerprint. *)
Definition rows_of (task candidate : string) db : list (GateKeyColumns * GateRow) :=
  sorted_by gate_order
    (List.filter (λ kv, (gate_task kv.1 ==? task) && (gate_candidate kv.1 ==? candidate)) (map_to_list (gate_rows (evidence db)))).

(** The rows whose fingerprint is bound to the candidate. *)
Definition bound_rows (task candidate : string) db : list (GateKeyColumns * GateRow) :=
  List.filter (λ kv, (task, candidate, gate_fingerprint kv.1) in? elements (candidate_rows (evidence db)))
    (rows_of task candidate db).

Definition evidence_rows (rows : list (GateKeyColumns * GateRow)) : list GateEvidence :=
  map (λ kv, evidence_of_row kv.1 kv.2) rows.

(** The last step: a multi-source PASS needs the accepted graph. *)
Definition with_current_graph (task candidate : string) (c : TypedContext) (items : list GateEvidence) (d : GateDecision) db :
    py GateDecision :=
  if (d_outcome d ==? PASS) && (1 <? x_source_count c) then
    match List.find is_graph_pass items with
    | None => Ok (blocked "dependency-graph" "accepted graph decision is unavailable")
    | Some e =>
        match require_current_dependency_graph task candidate c e db with
        | Ok _ => Ok d
        | Err x => if exn_kind x ==? GateError then Ok (blocked "dependency-graph" "accepted graph decision is stale") else Err x
        end
    end
  else Ok d.

Definition decision_from_connection (i : TaskIdentity) db : py GateDecision :=
  let task := StateDb.task_id i in
  match candidate_seals (evidence db) !! task, lease db with
  | Some s, Some l =>
      if (se_base s !=? base_sha i) || (se_state s !=? l_state_identity l)
      then Ok (blocked "context" "candidate seal is unavailable or stale")
      else
        let candidate := se_candidate s in
        pending ← unresolved_final_gate_blockers task candidate db;
        if (pending : bool) then Ok (blocked "review-items" "unresolved PASS follow-up remains")
        else
          match gate_contexts (evidence db) !! (task, candidate), read_gate_context task candidate db with
          | Some r, Some c =>
              match terminal_dependency_binding task db with
              | Err x => if exn_kind x ==? GateError
                         then Ok (blocked "context" "affected source subset is unavailable or stale") else Err x
              | Ok (terminal, count) =>
                  if (gc_terminal r !=? terminal) || negb (x_source_count c =? count)
                  then Ok (blocked "context" "terminal dependency-review binding is stale")
                  else
                    let items := evidence_rows (bound_rows task candidate db) in
                    with_current_graph task candidate c items
                      (decide_gates (Typed (gate_context c)) (Typed (map Typed items))) db
              end
          | _, _ => Ok (blocked "context" "gate context is unavailable")
          end
  | _, _ => Ok (blocked "context" "candidate seal is unavailable or stale")
  end.

(** ** Trusted policy and review limit *)

Record TrustedGatePolicyEvidence := {
  tp_snapshot : dyn TrustedPolicySnapshot;
  tp_receipt : dyn ActivationReceipt;
  tp_standing : dyn StandingAuthority;
  tp_evaluated_at : dyn datetime;
  tp_status : dyn ReceiptStatus;
}.

Definition nul : ascii := ascii_of_N 0.

Definition task_identity_fingerprint (i : TaskIdentity) : string :=
  sha256_hex (utf8 (join nul [StateDb.task_id i; StateDb.source_id i; StateDb.repository_id i; StateDb.branch i;
                              StateDb.worktree i; StateDb.base_sha i])).

(** [str(Path(s))] on POSIX: repeated and single-dot components are dropped, and
    exactly two leading slashes are kept. *)
Definition path_text (s : string) : string :=
  let parts := List.filter (λ c, (c !=? "") && (c !=? ".")) (split_on slash s) in
  let root := if startswith "//" s && negb (startswith "///" s) then "//" else if startswith "/" s then "/" else "" in
  if (root ==? "") && (parts ==? []) then "." else String.append root (join slash parts).

Definition committed_identity (task : string) db : py TaskIdentity :=
  match tasks db !! task with
  | None => gate_error "task identity is unavailable"
  | Some t => Ok {| StateDb.task_id := task; StateDb.source_id := t_source t; StateDb.repository_id := t_repository t;
                    StateDb.branch := t_branch t; StateDb.worktree := t_worktree t; StateDb.base_sha := t_base t |}
  end.

(** [require_runtime_binding] of state.py. *)
Definition require_runtime_binding (task : string) (b : RuntimeBinding) db : py unit :=
  _ ← ensure (configurations (evidence db) !! task ==? Some (columns b))
        "resolved configuration binding is missing or has drifted";
  if has_review_policy b then
    ensure (review_policies (evidence db) !! task ==? Some (resolved_digest b, review_columns b))
      "resolved review policy binding is missing or has drifted"
  else Ok ().

(** [except (AttributeError, TypeError, ValueError, StateError)], with the
    subclasses that the block can raise. *)
Definition policy_unavailable (e : exn) : bool :=
  exn_kind e in? [AttributeError; TypeError; ValueError; StateError; GateError; GitIdentityError].

Definition activation_instant (c : TypedContext) (e : TrustedGatePolicyEvidence) (d : PolicyDecision) : option string :=
  match tp_receipt e with
  | Typed r =>
      if authorized d && (Policy.p_policy_digest d ==? Some (x_policy_digest c))
         && (p_receipt_fingerprint d ==? Some (x_receipt_fingerprint c))
         && runtime_bindings_match (x_binding c) (Typed (r_runtime_binding r))
         && (Policy.selected_supervisor_profile_identity r ==? x_supervisor c)
      then Some (isoformat (activated_at r)) else None
  | Foreign => None
  end.

Definition bound_identity (i : TaskIdentity) (b : WorktreeBinding) : bool :=
  (StateDb.task_id i ==? wb_task b) && (StateDb.repository_id i ==? wb_repository b) && (StateDb.branch i ==? wb_branch b)
  && (path_text (StateDb.worktree i) ==? path_text (wb_worktree b)) && (StateDb.base_sha i ==? wb_base b).

Context (migrations : list Migration) (r : Readings).
Implicit Types (w : World (GateTables R)).

Definition current_trusted_policy_activation (b : WorktreeBinding) (c : TypedContext) (e : dyn TrustedGatePolicyEvidence) w :
    py (option string) :=
  match e with
  | Foreign => Ok None
  | Typed e =>
      match (db ← open_connection migrations w;
             i ← committed_identity (x_task c) db;
             if negb (bound_identity i b) then Ok None
             else
               _ ← require_runtime_binding (StateDb.task_id i) (x_binding c) db;
               Ok (Some (evaluate_policy (tp_snapshot e) (tp_receipt e) (task_identity_fingerprint i) (x_candidate c)
                           (tp_standing e) (tp_evaluated_at e) (tp_status e)))) with
      | Ok (Some d) => Ok (activation_instant c e d)
      | Ok None => Ok None
      | Err x => if policy_unavailable x then Ok None else Err x
      end
  end.

Definition valid_review_limit_finalization (b : WorktreeBinding) (s : CandidateSeal) (rb : RuntimeBinding)
    (receipt : dyn (option ReviewLimitFinalizationReceipt)) db : bool :=
  match finalizations (evidence db) !! wb_task b with
  | None =>
      match routed_review (others (evidence db)) (wb_task b) (cs_candidate s) with
      | None => receipt ==? Typed None
      | Some routed =>
          has_review_policy rb && (rr_policy routed ==? review_columns rb)
          && negb ((rr_round routed =? review_max_rounds rb) && (rr_mode routed ==? "CONVERGING"))
          && (receipt ==? Typed None)
      end
  | Some row =>
      match receipt with
      | Typed (Some receipt) =>
          has_review_policy rb && (receipt ==? row) && (fi_candidate receipt ==? cs_candidate s)
          && (fi_round receipt =? review_max_rounds rb) && (fi_configuration receipt ==? resolved_digest rb)
          && (fi_policy receipt ==? review_policy_digest rb)
      | _ => false
      end
  end.

Definition checked_review_limit (b : WorktreeBinding) (s : CandidateSeal) (c : TypedContext) w : py bool :=
  db ← open_connection migrations w;
  Ok (valid_review_limit_finalization b s (x_binding c) (x_review_limit c) db).

(** ** Recording the evidence of a gate *)

(** What happens to the stored context of the candidate. *)
Inductive ContextChange := InsertContext | ReplaceContext | KeepContext | LineageMoved.

(** The columns of the policy, the binding and the supervisor. *)
Definition trusted_columns (r : ContextRow) : string * string * Columns * PolicyColumns * string :=
  (gc_policy_digest r, gc_receipt_fingerprint r, gc_configuration r, gc_review_policy r, gc_supervisor r).

Definition graph_columns (r : ContextRow) : string * string := (gc_graph_version r, gc_graph_digest r).

Definition context_change (new : ContextRow) (graph_pass : bool) (stored : option ContextRow) : py ContextChange :=
  match stored with
  | None => Ok InsertContext
  | Some old =>
      let same_source := (gc_source_count old =? gc_source_count new) && Bool.eqb (gc_isolated old) (gc_isolated new) in
      if same_source && (trusted_columns old ==? trusted_columns new) && (graph_columns old ==? graph_columns new) then
        if gc_activated_at old !=? gc_activated_at new then gate_error "gate context conflicts with committed task state"
        else if gc_terminal old !=? gc_terminal new then Ok LineageMoved
        else Ok KeepContext
      else
        let unchanged := (trusted_columns old ==? trusted_columns new) && (gc_activated_at old ==? gc_activated_at new) in
        let rebound := unchanged && negb (gc_source_count old =? gc_source_count new) in
        let graph_moved := unchanged && same_source in
        _ ← gate_ensure (negb (rebound && (1 <? gc_source_count new) && negb graph_pass))
              "source-count rebind requires current dependency graph evidence";
        _ ← gate_ensure (rebound || graph_moved || String.ltb (gc_activated_at old) (gc_activated_at new))
              "gate context conflicts with committed task state";
        Ok ReplaceContext
  end.

Definition set_contexts (m : gmap (string * string) ContextRow) (t : GateTables R) : GateTables R :=
  set_gate_tables (candidate_seals t) (candidate_rows t) m (gate_rows t) t.

Definition set_gate_rows (m : gmap GateKeyColumns GateRow) (t : GateTables R) : GateTables R :=
  set_gate_tables (candidate_seals t) (candidate_rows t) (gate_contexts t) m t.

Definition apply_change (change : ContextChange) (task candidate : string) (new : ContextRow) (t : GateTables R) :
    GateTables R :=
  match change with
  | InsertContext => set_contexts (<[(task, candidate) := new]> (gate_contexts t)) t
  | ReplaceContext =>
      let t := forget_candidate task candidate t in set_contexts (<[(task, candidate) := new]> (gate_contexts t)) t
  | KeepContext => t
  | LineageMoved => forget_candidate task candidate t
  end.

Definition conflicting (row : GateRow) : GateRow :=
  {| gr_outcome := EvidenceOutcome_value CONFLICT; gr_evaluated_at := gr_evaluated_at row; gr_boundary := gr_boundary row;
     gr_reason := Some "conflicting evidence replay"; gr_follow_ups := gr_follow_ups row |}.

(** The row of the evidence: new, a replay, or a conflict. *)
Definition record_row (k : GateKeyColumns) (row : GateRow) (t : GateTables R) : py (bool * GateTables R) :=
  match gate_rows t !! k with
  | Some old =>
      if old ==? row then Ok (false, t) else Ok (true, set_gate_rows (<[k := conflicting old]> (gate_rows t)) t)
  | None =>
      _ ← sqlite_int (gr_evaluated_at row);
      Ok (false, set_gate_rows (<[k := row]> (gate_rows t)) t)
  end.

(** The transaction: [Some why] is raised after the commit. *)
Definition record_transaction (b : WorktreeBinding) (s : CandidateSeal) (c : TypedContext) (e : GateEvidence)
    (k : GateKeyColumns) (row : string → GateRow) (activated : string) (l : dyn TransitionLease) (now : Z) db :
    py (option string * Database (GateTables R)) :=
  let task := wb_task b in
  let candidate := cs_candidate s in
  _ ← require_current_transition_lease l (wb_repository b) now db;
  i ← committed_identity task db;
  _ ← require_runtime_binding (StateDb.task_id i) (x_binding c) db;
  _ ← gate_ensure ((se_candidate <$> candidate_seals (evidence db) !! task) ==? Some candidate)
        "candidate seal is no longer current";
  lineage ← terminal_dependency_binding task db;
  let (terminal, count) := (lineage : string * Z) in
  _ ← gate_ensure (x_source_count c =? count) "gate context source count does not match committed task state";
  _ ← (if is_graph_pass e then require_current_dependency_graph task candidate c e db else Ok ());
  let new := context_row c activated terminal in
  change ← context_change new (is_graph_pass e) (gate_contexts (evidence db) !! (task, candidate));
  let t := apply_change change task candidate new (evidence db) in
  match change with
  | LineageMoved => Ok (Some "terminal dependency-review binding has moved", set_evidence t db)
  | _ =>
      let t := bind_row task candidate (gate_fingerprint k) t in
      text ← encode_follow_ups (follow_ups e);
      recorded ← record_row k (row text) t;
      Ok (if (recorded.1 : bool) then Some "conflicting gate evidence was recorded" else None, set_evidence recorded.2 db)
  end.

(** The checks before the candidate is looked at. *)
Definition record_checks (b : WorktreeBinding) (s : CandidateSeal) (c : TypedContext) (e : GateEvidence)
    (pe : dyn TrustedGatePolicyEvidence) w : py (GateKeyColumns * (string → GateRow) * string) :=
  _ ← gate_ensure (is_well_formed_context (gate_context c)) "gate context is invalid";
  limit ← checked_review_limit b s c w;
  _ ← gate_ensure limit "review-limit finalization receipt is unavailable or stale";
  _ ← validate_evidence e;
  policy ← current_trusted_policy_activation b c pe w;
  match policy, row_of_evidence e with
  | None, _ => gate_error "gate context does not match current trusted policy evidence"
  | Some activated, Some (k, row) =>
      _ ← gate_ensure ((x_task c ==? wb_task b) && (x_candidate c ==? cs_candidate s)
                       && (gate_task k ==? wb_task b) && (gate_candidate k ==? cs_candidate s))
            "gate evidence does not match the active task candidate";
      Ok (k, row, activated)
  | _, None => gate_error "gate evidence is invalid"
  end.

Definition record_gate_evidence (b : WorktreeBinding) (s : CandidateSeal) (c : TypedContext) (e : GateEvidence)
    (pe : dyn TrustedGatePolicyEvidence) (l : dyn TransitionLease) (now : Z) w : py unit * World (GateTables R) :=
  match record_checks b s c e pe w with
  | Err x => (Err x, w)
  | Ok (k, row, activated) =>
      match bind_candidate_evidence migrations r b s (gate_fingerprint k) l w with
      | (Err x, w) => (Err x, w)
      | (Ok _, w) =>
          match transaction migrations (record_transaction b s c e k row activated l now) w with
          | (Ok None, w) => (Ok (), w)
          | (Ok (Some why), w) => (gate_error why, w)
          | (Err x, w) => (Err x, w)
          end
      end
  end.

(** ** Reading back and the final transition *)

Definition read_gate_evidence (b : WorktreeBinding) (s : CandidateSeal) (l : dyn TransitionLease) w :
    py (list GateEvidence) * World (GateTables R) :=
  match candidate_evidence migrations r b s l w with
  | (Err x, w) => (Err x, w)
  | (Ok valid, w) =>
      (db ← open_connection migrations w;
       Ok (evidence_rows (List.filter (λ kv, gate_fingerprint kv.1 in? valid) (rows_of (wb_task b) (cs_candidate s) db))), w)
  end.

Definition read_persisted_decision (b : WorktreeBinding) (s : CandidateSeal) (l : dyn TransitionLease) w :
    py GateDecision * World (GateTables R) :=
  match candidate_evidence migrations r b s l w with
  | (Err x, w) => (Err x, w)
  | (Ok _, w) =>
      (db ← open_connection migrations w;
       i ← committed_identity (wb_task b) db;
       decision_from_connection i db, w)
  end.

Definition persisted_gate_context (task candidate : string) w : py (option TypedContext) :=
  db ← open_connection migrations w; Ok (read_gate_context task candidate db).

Definition persisted_policy_activation (task candidate : string) w : py (option string) :=
  db ← open_connection migrations w;
  Ok (row ← gate_contexts (evidence db) !! (task, candidate); non_empty (gc_activated_at row)).

Definition evaluate_gates (b : WorktreeBinding) (s : CandidateSeal) (c : TypedContext) (pe : dyn TrustedGatePolicyEvidence)
    (l : dyn TransitionLease) w : py GateDecision * World (GateTables R) :=
  match (policy ← current_trusted_policy_activation b c pe w;
         limit ← match policy with Some _ => checked_review_limit b s c w | None => Ok true end;
         Ok (policy, limit)) with
  | Err x => (Err x, w)
  | Ok (None, _) => (Ok (blocked "policy" "current trusted policy evidence is unavailable"), w)
  | Ok (_, false) => (Ok (blocked "review-limit" "review-limit finalization receipt is unavailable or stale"), w)
  | Ok (Some activated, true) =>
      match read_persisted_decision b s l w with
      | (Err x, w) => (Err x, w)
      | (Ok d, w) =>
          (stored ← persisted_gate_context (wb_task b) (cs_candidate s) w;
           if negb (contexts_match c stored) then Ok (blocked "context" "candidate identity mismatch")
           else
             instant ← persisted_policy_activation (wb_task b) (cs_candidate s) w;
             if Some activated !=? instant then Ok (blocked "policy" "trusted policy receipt is stale") else Ok d, w)
      end
  end.

End Reading.

(** What the repository state uses of this component. *)
Definition gate_tables {R} `{!LineageTables R} (migrations : list Migration) (r : Readings) : EvidenceTables (GateTables R) :=
  {| TaskState.candidate_evidence := candidate_evidence migrations r;
     decision_passes := λ db i, d ← decision_from_connection i db; Ok (bool_decide (d_outcome d = PASS)) |}.

Section Final.
Context {R : Type} `{!LineageTables R} (migrations : list Migration) (r : Readings).
Implicit Types (w : World (GateTables R)).

(** [transition_ready_for_owner] of gates.py. *)
Definition ready_for_owner (b : WorktreeBinding) (s : CandidateSeal) (c : TypedContext) (fp : string)
    (pe : dyn TrustedGatePolicyEvidence) (l : dyn TransitionLease) (now : Z) w :
    py TaskProjection * World (GateTables R) :=
  match (policy ← current_trusted_policy_activation migrations b c pe w;
         match policy with
         | None => gate_error "gate context does not match current trusted policy evidence"
         | Some activated =>
             limit ← checked_review_limit migrations b s c w;
             _ ← gate_ensure limit "review-limit finalization receipt is unavailable or stale";
             Ok activated
         end) with
  | Err x => (Err x, w)
  | Ok activated =>
      match candidate_evidence migrations r b s l w with
      | (Err x, w) => (Err x, w)
      | (Ok _, w) =>
          match (stored ← persisted_gate_context migrations (wb_task b) (cs_candidate s) w;
                 _ ← gate_ensure (contexts_match c stored) "gate context does not match committed task state";
                 instant ← persisted_policy_activation migrations (wb_task b) (cs_candidate s) w;
                 gate_ensure (Some activated ==? instant) "trusted policy receipt is stale") with
          | Err x => (Err x, w)
          | Ok _ =>
              match read_persisted_decision migrations r b s l w with
              | (Err x, w) => (Err x, w)
              | (Ok d, w) =>
                  match (_ ← gate_ensure (d_outcome d ==? PASS) "persisted gate decision is no longer current";
                         db ← open_connection migrations w;
                         committed_identity (wb_task b) db) with
                  | Err x => (Err x, w)
                  | Ok i =>
                      @transition_ready_for_owner (GateTables R) (gate_tables migrations r) migrations
                        i (Typed b) (Typed s) fp l now w
                  end
              end
          end
      end
  end.

End Final.
