(* ===== verification/GateRecords.v ===== *)
(** * What the gate tables give back (src/roundwright/gates.py)

    Reading a stored row gives what was recorded: follow-ups, runtime bindings,
    contexts and evidence. *)

From stdpp Require Import gmap.
From S2P Require Import Prelude Sha256 Json JsonParse JsonRead PyTime RuntimeBinding Policy DependencyPolicy.
From S2P Require Import DependencyReview DependencyGraph Sqlite Worktree Migrations StateDb TaskState Candidates Gates GateStore.
Open Scope Z_scope.

(** ** Follow-ups *)

Lemma text_of_jopt o : text_of (embed (canon (jopt o))) = Typed o.
Proof. destruct o as [s|]; [|done]. cbn [jopt canon embed text_of]. by rewrite narrow_points. Qed.

Lemma follow_up_payload_ok f j : follow_up_payload f = Ok j →
  storable j = true ∧ decode_follow_up (embed (canon j)) = Some f.
Proof.
  unfold follow_up_payload. destruct f as [[[i|] [b|] [fp|]]|]; try done. intros [= <-].
  split; [by destruct fp|]. rewrite embed_canon_object. unfold decode_follow_up.
  rewrite keys_stored by (vm_compute; reflexivity). rewrite !get_stored by (vm_compute; reflexivity).
  cbn [assoc]. repeat first [rewrite decide_True by done|rewrite decide_False by done|progress cbn [fmap option_fmap option_map]].
  change (embed (canon (JStr i))) with (embed (canon (jopt (Some i)))). by rewrite !text_of_jopt.
Qed.

Lemma decode_encode_items l items : mapM follow_up_payload l = Ok items →
  forallb storable items = true ∧ mapM decode_follow_up (map (λ j, embed (canon j)) items) = Some l.
Proof.
  rewrite mapM_ok. induction 1 as [|f j l items Hj _ [Hs Hd]]; [done|].
  apply follow_up_payload_ok in Hj as [Hj1 Hj2]. cbn. rewrite Hj1, Hs, Hj2. cbn. by rewrite Hd.
Qed.

(** Decoding the stored text of follow-ups gives the follow-ups. *)
Lemma decode_encode value text : encode_follow_ups value = Ok text → decode_follow_ups text = value.
Proof.
  unfold encode_follow_ups, gate_ensure. intros (_ & Hv%require_ok & H)%bind_ok. destruct value as [l|]; [|done].
  apply bind_ok in H as (items & Hm & [= <-]). destruct (decode_encode_items _ _ Hm) as [Hs Hd].
  unfold decode_follow_ups. rewrite loads_dumps by done. cbn [canon embed]. rewrite map_map, Hd. by rewrite Hv.
Qed.

(** ** Runtime bindings *)

Lemma as_text_all l : mapM as_text (map embed (map JStr l)) = Some l.
Proof.
  induction l as [|s l IH]; [done|]. change (map embed (map JStr (s :: l))) with (DStr (points s) :: map embed (map JStr l)).
  cbn [mapM as_text]. rewrite narrow_points. cbn. by rewrite IH.
Qed.

(** A constructed binding is read back from its columns. *)
Lemma binding_reads_back b : RuntimeBinding_post_init b = Ok () →
  binding_of_columns (columns b) (review_columns b) = Some b.
Proof.
  intros Hb. unfold binding_of_columns, columns, review_columns. cbn [fst snd].
  assert (storable (jstrs (supervisor_profile_identities b)) = true) as Hs.
  { cbn. apply forallb_forall. by intros j [s [<- _]]%in_map_iff. }
  rewrite (loads_plain _ Hs). unfold jstrs. change (embed (JArr ?l)) with (DArr (map embed l)). cbn [iterate option_bind mbind].
  rewrite as_text_all. cbn. destruct b. cbn in *. by rewrite Hb.
Qed.

(** ** Contexts *)

(** What a stored context keeps of a context. *)
Definition stored_context (c : TypedContext) : TypedContext :=
  {| x_task := x_task c; x_candidate := x_candidate c; x_source_count := x_source_count c; x_isolated := x_isolated c;
     x_policy_digest := x_policy_digest c; x_receipt_fingerprint := x_receipt_fingerprint c; x_binding := x_binding c;
     x_supervisor := x_supervisor c; x_review_limit := Typed None; x_graph_version := x_graph_version c;
     x_graph_digest := x_graph_digest c |}.

Lemma non_empty_default p (o : option string) : p (Typed "") = false → none_or p (Typed o) = true → non_empty (default "" o) = o.
Proof.
  intros Hp. destruct o as [[|a s]|]; [|done|done]. cbn [none_or str_of]. congruence.
Qed.

(** A well-formed context is read back from its row. *)
Lemma context_reads_back c activated terminal :
  is_well_formed_context (gate_context c) = true → RuntimeBinding_post_init (x_binding c) = Ok () →
  context_of_row (x_task c) (x_candidate c) (context_row c activated terminal) = Some (stored_context c).
Proof.
  unfold is_well_formed_context, gate_context. cbn [c_task_id c_candidate_sha source_count isolated_local_task c_policy_digest
    c_receipt_fingerprint c_runtime_binding Gates.selected_supervisor_profile_identity dependency_graph_version_id
    dependency_graph_decision_digest]. intros H Hb. breflect. destruct_and!.
  unfold context_of_row, context_row. cbn [gc_source_count gc_isolated gc_policy_digest gc_receipt_fingerprint gc_configuration
    gc_review_policy gc_supervisor gc_graph_version gc_graph_digest].
  replace (0 <? x_source_count c) with true by (symmetry; by apply Z.ltb_lt).
  repeat match goal with Hx : is_fingerprint _ = true |- _ => rewrite Hx; clear Hx end.
  cbn [andb negb]. rewrite binding_reads_back by done. cbn [mbind option_bind].
  rewrite bool_decide_eq_true_2 by done. unfold stored_context.
  rewrite (non_empty_default is_token), (non_empty_default is_graph_digest); done.
Qed.

(** ** Evidence *)

(** The typed fields of evidence that has a row. *)
Ltac typed_evidence e H :=
  unfold row_of_evidence in H;
  destruct e as [task candidate key outcome evaluator instant fp boundary why fs]; cbn in H;
  destruct task as [task|]; [|done]; destruct candidate as [candidate|]; [|done]; destruct key as [key|]; [|done];
  destruct evaluator as [evaluator|]; [|done]; destruct fp as [fp|]; [|done]; destruct outcome as [outcome|]; [|done];
  destruct instant as [instant|]; [|done]; destruct boundary as [boundary|]; [|done]; destruct why as [why|]; [|done];
  injection H as <- <-.

Lemma evidence_reads_back e k row text :
  row_of_evidence e = Some (k, row) → encode_follow_ups (follow_ups e) = Ok text → evidence_of_row k (row text) = e.
Proof.
  intros H Ht%decode_encode. typed_evidence e H. unfold evidence_of_row. cbn in *. by rewrite Ht.
Qed.

Lemma row_of_evidence_keys e k row : row_of_evidence e = Some (k, row) →
  e_task_id e = Typed (gate_task k) ∧ e_candidate_sha e = Typed (gate_candidate k)
  ∧ evidence_fingerprint e = Typed (gate_fingerprint k).
Proof. intros H. by typed_evidence e H. Qed.

(** Follow-ups whose text exists are those of the evidence; a conflict keeps them. *)
Lemma conflicting_evidence k row : evidence_of_row k (conflicting row) =
  let e := evidence_of_row k row in
  {| e_task_id := e_task_id e; e_candidate_sha := e_candidate_sha e; gate_key := gate_key e;
     e_outcome := Typed (EvidenceOutcome_value CONFLICT); evaluator_id := evaluator_id e; evaluated_at := evaluated_at e;
     evidence_fingerprint := evidence_fingerprint e; changed_boundary := changed_boundary e;
     e_reason := Typed (Some "conflicting evidence replay"); follow_ups := follow_ups e |}.
Proof. by destruct k as [[[[]]]]. Qed.

Lemma conflicting_valid k row :
  validate_evidence (evidence_of_row k row) = Ok () → validate_evidence (evidence_of_row k (conflicting row)) = Ok ().
Proof.
  rewrite conflicting_evidence. unfold validate_evidence, gate_ensure. intros ([] & Hk & H%require_ok)%bind_ok.
  cbn zeta. cbn [gate_key]. rewrite Hk. cbn [mbind result_bind]. apply require_ok.
  unfold is_well_formed in *. cbn [e_task_id e_candidate_sha gate_key e_outcome evaluator_id evaluated_at evidence_fingerprint
    changed_boundary e_reason follow_ups]. breflect. destruct_and!. split_and!; try done.
Qed.
