(* ===== verification/GateHistory.v ===== *)
(** * Histories of the gate tables (src/roundwright/gates.py, git_identity.py, state.py)

    What holds of the tables after any operations of any process, and the final
    transition of a task over the persisted gates. *)

From stdpp Require Import gmap.
From S2P Require Import Prelude Sha256 Json JsonParse JsonRead PyTime RuntimeBinding Policy DependencyPolicy.
From S2P Require Import DependencyReview DependencyGraph Sqlite Worktree Migrations StateDb TaskState Candidates Gates GateStore.
From S2P Require Import GateRecords.
Open Scope Z_scope.

(** ** The invariant of the tables *)

Section Invariant.
Context {R : Type} `{!LineageTables R}.
Implicit Types (t : GateTables R) (db : Database (GateTables R)).

(** The candidate is the one sealed for the task. *)
Definition sealed t (task candidate : string) : Prop :=
  ∃ s, candidate_seals t !! task = Some s ∧ se_candidate s = candidate.

(** Everything stored about a candidate is about the sealed one; a context reads
    back; evidence is well formed, bound to the candidate and has a context. *)
Record gate_sound t : Prop := {
  sound_bound : ∀ task candidate fp, (task, candidate, fp) ∈ candidate_rows t → sealed t task candidate;
  sound_contexts : ∀ task candidate x, gate_contexts t !! (task, candidate) = Some x →
    sealed t task candidate ∧ is_Some (context_of_row task candidate x);
  sound_rows : ∀ k x, gate_rows t !! k = Some x →
    (gate_task k, gate_candidate k, gate_fingerprint k) ∈ candidate_rows t
    ∧ is_Some (gate_contexts t !! (gate_task k, gate_candidate k))
    ∧ validate_evidence (evidence_of_row k x) = Ok ();
}.

(** A record of evidence for the sealed candidate, whose context is [new]. *)
Record recording t (task candidate : string) (new : ContextRow) (change : ContextChange) (k : GateKeyColumns)
    (row : GateRow) (conflict : bool) t' : Prop := {
  rec_sealed : sealed t task candidate;
  rec_context : is_Some (context_of_row task candidate new);
  rec_change : change ≠ LineageMoved;
  rec_kept : change = KeepContext → is_Some (gate_contexts t !! (task, candidate));
  rec_key : gate_task k = task ∧ gate_candidate k = candidate;
  rec_valid : validate_evidence (evidence_of_row k row) = Ok ();
  rec_row : record_row k row (bind_row task candidate (gate_fingerprint k) (apply_change change task candidate new t))
            = Ok (conflict, t');
}.

Inductive gate_change t : GateTables R → Prop :=
  | gate_candidate_change t' : candidate_change t t' → gate_change t t'
  | gate_moved task candidate : gate_change t (forget_candidate task candidate t)
  | gate_recorded task candidate new change k row conflict t' :
      recording t task candidate new change k row conflict t' → gate_change t t'.

Ltac tables := cbn [forget_task forget_candidate set_gate_tables set_seals bind_row set_contexts set_gate_rows invalidated
  candidate_seals candidate_rows gate_contexts gate_rows] in *.

Lemma sound_forget_task t ss task : gate_sound t →
  (∀ task', task' ≠ task → ss !! task' = candidate_seals t !! task') → gate_sound (set_seals ss (forget_task task t)).
Proof.
  intros [Hb Hc Hr] Hss.
  assert (∀ task' candidate, task' ≠ task → sealed t task' candidate → sealed (set_seals ss (forget_task task t)) task' candidate) as Hsealed.
  { intros task' candidate Hne (s & Hs & Heq). exists s. tables. by rewrite Hss. }
  constructor; tables.
  - intros task' candidate fp [Hne Hin]%elem_of_filter. by eapply Hsealed, Hb.
  - intros task' candidate x [Hx Hne]%map_lookup_filter_Some. destruct (Hc _ _ _ Hx). eauto.
  - intros k x [Hx Hne]%map_lookup_filter_Some. cbn in Hne. destruct (Hr _ _ Hx) as (H1 & [y Hy] & H3). split_and!; try done.
    + by apply elem_of_filter.
    + exists y. by apply map_lookup_filter_Some.
Qed.

Lemma sound_seals t ss : gate_sound t → (∀ task candidate, sealed t task candidate → sealed (set_seals ss t) task candidate) →
  gate_sound (set_seals ss t).
Proof. intros [Hb Hc Hr] Hs. constructor; [by eauto| |by eauto]. intros task candidate x Hx. destruct (Hc _ _ _ Hx). eauto. Qed.

Lemma sound_resealed t task row : gate_sound t → gate_sound (resealed task row t).
Proof.
  intros Hs. unfold resealed. destruct (candidate_seals t !! task) as [old|] eqn:Hold; [case_bool_decide as Heq; cbn [negb]|].
  - apply sound_seals; [done|]. intros task' candidate (s & Hs' & Hc). exists s. tables. split; [|done].
    rewrite insert_id by (by rewrite Hold, Heq). done.
  - apply sound_forget_task; [done|]. intros task' Hne. tables. by rewrite lookup_insert_ne.
  - apply sound_seals; [done|]. intros task' candidate (s & Hs' & Hc). exists s. tables. split; [|done].
    rewrite lookup_insert_ne; [done|]. intros ->. congruence.
Qed.

Lemma sound_bind t task candidate fp : gate_sound t → sealed t task candidate → gate_sound (bind_row task candidate fp t).
Proof.
  intros [Hb Hc Hr] Hs. constructor; tables.
  - intros task' candidate' fp' [Heq%elem_of_singleton|Hin]%elem_of_union; [by injection Heq as -> -> ->|by eapply Hb].
  - done.
  - intros k x Hx. destruct (Hr _ _ Hx) as (H1 & H2 & H3). split_and!; try done. apply elem_of_union. by right.
Qed.

Lemma sound_forget_candidate t task candidate : gate_sound t → gate_sound (forget_candidate task candidate t).
Proof.
  intros [Hb Hc Hr]. constructor; tables.
  - intros task' candidate' fp [Hne Hin]%elem_of_filter. by eapply Hb.
  - done.
  - intros k x [Hx Hne]%map_lookup_filter_Some. cbn in Hne. destruct (Hr _ _ Hx) as (H1 & H2 & H3). split_and!; try done.
    apply elem_of_filter. by split.
Qed.

Lemma sound_context t task candidate new : gate_sound t → sealed t task candidate → is_Some (context_of_row task candidate new) →
  gate_sound (set_contexts (<[(task, candidate) := new]> (gate_contexts t)) t).
Proof.
  intros [Hb Hc Hr] Hs Hn. constructor; tables; [done| |].
  - intros task' candidate' x. destruct (decide ((task, candidate) = (task', candidate'))) as [[= -> ->]|Hne].
    + rewrite lookup_insert_eq. by intros [= <-].
    + rewrite lookup_insert_ne by done. apply Hc.
  - intros k x Hx. destruct (Hr _ _ Hx) as (H1 & H2 & H3). split_and!; try done.
    destruct (decide ((task, candidate) = (gate_task k, gate_candidate k))) as [->|Hne];
      [rewrite lookup_insert_eq; eauto|by rewrite lookup_insert_ne].
Qed.

Lemma sound_apply t task candidate new change : gate_sound t → sealed t task candidate →
  is_Some (context_of_row task candidate new) → gate_sound (apply_change change task candidate new t).
Proof.
  intros Ht Hs Hn. destruct change; cbn [apply_change]; try done.
  - by apply sound_context.
  - apply sound_context; [by apply sound_forget_candidate|done|done].
  - by apply sound_forget_candidate.
Qed.

Lemma apply_seals change task candidate new t : candidate_seals (apply_change change task candidate new t) = candidate_seals t.
Proof. by destruct change. Qed.

Lemma record_row_cases k row t conflict t' : record_row k row t = Ok (conflict, t') →
  conflict = false ∧ t' = t ∧ gate_rows t !! k = Some row
  ∨ conflict = false ∧ gate_rows t !! k = None ∧ t' = set_gate_rows (<[k := row]> (gate_rows t)) t
  ∨ ∃ old, conflict = true ∧ gate_rows t !! k = Some old ∧ old ≠ row
           ∧ t' = set_gate_rows (<[k := conflicting old]> (gate_rows t)) t.
Proof.
  unfold record_row. destruct (gate_rows t !! k) as [old|].
  - case_bool_decide as Heq; intros [= <- <-]; [by left; subst|right; right; eauto].
  - intros (_ & _ & [= <- <-])%bind_ok. by right; left.
Qed.

Lemma sound_row t k row : gate_sound t → (gate_task k, gate_candidate k, gate_fingerprint k) ∈ candidate_rows t →
  is_Some (gate_contexts t !! (gate_task k, gate_candidate k)) → validate_evidence (evidence_of_row k row) = Ok () →
  gate_sound (set_gate_rows (<[k := row]> (gate_rows t)) t).
Proof.
  intros [Hb Hc Hr] H1 H2 H3. constructor; tables; try done.
  intros k' x. destruct (decide (k = k')) as [<-|Hne]; [rewrite lookup_insert_eq; by intros [= <-]|].
  rewrite lookup_insert_ne by done. apply Hr.
Qed.

Lemma sound_recording t task candidate new change k row conflict t' :
  gate_sound t → recording t task candidate new change k row conflict t' → gate_sound t'.
Proof.
  intros Ht [Hs Hn Hch Hk [<- <-] Hv Hrow].
  assert (gate_sound (bind_row (gate_task k) (gate_candidate k) (gate_fingerprint k)
            (apply_change change (gate_task k) (gate_candidate k) new t))) as Hsound.
  { apply sound_bind; [by apply sound_apply|]. unfold sealed. by rewrite apply_seals. }
  assert (is_Some (gate_contexts (apply_change change (gate_task k) (gate_candidate k) new t) !! (gate_task k, gate_candidate k)))
    as Hctx by (destruct change; cbn [apply_change]; tables; rewrite ?lookup_insert_eq; by eauto).
  apply record_row_cases in Hrow as [(_ & -> & _)|[(_ & _ & ->)|(old & _ & Hold & _ & ->)]]; [done| |].
  - apply sound_row; try done. cbn [bind_row set_gate_tables candidate_rows]. apply elem_of_union. left. by apply elem_of_singleton.
  - destruct Hsound as [Hb Hc Hr]. destruct (Hr _ _ Hold) as (H1 & H2 & H3). apply sound_row; try done.
    by apply conflicting_valid.
Qed.

(** Every change of the tables keeps the invariant. *)
Lemma gate_sound_change t t' : gate_sound t → gate_change t t' → gate_sound t'.
Proof.
  intros Ht [t1 [task|task row|s fp Hs]|task candidate|]; [..|eauto using sound_recording].
  - apply sound_forget_task; [done|]. intros task' Hne. by rewrite lookup_delete_ne.
  - by apply sound_resealed.
  - apply sound_bind; [done|]. by exists (row_of_seal s).
  - by apply sound_forget_candidate.
Qed.

End Invariant.

(** ** What the operations do to the tables *)

Section Operations.
Context {R : Type} `{!LineageTables R} (migrations : list Migration).
Implicit Types (t : GateTables R) (db : Database (GateTables R)) (w : World (GateTables R)).

(** The arguments that passed the checks made before the candidate is looked at. *)
Record checked_record (b : WorktreeBinding) (s : CandidateSeal) (c : TypedContext) (e : GateEvidence)
    (k : GateKeyColumns) (row : string → GateRow) : Prop := {
  ck_context : is_well_formed_context (gate_context c) = true;
  ck_evidence : validate_evidence e = Ok ();
  ck_row : row_of_evidence e = Some (k, row);
  ck_task : x_task c = wb_task b;
  ck_candidate : x_candidate c = cs_candidate s;
  ck_key : gate_task k = wb_task b ∧ gate_candidate k = cs_candidate s;
}.

Lemma record_checks_ok b s c e pe w k row activated :
  record_checks migrations b s c e pe w = Ok (k, row, activated) →
  checked_record b s c e k row ∧ current_trusted_policy_activation migrations b c pe w = Ok (Some activated)
  ∧ checked_review_limit migrations b s c w = Ok true.
Proof.
  unfold record_checks, gate_ensure. intros (_ & H1%require_ok & H)%bind_ok.
  apply bind_ok in H as (limit & H2 & H). apply bind_ok in H as (_ & H3%require_ok & H). subst limit.
  apply bind_ok in H as ([] & H4 & H). apply bind_ok in H as (policy & H5 & H). destruct policy as [instant|]; [|done].
  destruct (row_of_evidence e) as [[k' row']|] eqn:H6; [|done]. apply bind_ok in H as (_ & H7%require_ok & [= -> -> ->]).
  breflect. destruct_and!. split; [by constructor|by split].
Qed.

Lemma record_transaction_ok b s c e k row activated l now db out db' :
  checked_record b s c e k row → RuntimeBinding_post_init (x_binding c) = Ok () →
  record_transaction b s c e k row activated l now db = Ok (out, db') →
  ∃ l' terminal change, l = Typed l' ∧ lease db = Some l'
    ∧ terminal_dependency_binding (wb_task b) db = Ok (terminal, x_source_count c)
    ∧ (is_graph_pass e = true → require_current_dependency_graph (wb_task b) (cs_candidate s) c e db = Ok ())
    ∧ let new := context_row c activated terminal in
      context_change new (is_graph_pass e) (gate_contexts (evidence db) !! (wb_task b, cs_candidate s)) = Ok change
      ∧ (out ≠ None ∧ db' = write (forget_candidate (wb_task b) (cs_candidate s)) db
         ∨ ∃ text conflict t', encode_follow_ups (follow_ups e) = Ok text
           ∧ recording (evidence db) (wb_task b) (cs_candidate s) new change k (row text) conflict t'
           ∧ db' = set_evidence t' db ∧ out = if conflict : bool then Some "conflicting gate evidence was recorded" else None).
Proof.
  intros [Hc He Hrow Ht Hs [Hk1 Hk2]] Hb. unfold record_transaction, gate_ensure.
  intros ([] & (l' & -> & Hl & _)%lease_checked & H)%bind_ok. apply bind_ok in H as (i & _ & H).
  apply bind_ok in H as ([] & _ & H). apply bind_ok in H as (_ & Hseal%require_ok & H).
  apply bind_ok in H as ([terminal count] & Hterm & H). apply bind_ok in H as (_ & Hcount%require_ok & H).
  apply bind_ok in H as ([] & Hgraph & H). apply bind_ok in H as (change & Hchange & H). breflect. subst count.
  exists l', terminal, change. do 3 (split; [done|]). split; [by intros Hg; rewrite Hg in Hgraph|]. cbn zeta. split; [done|].
  pose proof (context_reads_back c activated terminal Hc Hb) as Hread. rewrite Ht, Hs in Hread.
  assert (sealed (evidence db) (wb_task b) (cs_candidate s)) as Hsealed.
  { destruct (candidate_seals (evidence db) !! wb_task b) as [seal|] eqn:Hlk; [|done]. exists seal. split; [done|]. by injection Hseal. }
  assert (∀ out' d, (text ← encode_follow_ups (follow_ups e);
    recorded ← record_row k (row text) (bind_row (wb_task b) (cs_candidate s) (gate_fingerprint k)
      (apply_change change (wb_task b) (cs_candidate s) (context_row c activated terminal) (evidence db)));
    Ok (if (recorded.1 : bool) then Some "conflicting gate evidence was recorded" else None, set_evidence recorded.2 db))
    = Ok (out', d) → change ≠ LineageMoved → (change = KeepContext → is_Some (gate_contexts (evidence db) !! (wb_task b, cs_candidate s))) →
    ∃ text conflict t', encode_follow_ups (follow_ups e) = Ok text
      ∧ recording (evidence db) (wb_task b) (cs_candidate s) (context_row c activated terminal) change k (row text) conflict t'
      ∧ d = set_evidence t' db ∧ out' = if conflict : bool then Some "conflicting gate evidence was recorded" else None) as Hrec.
  { intros out' d (text & Htext & (recorded & Hr & [= <- <-])%bind_ok)%bind_ok Hmoved Hkeep.
    destruct recorded as [conflict t']. exists text, conflict, t'. split_and!; try done. constructor; eauto.
    by rewrite (evidence_reads_back e k row text Hrow Htext). }
  unfold context_change in Hchange. destruct (gate_contexts _ !! _) as [old|] eqn:Hold.
  - destruct change; [right; eapply Hrec; eauto..|]. injection H as <- <-. by left.
  - injection Hchange as <-. right. by eapply Hrec.
Qed.

(** Nothing happens, or the tables change step by step. *)
Definition evolves w w' : Prop :=
  w' = w ∨ ∃ db db', w = Some db ∧ w' = Some db' ∧ rtc gate_change (evidence db) (evidence db').

Lemma evolves_refl w : evolves w w.
Proof. by left. Qed.

Lemma evolves_trans w1 w2 w3 : evolves w1 w2 → evolves w2 w3 → evolves w1 w3.
Proof.
  intros [->|(db1 & db2 & -> & -> & H1)]; [done|]. intros [->|(db2' & db3 & [= <-] & -> & H2)]; right; eexists _, _; [done|].
  split_and!; try done. by etrans.
Qed.

Lemma writes_evolves l w w' : writes candidate_change l w w' → evolves w w'.
Proof.
  intros [->|(db & l' & t & -> & _ & _ & Hc & ->)]; [by left|right]. exists db, (set_evidence t db). split_and!; try done.
  apply rtc_once. by constructor.
Qed.

Lemma invalidated_evolves b l w w' : writes (λ t t', t' = invalidated (wb_task b) t) l w w' → evolves w w'.
Proof. intros H. eapply writes_evolves, writes_mono; [|exact H]. intros t t' ->. constructor. Qed.

Lemma collect_evolves r b s l w : evolves w (candidate_evidence migrations r b s l w).2.
Proof.
  destruct (candidate_evidence_cases migrations r b s l w) as [[-> _]|(e & w' & -> & Hw)]; [by left|by eapply invalidated_evolves].
Qed.

Lemma record_evolves r b s c e pe l now w : RuntimeBinding_post_init (x_binding c) = Ok () →
  evolves w (record_gate_evidence migrations r b s c e pe l now w).2.
Proof.
  intros Hb. unfold record_gate_evidence. destruct (record_checks _ _ _ _ _ _ _) as [[[k row] activated]|x] eqn:Hck; [|by left].
  apply record_checks_ok in Hck as (Hck & _ & _).
  pose proof (writes_evolves _ _ _ (bind_writes migrations r b s (gate_fingerprint k) l w)) as H1.
  destruct (bind_candidate_evidence _ _ _ _ _ _ _) as [[[]|x] w1]; cbn [snd] in *; [|done].
  eapply evolves_trans; [exact H1|].
  destruct (transaction_cases migrations (record_transaction b s c e k row activated l now) w1)
    as [[x ->]|(db & out & db' & -> & _ & Ht & ->)]; [by left|].
  assert (evolves (Some db) (Some db')) as H2.
  { right. exists db, db'. split_and!; try done.
    destruct (record_transaction_ok _ _ _ _ _ _ _ _ _ _ _ _ Hck Hb Ht) as (l' & terminal & change & _ & _ & _ & _ & _ & H).
    apply rtc_once. destruct H as [[_ ->]|(text & conflict & t' & _ & Hrec & -> & _)]; [apply gate_moved|by eapply gate_recorded]. }
  by destruct out.
Qed.

Lemma read_evolves r b s l w : evolves w (read_gate_evidence migrations r b s l w).2.
Proof.
  unfold read_gate_evidence. pose proof (collect_evolves r b s l w) as H. by destruct (candidate_evidence _ _ _ _ _ _) as [[]].
Qed.

Lemma decision_evolves r b s l w : evolves w (read_persisted_decision migrations r b s l w).2.
Proof.
  unfold read_persisted_decision. pose proof (collect_evolves r b s l w) as H. by destruct (candidate_evidence _ _ _ _ _ _) as [[]].
Qed.

Lemma evaluate_evolves r b s c pe l w : evolves w (evaluate_gates migrations r b s c pe l w).2.
Proof.
  unfold evaluate_gates. destruct (_ ≫= _) as [[[activated|] []]|x]; try apply evolves_refl.
  pose proof (decision_evolves r b s l w) as H. by destruct (read_persisted_decision _ _ _ _ _ _) as [[]].
Qed.

(** The final transition keeps the tables, but for what collecting the evidence
    of the candidate does. *)
Lemma final_evolves r i b s fp l now w :
  evolves w (@transition_ready_for_owner _ (gate_tables migrations r) migrations i b s fp l now w).2.
Proof.
  unfold transition_ready_for_owner. destruct b as [b|], s as [s|];
    match goal with |- context [after ?c ?op ?w] => destruct (after_cases c op w) as [[x ->]|[_ ->]] end; try by left.
  cbn [TaskState.candidate_evidence gate_tables]. pose proof (collect_evolves r b s l w) as H.
  destruct (candidate_evidence _ _ _ _ _ _) as [[found|x] w1]; cbn [snd] in *; [|done]. eapply evolves_trans; [exact H|].
  destruct (@commit_cases _ (gate_tables migrations r) migrations i DiffReview ReadyForOwner fp l now true w1)
    as [[x ->]|(db & l' & tr & -> & _ & _ & _ & _ & _ & _ & _ & _ & ->)]; [by left|].
  right. eexists db, _. split_and!; [done..|]. cbn. case_match; reflexivity.
Qed.

Lemma ready_evolves r b s c fp pe l now w : evolves w (ready_for_owner migrations r b s c fp pe l now w).2.
Proof.
  unfold ready_for_owner. destruct (_ ≫= _) as [activated|x]; [|by left].
  pose proof (collect_evolves r b s l w) as H1. destruct (candidate_evidence _ _ _ _ _ _) as [[found|x] w1]; cbn [snd] in *; [|done].
  destruct (_ ≫= _) as [[]|x]; [|done]. pose proof (decision_evolves r b s l w1) as H2.
  destruct (read_persisted_decision _ _ _ _ _ _) as [[d|x] w2]; cbn [snd] in *; [|by eapply evolves_trans].
  destruct (_ ≫= _) as [i|x]; [|by eapply evolves_trans].
  eapply evolves_trans; [exact H1|]. eapply evolves_trans; [exact H2|]. apply final_evolves.
Qed.

End Operations.

(** ** Histories *)

(** One call of any process, with the answers of git and the clocks it got. *)
Inductive gate_operation :=
  | SealCandidate (r : Readings) (b : WorktreeBinding) (c : GitEntrypointControl) (l : dyn TransitionLease)
  | BindEvidence (r : Readings) (b : WorktreeBinding) (s : CandidateSeal) (fp : string) (l : dyn TransitionLease)
  | CollectEvidence (r : Readings) (b : WorktreeBinding) (s : CandidateSeal) (l : dyn TransitionLease)
  | RecordGate (r : Readings) (b : WorktreeBinding) (s : CandidateSeal) (c : TypedContext) (e : GateEvidence)
      (pe : dyn TrustedGatePolicyEvidence) (l : dyn TransitionLease) (now : Z)
  | ReadGates (r : Readings) (b : WorktreeBinding) (s : CandidateSeal) (l : dyn TransitionLease)
  | EvaluateGates (r : Readings) (b : WorktreeBinding) (s : CandidateSeal) (c : TypedContext)
      (pe : dyn TrustedGatePolicyEvidence) (l : dyn TransitionLease)
  | ReadyForOwnerGates (r : Readings) (b : WorktreeBinding) (s : CandidateSeal) (c : TypedContext) (fp : string)
      (pe : dyn TrustedGatePolicyEvidence) (l : dyn TransitionLease) (now : Z).

(** A runtime binding is a constructed one. *)
Definition constructed (o : gate_operation) : Prop :=
  match o with RecordGate _ _ _ c _ _ _ _ => RuntimeBinding_post_init (x_binding c) = Ok () | _ => True end.

Section Histories.
Context {R : Type} `{!LineageTables R} (migrations : list Migration).
Implicit Types (t : GateTables R) (db : Database (GateTables R)) (w : World (GateTables R)).

Definition run_gate (o : gate_operation) w : World (GateTables R) :=
  match o with
  | SealCandidate r b c l => (seal_candidate migrations r b c l w).2
  | BindEvidence r b s fp l => (bind_candidate_evidence migrations r b s fp l w).2
  | CollectEvidence r b s l => (candidate_evidence migrations r b s l w).2
  | RecordGate r b s c e pe l now => (record_gate_evidence migrations r b s c e pe l now w).2
  | ReadGates r b s l => (read_gate_evidence migrations r b s l w).2
  | EvaluateGates r b s c pe l => (evaluate_gates migrations r b s c pe l w).2
  | ReadyForOwnerGates r b s c fp pe l now => (ready_for_owner migrations r b s c fp pe l now w).2
  end.

Definition no_gates t : Prop := candidate_rows t = ∅ ∧ gate_contexts t = ∅ ∧ gate_rows t = ∅.

Definition same_gates t t' : Prop :=
  candidate_seals t' = candidate_seals t ∧ candidate_rows t' = candidate_rows t ∧ gate_contexts t' = gate_contexts t
  ∧ gate_rows t' = gate_rows t.

(** The repositories that can be reached: other components change anything but
    the tables of this one. *)
Inductive gate_reachable : World (GateTables R) → Prop :=
  | reach_start db : no_gates (evidence db) → gate_reachable (Some db)
  | reach_operation o w : constructed o → gate_reachable w → gate_reachable (run_gate o w)
  | reach_elsewhere db db' : same_gates (evidence db) (evidence db') → gate_reachable (Some db) → gate_reachable (Some db').

Lemma run_gate_evolves o w : constructed o → evolves w (run_gate o w).
Proof.
  destruct o; cbn [run_gate constructed]; intros Hc.
  - by eapply writes_evolves, seal_writes.
  - by eapply writes_evolves, bind_writes.
  - apply collect_evolves.
  - by apply record_evolves.
  - apply read_evolves.
  - apply evaluate_evolves.
  - apply ready_evolves.
Qed.

Lemma gate_sound_steps t t' : gate_sound t → rtc gate_change t t' → gate_sound t'.
Proof. intros Ht. induction 1; eauto using gate_sound_change. Qed.

Lemma no_gates_sound t : no_gates t → gate_sound t.
Proof.
  intros (Hb & Hc & Hr). constructor; rewrite ?Hb, ?Hc, ?Hr; [set_solver|..]; intros *; by rewrite lookup_empty.
Qed.

Lemma same_gates_sound t t' : same_gates t t' → gate_sound t → gate_sound t'.
Proof.
  intros (Hs & Hb & Hc & Hr) [Sb Sc Sr]. constructor; rewrite ?Hb, ?Hc, ?Hr; unfold sealed; rewrite ?Hs; eauto.
Qed.

(** C7 : in every reachable repository everything stored about a candidate is
    about the candidate that is sealed now: bound fingerprints, gate contexts and
    gate evidence of a task never survive its seal.  Every context reads back as a
    valid one, and every evidence row is well-formed evidence of a registered gate,
    bound to the candidate and beside a context. *)
Theorem gate_rows_follow_seal w db : gate_reachable w → w = Some db → gate_sound (evidence db).
Proof.
  intros Hr. revert db. induction Hr as [db Hn|o w Hc Hr IH|db db' Hs Hr IH]; intros db0.
  - intros [= <-]. by apply no_gates_sound.
  - destruct (run_gate_evolves o w Hc) as [->|(d & d' & -> & -> & Hsteps)]; [by apply IH|].
    intros [= <-]. eapply gate_sound_steps; [|exact Hsteps]. by apply IH.
  - intros [= <-]. eapply same_gates_sound; [exact Hs|]. by apply IH.
Qed.

(** ** The final transition *)

(** What the persisted decision accepts: the evidence stored for the sealed
    candidate is ready under the stored context, no owner blocker is open, the
    dependency review of the task is the recorded one, and a task with several
    sources has its accepted graph. *)
Record persisted_pass (i : TaskIdentity) (s : SealRow) (l : TransitionLease) (c : TypedContext) db : Prop := {
  pp_seal : candidate_seals (evidence db) !! StateDb.task_id i = Some s;
  pp_base : se_base s = base_sha i;
  pp_state : se_state s = l_state_identity l;
  pp_blockers : unresolved_final_gate_blockers (StateDb.task_id i) (se_candidate s) db = Ok false;
  pp_context : read_gate_context (StateDb.task_id i) (se_candidate s) db = Some c;
  pp_lineage : ∃ row terminal, gate_contexts (evidence db) !! (StateDb.task_id i, se_candidate s) = Some row
    ∧ gc_terminal row = terminal ∧ terminal_dependency_binding (StateDb.task_id i) db = Ok (terminal, x_source_count c);
  pp_ready : gates_ready (gate_context c)
    (map Typed (evidence_rows (bound_rows (StateDb.task_id i) (se_candidate s) db)));
  pp_graph : 1 < x_source_count c → ∃ e, e ∈ evidence_rows (bound_rows (StateDb.task_id i) (se_candidate s) db)
    ∧ is_graph_pass e = true ∧ require_current_dependency_graph (StateDb.task_id i) (se_candidate s) c e db = Ok ();
}.

Lemma with_graph_pass task candidate c items d db d' :
  with_current_graph task candidate c items d db = Ok d' → d_outcome d' = PASS →
  d' = d ∧ (1 < x_source_count c → ∃ e, e ∈ items ∧ is_graph_pass e = true
    ∧ require_current_dependency_graph task candidate c e db = Ok ()).
Proof.
  unfold with_current_graph. intros H Hp. destruct (_ && _) eqn:Hm; breflect.
  - destruct (List.find is_graph_pass items) as [e|] eqn:He; [|by injection H as <-].
    apply List.find_some in He as [Hin%list_elem_of_In He].
    destruct (require_current_dependency_graph _ _ _ _ _) as [[]|x] eqn:Hg; [|case_match; [by injection H as <-|done]].
    injection H as <-. split; [done|]. eauto.
  - injection H as <-. split; [done|]. intros Hc. destruct Hm as [Hm|Hm]; [done|lia].
Qed.

Lemma decision_pass i db l d : lease db = Some l → decision_from_connection i db = Ok d → d_outcome d = PASS →
  ∃ s c, persisted_pass i s l c db.
Proof.
  intros Hl. unfold decision_from_connection. rewrite Hl. destruct (candidate_seals _ !! _) as [s|] eqn:Hs; [|by intros [= <-]].
  destruct (_ || _) eqn:Hst; [by intros [= <-]|]. breflect. destruct Hst as [Hbase Hstate].
  intros (pending & Hb & H) Hp. destruct pending; [by injection H as <-|].
  destruct (gate_contexts _ !! _) as [row|] eqn:Hrow; [|by injection H as <-].
  destruct (read_gate_context _ _ db) as [c|] eqn:Hc; [|by injection H as <-].
  destruct (terminal_dependency_binding _ db) as [[terminal count]|x] eqn:Ht; [|case_match; by try injection H as <-].
  destruct (_ || _) eqn:Hst; [by injection H as <-|]. breflect. destruct Hst as [Hterm Hcount]. subst count.
  destruct (with_graph_pass _ _ _ _ _ _ _ H Hp) as [-> Hg]. exists s, c. constructor; try done.
  - by exists row, terminal.
  - by apply typed_pass.
Qed.

(** The evidence of a live candidate is read without a write. *)
Lemma candidate_evidence_ok r b s l w found w' : candidate_evidence migrations r b s l w = (Ok found, w') →
  w' = w ∧ require_live_candidate migrations r b s l w = (Ok (), w)
  ∧ ∃ db, w = Some db ∧ candidate_seals (evidence db) !! cs_task s = Some (row_of_seal s)
          ∧ found = fingerprints_of (cs_task s) (cs_candidate s) (evidence db).
Proof.
  unfold candidate_evidence. destruct (live_cases migrations r b s l w) as [[Hlive _]|(e & w1 & Hlive & _)]; rewrite Hlive; [|done].
  intros [= Hf <-]. split_and!; try done. unfold sealed_evidence, open_connection, require_current_seal, git_ensure in Hf.
  destruct w as [db|]; [|done]. apply bind_ok in Hf as (db' & Ho & Hf). apply bind_ok in Ho as (_ & _ & [= <-]).
  apply bind_ok in Hf as (_ & Hs%require_ok & [= <-]). breflect. by exists db.
Qed.

#[export] Instance gate_tables_ok r : @EvidenceTablesOk _ (gate_tables migrations r).
Proof.
  constructor. intros b s l w. cbn [TaskState.candidate_evidence gate_tables].
  destruct (candidate_evidence_cases migrations r b s l w) as [[-> _]|(e & w' & -> & Hw)]; [by left|].
  destruct Hw as [->|(db & l' & t & -> & -> & Hl & _ & ->)]; [by left|right]. by exists db, l', t.
Qed.

(** C5 : a task becomes ready for its owner only by the final transition from
    diff review, under the current unexpired lease, while the sealed commit is the
    clean HEAD of its worktree, and only over persisted gates that pass now: ready
    evidence of every gate for that commit under the stored context, no open owner
    blocker, the recorded dependency review, and for several sources the accepted
    graph. *)
Theorem ready_needs_persisted_gates r o db db' id row :
  @run _ (gate_tables migrations r) migrations o (Some db) = Some db' → tasks db' !! id = Some row → t_state row = ReadyForOwner →
  tasks db !! id = Some row
  ∨ ∃ i b s fp l now c, o = Finalize i (Typed b) (Typed s) fp (Typed l) now ∧ StateDb.task_id i = id
    ∧ lease db = Some l ∧ now < l_expires l
    ∧ require_live_candidate migrations r b s (Typed l) (Some db) = (Ok (), Some db)
    ∧ persisted_pass i (row_of_seal s) l c db.
Proof.
  intros Hrun Hrow Hst. pose proof (gate_tables_ok r) as Hok.
  destruct (@ready_only_through_gates _ (gate_tables migrations r) Hok migrations o db db' id row Hrun Hrow Hst)
    as [?|(i & b & s & fp & l & now & found & db1 & t & -> & Hid & _ & _ & Hs & _ & Hce & Hl & Hnow & Hpass & _)]; [by left|right].
  cbn [TaskState.candidate_evidence gate_tables] in Hce.
  destruct (candidate_evidence_ok _ _ _ _ _ _ _ Hce) as ([= ->] & Hlive & d & [= <-] & Hseal & _).
  cbn [decision_passes gate_tables] in Hpass. apply bind_ok in Hpass as (dec & Hd & [= Hp%bool_decide_eq_true]).
  destruct (decision_pass i db l dec Hl Hd Hp) as (s' & c & Hpp). exists i, b, s, fp, l, now, c. split_and!; try done.
  assert (row_of_seal s = s') as ->; [|done]. pose proof (pp_seal _ _ _ _ _ Hpp) as Hs'. rewrite Hid, <- Hs in Hs'. congruence.
Qed.

End Histories.

(** ** Reading back what was recorded *)

Section ReadBack.
Context {R : Type} `{!LineageTables R} (migrations : list Migration).
Implicit Types (t : GateTables R) (db : Database (GateTables R)) (w : World (GateTables R)).

Lemma bind_same {A B} (m : py A) (f g : A → py B) : (∀ a, f a = g a) → (m ≫= f) = (m ≫= g).
Proof. intros H. by destruct m; cbn. Qed.

(** Opening a connection and the live checks do not depend on these tables. *)
Lemma open_frame t db : open_connection migrations (Some (set_evidence t db))
  = (_ ← open_connection migrations (Some db); Ok (set_evidence t db)).
Proof. unfold open_connection. cbn. by destruct (verify_migrations _ _ _). Qed.

Lemma open_same db d : open_connection migrations (Some db) = Ok d → d = db.
Proof. unfold open_connection. by intros (_ & _ & [= <-])%bind_ok. Qed.

Lemma opened_frame {A} (f g : Database (GateTables R) → py A) t db : (∀ d, d = db → f (set_evidence t d) = g d) →
  (d ← open_connection migrations (Some (set_evidence t db)); f d) = (d ← open_connection migrations (Some db); g d).
Proof.
  intros H. rewrite open_frame. destruct (open_connection migrations (Some db)) as [d|] eqn:Ho; cbn; [|done].
  apply open_same in Ho as ->. by apply H.
Qed.

Lemma verify_lease_frame r l repository t db :
  verify_lease migrations r l repository (Some (set_evidence t db)) = verify_lease migrations r l repository (Some db).
Proof. unfold verify_lease. destruct l; [|done]. by apply opened_frame. Qed.

Lemma task_binding_frame r b p t db :
  require_task_binding migrations r b p (Some (set_evidence t db)) = require_task_binding migrations r b p (Some db).
Proof. by apply opened_frame. Qed.

Lemma live_control_frame r b l control t db :
  live_control migrations r b l control (Some (set_evidence t db)) = live_control migrations r b l control (Some db).
Proof.
  unfold live_control. rewrite verify_lease_frame. do 3 (apply bind_same; intros ?). by rewrite task_binding_frame.
Qed.

Lemma revalidate_frame r c b t db :
  revalidate_worktree migrations r c b (Some (set_evidence t db)) = revalidate_worktree migrations r c b (Some db).
Proof.
  unfold revalidate_worktree, read_state_identity. apply bind_same. intros _. apply bind_same. intros root. apply bind_same.
  intros worktree. rewrite task_binding_frame. apply bind_same. intros _. by rewrite (opened_frame _ state_identity).
Qed.

Lemma live_frame r b s l t db : require_live_candidate migrations r b s l (Some db) = (Ok (), Some db) →
  require_live_candidate migrations r b s l (Some (set_evidence t db)) = (Ok (), Some (set_evidence t db)).
Proof.
  unfold require_live_candidate, revalidate_live_candidate_binding. rewrite live_control_frame.
  destruct (live_control _ _ _ _ _ _) as [c|e]; [|done]. rewrite revalidate_frame.
  assert (∀ (A : Type) b e (x : A), invalidating migrations r b l e (Some db) ≠ (Ok x, Some db)) as Hinv
    by (intros A b' e x; by destruct (invalidating_spec (A:=A) migrations r b' l e (Some db)) as [e' ->]).
  destruct (revalidate_worktree _ _ _ _ _) as [v|e]; [|destruct (exn_kind e ==? GitIdentityError); [|done]].
  - destruct (_ ≫= _) as [status|e]; [|done]. case_match; [by intros ?%Hinv|].
    destruct (git_commit _) as [head|e]; [|done]. case_match; [by intros ?%Hinv|done].
  - unfold invalidating. by destruct (invalidate_candidate migrations r b l (Some db)) as [[]].
Qed.

End ReadBack.

(** ** Recorded evidence *)

Section Recorded.
Context {R : Type} `{!LineageTables R} (migrations : list Migration).
Implicit Types (t : GateTables R) (db : Database (GateTables R)) (w : World (GateTables R)).

(** A call that recorded evidence bound the fingerprint to the live, sealed
    candidate and then made the record. *)
Lemma record_ok r b s c e pe l now w w' : RuntimeBinding_post_init (x_binding c) = Ok () →
  record_gate_evidence migrations r b s c e pe l now w = (Ok (), w') →
  ∃ db k row text new change t, w = Some db ∧ checked_record b s c e k row ∧ wb_task b = cs_task s
    ∧ require_live_candidate migrations r b s l (Some db) = (Ok (), Some db)
    ∧ is_ok (open_connection migrations (Some db)) = true
    ∧ candidate_seals (evidence db) !! cs_task s = Some (row_of_seal s)
    ∧ encode_follow_ups (follow_ups e) = Ok text
    ∧ (∃ activated terminal, new = context_row c activated terminal)
    ∧ let t0 := bind_row (cs_task s) (cs_candidate s) (gate_fingerprint k) (evidence db) in
      context_change new (is_graph_pass e) (gate_contexts t0 !! (wb_task b, cs_candidate s)) = Ok change
      ∧ recording t0 (wb_task b) (cs_candidate s) new change k (row text) false t ∧ w' = Some (set_evidence t db).
Proof.
  intros Hb. unfold record_gate_evidence. destruct (record_checks _ _ _ _ _ _ _) as [[[k row] activated]|x] eqn:Hck; [|done].
  apply record_checks_ok in Hck as (Hck & _ & _). unfold bind_candidate_evidence. destruct (negb (match_hex 64 (gate_fingerprint k))); [done|].
  destruct (live_cases migrations r b s l w) as [(Hlive & Htask & _)|(x & w1 & -> & _)]; [|done]. rewrite Hlive.
  match goal with |- context [transaction _ ?body w] => destruct (transaction_cases migrations body w)
    as [[x ->]|(db & u & db1 & -> & _ & Hbind & Ht)]; [done|] end.
  assert (is_ok (open_connection migrations (Some db)) = true) as Hopen.
  { unfold transaction in Ht. destruct (open_connection migrations (Some db)); [done|by cbn in Ht]. }
  rewrite Ht. apply bind_ok in Hbind as (_ & _ & Hbind). apply bind_ok in Hbind as ([] & Hseal%require_ok & [= <- <-]). breflect.
  destruct (transaction_cases migrations (record_transaction b s c e k row activated l now)
    (Some (write (bind_row (cs_task s) (cs_candidate s) (gate_fingerprint k)) db)))
    as [[x ->]|(db1 & out & db2 & [= <-] & _ & Hrec & ->)]; [done|].
  destruct (record_transaction_ok _ _ _ _ _ _ _ _ _ _ _ _ Hck Hb Hrec) as (l' & terminal & change & _ & _ & _ & _ & Hch & Hout).
  destruct out as [why|]; [done|]. intros [= <-]. destruct Hout as [[? _]|(text & conflict & t & Htext & Hr & -> & Hc)]; [done|].
  destruct conflict; [done|]. exists db, k, row, text, (context_row c activated terminal), change, t.
  split_and!; try done. by exists activated, terminal.
Qed.

Lemma context_kept new graph_pass stored change : context_change new graph_pass stored = Ok change → change = KeepContext → stored = Some new.
Proof.
  unfold context_change. destruct stored as [old|]; [|by intros [= <-]]. destruct (_ && _ && _) eqn:H; [|by intros (_ & _ & (_ & _ & [= <-])%bind_ok)%bind_ok].
  destruct (decide (gc_activated_at old = gc_activated_at new)) as [Ha|Ha]; [|by rewrite (bool_decide_eq_false_2 _ Ha)].
  rewrite (bool_decide_eq_true_2 _ Ha). cbn [negb].
  destruct (decide (gc_terminal old = gc_terminal new)) as [Ht|Ht]; [|rewrite (bool_decide_eq_false_2 _ Ht); by intros [= <-]].
  intros _ _. breflect. destruct_and!. match goal with Hi : Bool.eqb _ _ = true |- _ => apply Bool.eqb_prop in Hi end. destruct old, new. unfold trusted_columns, graph_columns in *. cbn in *. by simplify_eq.
Qed.

Lemma recorded_context t task candidate new change k row t' graph_pass :
  context_change new graph_pass (gate_contexts t !! (task, candidate)) = Ok change →
  recording t task candidate new change k row false t' → gate_contexts t' !! (task, candidate) = Some new.
Proof.
  intros Hch [_ _ Hm _ _ _ Hrow].
  assert (gate_contexts (apply_change change task candidate new t) !! (task, candidate) = Some new) as Hctx.
  { destruct change; cbn; rewrite ?lookup_insert_eq; try done. by eapply context_kept. }
  by apply record_row_cases in Hrow as [(_ & -> & _)|[(_ & _ & ->)|(? & ? & _)]].
Qed.

Lemma recorded_rows t task candidate new change k row t' : recording t task candidate new change k row false t' →
  candidate_seals t' = candidate_seals t ∧ (task, candidate, gate_fingerprint k) ∈ candidate_rows t' ∧ gate_rows t' !! k = Some row.
Proof.
  intros [_ _ _ _ _ _ Hrow].
  assert (∀ u : GateTables R, (task, candidate, gate_fingerprint k) ∈ candidate_rows (bind_row task candidate (gate_fingerprint k) u)) as Hb
    by (intros u; cbn [bind_row set_gate_tables candidate_rows]; apply elem_of_union; left; by apply elem_of_singleton).
  apply record_row_cases in Hrow as [(_ & -> & Hk)|[(_ & Hk & ->)|(? & ? & _)]]; [..|done]; (split_and!; [by destruct change|apply Hb|]).
  - done.
  - apply lookup_insert_eq.
Qed.

Lemma gate_rows_elem task candidate db k row : gate_rows (evidence db) !! k = Some row → gate_task k = task → gate_candidate k = candidate →
  (k, row) ∈ rows_of task candidate db.
Proof.
  intros Hk Ht Hc. unfold rows_of. rewrite sorted_by_perm. apply list_elem_of_In, filter_In. split.
  - by apply list_elem_of_In, elem_of_map_to_list.
  - cbn. by rewrite !bool_decide_eq_true_2.
Qed.

Lemma fingerprint_elem task candidate fp t : (task, candidate, fp) ∈ candidate_rows t → fp ∈ fingerprints_of task candidate t.
Proof.
  intros H. unfold fingerprints_of. rewrite sorted_by_perm. apply list_elem_of_omap. exists (task, candidate, fp).
  split; [by apply elem_of_elements|]. by rewrite decide_True.
Qed.

(** The calls of a record that succeeds, one after the other. *)
Lemma bind_live r b s fp l w : match_hex 64 fp = true → require_live_candidate migrations r b s l w = (Ok (), w) →
  bind_candidate_evidence migrations r b s fp l w
  = transaction migrations (λ db,
      _ ← require_current_lease l (wb_repository b) (r_written_at r) None db;
      _ ← require_current_seal s db;
      Ok ((), write (bind_row (cs_task s) (cs_candidate s) fp) db)) w.
Proof. intros Hfp Hlive. unfold bind_candidate_evidence. by rewrite Hfp, Hlive. Qed.

Lemma record_live r b s c e pe l now w k row activated w1 :
  record_checks migrations b s c e pe w = Ok (k, row, activated) →
  bind_candidate_evidence migrations r b s (gate_fingerprint k) l w = (Ok (), w1) →
  record_gate_evidence migrations r b s c e pe l now w
  = match transaction migrations (record_transaction b s c e k row activated l now) w1 with
    | (Ok None, w) => (Ok (), w)
    | (Ok (Some why), w) => (gate_error why, w)
    | (Err x, w) => (Err x, w)
    end.
Proof. intros Hck Hb. unfold record_gate_evidence. by rewrite Hck, Hb. Qed.

Lemma open_ok db v : verify_migrations migrations (validate_task_ownership db) (schema db) = Ok v →
  open_connection migrations (Some db) = Ok db.
Proof. intros H. unfold open_connection. by rewrite H. Qed.

Lemma transaction_ok {A} (body : Database (GateTables R) → py (A * Database (GateTables R))) db a db' :
  open_connection migrations (Some db) = Ok db → body db = Ok (a, db') → transaction migrations body (Some db) = (Ok a, Some db').
Proof. intros Ho Hb. unfold transaction. rewrite Ho. cbn [mbind result_bind]. by rewrite Hb. Qed.

Lemma bind_run r b s fp l db : match_hex 64 fp = true → open_connection migrations (Some db) = Ok db →
  require_live_candidate migrations r b s l (Some db) = (Ok (), Some db) →
  require_current_lease l (wb_repository b) (r_written_at r) None db = Ok () → require_current_seal s db = Ok () →
  bind_candidate_evidence migrations r b s fp l (Some db) = (Ok (), Some (write (bind_row (cs_task s) (cs_candidate s) fp) db)).
Proof.
  intros Hfp Ho Hlive Hl Hs. rewrite bind_live by done. apply transaction_ok; [done|]. by rewrite Hl, Hs.
Qed.

(** The first record of a candidate. *)
Lemma record_run b s c e k row activated l now db i terminal text z :
  let t := bind_row (wb_task b) (cs_candidate s) (gate_fingerprint k)
    (apply_change InsertContext (wb_task b) (cs_candidate s) (context_row c activated terminal) (evidence db)) in
  require_current_transition_lease l (wb_repository b) now db = Ok () → committed_identity (wb_task b) db = Ok i →
  require_runtime_binding (StateDb.task_id i) (x_binding c) db = Ok () →
  se_candidate <$> candidate_seals (evidence db) !! wb_task b = Some (cs_candidate s) →
  terminal_dependency_binding (wb_task b) db = Ok (terminal, x_source_count c) → is_graph_pass e = false →
  gate_contexts (evidence db) !! (wb_task b, cs_candidate s) = None → encode_follow_ups (follow_ups e) = Ok text →
  gate_rows (evidence db) !! k = None → sqlite_int (gr_evaluated_at (row text)) = Ok z →
  record_transaction b s c e k row activated l now db
  = Ok (None, set_evidence (set_gate_rows (<[k := row text]> (gate_rows t)) t) db).
Proof.
  intros t Hl Hi Hr Hs Ht Hg Hc Hf Hk Hz. unfold record_transaction, gate_ensure. rewrite Hl, Hi. cbn [mbind result_bind].
  rewrite Hr, Hs, bool_decide_eq_true_2 by done. cbn [require mbind result_bind]. rewrite Ht. cbn [mbind result_bind].
  rewrite Z.eqb_refl, Hg, Hc. cbn [require mbind result_bind context_change]. rewrite Hf. cbn [mbind result_bind].
  unfold record_row. fold t. change (gate_rows t) with (gate_rows (evidence db)) at 1. rewrite Hk, Hz. done.
Qed.

Lemma commit_run r i fp l now db : open_connection migrations (Some db) = Ok db →
  require_current_transition_lease l (StateDb.repository_id i) now db = Ok () →
  require_matching_task i (Some DiffReview) db = Ok DiffReview →
  decision_passes (EvidenceTables := gate_tables migrations r) db i = Ok true →
  transition_is_allowed DiffReview ReadyForOwner (blocked_from (StateDb.task_id i) db) = true →
  evidence_committed (StateDb.task_id i) fp db = false →
  (@commit_transition _ (gate_tables migrations r) migrations i DiffReview ReadyForOwner fp l now true (Some db)).2
  = Some (move_task (StateDb.task_id i) DiffReview ReadyForOwner fp db).
Proof.
  intros Ho Hl Hm Hp Ha He. unfold commit_transition. rewrite then_project_world. unfold on_task.
  rewrite (transaction_ok _ db () (move_task (StateDb.task_id i) DiffReview ReadyForOwner fp db)); [done|done|].
  rewrite Hl, Hm. cbn [mbind result_bind]. rewrite Hp. unfold ensure.
  rewrite (bool_decide_eq_true_2 (DiffReview = DiffReview)), (bool_decide_eq_true_2 (ReadyForOwner = ReadyForOwner)) by reflexivity.
  cbn [andb require mbind result_bind]. by rewrite Ha, He.
Qed.

Lemma final_live r i b s fp l now w found : validate_task_identity i = Ok () → require_fingerprint fp = Ok () →
  wb_task b = StateDb.task_id i → wb_repository b = StateDb.repository_id i → cs_task s = StateDb.task_id i →
  cs_base s = StateDb.base_sha i → candidate_evidence migrations r b s l w = (Ok found, w) →
  @transition_ready_for_owner _ (gate_tables migrations r) migrations i (Typed b) (Typed s) fp l now w
  = @commit_transition _ (gate_tables migrations r) migrations i DiffReview ReadyForOwner fp l now true w.
Proof.
  intros Hi Hfp H1 H2 H3 H4 Hc. unfold transition_ready_for_owner, after. rewrite Hi, Hfp, H1, H2, H3, H4. cbn [mbind result_bind].
  rewrite !bool_decide_eq_true_2 by done. cbn [andb ensure require mbind result_bind TaskState.candidate_evidence gate_tables].
  by rewrite Hc.
Qed.

(** C9 : recording is lossless: after evidence was recorded, reading the evidence
    of the same candidate gives back exactly that evidence among the rest, and the
    persisted context is the recorded one. *)
Theorem recorded_evidence_reads_back r b s c e pe l now w w' : RuntimeBinding_post_init (x_binding c) = Ok () →
  record_gate_evidence migrations r b s c e pe l now w = (Ok (), w') →
  ∃ items, read_gate_evidence migrations r b s l w' = (Ok items, w') ∧ e ∈ items
    ∧ persisted_gate_context migrations (x_task c) (x_candidate c) w' = Ok (Some (stored_context c)).
Proof.
  intros Hb H. destruct (record_ok _ _ _ _ _ _ _ _ _ _ Hb H)
    as (db & k & row & text & new & change & t & -> & Hck & Htask & Hlive & Hopen & Hseal & Htext & (activated & terminal & Hnew) & Hch & Hrec & ->).
  destruct (recorded_rows _ _ _ _ _ _ _ _ Hrec) as (Hs & Hfp & Hrow). pose proof (recorded_context _ _ _ _ _ _ _ _ _ Hch Hrec) as Hctx.
  destruct Hck as [Hc He Hr Ht Hcand [Hk1 Hk2]].
  assert (open_connection migrations (Some (set_evidence t db)) = Ok (set_evidence t db)) as Ho.
  { rewrite open_frame. by destruct (open_connection migrations (Some db)). }
  assert (candidate_evidence migrations r b s l (Some (set_evidence t db))
          = (Ok (fingerprints_of (cs_task s) (cs_candidate s) t), Some (set_evidence t db))) as Hce.
  { unfold candidate_evidence. rewrite (live_frame migrations r b s l t db Hlive). unfold sealed_evidence. rewrite Ho.
    cbn [mbind result_bind]. unfold require_current_seal, git_ensure. cbn [evidence set_evidence]. rewrite Hs.
    cbn [bind_row set_gate_tables candidate_seals]. by rewrite Hseal, bool_decide_eq_true_2. }
  unfold read_gate_evidence. rewrite Hce, Ho. cbn [mbind result_bind]. eexists. split_and!; [done| |].
  - unfold evidence_rows. apply list_elem_of_fmap. exists (k, row text). split; [symmetry; by apply evidence_reads_back|].
    apply list_elem_of_In, filter_In. split; [by apply list_elem_of_In, gate_rows_elem|].
    apply bool_decide_eq_true, fingerprint_elem. by rewrite <- Htask.
  - unfold persisted_gate_context. rewrite Ho. cbn [mbind result_bind]. unfold read_gate_context. cbn [evidence set_evidence].
    rewrite Ht, Hcand, Hctx. cbn [mbind option_bind]. rewrite Hnew, <- Ht, <- Hcand. by rewrite context_reads_back.
Qed.

End Recorded.

(** ** Identities the blockers of the review lifecycle do not know *)

Section Identities.
Context {R : Type} `{!LineageTables R}.
Implicit Types (db : Database (GateTables R)).

(** The task or its repository has an identity that is no token of
    review_lifecycle.py, which starts with a lower-case letter and has no
    upper-case one. *)
Definition unlisted db (task : string) : Prop :=
  lifecycle_token task = false ∨ ∃ row, tasks db !! task = Some row ∧ lifecycle_token (t_repository row) = false.

(** C38 : the tokens of review_lifecycle.py are narrower than those of admission
    and of the gates: for a task whose identity, or whose repository, is no such
    token the persisted decision raises [ReviewLifecycleError] as soon as its
    candidate is sealed under the current state, whatever evidence is recorded. *)
Theorem unlisted_identity_never_decides i db s l :
  candidate_seals (evidence db) !! StateDb.task_id i = Some s → lease db = Some l → se_base s = base_sha i →
  se_state s = l_state_identity l → unlisted db (StateDb.task_id i) →
  ∃ why, decision_from_connection i db = Err (Raised ReviewLifecycleError why).
Proof.
  intros Hs Hl Hb Hst Hun. unfold decision_from_connection. rewrite Hs, Hl, Hb, Hst.
  rewrite !bool_decide_eq_true_2 by done. cbn [negb orb].
  assert (∃ why, owner_blocker_state_receipt (StateDb.task_id i) (se_candidate s) db = Err (Raised ReviewLifecycleError why)) as [why Hr].
  { unfold owner_blocker_state_receipt, lifecycle_ensure, lifecycle_error, raise. rewrite Hs.
    destruct (lifecycle_token (StateDb.task_id i) && _) eqn:Htok; cbn [require mbind result_bind]; [|by eexists].
    breflect. destruct Htok as [Htok _]. destruct Hun as [Hun|(row & -> & Hrow)]; [congruence|].
    rewrite Hrow, andb_false_r. by eexists. }
  exists why. unfold unresolved_final_gate_blockers. by rewrite Hr.
Qed.

End Identities.

(** * A concrete repository

    No task was reviewed for dependencies; git answers what a clean worktree of
    the task answers. *)

Module Sample.

#[local] Instance lineage : LineageTables unit := {
  has_attempts _ _ := false;
  terminal_attempts _ _ := [];
  verify_task_lineage _ _ := Ok ();
  read_attempt _ _ := raise DependencyReviewError "dependency review attempt is unavailable";
  subset_members _ _ := [];
  read_current _ := Ok empty_snapshot;
  edge_of_attempt _ _ _ := false;
  accepted_decision _ _ := None;
  routed_review _ _ _ := None;
}.

Definition repository_name : string := "ythdelmar68/roundwright".
Definition candidate : string := str_repeat "c" 40.
Definition state_uuid : string := l_state_identity TaskState.Sample.current.

Definition identity_of (task : string) : TaskIdentity :=
  {| StateDb.task_id := task; StateDb.source_id := "source-1"; StateDb.repository_id := repository_name;
     StateDb.branch := "task-1"; StateDb.worktree := "/work/./task-1"; StateDb.base_sha := str_repeat "a" 40 |}.

Definition identity : TaskIdentity := identity_of "task-1".

Definition current : TransitionLease :=
  {| l_repository := repository_name; l_state_identity := state_uuid; l_owner := "host"; l_generation := 3; l_expires := 1600 |}.

Definition readings : Readings := {|
  r_repository := "/repo"; r_root := Ok "/repo"; r_resolve := λ p, Some (posix_normpath p); r_requested_exists := λ _, true; r_exists := λ _, true;
  r_is_directory := λ _, true; r_add_worktree := λ _ _, Ok (); r_remote_head := λ _, Ok (str_repeat "a" 40);
  r_common_directory := λ _, Ok "/repo/.git"; r_branch := λ _, Ok "task-1"; r_checked_head := λ _, Ok candidate;
  r_is_ancestor := λ _ _, Ok true; r_path_key := λ p, Ok p; r_registered := Ok ["/work/task-1"]; r_backlink := λ _, Ok ();
  r_status := λ _, Ok ""; r_head := λ _, Ok candidate; r_verified_at := 1002; r_written_at := 1003 |}.

Definition control : GitEntrypointControl :=
  {| g_binding := DependencyPolicy.sample_binding;
     g_control := {| x_policy := sample_upgrade; x_observations := [sample_observation PACKAGE "1.1.3"; sample_observation GIT_EXECUTABLE "1.0.7"];
                     x_admission := sample_admission |};
     g_now := 130 |}.

Definition binding : WorktreeBinding :=
  {| wb_task := "task-1"; wb_repository := repository_name; wb_branch := "task-1"; wb_worktree := "/work/task-1";
     wb_base := str_repeat "a" 40; wb_state_identity := state_uuid; wb_control := Some control |}.

Definition seal : CandidateSeal :=
  {| cs_task := "task-1"; cs_base := str_repeat "a" 40; cs_candidate := candidate; cs_state_identity := state_uuid |}.

Definition context : TypedContext :=
  {| x_task := "task-1"; x_candidate := candidate; x_source_count := 1; x_isolated := true;
     x_policy_digest := policy_digest sample_document; x_receipt_fingerprint := str_repeat "4" 64;
     x_binding := Gates.sample_binding; x_supervisor := String.append "sha256:" (str_repeat "c" 64);
     x_review_limit := Typed None; x_graph_version := None; x_graph_digest := None |}.

Definition receipt : ActivationReceipt :=
  {| owner_fingerprint := str_repeat "3" 64; r_receipt_fingerprint := str_repeat "4" 64;
     r_source_fingerprint := str_repeat "1" 64; r_revision_fingerprint := str_repeat "2" 64;
     r_policy_digest := policy_digest sample_document; r_schema_version := 1;
     r_task_fingerprint := task_identity_fingerprint identity; r_candidate_sha := candidate;
     activated_at := DateTime 2026 8 6 0 0 0 0 TzUtc; r_expires_at := DateTime 2026 8 7 0 0 0 0 TzUtc;
     r_runtime_binding := Gates.sample_binding;
     Policy.selected_supervisor_profile_identity := String.append "sha256:" (str_repeat "c" 64) |}.

Definition policy : dyn TrustedGatePolicyEvidence :=
  Typed {| tp_snapshot := Typed {| snapshot_source := Typed sample_source; snapshot_document := Typed sample_document |};
           tp_receipt := Typed receipt; tp_standing := Typed sample_standing;
           tp_evaluated_at := Typed (DateTime 2026 8 6 12 0 0 0 TzUtc); tp_status := Typed FRESH |}.

(** Tests passed, with one follow-up that was resolved. *)
Definition evidence_item : GateEvidence :=
  {| e_task_id := Typed "task-1"; e_candidate_sha := Typed candidate; gate_key := Typed "full-tests";
     e_outcome := Typed "PASS"; evaluator_id := Typed "evaluator"; evaluated_at := Typed 7;
     evidence_fingerprint := Typed (str_repeat "1" 64); changed_boundary := Typed None; e_reason := Typed (Some "tests");
     follow_ups := Typed [Typed {| identifier := Typed "docs"; resolved := Typed true;
                                   resolution_fingerprint := Typed (Some (str_repeat "9" 64)) |}] |}.

Definition no_tables : GateTables unit :=
  {| candidate_seals := ∅; candidate_rows := ∅; gate_contexts := ∅; gate_rows := ∅;
     configurations := {[ "task-1" := columns Gates.sample_binding ]}; review_policies := ∅; finalizations := ∅;
     review_items := ∅; others := () |}.

(** A repository with one task, in diff review. *)
Definition start : Database (GateTables unit) :=
  set_progress {[ "task-1" := set_task_state DiffReview None (admitted_row identity "/work/task-1") ]} []
    (set_admission {[ "source-1" := (repository_name, str_repeat "d" 64) ]} ∅ {[ "task-1" := "task-1" ]}
       {[ "/work/task-1" := "task-1" ]}
       (set_leases (Some current) (Some 3) (fresh TaskState.Sample.sample_schema no_tables))).

Abbreviation migrations := [TaskState.Sample.migration].

Definition seal_only (t : GateTables unit) : GateTables unit := set_seals {[ "task-1" := row_of_seal seal ]} t.

Definition sealed_state : Database (GateTables unit) := set_evidence (seal_only no_tables) start.

Lemma live : require_live_candidate migrations readings binding seal (Typed current) (Some sealed_state) = (Ok (), Some sealed_state).
Proof. vm_compute. reflexivity. Qed.

Lemma live_in t : require_live_candidate migrations readings binding seal (Typed current) (Some (set_evidence t sealed_state))
  = (Ok (), Some (set_evidence t sealed_state)).
Proof. apply live_frame, live. Qed.

(** Recording that the tests passed. *)
Definition recording_tests : gate_operation := RecordGate readings binding seal context evidence_item policy (Typed current) 1003.

Definition tests_key : GateKeyColumns := ("task-1", candidate, "full-tests", "evaluator", str_repeat "1" 64).

Definition tests_row (text : string) : GateRow :=
  {| gr_outcome := "PASS"; gr_evaluated_at := 7; gr_boundary := None; gr_reason := Some "tests"; gr_follow_ups := text |}.

Definition activated : string := "2026-08-06T00:00:00+00:00".

Definition tests_text : string := match encode_follow_ups (follow_ups evidence_item) with Ok text => text | Err _ => "" end.

(** The fingerprint is bound, then the context and the row are stored. *)
Definition bound_state : Database (GateTables unit) := write (bind_row "task-1" candidate (str_repeat "1" 64)) sealed_state.

Definition recorded_tables : GateTables unit :=
  let t := bind_row "task-1" candidate (str_repeat "1" 64)
    (apply_change InsertContext "task-1" candidate (context_row context activated no_lineage) (evidence bound_state)) in
  set_gate_rows (<[tests_key := tests_row tests_text]> (gate_rows t)) t.

Definition recorded_state : Database (GateTables unit) := set_evidence recorded_tables bound_state.

Ltac evaluate := vm_compute; reflexivity.

Lemma verified (db : Database (GateTables unit)) : schema db = TaskState.Sample.sample_schema → validate_task_ownership db = Ok () →
  open_connection migrations (Some db) = Ok db.
Proof. intros Hs Ho. eapply open_ok. rewrite Hs, Ho. apply TaskState.Sample.schema_verified. Qed.

Lemma opens t : open_connection migrations (Some (set_evidence t start)) = Ok (set_evidence t start).
Proof. apply verified; evaluate. Qed.

Lemma checks : record_checks migrations binding seal context evidence_item policy (Some sealed_state) = Ok (tests_key, tests_row, activated).
Proof. vm_compute. reflexivity. Qed.

Lemma bound : bind_candidate_evidence migrations readings binding seal (gate_fingerprint tests_key) (Typed current) (Some sealed_state)
  = (Ok (), Some bound_state).
Proof. apply bind_run; [evaluate|apply opens|exact live|evaluate|evaluate]. Qed.

Lemma record_works : record_gate_evidence migrations readings binding seal context evidence_item policy (Typed current) 1003 (Some sealed_state)
  = (Ok (), Some recorded_state).
Proof.
  rewrite (record_live migrations readings binding seal context evidence_item policy (Typed current) 1003 (Some sealed_state)
    tests_key tests_row activated (Some bound_state) checks bound).
  rewrite (transaction_ok migrations (record_transaction binding seal context evidence_item tests_key tests_row activated (Typed current) 1003)
    bound_state None recorded_state); [done|apply (opens (evidence bound_state))|].
  apply (record_run binding seal context evidence_item tests_key tests_row activated (Typed current) 1003 bound_state
    identity no_lineage tests_text 7); evaluate.
Qed.

Lemma binding_constructed : RuntimeBinding_post_init (x_binding context) = Ok ().
Proof. vm_compute. reflexivity. Qed.

Lemma reach_recorded : gate_reachable migrations (Some recorded_state).
Proof.
  assert (gate_reachable migrations (run_gate migrations recording_tests (Some sealed_state))) as H
    by (apply reach_operation; [apply binding_constructed|by apply reach_start]).
  cbn [run_gate recording_tests] in H. by rewrite record_works in H.
Qed.

Lemma gate_rows_follow_seal_witness : gate_sound recorded_tables ∧ gate_rows recorded_tables !! tests_key ≠ None.
Proof. split; [exact (gate_rows_follow_seal migrations _ _ reach_recorded eq_refl)|vm_compute; discriminate]. Defined.

Lemma recorded_evidence_reads_back_witness : ∃ items,
  read_gate_evidence migrations readings binding seal (Typed current) (Some recorded_state)
  = (Ok items, Some recorded_state) ∧ evidence_item ∈ items.
Proof.
  destruct (recorded_evidence_reads_back migrations readings binding seal context evidence_item policy (Typed current) 1003 _ _
    binding_constructed record_works) as (items & H1 & H2 & _).
  exists items. exact (conj H1 H2).
Defined.

(** Every gate accepted. *)
Definition accepted_row (rq : GateRequirement) : GateKeyColumns * GateRow :=
  (("task-1", candidate, GateKey_value (rq_key rq), "evaluator", str_repeat "1" 64),
   {| gr_outcome := if permits_phase_two_local_na rq then "NOT_APPLICABLE" else "PASS"; gr_evaluated_at := 7;
      gr_boundary := Some "local"; gr_reason := Some "single source"; gr_follow_ups := "[]" |}).

Definition accepted_tables : GateTables unit := set_gate_rows (list_to_map (map accepted_row GATE_REGISTRY)) recorded_tables.

Definition accepted : Database (GateTables unit) := set_evidence accepted_tables sealed_state.

Definition finished : Database (GateTables unit) := move_task "task-1" DiffReview ReadyForOwner (str_repeat "2" 64) accepted.

Definition finalize : operation (GateTables unit) :=
  Finalize identity (Typed binding) (Typed seal) (str_repeat "2" 64) (Typed current) 1004.

Lemma collected : candidate_evidence migrations readings binding seal (Typed current) (Some accepted) = (Ok [str_repeat "1" 64], Some accepted).
Proof.
  unfold candidate_evidence. rewrite (live_in accepted_tables : require_live_candidate _ _ _ _ _ (Some accepted) = _).
  apply (f_equal (λ x, (x, Some accepted))). evaluate.
Qed.

Lemma finalize_works : @run _ (gate_tables migrations readings) migrations finalize (Some accepted) = Some finished.
Proof.
  refine (eq_trans (f_equal snd (final_live migrations readings identity binding seal (str_repeat "2" 64) (Typed current) 1004
    (Some accepted) [str_repeat "1" 64] _ _ _ _ _ _ collected)) _); [evaluate..|].
  apply commit_run; [apply opens|evaluate..].
Qed.

Lemma ready_needs_persisted_gates_witness :
  (∃ row, tasks accepted !! "task-1" = Some row ∧ t_state row = ReadyForOwner)
  ∨ ∃ c, persisted_pass identity (row_of_seal seal) current c accepted.
Proof.
  destruct (ready_needs_persisted_gates migrations readings finalize accepted finished "task-1"
    (set_task_state ReadyForOwner None (admitted_row identity "/work/task-1")) finalize_works eq_refl eq_refl)
    as [H|(i & b & s & fp & l & now & c & Ho & _ & _ & _ & _ & H)]; [left; eexists; split; [exact H|reflexivity]|].
  right. exists c. injection Ho as <- _ <- _ <- _. exact H.
Defined.

(** A task named with a capital letter is admitted, and its decision raises. *)
Definition capital : TaskIdentity := identity_of "Task-1".

Definition capital_state : Database (GateTables unit) :=
  set_evidence (set_seals {[ "Task-1" := row_of_seal seal ]} no_tables) start.

Lemma unlisted_identity_never_decides_witness :
  is_ok (@admit_task (GateTables unit) migrations capital [{| s_source_id := "source-1"; s_repository_id := repository_name;
      s_digest := str_repeat "d" 64 |}] (Typed current) 1001
      (Some (set_leases (Some current) (Some 3) (fresh TaskState.Sample.sample_schema no_tables)))).1 = true
  ∧ ∃ why, decision_from_connection capital capital_state = Err (Raised ReviewLifecycleError why).
Proof.
  split; [vm_compute; reflexivity|].
  apply (unlisted_identity_never_decides capital capital_state (row_of_seal seal) current eq_refl eq_refl eq_refl eq_refl).
  left. vm_compute. reflexivity.
Defined.

End Sample.
