(* ===== verification/ReviewStore.v ===== *)
(** * Review items, objectives and owner commands (src/roundwright/review_lifecycle.py)

    The durable state of a review: the items that a review leaves, the objective
    of each Worker attempt, and the commands with which the owner resolves or
    waives an item.  Every operation is one transaction under the current lease.

    Items live in [review_items] of [GateTables]; the other tables of this
    component are [ReviewTables], and [rest] is what other components keep.  What
    the operations read of provider attempts and of reviews is the interface
    [AttemptTables]: each method is one SELECT of the code. *)

From stdpp Require Import gmap.
From S2P Require Import Prelude Sha256 Json PyTime RuntimeBinding Policy DependencyPolicy DependencyReview DependencyGraph.
From S2P Require Import Sqlite Worktree Migrations StateDb TaskState Candidates Gates GateStore.
Open Scope Z_scope.

(** ** Vocabularies *)

Inductive ReviewItemKind := PASS_FOLLOW_UP | FINDING.
Inductive ReviewItemSource := ACCEPTED_REVIEW | SUPERVISOR_FINDING.
Inductive ReviewItemDisposition := D_PENDING | D_RESOLVED | D_WAIVED.
Inductive VerificationState := V_PENDING | V_VERIFIED | V_WAIVED.
Inductive OwnerCommandKind := RESOLVE_REVIEW_ITEM | WAIVE_REVIEW_ITEM.

#[export] Instance ReviewItemKind_eq_dec : EqDecision ReviewItemKind.
Proof. solve_decision. Defined.
#[export] Instance ReviewItemSource_eq_dec : EqDecision ReviewItemSource.
Proof. solve_decision. Defined.
#[export] Instance OwnerCommandKind_eq_dec : EqDecision OwnerCommandKind.
Proof. solve_decision. Defined.
#[export] Instance ReviewItemDisposition_eq_dec : EqDecision ReviewItemDisposition.
Proof. solve_decision. Defined.
#[export] Instance VerificationState_eq_dec : EqDecision VerificationState.
Proof. solve_decision. Defined.

Definition ReviewItemKind_value (k : ReviewItemKind) : string :=
  match k with PASS_FOLLOW_UP => "pass-follow-up" | FINDING => "finding" end.
Definition ReviewItemSource_value (s : ReviewItemSource) : string :=
  match s with ACCEPTED_REVIEW => "accepted-review" | SUPERVISOR_FINDING => "supervisor-finding" end.
Definition ReviewItemDisposition_value (d : ReviewItemDisposition) : string :=
  match d with D_PENDING => "pending" | D_RESOLVED => "resolved" | D_WAIVED => "waived" end.
Definition VerificationState_value (v : VerificationState) : string :=
  match v with V_PENDING => "pending" | V_VERIFIED => "verified" | V_WAIVED => "waived" end.
Definition OwnerCommandKind_value (k : OwnerCommandKind) : string :=
  match k with RESOLVE_REVIEW_ITEM => "resolve-review-item" | WAIVE_REVIEW_ITEM => "waive-review-item" end.

Definition OWNER_ALLOWLIST : list string := ["ythdelmar68"].

(** ** Records *)

Record ReviewItem := {
  it_id : string;
  it_task : string;
  it_review : string;
  it_candidate : string;
  it_attempt : string;
  it_kind : ReviewItemKind;
  it_source : ReviewItemSource;
  it_content : string;
  it_destination : string;
  it_blocking : bool;
  it_created : Z;
}.

(** The fields are of the annotated types. *)
Definition check_ReviewItem (i : ReviewItem) : py unit :=
  _ ← lifecycle_ensure (forallb lifecycle_token [it_id i; it_task i; it_review i; it_attempt i; it_destination i]
        && match_hex 40 (it_candidate i) && match_hex 64 (it_content i) && (0 <? it_created i)) "review item is invalid";
  lifecycle_ensure ((it_kind i, it_source i) in? [(PASS_FOLLOW_UP, ACCEPTED_REVIEW); (FINDING, SUPERVISOR_FINDING)])
    "review item kind/source pairing is invalid".

Record WorkerObjectiveResult := { wr_candidate : string; wr_completion : string; wr_accepted : string }.

#[export] Instance WorkerObjectiveResult_eq_dec : EqDecision WorkerObjectiveResult.
Proof. solve_decision. Defined.

Definition check_WorkerObjectiveResult (r : WorkerObjectiveResult) : py unit :=
  lifecycle_ensure (match_hex 64 (wr_completion r) && match_hex 64 (wr_accepted r) && match_hex 40 (wr_candidate r))
    "Worker objective result is invalid".

(** [ObjectiveState] with the fields that the state requires and no others. *)
Inductive ObjectiveState := ACTIVE | CANCELLED (reason : string) | COMPLETED (result : WorkerObjectiveResult).

#[export] Instance ObjectiveState_eq_dec : EqDecision ObjectiveState.
Proof. solve_decision. Defined.

Record WorkerObjective := {
  wo_id : string;
  wo_task : string;
  wo_dispatch : string;
  wo_attempt : string;
  wo_retry : string;
  wo_digest : string;
  wo_state : ObjectiveState;
}.

Definition check_WorkerObjective (o : WorkerObjective) : py unit :=
  _ ← lifecycle_ensure (forallb lifecycle_token [wo_id o; wo_task o; wo_attempt o; wo_retry o]
        && match_hex 40 (wo_dispatch o) && match_hex 64 (wo_digest o)) "Worker objective is invalid";
  lifecycle_ensure (match wo_state o with CANCELLED reason => match_hex 64 reason | _ => true end)
    "Worker objective terminal state is invalid".

Record OwnerCommand := {
  cm_id : string;
  cm_task : string;
  cm_kind : OwnerCommandKind;
  cm_target : string;
  cm_candidate : string;
  cm_digest : string;
  cm_key : string;
  cm_owner : string;
  cm_grant : string;
}.

Definition check_OwnerCommand (c : OwnerCommand) : py unit :=
  lifecycle_ensure (forallb lifecycle_token [cm_id c; cm_task c; cm_target c; cm_key c; cm_owner c; cm_grant c]
    && match_hex 40 (cm_candidate c) && match_hex 64 (cm_digest c)) "owner command is invalid".

Record ReviewItemProjection := {
  pj_item : string;
  pj_kind : ReviewItemKind;
  pj_disposition : ReviewItemDisposition;
  pj_verification : VerificationState;
  pj_blocking : bool;
  pj_destination : string;
}.

(** [_projection], from the columns of a row. *)
Definition projection (item kind blocker verification disposition destination : string) : py ReviewItemProjection :=
  match of_value ReviewItemKind_value [PASS_FOLLOW_UP; FINDING] kind,
        of_value ReviewItemDisposition_value [D_PENDING; D_RESOLVED; D_WAIVED] disposition,
        of_value VerificationState_value [V_PENDING; V_VERIFIED; V_WAIVED] verification with
  | Some k, Some d, Some v =>
      Ok {| pj_item := item; pj_kind := k; pj_disposition := d; pj_verification := v; pj_blocking := blocker ==? "blocking";
            pj_destination := destination |}
  | _, _, _ => lifecycle_error "committed review item is invalid"
  end.

(** ** Tables *)

Record CommandRow := {
  oc_task : string;
  oc_kind : string;
  oc_owner : string;
  oc_grant : string;
  oc_target : string;
  oc_candidate : string;
  oc_digest : string;
  oc_scope : string;
  oc_key : string;
  oc_state : string;
  oc_result : option string;
}.

#[export] Instance CommandRow_eq_dec : EqDecision CommandRow.
Proof. solve_decision. Defined.

Record GrantRow := {
  gt_owner : string;
  gt_scope : string;
  gt_task : string;
  gt_candidate : string;
  gt_authority : string;
  gt_state : string;
}.

(** A row of [worker_objective_records]; its CHECK ties the terminal columns to
    the state. *)
Record ObjectiveRow := {
  ob_row_task : string;
  ob_dispatch : string;
  ob_attempt : string;
  ob_retry : string;
  ob_digest : string;
  ob_terminal : ObjectiveState;
}.

(** The key of [review_item_provenance]: item, review, source and attempt. *)
Abbreviation ProvenanceKey := (string * string * string * string)%type.

Record ReviewTables (Q : Type) := {
  provenance : gmap ProvenanceKey (string * string * string);
  commands : gmap string CommandRow;
  grants : gmap string GrantRow;
  objectives : gmap string ObjectiveRow;
  rest : Q;
}.
Arguments provenance {Q} _.
Arguments commands {Q} _.
Arguments grants {Q} _.
Arguments objectives {Q} _.
Arguments rest {Q} _.

(** ** What is read of attempts and reviews *)

Record SupervisorAttempt := {
  sa_task : string;
  sa_role : string;
  sa_state : string;
  sa_accepted_review : option string;
  sa_profile : option string;
}.

Record DiffReviewAttempt := {
  dr_task : string;
  dr_candidate : string;
  dr_attempt : string;
  dr_state : string;
  dr_accepted : option string;
}.

Record WorkerDispatch := {
  wd_task : string;
  wd_role : string;
  wd_number : Z;
  wd_state : string;
  wd_session : option string;
  wd_turn : option string;
  wd_implementation_task : string;
  wd_implementation_session : option string;
  wd_implementation_turn : option string;
  wd_implementation_state : string;
  wd_repair_candidate : option string;
}.

Record WorkerAttempt := {
  wa_task : string;
  wa_role : string;
  wa_number : Z;
  wa_state : string;
  wa_completion : option string;
  wa_recovery : option string;
  wa_blocker : option string;
  wa_implementation_task : string;
  wa_implementation_state : string;
  wa_repair_candidate : option string;
}.

Record WorkerOutput := {
  wx_task : string;
  wx_role : string;
  wx_state : string;
  wx_session : option string;
  wx_turn : option string;
  wx_pointer : option string;
  wx_completion : option string;
  wx_output : option string;
  wx_implementation_task : string;
  wx_implementation_state : string;
  wx_implementation_session : option string;
  wx_implementation_turn : option string;
  wx_base : string;
  wx_candidate : string;
  wx_candidate_completion : string;
  wx_content : string;
}.

Record RecoveryOutcome := { ro_role : string; ro_state : string; ro_action : string; ro_blocker : option string }.

Class AttemptTables (Q : Type) := {
  supervisor_attempt : Q → string → option SupervisorAttempt;
  diff_review_attempt : Q → string → option DiffReviewAttempt;
  plan_review_attempt : Q → string → option (string * string * string);
  has_completion_output : Q → string → bool;
  worker_dispatch : Q → string → option WorkerDispatch;
  worker_attempt : Q → string → option WorkerAttempt;
  worker_output : Q → string → option WorkerOutput;
  recovery_outcome : Q → string → string → option RecoveryOutcome;
}.

(** The lineage tables of the gates are among the other ones. *)
#[export] Instance review_lineage `{!LineageTables Q} : LineageTables (ReviewTables Q) := {
  has_attempts t := has_attempts (rest t);
  terminal_attempts t := terminal_attempts (rest t);
  verify_task_lineage t := verify_task_lineage (rest t);
  read_attempt t := read_attempt (rest t);
  subset_members t := subset_members (rest t);
  read_current t := read_current (rest t);
  edge_of_attempt t := edge_of_attempt (rest t);
  accepted_decision t := accepted_decision (rest t);
  routed_review t := routed_review (rest t);
}.

(** Setters. *)
Section Setters.
Context {Q : Type}.
Implicit Types (t : GateTables (ReviewTables Q)).

Definition set_items {R} (m : gmap string ReviewItemRow) (t : GateTables R) : GateTables R :=
  {| candidate_seals := candidate_seals t; candidate_rows := candidate_rows t; gate_contexts := gate_contexts t;
     gate_rows := gate_rows t; configurations := configurations t; review_policies := review_policies t;
     finalizations := finalizations t; review_items := m; others := others t |}.

Definition set_others {R S} (r : S) (t : GateTables R) : GateTables S :=
  {| candidate_seals := candidate_seals t; candidate_rows := candidate_rows t; gate_contexts := gate_contexts t;
     gate_rows := gate_rows t; configurations := configurations t; review_policies := review_policies t;
     finalizations := finalizations t; review_items := review_items t; others := r |}.

Definition set_provenance (m : gmap ProvenanceKey (string * string * string)) t : GateTables (ReviewTables Q) :=
  let o := others t in
  set_others {| provenance := m; commands := commands o; grants := grants o; objectives := objectives o; rest := rest o |} t.

Definition set_commands (m : gmap string CommandRow) t : GateTables (ReviewTables Q) :=
  let o := others t in
  set_others {| provenance := provenance o; commands := m; grants := grants o; objectives := objectives o; rest := rest o |} t.

Definition set_objectives (m : gmap string ObjectiveRow) t : GateTables (ReviewTables Q) :=
  let o := others t in
  set_others {| provenance := provenance o; commands := commands o; grants := grants o; objectives := m; rest := rest o |} t.

End Setters.

(** [_token(x)] and [_digest(x)] of a column that may be NULL. *)
Definition token_of (o : option string) : bool := match o with Some s => lifecycle_token s | None => false end.
Definition digest_of (o : option string) : bool := match o with Some s => match_hex 64 s | None => false end.

Definition durable_identity (o : option string) : bool :=
  match o with
  | Some s => lifecycle_token s || match_digest s
  | None => false
  end.

Definition newline : ascii := ascii_of_N 10.

(** [''.join] *)
Definition join_words (l : list string) : string := foldr String.append EmptyString l.

(** ** Authority *)

Section Operations.
Context {Q : Type} `{!AttemptTables Q} (migrations : list Migration).
Abbreviation Tables := (GateTables (ReviewTables Q)).
Implicit Types (t : Tables) (db : Database Tables) (w : World Tables).

(** [except StateError]: [GitIdentityError] is one. *)
Definition require_lifecycle_authority (i : TaskIdentity) (l : dyn TransitionLease) (now : Z) db : py unit :=
  match (_ ← require_current_transition_lease l (repository_id i) now db; require_matching_task i None db) with
  | Ok _ => Ok ()
  | Err e => if exn_kind e in? [StateError; GitIdentityError]
             then lifecycle_error "review lifecycle mutation lacks a current exact transition lease" else Err e
  end.

Definition lease_state (l : dyn TransitionLease) : option string :=
  match l with Typed l => Some (l_state_identity l) | Foreign => None end.

Definition require_current_candidate (i : TaskIdentity) (candidate : string) (l : dyn TransitionLease) db : py unit :=
  lifecycle_ensure
    (match candidate_seals (evidence db) !! StateDb.task_id i with
     | Some s => (se_candidate s ==? candidate) && (Some (se_state s) ==? lease_state l)
     | None => false
     end) "review lifecycle candidate is stale or not bound to the current lease state".

Definition accepted_review_error : string :=
  "review item provenance is missing, stale, or not an accepted supervisor review".

(** [_require_accepted_review]: the profile that owns the source of the item. *)
Definition require_accepted_review (i : TaskIdentity) (item : ReviewItem) (q : Q) : py string :=
  match supervisor_attempt q (it_attempt item) with
  | None => lifecycle_error accepted_review_error
  | Some a =>
      _ ← lifecycle_ensure ((sa_task a ==? StateDb.task_id i) && (sa_role a ==? "supervisor") && durable_identity (sa_profile a))
            accepted_review_error;
      let diff := diff_review_attempt q (it_review item) in
      let accepted_diff := match diff with
        | Some d => (dr_task d ==? StateDb.task_id i) && (dr_candidate d ==? it_candidate item) && (dr_attempt d ==? it_attempt item)
                    && (dr_state d ==? "accepted") && (dr_accepted d ==? Some (it_review item))
        | None => false
        end in
      let accepted_plan := (plan_review_attempt q (it_review item) ==? Some (StateDb.task_id i, it_attempt item, "recorded"))
                           && (it_candidate item ==? base_sha i) in
      _ ← (match it_source item with
           | ACCEPTED_REVIEW =>
               lifecycle_ensure ((sa_state a ==? "accepted") && (sa_accepted_review a ==? Some (it_review item))
                                 && (accepted_diff || accepted_plan))
                 "review item accepted review is not bound to the current candidate"
           | SUPERVISOR_FINDING =>
               lifecycle_ensure
                 ((sa_state a in? ["completed"; "accepted"])
                  && match diff with
                     | Some d => (dr_task d ==? StateDb.task_id i) && (dr_candidate d ==? it_candidate item)
                                 && (dr_attempt d ==? it_attempt item) && (dr_state d ==? "recorded")
                     | None => false
                     end
                  && has_completion_output q (it_attempt item))
                 "review finding provenance is not bound to a recorded supervisor output"
           end);
      match sa_profile a with Some p => Ok p | None => lifecycle_error accepted_review_error end
  end.

(** ** Review items *)

Definition item_row (item : ReviewItem) (owner : string) : ReviewItemRow :=
  {| ri_task := it_task item; ri_review := it_review item; ri_candidate := it_candidate item;
     ri_kind := ReviewItemKind_value (it_kind item); ri_source := ReviewItemSource_value (it_source item);
     ri_attempt := it_attempt item; ri_owner := owner; ri_content := it_content item; ri_destination := it_destination item;
     ri_blocker := if it_blocking item then "blocking" else "non-blocking"; ri_verification := "pending";
     ri_disposition := "pending"; ri_created := it_created item; ri_command := None |}.

(** What a replay of the item must agree on. *)
Definition semantic_columns (r : ReviewItemRow) : string * string * string * string * string * string * string :=
  (ri_task r, ri_candidate r, ri_kind r, ri_source r, ri_content r, ri_destination r, ri_blocker r).

Definition row_projection (item : string) (r : ReviewItemRow) : py ReviewItemProjection :=
  projection item (ri_kind r) (ri_blocker r) (ri_verification r) (ri_disposition r) (ri_destination r).

Definition same_semantics (row : ReviewItemRow) (kv : StoredItem) : bool :=
  (ri_task kv.2 ==? ri_task row) && (ri_candidate kv.2 ==? ri_candidate row) && (ri_kind kv.2 ==? ri_kind row)
  && (ri_content kv.2 ==? ri_content row).

(** [INSERT ... ON CONFLICT DO NOTHING] of a further source of an item. *)
Definition add_provenance (id : string) (item : ReviewItem) (owner : string) t : Tables :=
  let key := (id, it_review item, ReviewItemSource_value (it_source item), it_attempt item) in
  match provenance (others t) !! key with
  | Some _ => t
  | None => set_provenance (<[key := (it_task item, it_candidate item, owner)]> (provenance (others t))) t
  end.

(** [_record_review_item_connection] *)
Definition record_review_item_connection (i : TaskIdentity) (item : ReviewItem) t : py (ReviewItemProjection * Tables) :=
  owner ← require_accepted_review i item (rest (others t));
  let row := item_row item owner in
  match review_items t !! it_id item with
  | Some old =>
      _ ← lifecycle_ensure (semantic_columns old ==? semantic_columns row) "review item identity conflicts with committed state";
      p ← row_projection (it_id item) old;
      Ok (p, add_provenance (it_id item) item owner t)
  | None =>
      match List.find (same_semantics row) (map_to_list (review_items t)) with
      | Some (id, old) =>
          _ ← lifecycle_ensure ((ri_destination old ==? ri_destination row) && (ri_blocker old ==? ri_blocker row))
                "review item semantic identity has materially conflicting state";
          p ← row_projection id old;
          Ok (p, add_provenance id item owner t)
      | None =>
          _ ← sqlite_int (it_created item);
          let t := set_items (<[it_id item := row]> (review_items t)) t in
          let key := (it_id item, it_review item, ReviewItemSource_value (it_source item), it_attempt item) in
          m ← insert_row key (it_task item, it_candidate item, owner) (provenance (others t));
          Ok ({| pj_item := it_id item; pj_kind := it_kind item; pj_disposition := D_PENDING; pj_verification := V_PENDING;
                 pj_blocking := it_blocking item; pj_destination := it_destination item |}, set_provenance m t)
      end
  end.

(** [except sqlite3.IntegrityError] around the body of a transaction. *)
Definition integrity {A} (why : string) (r : py A * World Tables) : py A * World Tables :=
  match r with
  | (Err e, w) => (if exn_kind e ==? IntegrityError then lifecycle_error why else Err e, w)
  | (Ok a, w) => (Ok a, w)
  end.

Definition record_review_item (i : TaskIdentity) (item : ReviewItem) (l : dyn TransitionLease) (now : Z) w :
    py ReviewItemProjection * World Tables :=
  if it_task item !=? StateDb.task_id i then (lifecycle_error "review item task does not match its exact identity", w)
  else
    integrity "review item conflicts with committed state"
      (transaction migrations (λ db,
         _ ← require_lifecycle_authority i l now db;
         _ ← require_current_candidate i (it_candidate item) l db;
         r ← record_review_item_connection i item (evidence db);
         Ok (r.1, set_evidence r.2 db)) w).

(** ** Worker objectives *)

(** [repair_candidate_sha or base_sha] *)
Definition expected_dispatch (repair : option string) (i : TaskIdentity) : string :=
  match repair with Some s => if s ==? "" then base_sha i else s | None => base_sha i end.

Definition retry_text (number : Z) (attempt : string) : string :=
  String.append "worker-" (String.append (String.string_of_list_ascii (int_chars number)) (String.append "-" attempt)).

Definition require_worker_dispatch (i : TaskIdentity) (attempt dispatch : string) (q : Q) : py string :=
  match worker_dispatch q attempt with
  | None => lifecycle_error "Worker objective provider dispatch is unavailable or stale"
  | Some d =>
      _ ← lifecycle_ensure
            ((wd_task d ==? StateDb.task_id i) && (wd_role d ==? "worker") && (wd_state d ==? "dispatched")
             && token_of (wd_session d) && token_of (wd_turn d) && (wd_session d ==? wd_implementation_session d)
             && (wd_implementation_task d ==? StateDb.task_id i) && (wd_turn d ==? wd_implementation_turn d)
             && (wd_implementation_state d ==? "dispatched") && (dispatch ==? expected_dispatch (wd_repair_candidate d) i))
            "Worker objective provider dispatch is unavailable or stale";
      Ok (retry_text (wd_number d) attempt)
  end.

Definition require_worker_objective_attempt (i : TaskIdentity) (attempt dispatch : string) (q : Q) : py string :=
  match worker_attempt q attempt with
  | None => lifecycle_error "Worker objective provider attempt is unavailable or stale"
  | Some a =>
      let recoverable := (wa_state a ==? "ambiguous") && digest_of (wa_completion a)
        && (wa_recovery a ==? Some "blocked-ambiguous-turn") && (wa_blocker a ==? Some "completion-evidence-unverified") in
      _ ← lifecycle_ensure
            ((wa_task a ==? StateDb.task_id i) && (wa_role a ==? "worker")
             && ((wa_state a in? ["dispatched"; "completed"]) || recoverable)
             && (wa_implementation_task a ==? StateDb.task_id i) && (wa_implementation_state a in? ["dispatched"; "recorded"])
             && (dispatch ==? expected_dispatch (wa_repair_candidate a) i))
            "Worker objective provider attempt is unavailable or stale";
      Ok (retry_text (wa_number a) attempt)
  end.

Definition require_worker_objective_result (i : TaskIdentity) (attempt : string) (r : WorkerObjectiveResult) (q : Q) : py unit :=
  lifecycle_ensure
    (match worker_output q attempt with
     | None => false
     | Some x =>
         (wx_task x ==? StateDb.task_id i) && (wx_role x ==? "worker") && (wx_state x ==? "completed")
         && token_of (wx_session x) && token_of (wx_turn x) && (wx_session x ==? wx_implementation_session x)
         && (wx_turn x ==? wx_implementation_turn x)
         && match wx_pointer x with Some p => p !=? "" | None => false end
         && (wx_completion x ==? Some (wr_completion r)) && (wx_output x ==? Some (wr_accepted r))
         && (wx_implementation_task x ==? StateDb.task_id i) && (wx_implementation_state x ==? "recorded")
         && (wx_base x ==? base_sha i) && (wx_candidate x ==? wr_candidate r)
         && (wx_candidate_completion x ==? wr_completion r) && (wx_content x ==? wr_accepted r)
     end) "Worker objective result is missing, stale, or mismatched".

(** [_objective_projection]: the constructor checks what was stored. *)
Definition objective_projection (id : string) (r : ObjectiveRow) : py WorkerObjective :=
  let o := {| wo_id := id; wo_task := ob_row_task r; wo_dispatch := ob_dispatch r; wo_attempt := ob_attempt r;
              wo_retry := ob_retry r; wo_digest := ob_digest r; wo_state := ob_terminal r |} in
  _ ← (match ob_terminal r with COMPLETED result => check_WorkerObjectiveResult result | _ => Ok () end);
  _ ← check_WorkerObjective o;
  Ok o.

Definition objective_row (o : WorkerObjective) (retry : string) (s : ObjectiveState) : ObjectiveRow :=
  {| ob_row_task := wo_task o; ob_dispatch := wo_dispatch o; ob_attempt := wo_attempt o; ob_retry := retry;
     ob_digest := wo_digest o; ob_terminal := s |}.

(** The identifying columns. *)
Definition objective_columns (r : ObjectiveRow) : string * string * string * string * string :=
  (ob_row_task r, ob_dispatch r, ob_attempt r, ob_retry r, ob_digest r).

(** The unique columns of the table. *)
Definition objective_unique (r : ObjectiveRow) (m : gmap string ObjectiveRow) : py unit :=
  _ ← unique_column ob_attempt (ob_attempt r) m;
  _ ← unique_column ob_retry (ob_retry r) m;
  unique_column (λ r, (ob_row_task r, ob_dispatch r, ob_digest r)) (ob_row_task r, ob_dispatch r, ob_digest r) m.

(** The row is projected after the commit. *)
Definition projected (r : py (string * ObjectiveRow) * World Tables) : py WorkerObjective * World Tables :=
  (x ← r.1; objective_projection x.1 x.2, r.2).

Definition start_objective (i : TaskIdentity) (o : WorkerObjective) (l : dyn TransitionLease) (now : Z) w :
    py WorkerObjective * World Tables :=
  if wo_task o !=? StateDb.task_id i then (lifecycle_error "Worker objective task does not match its exact identity", w)
  else
    projected (integrity "Worker objective conflicts with an existing attempt"
      (transaction migrations (λ db,
         _ ← require_lifecycle_authority i l now db;
         retry ← require_worker_dispatch i (wo_attempt o) (wo_dispatch o) (rest (others (evidence db)));
         _ ← lifecycle_ensure (wo_retry o ==? retry) "Worker objective retry identity is not the durable attempt identity";
         let row := objective_row o retry ACTIVE in
         match objectives (others (evidence db)) !! wo_id o with
         | None =>
             _ ← objective_unique row (objectives (others (evidence db)));
             Ok ((wo_id o, row), write (λ t, set_objectives (<[wo_id o := row]> (objectives (others t))) t) db)
         | Some old =>
             _ ← lifecycle_ensure (objective_columns old ==? objective_columns row)
                   "Worker objective identity conflicts with committed state";
             Ok ((wo_id o, old), db)
         end) w)).

(** The rows of an objective that ends: its state is [terminal] now. *)
Definition terminal_transition (i : TaskIdentity) (o : WorkerObjective) (l : dyn TransitionLease) (row : ObjectiveRow)
    (terminal : ObjectiveState) db : py (ObjectiveRow) :=
  match terminal, ob_terminal row with
  | COMPLETED r, COMPLETED r' =>
      _ ← lifecycle_ensure (r ==? r') "Worker objective terminal replay conflicts with committed state";
      _ ← require_current_candidate i (wr_candidate r) l db;
      _ ← require_worker_objective_result i (wo_attempt o) r (rest (others (evidence db)));
      Ok row
  | CANCELLED reason, CANCELLED reason' =>
      _ ← lifecycle_ensure (reason ==? reason') "Worker objective terminal replay conflicts with committed state";
      Ok row
  | COMPLETED r, ACTIVE =>
      _ ← require_current_candidate i (wr_candidate r) l db;
      _ ← require_worker_objective_result i (wo_attempt o) r (rest (others (evidence db)));
      Ok (objective_row o (ob_retry row) terminal)
  | CANCELLED _, ACTIVE => Ok (objective_row o (ob_retry row) terminal)
  | _, _ => lifecycle_error "Worker objective is already terminal"
  end.

Definition terminal_objective (i : TaskIdentity) (o : WorkerObjective) (l : dyn TransitionLease) (now : Z)
    (terminal : ObjectiveState) w : py WorkerObjective * World Tables :=
  if wo_task o !=? StateDb.task_id i then (lifecycle_error "Worker objective task does not match its exact identity", w)
  else
    projected (transaction migrations (λ db,
      _ ← require_lifecycle_authority i l now db;
      retry ← require_worker_objective_attempt i (wo_attempt o) (wo_dispatch o) (rest (others (evidence db)));
      match objectives (others (evidence db)) !! wo_id o with
      | None => lifecycle_error "Worker objective is missing or has drifted"
      | Some row =>
          _ ← lifecycle_ensure (objective_columns row ==? objective_columns (objective_row o retry ACTIVE))
                "Worker objective is missing or has drifted";
          new ← terminal_transition i o l row terminal db;
          Ok ((wo_id o, objective_row o retry terminal),
              write (λ t, set_objectives (<[wo_id o := new]> (objectives (others t))) t) db)
      end) w).

Definition complete_objective (i : TaskIdentity) (o : WorkerObjective) (l : dyn TransitionLease) (now : Z)
    (result : dyn WorkerObjectiveResult) w : py WorkerObjective * World Tables :=
  match result with
  | Foreign => (lifecycle_error "objective completion is invalid", w)
  | Typed r => terminal_objective i o l now (COMPLETED r) w
  end.

Definition cancel_objective (i : TaskIdentity) (o : WorkerObjective) (l : dyn TransitionLease) (now : Z) (reason : string) w :
    py WorkerObjective * World Tables :=
  if negb (match_hex 64 reason) then (lifecycle_error "objective cancellation is invalid", w)
  else terminal_objective i o l now (CANCELLED reason) w.

Definition abandoned_actions : list string :=
  ["blocked-stale-worker"; "blocked-ambiguous-turn"; "blocked-identity-drift"; "blocked-retry-limit"].

(** The objective of a provider attempt of the task, which is unique. *)
Definition objective_of_attempt (task attempt : string) t : option (string * ObjectiveRow) :=
  List.find (λ kv : string * ObjectiveRow, (ob_row_task kv.2 ==? task) && (ob_attempt kv.2 ==? attempt))
    (map_to_list (objectives (others t))).

(** [_cancel_objective_for_recovery_connection] *)
Definition cancel_objective_for_recovery_connection (i : TaskIdentity) (attempt reason : string) t :
    py (option WorkerObjective * Tables) :=
  _ ← lifecycle_ensure (lifecycle_token attempt && match_hex 64 reason) "Worker recovery cancellation is invalid";
  match recovery_outcome (rest (others t)) (StateDb.task_id i) attempt with
  | None => lifecycle_error "Worker recovery cancellation lacks terminal abandonment evidence"
  | Some o =>
      _ ← lifecycle_ensure ((ro_role o ==? "worker") && (ro_state o in? ["blocked"; "ambiguous"])
                            && (ro_action o in? abandoned_actions) && token_of (ro_blocker o))
            "Worker recovery cancellation lacks terminal abandonment evidence";
      _ ← lifecycle_ensure (negb ((ro_state o ==? "ambiguous") && (ro_action o ==? "blocked-ambiguous-turn")
                                  && (ro_blocker o ==? Some "completion-evidence-unverified")))
            "Worker recovery cancellation is unavailable while completion evidence remains recoverable";
      match objective_of_attempt (StateDb.task_id i) attempt t with
      | None => Ok (None, t)
      | Some (id, row) =>
          p ← objective_projection id row;
          match ob_terminal row with
          | COMPLETED _ => Ok (Some p, t)
          | CANCELLED reason' =>
              _ ← lifecycle_ensure (reason ==? reason') "Worker objective terminal replay conflicts with committed state";
              Ok (Some p, t)
          | ACTIVE =>
              let row := {| ob_row_task := ob_row_task row; ob_dispatch := ob_dispatch row; ob_attempt := ob_attempt row;
                            ob_retry := ob_retry row; ob_digest := ob_digest row; ob_terminal := CANCELLED reason |} in
              p ← objective_projection id row;
              Ok (Some p, set_objectives (<[id := row]> (objectives (others t))) t)
          end
      end
  end.

Definition cancel_objective_for_provider_attempt (i : TaskIdentity) (attempt reason : string) (l : dyn TransitionLease)
    (now : Z) w : py (option WorkerObjective) * World Tables :=
  transaction migrations (λ db,
    _ ← require_lifecycle_authority i l now db;
    r ← cancel_objective_for_recovery_connection i attempt reason (evidence db);
    Ok (r.1, set_evidence r.2 db)) w.

Definition read_objective (i : TaskIdentity) (id : string) w : py WorkerObjective :=
  _ ← lifecycle_ensure (lifecycle_token id) "Worker objective identity is invalid";
  db ← open_connection migrations w;
  _ ← require_matching_task i None db;
  match objectives (others (evidence db)) !! id with
  | None => lifecycle_error "Worker objective is unavailable"
  | Some row =>
      o ← objective_projection id row;
      _ ← (match wo_state o with
           | COMPLETED r => require_worker_objective_result i (wo_attempt o) r (rest (others (evidence db)))
           | ACTIVE =>
               _ ← require_worker_objective_attempt i (wo_attempt o) (wo_dispatch o) (rest (others (evidence db))); Ok ()
           | CANCELLED _ => Ok ()
           end);
      Ok o
  end.

(** ** Owner commands *)

Definition unit_separator : ascii := ascii_of_N 31.

Definition owner_scope_digest (c : OwnerCommand) : string :=
  sha256_hex (join unit_separator [OwnerCommandKind_value (cm_kind c); cm_task c; cm_candidate c; cm_target c; cm_owner c;
                                   cm_grant c]).

Definition owner_authority_digest (owner scope task candidate : string) : string :=
  sha256_hex (join unit_separator (["review-owner-authority/v1"; owner; scope; task; candidate]
                                   ++ sorted_by (λ s, [s]) OWNER_ALLOWLIST)).

Definition valid_owner_grant (grant : option GrantRow) (owner scope task candidate : string) : bool :=
  match grant with
  | None => false
  | Some g =>
      (gt_owner g ==? owner) && (gt_scope g ==? scope) && (gt_task g ==? task) && (gt_candidate g ==? candidate)
      && (gt_state g ==? "active") && (owner in? OWNER_ALLOWLIST)
      && (gt_authority g ==? owner_authority_digest owner scope task candidate)
  end.

(** [_owner_command_target] *)
Definition owner_command_target (task item candidate : string) t : bool :=
  match review_items t !! item with
  | Some r =>
      (ri_task r ==? task)
      && ((ri_candidate r ==? candidate) || ((ri_kind r ==? "pass-follow-up") && (ri_source r ==? "accepted-review")))
  | None => false
  end.

Definition command_row (c : OwnerCommand) (state : string) (result : option string) : CommandRow :=
  {| oc_task := cm_task c; oc_kind := OwnerCommandKind_value (cm_kind c); oc_owner := cm_owner c; oc_grant := cm_grant c;
     oc_target := cm_target c; oc_candidate := cm_candidate c; oc_digest := cm_digest c; oc_scope := owner_scope_digest c;
     oc_key := cm_key c; oc_state := state; oc_result := result |}.

(** The columns that a queued command and its replay agree on. *)
Definition command_columns (r : CommandRow) : list string :=
  [oc_task r; oc_kind r; oc_owner r; oc_grant r; oc_target r; oc_candidate r; oc_digest r; oc_scope r; oc_key r].

Definition queue_owner_command (i : TaskIdentity) (c : OwnerCommand) (l : dyn TransitionLease) (now : Z) w :
    py OwnerCommand * World Tables :=
  if cm_task c !=? StateDb.task_id i then (lifecycle_error "owner command task does not match its exact identity", w)
  else
    transaction migrations (λ db,
      _ ← require_lifecycle_authority i l now db;
      _ ← require_current_candidate i (cm_candidate c) l db;
      _ ← lifecycle_ensure (owner_command_target (StateDb.task_id i) (cm_target c) (cm_candidate c) (evidence db))
            "owner command target is stale or outside its scope";
      let tables := others (evidence db) in
      _ ← lifecycle_ensure (valid_owner_grant (grants tables !! cm_grant c) (cm_owner c) (OwnerCommandKind_value (cm_kind c))
                              (StateDb.task_id i) (cm_candidate c))
            "owner command lacks a current allowlisted authority grant";
      let row := command_row c "pending" None in
      match commands tables !! cm_id c with
      | Some old =>
          _ ← lifecycle_ensure (command_columns old ==? command_columns row)
                "owner command identity conflicts with committed state";
          Ok (c, db)
      | None =>
          _ ← lifecycle_ensure (forallb (λ kv : string * CommandRow, oc_key kv.2 !=? cm_key c) (map_to_list (commands tables)))
                "owner command idempotency key conflicts with committed state";
          Ok (c, write (λ t, set_commands (<[cm_id c := row]> (commands (others t))) t) db)
      end) w.

Definition consumed_row (r : CommandRow) (result : string) : CommandRow :=
  {| oc_task := oc_task r; oc_kind := oc_kind r; oc_owner := oc_owner r; oc_grant := oc_grant r; oc_target := oc_target r;
     oc_candidate := oc_candidate r; oc_digest := oc_digest r; oc_scope := oc_scope r; oc_key := oc_key r;
     oc_state := "consumed"; oc_result := Some result |}.

Definition closed_item (r : ReviewItemRow) (d : ReviewItemDisposition) (v : VerificationState) (command : string) : ReviewItemRow :=
  {| ri_task := ri_task r; ri_review := ri_review r; ri_candidate := ri_candidate r; ri_kind := ri_kind r;
     ri_source := ri_source r; ri_attempt := ri_attempt r; ri_owner := ri_owner r; ri_content := ri_content r;
     ri_destination := ri_destination r; ri_blocker := ri_blocker r; ri_verification := VerificationState_value v;
     ri_disposition := ReviewItemDisposition_value d; ri_created := ri_created r; ri_command := Some command |}.

Definition disposition_of (kind : string) : ReviewItemDisposition :=
  if kind ==? OwnerCommandKind_value RESOLVE_REVIEW_ITEM then D_RESOLVED else D_WAIVED.

Definition verification_of (d : ReviewItemDisposition) : VerificationState :=
  if d ==? D_RESOLVED then V_VERIFIED else V_WAIVED.

(** The command with its grant, the candidate and the item that it is for. *)
Definition consumed_command (i : TaskIdentity) (id : string) (l : dyn TransitionLease) db : py (CommandRow * ReviewItemRow) :=
  let tables := others (evidence db) in
  match commands tables !! id with
  | None => lifecycle_error "owner command is missing or outside its exact task"
  | Some row =>
      match (if oc_task row ==? StateDb.task_id i then grants tables !! oc_grant row else None) with
      | None => lifecycle_error "owner command is missing or outside its exact task"
      | Some g =>
          _ ← lifecycle_ensure (valid_owner_grant (Some {| gt_owner := oc_owner row; gt_scope := gt_scope g; gt_task := gt_task g;
                                                           gt_candidate := gt_candidate g; gt_authority := gt_authority g;
                                                           gt_state := gt_state g |})
                                  (oc_owner row) (oc_kind row) (StateDb.task_id i) (oc_candidate row))
                "owner command authority is stale or no longer allowlisted";
          _ ← require_current_candidate i (oc_candidate row) l db;
          match review_items (evidence db) !! oc_target row with
          | Some item =>
              _ ← lifecycle_ensure (ri_task item ==? StateDb.task_id i) "owner command target is stale or outside its scope";
              Ok (row, item)
          | None => lifecycle_error "owner command target is stale or outside its scope"
          end
      end
  end.

Definition consume_owner_command (i : TaskIdentity) (id : string) (l : dyn TransitionLease) (now : Z) (result : string) w :
    py ReviewItemProjection * World Tables :=
  if negb (lifecycle_token id && match_hex 64 result) then (lifecycle_error "owner command consumption is invalid", w)
  else
    let r := transaction migrations (λ db,
      _ ← require_lifecycle_authority i l now db;
      found ← consumed_command i id l db;
      let (row, item) := (found : CommandRow * ReviewItemRow) in
      if oc_state row ==? "consumed" then
        _ ← lifecycle_ensure ((oc_result row ==? Some result) && (ri_command item ==? Some id))
              "owner command terminal replay conflicts with committed state";
        Ok ((oc_target row, item), db)
      else
        _ ← lifecycle_ensure ((oc_state row ==? "pending") && (ri_disposition item ==? "pending"))
              "owner command conflicts with an already terminal item";
        let d := disposition_of (oc_kind row) in
        let closed := closed_item item d (verification_of d) id in
        _ ← unique_column ri_command (Some id) (delete (oc_target row) (review_items (evidence db)));
        Ok ((oc_target row, closed), write (λ t, set_commands (<[id := consumed_row row result]> (commands (others t)))
                             (set_items (<[oc_target row := closed]> (review_items t)) t)) db)) w in
    (x ← r.1; row_projection x.1 x.2, r.2).

(** ** The owner's view *)

Definition item_line (kv : StoredItem) : string :=
  let r := kv.2 in
  join_words ["item="; kv.1; " kind="; ri_kind r; " disposition="; ri_disposition r; " verification="; ri_verification r;
              " blocking="; ri_blocker r; " destination="; ri_destination r].

Definition command_line (kv : string * CommandRow) : string :=
  let r := kv.2 in
  join_words ["command="; kv.1; " kind="; oc_kind r; " target="; oc_target r; " state="; oc_state r].

Definition visible_item (task candidate : string) (kv : StoredItem) : bool :=
  (ri_task kv.2 ==? task)
  && ((ri_candidate kv.2 ==? candidate) || ((ri_kind kv.2 ==? "pass-follow-up") && (ri_source kv.2 ==? "accepted-review"))).

Definition render_owner_view (task candidate : string) w : py string :=
  _ ← lifecycle_ensure (lifecycle_token task && match_hex 40 candidate) "owner rendering scope is invalid";
  db ← open_connection migrations w;
  let rows := sorted_by (λ kv : StoredItem, [kv.1])
                (List.filter (visible_item task candidate) (map_to_list (review_items (evidence db)))) in
  let queued := sorted_by (λ kv : string * CommandRow, [kv.1])
                  (List.filter (λ kv : string * CommandRow, (oc_task kv.2 ==? task) && (oc_candidate kv.2 ==? candidate))
                     (map_to_list (commands (others (evidence db))))) in
  Ok (join newline ("review-items" :: map item_line rows ++ "owner-commands" :: map command_line queued)).

End Operations.
