(* ===== verification/ReviewHistory.v ===== *)
(** * Histories of reviews (src/roundwright/review_lifecycle.py, gates.py, state.py)

    What holds of review items and owner commands after any operations of any
    process: the operations of this component, of the gates and of the tasks, and
    changes of other components. *)

From stdpp Require Import gmap.
From S2P Require Import Prelude Sha256 Json PyTime RuntimeBinding Policy DependencyPolicy DependencyReview DependencyGraph.
From S2P Require Import Sqlite Worktree Migrations StateDb TaskState Candidates Gates GateStore GateHistory ReviewStore.
Open Scope Z_scope.

(** ** What the operations on tasks do to the evidence tables *)

Section Evidence.
Context {E : Type} `{!EvidenceTables E} (migrations : list Migration) (K : E → E → Prop) `{!Reflexive K, !Transitive K}.
Implicit Types (db : Database E) (w : World E).

(** The evidence tables change by [K] at most. *)
Definition keeps w w' : Prop :=
  w' = w ∨ ∃ db db', w = Some db ∧ w' = Some db' ∧ K (evidence db) (evidence db').

Lemma keeps_refl w : keeps w w.
Proof. by left. Qed.

Lemma keeps_trans w1 w2 w3 : keeps w1 w2 → keeps w2 w3 → keeps w1 w3.
Proof.
  intros [->|(db1 & db2 & -> & -> & H1)]; [done|]. intros [->|(db2' & db3 & [= <-] & -> & H2)]; right; [by exists db1, db2|].
  exists db1, db3. split_and!; try done. by etrans.
Qed.

Lemma transaction_keeps_evidence {A} (body : Database E → py (A * Database E)) w :
  (∀ db a db', body db = Ok (a, db') → K (evidence db) (evidence db')) → keeps w (transaction migrations body w).2.
Proof.
  intros H. destruct (transaction_cases migrations body w) as [[e ->]|(db & a & db' & -> & _ & Hb & ->)]; [by left|right].
  exists db, db'. split_and!; eauto.
Qed.

Lemma on_task_keeps i expected l now body w :
  (∀ db db', body db = Ok db' → evidence db' = evidence db) → keeps w (on_task migrations i expected l now body w).2.
Proof.
  intros H. apply transaction_keeps_evidence. intros db a db' (_ & _ & Hb)%bind_ok. apply bind_ok in Hb as (_ & _ & Hb).
  apply bind_ok in Hb as (d & Hd & [= _ <-]). by rewrite (H _ _ Hd).
Qed.

Lemma after_keeps {A} checks (op : World E → py A * World E) w : keeps w (op w).2 → keeps w (after checks op w).2.
Proof. intros H. by destruct (after_cases checks op w) as [[e ->]|[_ ->]]; [left|]. Qed.

(** The other checks and writes of a larger transaction. *)
Definition rests_keep (o : operation E) : Prop :=
  match o with
  | ReopenPlanning _ _ rest _ _ | ReturnToWorker _ _ rest _ _ => ∀ db e, rest db = Ok e → K (evidence db) e
  | Elsewhere e => False
  | _ => True
  end.

Lemma commit_keeps i from to fp l now validated w : keeps w (commit_transition migrations i from to fp l now validated w).2.
Proof.
  destruct (commit_cases migrations i from to fp l now validated w) as [[e ->]|(db & l' & t & -> & _ & _ & _ & _ & _ & _ & _ & _ & ->)];
    [by left|right]. eexists db, _. split_and!; [done..|]. by case_match.
Qed.

Lemma evidence_moved (db db' : Database E) : evidence db' = evidence db → K (evidence db) (evidence db').
Proof. by intros ->. Qed.

Lemma lease_keeps repository owner ttl system now l w :
  keeps w (acquire_transition_lease migrations repository owner ttl system now w).2
  ∧ keeps w (renew_transition_lease migrations l ttl system now w).2
  ∧ keeps w (release_transition_lease migrations l system now w).2.
Proof.
  unfold acquire_transition_lease, renew_transition_lease, release_transition_lease. split_and!.
  - destruct (_ ≫= _) as [observed|e]; [|by left]. apply transaction_keeps_evidence. intros db a db' (identity & _ & Hb)%bind_ok.
    apply evidence_moved. destruct (lease db).
    + do 3 (apply bind_ok in Hb as (_ & _ & Hb)). by apply bind_ok in Hb as (expires & _ & [= _ <-]).
    + apply bind_ok in Hb as (next & _ & Hb). by apply bind_ok in Hb as (expires & _ & [= _ <-]).
  - destruct (_ ≫= _) as [observed|e]; [|by left]. apply transaction_keeps_evidence. intros db a db' (_ & _ & Hb)%bind_ok.
    apply bind_ok in Hb as (expires & _ & [= _ <-]). by apply evidence_moved.
  - apply transaction_keeps_evidence. intros db a db' (observed & _ & Hb)%bind_ok. apply bind_ok in Hb as (_ & _ & [= _ <-]).
    by apply evidence_moved.
Qed.

Lemma admission_keeps i ss l now w : keeps w (admit_task migrations i ss l now w).2.
Proof.
  unfold admit_task. destruct ss as [|s [|s' ss]]; apply after_keeps; try apply keeps_refl. rewrite then_project_world.
  apply transaction_keeps_evidence. intros db a db' (_ & _ & Hb)%bind_ok. apply bind_ok in Hb as (ss & _ & Hb).
  apply bind_ok in Hb as (key & _ & Hb). apply bind_ok in Hb as (_ & _ & Hb).
  destruct (tasks db !! task_id i); [by apply bind_ok in Hb as (_ & _ & ?)|].
  apply bind_ok in Hb as (_ & _ & Hb). apply bind_ok in Hb as (ws & _ & Hb). apply bind_ok in Hb as (_ & _ & Hb).
  apply bind_ok in Hb as (bs & _ & [= _ <-]). by apply evidence_moved.
Qed.

Lemma rests_keeps i fp rest l now w : (∀ db e, rest db = Ok e → K (evidence db) e) →
  keeps w (reopen_planning migrations i fp rest l now w).2 ∧ keeps w (return_to_worker migrations i fp rest l now w).2.
Proof.
  intros Hrest. split; apply transaction_keeps_evidence; intros db a db' (_ & _ & Hb)%bind_ok; apply bind_ok in Hb as (s & _ & Hb);
    apply bind_ok in Hb as (e & He%Hrest & Hb).
  - case_match; [by apply bind_ok in Hb as (_ & _ & [= _ <-])|].
    apply bind_ok in Hb as (_ & _ & Hb). by apply bind_ok in Hb as (_ & _ & [= _ <-]).
  - apply bind_ok in Hb as (_ & _ & Hb). by apply bind_ok in Hb as (_ & _ & [= _ <-]).
Qed.

Lemma run_keeps o w : rests_keep o → (∀ b s l w, keeps w (TaskState.candidate_evidence b s l w).2) → keeps w (run migrations o w).
Proof.
  intros Hrest Hce. destruct o; cbn [run]; cbn [rests_keep] in Hrest.
  - apply admission_keeps.
  - unfold transition_task. destruct (_ ≫= _) as [[from to]|]; [apply commit_keeps|by left].
  - unfold transition_ready_for_owner. destruct b as [b|], s as [s|]; apply after_keeps; try apply keeps_refl.
    pose proof (Hce b s l w) as H. destruct (TaskState.candidate_evidence b s l w) as [[found|x] w1]; cbn [snd] in *; [|done].
    eapply keeps_trans; [exact H|apply commit_keeps].
  - apply after_keeps. rewrite then_project_world. apply on_task_keeps. by intros db db' [= <-].
  - apply after_keeps. rewrite then_project_world. apply on_task_keeps. by intros db db' [= <-].
  - apply after_keeps. rewrite then_project_world. apply on_task_keeps. by intros db db' [= <-].
  - by apply rests_keeps.
  - by apply rests_keeps.
  - by apply (lease_keeps _ _ _ _ _ TaskState.Sample.current).
  - by apply (lease_keeps "" "").
  - by apply (lease_keeps "" "" 0).
  - done.
Qed.

End Evidence.

(** ** Operations of any process *)

Inductive review_operation :=
  | RecordItem (i : TaskIdentity) (item : ReviewItem) (l : dyn TransitionLease) (now : Z)
  | StartObjective (i : TaskIdentity) (o : WorkerObjective) (l : dyn TransitionLease) (now : Z)
  | CompleteObjective (i : TaskIdentity) (o : WorkerObjective) (l : dyn TransitionLease) (now : Z)
      (result : dyn WorkerObjectiveResult)
  | CancelObjective (i : TaskIdentity) (o : WorkerObjective) (l : dyn TransitionLease) (now : Z) (reason : string)
  | CancelForAttempt (i : TaskIdentity) (attempt reason : string) (l : dyn TransitionLease) (now : Z)
  | QueueCommand (i : TaskIdentity) (c : OwnerCommand) (l : dyn TransitionLease) (now : Z)
  | ConsumeCommand (i : TaskIdentity) (id : string) (l : dyn TransitionLease) (now : Z) (result : string).

Section System.
Context {Q : Type} `{!LineageTables Q, !AttemptTables Q} (migrations : list Migration).
Abbreviation Tables := (GateTables (ReviewTables Q)).
Implicit Types (t : Tables) (db : Database Tables) (w : World Tables).

Definition run_review (o : review_operation) w : World Tables :=
  match o with
  | RecordItem i item l now => (record_review_item migrations i item l now w).2
  | StartObjective i o l now => (start_objective migrations i o l now w).2
  | CompleteObjective i o l now result => (complete_objective migrations i o l now result w).2
  | CancelObjective i o l now reason => (cancel_objective migrations i o l now reason w).2
  | CancelForAttempt i attempt reason l now => (cancel_objective_for_provider_attempt migrations i attempt reason l now w).2
  | QueueCommand i c l now => (queue_owner_command migrations i c l now w).2
  | ConsumeCommand i id l now result => (consume_owner_command migrations i id l now result w).2
  end.

(** An operation of any component; [OnOther] is a change of the other ones. *)
Inductive system_operation :=
  | OnTask (r : Readings) (o : operation Tables)
  | OnGates (o : gate_operation)
  | OnReviews (o : review_operation)
  | OnOther (f : Tables → Tables).

Definition run_system (o : system_operation) w : World Tables :=
  match o with
  | OnTask r o => @run _ (gate_tables migrations r) migrations o w
  | OnGates o => run_gate migrations o w
  | OnReviews o => run_review o w
  | OnOther f => match w with Some db => Some (write f db) | None => None end
  end.

Definition run_systems (os : list system_operation) w : World Tables := foldl (λ w o, run_system o w) w os.

(** An item that nobody decided about. *)
Definition open_item (r : ReviewItemRow) : Prop :=
  ri_disposition r = "pending" ∧ ri_verification r = "pending" ∧ ri_command r = None.

(** What the rest of the program does to the tables of this component: it adds
    open items (plan_review.py and candidate_review.py record the items of a
    review in their own transactions) and ends objectives. *)
Record extends t t' : Prop := {
  ext_items : review_items t ⊆ review_items t';
  ext_fresh : ∀ id r, review_items t' !! id = Some r → review_items t !! id = Some r ∨ open_item r;
  ext_commands : commands (others t') = commands (others t);
}.

Definition valid_operation (o : system_operation) : Prop :=
  match o with
  | OnTask _ o => rests_keep extends o
  | OnGates o => constructed o
  | OnReviews _ => True
  | OnOther f => ∀ t, extends t (f t)
  end.

#[export] Instance extends_refl : Reflexive extends.
Proof. intros t. constructor; auto. Qed.

#[export] Instance extends_trans : Transitive extends.
Proof.
  intros t1 t2 t3 [A1 B1 C1] [A2 B2 C2]. constructor; [by etrans| |congruence]. intros id r [H|?]%B2; [by apply B1|by right].
Qed.

Lemma same_extends t t' : review_items t' = review_items t → commands (others t') = commands (others t) → extends t t'.
Proof. intros Hi Hc. constructor; [by rewrite Hi|intros id r; rewrite Hi; by left|done]. Qed.

(** ** The gates keep these tables *)

Lemma candidate_change_keeps t t' : candidate_change t t' → review_items t' = review_items t ∧ others t' = others t.
Proof. intros []; [done|unfold resealed; by do 2 case_match|done]. Qed.

Lemma gate_change_keeps t t' : gate_change t t' → review_items t' = review_items t ∧ others t' = others t.
Proof.
  intros [t1 H| |task candidate new change k row conflict t1 H]; [by apply candidate_change_keeps|done|].
  pose proof (rec_row _ _ _ _ _ _ _ _ _ H) as Hrow. unfold record_row in Hrow.
  destruct (gate_rows _ !! k).
  - case_match; injection Hrow as <- <-; by destruct change.
  - apply bind_ok in Hrow as (z & _ & [= <- <-]). by destruct change.
Qed.

Lemma evolves_extends w w' : evolves w w' → keeps extends w w'.
Proof.
  intros [->|(db & db' & -> & -> & Hsteps)]; [by left|right]. exists db, db'. split_and!; try done.
  induction Hsteps as [|t1 t2 t3 H _ IH]; [done|]. etrans; [|exact IH]. apply gate_change_keeps in H as [Hi Ho].
  apply same_extends; [done|by rewrite Ho].
Qed.

Lemma task_extends r o w : rests_keep extends o → keeps extends w (@run _ (gate_tables migrations r) migrations o w).
Proof. intros Ho. apply run_keeps; try apply _; [done|]. intros b s l w'. apply evolves_extends, collect_evolves. Qed.

(** ** Review operations *)

(** Nothing happens, or the evidence tables alone change, by [P]. *)
Definition moves (P : Tables → Tables → Prop) w w' : Prop :=
  w' = w ∨ ∃ db t, w = Some db ∧ w' = Some (set_evidence t db) ∧ P (evidence db) t.

Lemma moves_keeps P w w' : moves P w w' → keeps P w w'.
Proof. intros [->|(db & t & -> & -> & H)]; [by left|right]. by exists db, (set_evidence t db). Qed.

(** The body of a transaction writes the evidence tables alone, by [P]. *)
Definition writes_by (P : Tables → Tables → Prop) db db' : Prop := db' = db ∨ ∃ t, db' = set_evidence t db ∧ P (evidence db) t.

Lemma transaction_moves {A} P (body : Database Tables → py (A * Database Tables)) w :
  (∀ db a db', body db = Ok (a, db') → writes_by P db db') → moves P w (transaction migrations body w).2.
Proof.
  intros H. destruct (transaction_cases migrations body w) as [[e ->]|(db & a & db' & -> & _ & Hb & ->)]; [by left|].
  destruct (H _ _ _ Hb) as [->|(t & -> & Ht)]; [by left|right]. by exists db, t.
Qed.

Lemma integrity_world {A} why (x : py A * World Tables) : (integrity why x).2 = x.2.
Proof. by destruct x as [[]]. Qed.

Lemma add_provenance_extends id item owner t : extends t (add_provenance id item owner t).
Proof. unfold add_provenance. by case_match; [|apply same_extends]. Qed.

Lemma record_extends i item t p t' : record_review_item_connection i item t = Ok (p, t') → extends t t'.
Proof.
  unfold record_review_item_connection. intros (owner & _ & H)%bind_ok. destruct (review_items t !! it_id item) as [old|] eqn:Hold.
  - apply bind_ok in H as (_ & _ & H). apply bind_ok in H as (p' & _ & [= _ <-]). apply add_provenance_extends.
  - destruct (List.find _ _) as [[id old]|].
    + apply bind_ok in H as (_ & _ & H). apply bind_ok in H as (p' & _ & [= _ <-]). apply add_provenance_extends.
    + apply bind_ok in H as (z & _ & H). apply bind_ok in H as (m & _ & [= _ <-]). constructor; [by apply insert_subseteq| |done].
      intros id r. cbn [set_provenance set_others set_items review_items].
      intros [[<- <-]|[_ ?]]%lookup_insert_Some; [by right|by left].
Qed.

Lemma cancel_extends i attempt reason t p t' :
  cancel_objective_for_recovery_connection i attempt reason t = Ok (p, t') → extends t t'.
Proof.
  unfold cancel_objective_for_recovery_connection. intros (_ & _ & H)%bind_ok. destruct (recovery_outcome _ _ _); [|done].
  do 2 (apply bind_ok in H as (_ & _ & H)). destruct (objective_of_attempt _ _ _) as [[id row]|]; [|by injection H as _ <-].
  apply bind_ok in H as (p0 & _ & H). destruct (ob_terminal row).
  - apply bind_ok in H as (p1 & _ & [= _ <-]). by apply same_extends.
  - by apply bind_ok in H as (_ & _ & [= _ <-]).
  - by injection H as _ <-.
Qed.

Lemma terminal_extends i o l now terminal w : moves extends w (terminal_objective migrations i o l now terminal w).2.
Proof.
  unfold terminal_objective. case_match; [by left|]. cbn [projected snd]. apply transaction_moves.
  intros db a db' (_ & _ & Hb)%bind_ok. apply bind_ok in Hb as (retry & _ & Hb). destruct (objectives _ !! _); [|done].
  apply bind_ok in Hb as (_ & _ & Hb). apply bind_ok in Hb as (new & _ & [= _ <-]). right. eexists. split; [reflexivity|].
  by apply same_extends.
Qed.

(** Everything but the consumption of a command and the queue of commands. *)
Lemma review_extends o w : (match o with QueueCommand _ _ _ _ | ConsumeCommand _ _ _ _ _ => False | _ => True end) →
  moves extends w (run_review o w).
Proof.
  destruct o; cbn [run_review]; try done; intros _.
  - unfold record_review_item. case_match; [by left|]. rewrite integrity_world. apply transaction_moves.
    intros db a db' (_ & _ & Hb)%bind_ok. apply bind_ok in Hb as (_ & _ & Hb). apply bind_ok in Hb as ([p t] & Hr & [= _ <-]).
    right. eexists. split; [reflexivity|by eapply record_extends].
  - unfold start_objective. case_match; [by left|]. cbn [projected snd]. rewrite integrity_world. apply transaction_moves.
    intros db a db' (_ & _ & Hb)%bind_ok. apply bind_ok in Hb as (retry & _ & Hb). apply bind_ok in Hb as (_ & _ & Hb).
    destruct (objectives _ !! _); apply bind_ok in Hb as (_ & _ & [= _ <-]); [by left|right].
    eexists. split; [reflexivity|by apply same_extends].
  - destruct result; [apply terminal_extends|by left].
  - unfold cancel_objective. case_match; [by left|]. apply terminal_extends.
  - apply transaction_moves. intros db a db' (_ & _ & Hb)%bind_ok. apply bind_ok in Hb as ([p t] & Hr & [= _ <-]).
    right. eexists. split; [reflexivity|by eapply cancel_extends].
Qed.

(** ** Consuming a command *)

(** What holds when the owner's command [id] closes its item. *)
Record owner_decision (i : TaskIdentity) (id : string) (l : TransitionLease) (now : Z) db (row : CommandRow)
    (item : ReviewItemRow) : Prop := {
  od_lease : lease db = Some l ∧ now < l_expires l;
  od_command : commands (others (evidence db)) !! id = Some row;
  od_task : oc_task row = StateDb.task_id i;
  od_pending : oc_state row = "pending";
  od_owner : oc_owner row ∈ OWNER_ALLOWLIST;
  od_grant : ∃ g, grants (others (evidence db)) !! oc_grant row = Some g ∧ gt_state g = "active" ∧ gt_scope g = oc_kind row
    ∧ gt_task g = StateDb.task_id i ∧ gt_candidate g = oc_candidate row
    ∧ gt_authority g = owner_authority_digest (oc_owner row) (oc_kind row) (StateDb.task_id i) (oc_candidate row);
  od_candidate : ∃ s, candidate_seals (evidence db) !! StateDb.task_id i = Some s ∧ se_candidate s = oc_candidate row
    ∧ se_state s = l_state_identity l;
  od_item : review_items (evidence db) !! oc_target row = Some item;
  od_item_task : ri_task item = StateDb.task_id i;
  od_open : ri_disposition item = "pending";
}.

(** The tables after the command closed its item. *)
Definition decided (id : string) (row : CommandRow) (item : ReviewItemRow) (result : string) t : Tables :=
  let d := disposition_of (oc_kind row) in
  set_commands (<[id := consumed_row row result]> (commands (others t)))
    (set_items (<[oc_target row := closed_item item d (verification_of d) id]> (review_items t)) t).

Lemma authority_checked i l now db : require_lifecycle_authority i l now db = Ok () →
  ∃ l', l = Typed l' ∧ lease db = Some l' ∧ now < l_expires l' ∧ ∃ s, require_matching_task i None db = Ok s.
Proof.
  unfold require_lifecycle_authority. destruct (_ ≫= _) as [s|e] eqn:H; [|by case_match]. intros _.
  apply bind_ok in H as ([] & (l' & -> & Hl & Hnow)%lease_checked & H). exists l'. eauto.
Qed.

Lemma candidate_current i candidate l db : require_current_candidate i candidate (Typed l) db = Ok () →
  ∃ s, candidate_seals (evidence db) !! StateDb.task_id i = Some s ∧ se_candidate s = candidate ∧ se_state s = l_state_identity l.
Proof.
  unfold require_current_candidate, lifecycle_ensure. intros H%require_ok. destruct (candidate_seals _ !! _) as [s|]; [|done].
  cbn [lease_state] in H. breflect. destruct H as [Hc [= Hs]]. by exists s.
Qed.

Lemma consumed_checked i id l db row item : consumed_command i id (Typed l) db = Ok (row, item) →
  commands (others (evidence db)) !! id = Some row ∧ oc_task row = StateDb.task_id i ∧ oc_owner row ∈ OWNER_ALLOWLIST
  ∧ (∃ g, grants (others (evidence db)) !! oc_grant row = Some g ∧ gt_state g = "active" ∧ gt_scope g = oc_kind row
       ∧ gt_task g = StateDb.task_id i ∧ gt_candidate g = oc_candidate row
       ∧ gt_authority g = owner_authority_digest (oc_owner row) (oc_kind row) (StateDb.task_id i) (oc_candidate row))
  ∧ (∃ s, candidate_seals (evidence db) !! StateDb.task_id i = Some s ∧ se_candidate s = oc_candidate row
       ∧ se_state s = l_state_identity l)
  ∧ review_items (evidence db) !! oc_target row = Some item ∧ ri_task item = StateDb.task_id i.
Proof.
  unfold consumed_command. destruct (commands _ !! id) as [r|] eqn:Hr; [|done].
  destruct (oc_task r ==? StateDb.task_id i) eqn:Htask; [|done]. breflect.
  destruct (grants _ !! _) as [g|] eqn:Hg; [|done]. intros (u & Hv & H)%bind_ok. unfold lifecycle_ensure in Hv.
  apply require_ok in Hv. apply bind_ok in H as ([] & Hc%candidate_current & H). destruct (review_items _ !! _) as [it|] eqn:Hi; [|done].
  apply bind_ok in H as (u2 & Ht & [= <- <-]). unfold lifecycle_ensure in Ht. apply require_ok in Ht. breflect. cbn [valid_owner_grant gt_owner gt_scope gt_task gt_candidate gt_authority gt_state] in Hv. breflect.
  destruct Hv as [[[[[[_ Hv1] Hv2] Hv3] Hv4] Hv5] Hv6]. split_and!; try done. exists g. by split_and!.
Qed.

Lemma consumption_cases i id l now result w :
  run_review (ConsumeCommand i id l now result) w = w
  ∨ ∃ db l' row item, w = Some db ∧ l = Typed l' ∧ owner_decision i id l' now db row item
    ∧ run_review (ConsumeCommand i id l now result) w = Some (write (decided id row item result) db).
Proof.
  cbn [run_review]. unfold consume_owner_command. case_match; [by left|]. cbn [snd].
  match goal with |- context [transaction _ ?b w] => destruct (transaction_cases migrations b w)
    as [[e ->]|(db & a & db' & -> & _ & Hb & ->)] end; [by left|]. cbn [snd].
  apply bind_ok in Hb as ([] & (l' & -> & Hl & Hnow & _)%authority_checked & Hb).
  apply bind_ok in Hb as ([row item] & (H1 & H2 & H3 & H4 & H5 & H6 & H7)%consumed_checked & Hb).
  case_match; [left; by apply bind_ok in Hb as (_ & _ & [= _ <-])|right].
  apply bind_ok in Hb as (u & Hp & Hb). unfold lifecycle_ensure in Hp. apply require_ok in Hp.
  rewrite andb_true_iff, !bool_decide_eq_true in Hp. destruct Hp. apply bind_ok in Hb as (_ & _ & [= _ <-]). exists db, l', row, item. split_and!; try done.
Qed.

Lemma consume_run i id l now result db row item u : lifecycle_token id && match_hex 64 result = true →
  open_connection migrations (Some db) = Ok db → require_lifecycle_authority i l now db = Ok () →
  consumed_command i id l db = Ok (row, item) → oc_state row = "pending" → ri_disposition item = "pending" →
  unique_column ri_command (Some id) (delete (oc_target row) (review_items (evidence db))) = Ok u →
  run_review (ConsumeCommand i id l now result) (Some db) = Some (write (decided id row item result) db).
Proof.
  intros Hg Ho Ha Hc Hs Hd Hu. cbn [run_review]. unfold consume_owner_command. rewrite Hg. cbn [negb snd].
  rewrite (transaction_ok migrations _ db (oc_target row, closed_item item (disposition_of (oc_kind row))
    (verification_of (disposition_of (oc_kind row))) id) (write (decided id row item result) db) Ho); [done|].
  rewrite Ha, Hc. cbn [mbind result_bind]. rewrite Hs, Hd. cbn. by rewrite Hu.
Qed.

Lemma queue_cases i c l now w :
  run_review (QueueCommand i c l now) w = w
  ∨ ∃ db, w = Some db ∧ commands (others (evidence db)) !! cm_id c = None
    ∧ (∀ id row, commands (others (evidence db)) !! id = Some row → oc_key row ≠ cm_key c)
    ∧ owner_command_target (cm_task c) (cm_target c) (cm_candidate c) (evidence db) = true
    ∧ run_review (QueueCommand i c l now) w
      = Some (write (λ t, set_commands (<[cm_id c := command_row c "pending" None]> (commands (others t))) t) db).
Proof.
  cbn [run_review]. unfold queue_owner_command. case_match eqn:Htask; [by left|]. breflect. subst.
  match goal with |- context [transaction _ ?b w] => destruct (transaction_cases migrations b w)
    as [[e ->]|(db & a & db' & -> & _ & Hb & ->)] end; [by left|]. cbn [snd].
  do 2 (apply bind_ok in Hb as (_ & _ & Hb)). apply bind_ok in Hb as (u & Ht & Hb). apply bind_ok in Hb as (_ & _ & Hb).
  destruct (commands _ !! cm_id c) as [old|] eqn:Hold; [left; by apply bind_ok in Hb as (_ & _ & [= _ <-])|right].
  apply bind_ok in Hb as (u2 & Hk & [= _ <-]). unfold lifecycle_ensure in Ht, Hk. apply require_ok in Ht, Hk. breflect.
  exists db. split_and!; try done; [|by rewrite Htask].
  intros id row Hrow. specialize (Hk (id, row)). breflect. apply Hk. by apply elem_of_map_to_list.
Qed.

(** ** Blockers and readiness *)

(** The item is an open blocker of the task. *)
Definition pending_blocker (task item : string) db : Prop :=
  ∃ row, review_items (evidence db) !! item = Some row ∧ is_owner_blocker task (item, row) = true.

Definition ready (task : string) db : Prop := ∃ row, tasks db !! task = Some row ∧ t_state row = ReadyForOwner.

(** The operation is the consumption of an owner command for the item, which
    closes it. *)
Definition owner_closes (task item : string) (o : system_operation) w : Prop :=
  ∃ i id l now result db row old, o = OnReviews (ConsumeCommand i id (Typed l) now result) ∧ w = Some db
    ∧ StateDb.task_id i = task ∧ oc_target row = item ∧ owner_decision i id l now db row old.

Lemma pending_kept task item db db' :
  review_items (evidence db) ⊆ review_items (evidence db') → pending_blocker task item db → pending_blocker task item db'.
Proof. intros H (row & Hr & Hb). exists row. split; [by eapply lookup_weaken|done]. Qed.

Lemma system_pending o db db' task item : valid_operation o → run_system o (Some db) = Some db' →
  pending_blocker task item db → pending_blocker task item db' ∨ owner_closes task item o (Some db).
Proof.
  intros Ho Hrun Hp. assert (∀ w', keeps extends (Some db) w' → w' = Some db' → pending_blocker task item db') as Hkeep.
  { intros w' [->|(d & d' & [= <-] & -> & He)] [= <-]; [done|]. eapply pending_kept; [by apply ext_items|exact Hp]. }
  destruct o as [r o|o|o|f]; cbn [run_system valid_operation] in *.
  - left. eapply Hkeep, Hrun. by apply task_extends.
  - left. eapply Hkeep, Hrun. by apply evolves_extends, run_gate_evolves.
  - destruct o as [| | | | |i c l now|i id l now result]; try (left; by eapply Hkeep, Hrun; apply moves_keeps, review_extends).
    + left. destruct (queue_cases i c l now (Some db)) as [H|(d & [= <-] & _ & _ & _ & H)]; rewrite H in Hrun;
        injection Hrun as <-; done.
    + destruct (consumption_cases i id l now result (Some db)) as [H|(d & l' & row & old & [= <-] & -> & Hd & H)]; rewrite H in Hrun;
        injection Hrun as <-; [by left|].
      destruct Hp as (r & Hr & Hb). destruct (decide (oc_target row = item)) as [Ht|Hne].
      * right. exists i, id, l', now, result, db, row, old. split_and!; try done.
        pose proof (od_item _ _ _ _ _ _ _ Hd) as Hi. rewrite Ht, Hr in Hi. injection Hi as ->.
        rewrite <- (od_item_task _ _ _ _ _ _ _ Hd). unfold is_owner_blocker in Hb. cbn [snd] in Hb. by breflect; destruct_and!.
      * left. exists r. split; [|done]. cbn [write evidence set_evidence decided set_commands set_others set_items review_items].
        by rewrite lookup_insert_ne.
  - left. injection Hrun as <-. eapply pending_kept; [apply ext_items, Ho|exact Hp].
Qed.

(** No blocker is open when the persisted decision reads none. *)
Lemma unresolved_none task candidate db item : unresolved_final_gate_blockers task candidate db = Ok false →
  ¬ pending_blocker task item db.
Proof.
  unfold unresolved_final_gate_blockers, owner_blocker_state_receipt. intros (o & Ho & [= Hpend])%bind_ok (row & Hrow & Hb).
  apply bind_ok in Ho as (_ & _ & Ho). destruct (candidate_seals (evidence db) !! task), (tasks db !! task); try done.
  apply bind_ok in Ho as (_ & _ & Ho). apply bind_ok in Ho as (_ & _ & Ho). apply bind_ok in Ho as (_ & _ & [= <-]).
  cbn [blockers_pending] in Hpend. apply negb_false_iff, bool_decide_eq_true in Hpend.
  assert ((item, row) ∈ ([] : list StoredItem)) as Hin; [|by apply elem_of_nil in Hin].
  rewrite <- Hpend, sorted_by_perm. apply list_elem_of_In, filter_In. split; [|done].
  by apply list_elem_of_In, elem_of_map_to_list.
Qed.

(** ** Readiness *)

(** An operation on tasks does not make a task ready for its owner that has an
    open blocker. *)
Lemma task_unready r o db db' task item : @run _ (gate_tables migrations r) migrations o (Some db) = Some db' →
  pending_blocker task item db → ready task db' → ready task db.
Proof.
  intros Hrun Hp (row & Hrow & Hst). assert (@EvidenceTablesOk Tables (gate_tables migrations r)) as Hok by apply _.
  destruct (@ready_only_through_gates _ (gate_tables migrations r) Hok migrations o db db' task row Hrun Hrow Hst)
    as [?|(i & b & s & fp & l & now & found & db1 & t & -> & Hid & _ & _ & _ & _ & Hce & Hl & _ & Hpass & _)]; [by exists row|].
  cbn [TaskState.candidate_evidence gate_tables] in Hce.
  destruct (candidate_evidence_ok _ _ _ _ _ _ _ _ Hce) as ([= ->] & _).
  cbn [decision_passes gate_tables] in Hpass. apply bind_ok in Hpass as (dec & Hd & [= Hpass%bool_decide_eq_true]).
  destruct (decision_pass i db l dec Hl Hd Hpass) as (s' & c & Hpp). pose proof (pp_blockers _ _ _ _ _ Hpp) as Hno.
  rewrite Hid in Hno. by destruct (unresolved_none _ _ _ item Hno).
Qed.

(** Only the evidence tables change. *)
Definition only_evidence w w' : Prop := w' = w ∨ ∃ db t, w = Some db ∧ w' = Some (set_evidence t db).

Lemma only_evidence_trans w1 w2 w3 : only_evidence w1 w2 → only_evidence w2 w3 → only_evidence w1 w3.
Proof.
  intros [->|(db & t & -> & ->)]; [done|]. intros [->|(d & t' & [= <-] & ->)]; right; [by exists db, t|by exists db, t'].
Qed.

Lemma writes_only P l w w' : writes P l w w' → only_evidence w w'.
Proof. intros [->|(db & l' & t & -> & _ & _ & _ & ->)]; [by left|right]. by exists db, t. Qed.

Lemma only_ready w w' db db' task : only_evidence w w' → w = Some db → w' = Some db' → ready task db' → ready task db.
Proof. by intros [->|(d & t & -> & ->)]; [intros -> [= ->]|intros [= <-] [= <-]]. Qed.

Lemma collect_only r b s l w : only_evidence w (Candidates.candidate_evidence migrations r b s l w).2.
Proof.
  destruct (candidate_evidence_cases migrations r b s l w) as [[-> _]|(e & w' & -> & Hw)]; [by left|by eapply writes_only].
Qed.

Lemma decision_only r b s l w : only_evidence w (read_persisted_decision migrations r b s l w).2.
Proof.
  unfold read_persisted_decision. pose proof (collect_only r b s l w) as H. by destruct (Candidates.candidate_evidence _ _ _ _ _ _) as [[]].
Qed.

Lemma record_only r b s c e pe l now w : RuntimeBinding_post_init (x_binding c) = Ok () →
  only_evidence w (record_gate_evidence migrations r b s c e pe l now w).2.
Proof.
  intros Hb. unfold record_gate_evidence. destruct (record_checks _ _ _ _ _ _ _) as [[[k row] activated]|x] eqn:Hck; [|by left].
  apply record_checks_ok in Hck as (Hck & _ & _).
  pose proof (writes_only _ _ _ _ (bind_writes migrations r b s (gate_fingerprint k) l w)) as H1.
  destruct (bind_candidate_evidence _ _ _ _ _ _ _) as [[[]|x] w1]; cbn [snd] in *; [|done].
  eapply only_evidence_trans; [exact H1|].
  destruct (transaction_cases migrations (record_transaction b s c e k row activated l now) w1)
    as [[x ->]|(db & out & db' & -> & _ & Ht & ->)]; [by left|right]. exists db.
  destruct (record_transaction_ok _ _ _ _ _ _ _ _ _ _ _ _ Hck Hb Ht) as (l' & terminal & change & _ & _ & _ & _ & _ & H).
  destruct H as [[_ ->]|(text & conflict & t' & _ & Hrec & -> & _)]; eexists; split; try done; by destruct out.
Qed.

(** The transition of gates.py checks, and then makes the transition of state.py. *)
Lemma ready_splits r b s c fp pe l now w : ∃ w1, only_evidence w w1 ∧ evolves w w1
  ∧ ((ready_for_owner migrations r b s c fp pe l now w).2 = w1
     ∨ ∃ i, (ready_for_owner migrations r b s c fp pe l now w).2
            = @run _ (gate_tables migrations r) migrations (Finalize i (Typed b) (Typed s) fp l now) w1).
Proof.
  unfold ready_for_owner. destruct (_ ≫= _) as [activated|x]; [|exists w; split_and!; by left].
  pose proof (collect_only r b s l w) as H1. pose proof (collect_evolves migrations r b s l w) as E1.
  destruct (Candidates.candidate_evidence _ _ _ _ _ _) as [[found|x] w1]; cbn [snd] in *; [|exists w1; split_and!; try done; by left].
  destruct (_ ≫= _) as [[]|x]; [|exists w1; split_and!; try done; by left].
  pose proof (decision_only r b s l w1) as H2. pose proof (decision_evolves migrations r b s l w1) as E2.
  destruct (read_persisted_decision _ _ _ _ _ _) as [[d|x] w2]; cbn [snd] in *; exists w2;
    (split; [by eapply only_evidence_trans|split; [by eapply evolves_trans|]]); [|by left].
  destruct (_ ≫= _) as [i|x]; [|by left]. right. by exists i.
Qed.

Lemma system_some o db : valid_operation o → ∃ db', run_system o (Some db) = Some db'.
Proof.
  assert (∀ w, keeps extends (Some db) w → ∃ db', w = Some db') as Hk.
  { intros w [->|(d & d' & _ & -> & _)]; by eexists. }
  destruct o as [r o|o|o|f]; cbn [run_system valid_operation]; intros Ho.
  - by apply Hk, task_extends.
  - by apply Hk, evolves_extends, run_gate_evolves.
  - destruct o as [| | | | |i c l now|i id l now result]; try by apply Hk, moves_keeps, review_extends.
    + destruct (queue_cases i c l now (Some db)) as [->|(d & [= <-] & _ & _ & _ & ->)]; by eexists.
    + destruct (consumption_cases i id l now result (Some db)) as [->|(d & l' & row & old & [= <-] & _ & _ & ->)]; by eexists.
  - by eexists.
Qed.

Lemma system_unready o db db' task item : valid_operation o → run_system o (Some db) = Some db' →
  pending_blocker task item db → ready task db' → ready task db.
Proof.
  intros Ho Hrun Hp Hready.
  assert (∀ w, only_evidence (Some db) w → w = Some db' → ready task db) as Honly by (intros w H ->; by eapply only_ready).
  destruct o as [r o|o|o|f]; cbn [run_system valid_operation] in *.
  - by eapply task_unready.
  - destruct o as [r b c l|r b s fp l|r b s l|r b s c e pe l now|r b s l|r b s c pe l|r b s c fp pe l now]; cbn [run_gate] in Hrun.
    + eapply Honly, Hrun. eapply writes_only, seal_writes.
    + eapply Honly, Hrun. eapply writes_only, bind_writes.
    + eapply Honly, Hrun. apply collect_only.
    + eapply Honly, Hrun. by apply record_only.
    + eapply Honly, Hrun. unfold read_gate_evidence. pose proof (collect_only r b s l (Some db)) as H.
      by destruct (Candidates.candidate_evidence _ _ _ _ _ _) as [[]].
    + eapply Honly, Hrun. unfold evaluate_gates. destruct (_ ≫= _) as [[[activated|] []]|x]; try by left.
      pose proof (decision_only r b s l (Some db)) as H. by destruct (read_persisted_decision _ _ _ _ _ _) as [[]].
    + destruct (ready_splits r b s c fp pe l now (Some db)) as (w1 & H1 & E1 & [Hw|[i Hw]]); rewrite Hw in Hrun; [by eapply Honly|].
      assert (∃ d, w1 = Some d) as [d ->] by (destruct H1 as [->|(d & t & _ & ->)]; by eexists).
      eapply only_ready; [exact H1|done..|]. eapply task_unready; [exact Hrun| |exact Hready].
      apply evolves_extends in E1 as [[= ->]|(d1 & d2 & [= <-] & [= <-] & He)]; [done|].
      eapply pending_kept; [apply ext_items, He|exact Hp].
  - eapply Honly, Hrun. destruct o as [| | | | |i c l now|i id l now result].
    1-5: match goal with |- only_evidence _ (run_review ?o _) =>
      destruct (review_extends o (Some db) I) as [H|(d & t & Hd & H & _)] end; [by left|right; by exists d, t].
    + destruct (queue_cases i c l now (Some db)) as [H|(d & Hd & _ & _ & _ & H)]; rewrite H; [by left|right]. by eexists d, _.
    + destruct (consumption_cases i id l now result (Some db)) as [H|(d & l' & row & old & Hd & _ & _ & H)]; rewrite H; [by left|right].
      by eexists d, _.
  - injection Hrun as <-. exact Hready.
Qed.

(** C2 : a task that has an open blocker becomes ready for its owner only after
    an owner command closed that blocker: whatever the processes do to the
    tasks, the gates, the reviews and the other tables, before the state in
    which the task is ready some step of the history is the consumption of an
    owner command for exactly that item, by an owner of the allowlist with an
    active grant for the current candidate, under the unexpired lease. *)
Theorem ready_only_after_owner os db db' task item :
  Forall valid_operation os → pending_blocker task item db → ¬ ready task db →
  run_systems os (Some db) = Some db' → ready task db' →
  ∃ os1 o os2, os = os1 ++ o :: os2 ∧ owner_closes task item o (run_systems os1 (Some db)).
Proof.
  revert db. induction os as [|o os IH]; intros db Hv Hp Hn Hrun Hr; [by injection Hrun as ->|].
  apply Forall_cons_1 in Hv as [Ho Hv]. destruct (system_some o db Ho) as [d1 H1].
  destruct (system_pending o db d1 task item Ho H1 Hp) as [Hp1|Hc]; [|by exists [], o, os].
  unfold run_systems in Hrun. cbn [foldl] in Hrun. rewrite H1 in Hrun.
  destruct (IH d1 Hv Hp1 (λ Hr1, Hn (system_unready _ _ _ _ _ Ho H1 Hp Hr1)) Hrun Hr) as (os1 & o' & os2 & -> & Hc).
  exists (o :: os1), o', os2. split; [done|]. unfold run_systems. cbn [foldl]. by rewrite H1.
Qed.

(** ** Decisions *)

(** The item is open, or closed by a consumed command for it. *)
Definition item_settled t (id : string) (r : ReviewItemRow) : Prop :=
  open_item r ∨ ∃ c row, ri_command r = Some c ∧ commands (others t) !! c = Some row ∧ oc_state row = "consumed"
    ∧ oc_target row = id ∧ oc_task row = ri_task r
    ∧ ri_disposition r = ReviewItemDisposition_value (disposition_of (oc_kind row))
    ∧ ri_verification r = VerificationState_value (verification_of (disposition_of (oc_kind row))).

(** The command waits and has no result, or it was consumed with a result and
    closed its item. *)
Definition command_settled t (c : string) (row : CommandRow) : Prop :=
  (oc_state row = "pending" ∧ oc_result row = None)
  ∨ (oc_state row = "consumed" ∧ is_Some (oc_result row)
     ∧ ∃ r, review_items t !! oc_target row = Some r ∧ ri_command r = Some c).

Record settled t : Prop := {
  st_items : map_Forall (item_settled t) (review_items t);
  st_commands : map_Forall (command_settled t) (commands (others t));
  st_keys : ∀ c1 c2 r1 r2, commands (others t) !! c1 = Some r1 → commands (others t) !! c2 = Some r2 →
    oc_key r1 = oc_key r2 → c1 = c2;
}.

(** What was decided stays: closed items and consumed commands. *)
Record preserves t t' : Prop := {
  pv_items : ∀ id r, review_items t !! id = Some r → ¬ open_item r → review_items t' !! id = Some r;
  pv_commands : ∀ c row, commands (others t) !! c = Some row → oc_state row = "consumed" → commands (others t') !! c = Some row;
}.

Lemma preserves_trans t1 t2 t3 : preserves t1 t2 → preserves t2 t3 → preserves t1 t3.
Proof. intros [A1 B1] [A2 B2]. constructor; eauto. Qed.

Lemma extends_settled t t' : extends t t' → settled t → settled t' ∧ preserves t t'.
Proof.
  intros [Hi Hf Hc] [Hitems Hcommands Hkeys]. split; constructor; rewrite ?Hc; try done.
  - intros id r [Hr|?]%Hf; [|by left]. unfold item_settled. rewrite Hc. by apply Hitems.
  - intros c row Hrow. destruct (Hcommands c row Hrow) as [?|(Hst & Hres & r & Hr & ?)]; [by left|right]. split_and!; try done.
    exists r. split; [by eapply lookup_weaken|done].
  - intros id r Hr _. by eapply lookup_weaken.
Qed.

Lemma queued_settled c t : commands (others t) !! cm_id c = None →
  (∀ id row, commands (others t) !! id = Some row → oc_key row ≠ cm_key c) → settled t →
  let t' := set_commands (<[cm_id c := command_row c "pending" None]> (commands (others t))) t in
  settled t' ∧ preserves t t'.
Proof.
  intros Hnew Hk [Hitems Hcommands Hkeys] t'. assert (∀ d row, commands (others t) !! d = Some row → d ≠ cm_id c) as Hne by congruence.
  split; constructor; cbn [t' set_commands set_others others commands review_items].
  - intros id r [?|(d & row & H1 & H2 & H)]%Hitems; [by left|right]. exists d, row. split_and!; try apply H; [done|].
    cbn. rewrite lookup_insert_ne; [done|]. apply not_eq_sym. by eapply Hne.
  - intros d row [[<- <-]|[_ Hrow]]%lookup_insert_Some; [by left|]. exact (Hcommands _ _ Hrow).
  - intros c1 c2 r1 r2 [[<- <-]|[_ H1]]%lookup_insert_Some [[<- <-]|[_ H2]]%lookup_insert_Some Heq; [done|..].
    + by destruct (Hk _ _ H2).
    + by destruct (Hk _ _ H1).
    + by eapply Hkeys.
  - done.
  - intros d row Hrow _. rewrite lookup_insert_ne; [done|]. apply not_eq_sym. by eapply Hne.
Qed.
Lemma closed_not_open d v c r : ¬ open_item (closed_item r d v c).
Proof. by intros (_ & _ & H). Qed.

Lemma decision_not_pending kind : ReviewItemDisposition_value (disposition_of kind) ≠ "pending".
Proof. unfold disposition_of. by case_match. Qed.

Lemma pending_open t id r : settled t → review_items t !! id = Some r → ri_disposition r = "pending" → open_item r.
Proof.
  intros Ht Hr Hd. destruct (st_items t Ht id r Hr) as [?|(c & row & _ & _ & _ & _ & _ & H & _)]; [done|].
  rewrite Hd in H. by destruct (decision_not_pending (oc_kind row)).
Qed.

Lemma decided_settled i id l now db row item result : owner_decision i id l now db row item → settled (evidence db) →
  settled (decided id row item result (evidence db)) ∧ preserves (evidence db) (decided id row item result (evidence db)).
Proof.
  intros [_ Hcmd Htask Hpend _ _ _ Hitem Hit Hopen] Ht. pose proof (pending_open _ _ _ Ht Hitem Hopen) as Ho.
  destruct Ht as [Hitems Hcommands Hkeys]. split; constructor;
    cbn [decided set_commands set_items set_others others commands review_items].
  - intros x r [[<- <-]|[Hne Hr]]%lookup_insert_Some.
    + right. exists id, (consumed_row row result). cbn. rewrite lookup_insert_eq. split_and!; try done. by rewrite Htask, Hit.
    + destruct (Hitems x r Hr) as [?|(c & rw & H1 & H2 & H3 & H)]; [by left|right]. exists c, rw. cbn.
      rewrite lookup_insert_ne; [done|]. intros <-. rewrite Hcmd in H2. injection H2 as <-. by rewrite Hpend in H3.
  - intros c rw [[<- <-]|[Hne Hr]]%lookup_insert_Some.
    + right. split; [done|]. split; [by eexists|]. eexists. cbn. by rewrite lookup_insert_eq.
    + destruct (Hcommands c rw Hr) as [?|(H1 & H2 & r & H3 & H4)]; [by left|right]. split_and!; try done.
      exists r. cbn. rewrite lookup_insert_ne; [done|]. intros Heq. rewrite <- Heq, Hitem in H3. injection H3 as <-.
      destruct Ho as (_ & _ & Ho). by rewrite Ho in H4.
  - intros c1 c2 r1 r2 [[<- <-]|[_ H1]]%lookup_insert_Some [[<- <-]|[_ H2]]%lookup_insert_Some Heq; [done|..].
    + by eapply (Hkeys _ _ row r2).
    + by eapply (Hkeys _ _ r1 row).
    + by eapply Hkeys.
  - intros x r Hr Hno. rewrite lookup_insert_ne; [done|]. intros <-. rewrite Hitem in Hr. by injection Hr as <-.
  - intros c rw Hr Hst. rewrite lookup_insert_ne; [done|]. intros <-. rewrite Hcmd in Hr. injection Hr as <-. by rewrite Hpend in Hst.
Qed.

Lemma system_settled o db db' : valid_operation o → run_system o (Some db) = Some db' → settled (evidence db) →
  settled (evidence db') ∧ preserves (evidence db) (evidence db').
Proof.
  intros Ho Hrun Ht. assert (settled (evidence db) ∧ preserves (evidence db) (evidence db)) as Hsame by done.
  assert (∀ w, keeps extends (Some db) w → w = Some db' → settled (evidence db') ∧ preserves (evidence db) (evidence db')) as Hk.
  { intros w [->|(d & d' & [= <-] & -> & He)] [= <-]; [done|by apply extends_settled]. }
  destruct o as [r o|o|o|f]; cbn [run_system valid_operation] in *.
  - by eapply Hk, Hrun; apply task_extends.
  - by eapply Hk, Hrun; apply evolves_extends, run_gate_evolves.
  - destruct o as [| | | | |i c l now|i id l now result]; try by eapply Hk, Hrun; apply moves_keeps, review_extends.
    + destruct (queue_cases i c l now (Some db)) as [H|(d & [= <-] & Hnew & Hkey & _ & H)]; rewrite H in Hrun;
        injection Hrun as <-; [done|by apply queued_settled].
    + destruct (consumption_cases i id l now result (Some db)) as [H|(d & l' & row & old & [= <-] & _ & Hd & H)]; rewrite H in Hrun;
        injection Hrun as <-; [done|by eapply decided_settled].
  - injection Hrun as <-. by apply extends_settled.
Qed.

(** C8 : whatever the processes do, a review item is open or was closed by
    exactly one consumed owner command, for the same task and item, that fixes
    its disposition and its verification; a command is pending without a result
    or closed its item; no two commands share an idempotency key; and what was
    decided, the closed items and the consumed commands, never changes. *)
Theorem owner_decisions_are_final os db db' : Forall valid_operation os → settled (evidence db) →
  run_systems os (Some db) = Some db' → settled (evidence db') ∧ preserves (evidence db) (evidence db').
Proof.
  intros Hv. revert db. induction Hv as [|o os Ho _ IH]; intros db Ht Hrun; [by injection Hrun as ->|].
  destruct (system_some o db Ho) as [d1 H1]. unfold run_systems in Hrun. cbn [foldl] in Hrun. rewrite H1 in Hrun.
  destruct (system_settled o db d1 Ho H1 Ht) as [Ht1 Hp1]. destruct (IH d1 Ht1 Hrun) as [Ht' Hp'].
  split; [exact Ht'|by eapply preserves_trans].
Qed.

End System.

(** * A concrete repository

    The repository of GateHistory.v, in which every gate accepted, with an open
    blocker of the task and a pending command of the owner to resolve it. *)

Module Sample.

#[local] Existing Instance GateHistory.Sample.lineage.

#[local] Instance attempts : AttemptTables unit := {
  supervisor_attempt _ _ := None;
  diff_review_attempt _ _ := None;
  plan_review_attempt _ _ := None;
  has_completion_output _ _ := false;
  worker_dispatch _ _ := None;
  worker_attempt _ _ := None;
  worker_output _ _ := None;
  recovery_outcome _ _ _ := None;
}.

Abbreviation Tables := (GateTables (ReviewTables unit)).
Abbreviation migrations := [TaskState.Sample.migration].
Abbreviation identity := GateHistory.Sample.identity.
Abbreviation candidate := GateHistory.Sample.candidate.
Abbreviation current := GateHistory.Sample.current.
Abbreviation readings := GateHistory.Sample.readings.
Abbreviation binding := GateHistory.Sample.binding.
Abbreviation seal := GateHistory.Sample.seal.

Definition blocker : ReviewItemRow :=
  {| ri_task := "task-1"; ri_review := "review-1"; ri_candidate := candidate; ri_kind := "pass-follow-up";
     ri_source := "accepted-review"; ri_attempt := "attempt-1"; ri_owner := "ythdelmar68"; ri_content := str_repeat "5" 64;
     ri_destination := "review-backlog"; ri_blocker := "blocking"; ri_verification := "pending"; ri_disposition := "pending";
     ri_created := 1; ri_command := None |}.

Definition command : CommandRow :=
  {| oc_task := "task-1"; oc_kind := OwnerCommandKind_value RESOLVE_REVIEW_ITEM; oc_owner := "ythdelmar68"; oc_grant := "grant-1";
     oc_target := "item-1"; oc_candidate := candidate; oc_digest := str_repeat "6" 64; oc_scope := str_repeat "7" 64;
     oc_key := "key-1"; oc_state := "pending"; oc_result := None |}.

Definition grant : GrantRow :=
  {| gt_owner := "ythdelmar68"; gt_scope := OwnerCommandKind_value RESOLVE_REVIEW_ITEM; gt_task := "task-1";
     gt_candidate := candidate; gt_state := "active";
     gt_authority := owner_authority_digest "ythdelmar68" (OwnerCommandKind_value RESOLVE_REVIEW_ITEM) "task-1" candidate |}.

Definition tables : Tables :=
  set_items {[ "item-1" := blocker ]}
    (set_others {| provenance := ∅; commands := {[ "command-1" := command ]}; grants := {[ "grant-1" := grant ]};
                   objectives := ∅; rest := () |} GateHistory.Sample.accepted_tables).

Definition with_tables (t : Tables) : Database Tables :=
  set_progress {[ "task-1" := set_task_state DiffReview None (admitted_row identity "/work/task-1") ]} []
    (set_admission {[ "source-1" := (GateHistory.Sample.repository_name, str_repeat "d" 64) ]} ∅ {[ "task-1" := "task-1" ]}
       {[ "/work/task-1" := "task-1" ]}
       (set_leases (Some current) (Some 3) (fresh TaskState.Sample.sample_schema t))).

Definition reviewed : Database Tables := with_tables tables.

Definition result : string := str_repeat "8" 64.

Definition answered_tables : Tables := decided "command-1" command blocker result tables.
Definition answered : Database Tables := with_tables answered_tables.
Definition finished : Database Tables := move_task "task-1" DiffReview ReadyForOwner (str_repeat "2" 64) answered.

Definition answer : @system_operation unit := OnReviews (ConsumeCommand identity "command-1" (Typed current) 1003 result).
Definition finalize : @system_operation unit :=
  OnTask readings (Finalize identity (Typed binding) (Typed seal) (str_repeat "2" 64) (Typed current) 1004).

Ltac evaluate := vm_compute; reflexivity.

Lemma reviewed_opens t : open_connection migrations (Some (with_tables t)) = Ok (with_tables t).
Proof. eapply open_ok. rewrite <- TaskState.Sample.schema_verified. evaluate. Qed.

Lemma checked : consumed_command identity "command-1" (Typed current) reviewed = Ok (command, blocker).
Proof. evaluate. Qed.

Lemma token : lifecycle_token "command-1" && match_hex 64 result = true.
Proof. evaluate. Qed.

Lemma authority : require_lifecycle_authority identity (Typed current) 1003 reviewed = Ok ().
Proof. evaluate. Qed.

Lemma unused : unique_column ri_command (Some "command-1") (delete "item-1" (review_items (evidence reviewed))) = Ok ().
Proof. evaluate. Qed.

Lemma answer_works : run_system migrations answer (Some reviewed) = Some answered.
Proof.
  apply (consume_run migrations identity "command-1" (Typed current) 1003 result reviewed command blocker ()
    token (reviewed_opens tables) authority checked eq_refl eq_refl unused).
Qed.

Lemma reviewed_live t : require_live_candidate migrations readings binding seal (Typed current) (Some (with_tables t))
  = (Ok (), Some (with_tables t)).
Proof.
  apply (live_frame migrations readings binding seal (Typed current) t
    (with_tables (set_others (others tables) (GateHistory.Sample.seal_only GateHistory.Sample.no_tables)))).
  vm_compute. reflexivity.
Qed.

Lemma reviewed_collected : Candidates.candidate_evidence migrations readings binding seal (Typed current) (Some answered)
  = (Ok [str_repeat "1" 64], Some answered).
Proof.
  unfold Candidates.candidate_evidence. rewrite (reviewed_live answered_tables : require_live_candidate _ _ _ _ _ (Some answered) = _).
  apply (f_equal (λ x, (x, Some answered))). evaluate.
Qed.

Lemma reviewed_finalize_works : run_system migrations finalize (Some answered) = Some finished.
Proof.
  refine (eq_trans (f_equal snd (final_live migrations readings identity binding seal (str_repeat "2" 64) (Typed current) 1004
    (Some answered) [str_repeat "1" 64] _ _ _ _ _ _ reviewed_collected)) _); [evaluate..|].
  apply commit_run; [apply reviewed_opens|evaluate..].
Qed.

Lemma history : run_systems migrations [answer; finalize] (Some reviewed) = Some finished.
Proof. unfold run_systems. cbn [foldl]. by rewrite answer_works, reviewed_finalize_works. Qed.

Lemma operations_valid : Forall valid_operation [answer; finalize].
Proof. by repeat constructor. Qed.

Lemma blocked : pending_blocker "task-1" "item-1" reviewed.
Proof. exists blocker. split; evaluate. Qed.

Lemma not_ready : ¬ ready "task-1" reviewed.
Proof.
  intros (row & Hrow & Hst). change (tasks reviewed !! "task-1")
    with (Some (set_task_state DiffReview None (admitted_row identity "/work/task-1"))) in Hrow.
  injection Hrow as <-. discriminate Hst.
Qed.

Lemma made_ready : ready "task-1" finished.
Proof. exists (set_task_state ReadyForOwner None (admitted_row identity "/work/task-1")). split; evaluate. Qed.

Lemma all_settled : settled tables.
Proof.
  constructor.
  - intros id r Hr. left. change (review_items tables !! id) with (({[ "item-1" := blocker ]} : gmap string ReviewItemRow) !! id) in Hr.
    apply lookup_singleton_Some in Hr as [_ <-]. by split_and!.
  - intros c row Hr. left. change (commands (others tables) !! c) with (({[ "command-1" := command ]} : gmap string CommandRow) !! c) in Hr.
    apply lookup_singleton_Some in Hr as [_ <-]. by split.
  - intros c1 c2 r1 r2. change (commands (others tables)) with ({[ "command-1" := command ]} : gmap string CommandRow).
    intros [<- _]%lookup_singleton_Some [<- _]%lookup_singleton_Some _. done.
Qed.

Lemma ready_only_after_owner_witness : ∃ os1 o os2, [answer; finalize] = os1 ++ o :: os2
  ∧ owner_closes "task-1" "item-1" o (run_systems migrations os1 (Some reviewed)).
Proof.
  exact (ready_only_after_owner migrations [answer; finalize] reviewed finished "task-1" "item-1"
    operations_valid blocked not_ready history made_ready).
Defined.

Lemma owner_decisions_are_final_witness : settled (evidence finished) ∧ preserves tables (evidence finished)
  ∧ review_items (evidence finished) !! "item-1" = Some (closed_item blocker D_RESOLVED V_VERIFIED "command-1").
Proof.
  pose proof (owner_decisions_are_final migrations [answer; finalize] reviewed finished operations_valid all_settled history) as [H1 H2].
  split; [exact H1|]. split; [exact H2|vm_compute; reflexivity].
Defined.

End Sample.
