(* ===== verification/CodingState.v ===== *)
(** * Coding tool events (src/roundwright/coding_worker_state.py)

    The closed records of the tool events of a coding Worker and the SQLite store
    they live in: events, one-shot effect claims, and submissions.  The methods of
    the store open no transaction: a SELECT and the INSERT or UPDATE after it are
    two statements, and other processes can run between them.  A method is
    therefore a [session] of statements. *)

From stdpp Require Import gmap.
From S2P Require Import Prelude Sha256 Json JsonParse JsonRead Sqlite.
Open Scope Z_scope.

Definition coding_error {A} (why : string) : py A := raise CodingWorkerStateError why.
Definition coding_ensure (b : bool) (why : string) : py unit := require b CodingWorkerStateError why.

(** ** Records *)

Inductive WorkerAction := PLANNING | IMPLEMENTATION | REPAIR.
Inductive WorkerTool := WORKSPACE_READ | WORKSPACE_WRITE | VALIDATION_EXECUTE.
Inductive CodingProcessState := STARTED | COMPLETED | FAILED.
Inductive CodingCancellationState := NOT_REQUESTED | REQUESTED | CONFIRMED.
Inductive CodingAmbiguityState := CLEAR | SUBMISSION_UNCERTAIN | TERMINAL_UNCERTAIN.

#[export] Instance WorkerAction_eq_dec : EqDecision WorkerAction.
Proof. solve_decision. Defined.
#[export] Instance WorkerTool_eq_dec : EqDecision WorkerTool.
Proof. solve_decision. Defined.
#[export] Instance CodingProcessState_eq_dec : EqDecision CodingProcessState.
Proof. solve_decision. Defined.
#[export] Instance CodingCancellationState_eq_dec : EqDecision CodingCancellationState.
Proof. solve_decision. Defined.
#[export] Instance CodingAmbiguityState_eq_dec : EqDecision CodingAmbiguityState.
Proof. solve_decision. Defined.

Definition WorkerAction_value (a : WorkerAction) : string :=
  match a with PLANNING => "planning" | IMPLEMENTATION => "implementation" | REPAIR => "repair" end.

Definition WorkerTool_value (t : WorkerTool) : string :=
  match t with
  | WORKSPACE_READ => "workspace-read" | WORKSPACE_WRITE => "workspace-write" | VALIDATION_EXECUTE => "validation-execute"
  end.

Definition CodingProcessState_value (s : CodingProcessState) : string :=
  match s with STARTED => "started" | COMPLETED => "completed" | FAILED => "failed" end.

Definition CodingCancellationState_value (s : CodingCancellationState) : string :=
  match s with NOT_REQUESTED => "not-requested" | REQUESTED => "requested" | CONFIRMED => "confirmed" end.

Definition CodingAmbiguityState_value (s : CodingAmbiguityState) : string :=
  match s with
  | CLEAR => "clear" | SUBMISSION_UNCERTAIN => "submission-uncertain" | TERMINAL_UNCERTAIN => "terminal-uncertain"
  end.

Definition actions : list WorkerAction := [PLANNING; IMPLEMENTATION; REPAIR].
Definition tools : list WorkerTool := [WORKSPACE_READ; WORKSPACE_WRITE; VALIDATION_EXECUTE].
Definition process_states : list CodingProcessState := [STARTED; COMPLETED; FAILED].
Definition cancellation_states : list CodingCancellationState := [NOT_REQUESTED; REQUESTED; CONFIRMED].
Definition ambiguity_states : list CodingAmbiguityState := [CLEAR; SUBMISSION_UNCERTAIN; TERMINAL_UNCERTAIN].

Definition SCHEMA : string := "roundwright-coding-tool-event/v1".

Record CodingToolEventRecord := {
  ev_schema : string;
  ev_task_id : string;
  ev_objective_digest : string;
  ev_action : WorkerAction;
  ev_implementation_attempt_id : string;
  ev_session_identity : string;
  ev_external_turn_identity : string;
  ev_candidate_sha : string;
  ev_sequence : Z;
  ev_tool : WorkerTool;
  ev_request_digest : string;
  ev_result_digest : string;
  ev_outcome : string;
  ev_before_digest : option string;
  ev_after_digest : option string;
  ev_exit_code : option Z;
  ev_output_digest : option string;
  ev_process_state : CodingProcessState;
  ev_cancellation_state : CodingCancellationState;
  ev_ambiguity_state : CodingAmbiguityState;
}.

Definition coding_rest (c : ascii) : bool := is_alnum c || one_of "._:/-" c.
Definition coding_token : string → bool := match_ident is_alnum coding_rest 127.

Definition outcomes : list string :=
  ["allowed"; "failed"; "feedback-budget-exceeded"; "denied"; "timed-out"; "cancelled"; "ambiguous"].

(** The outcomes that carry no metadata of an effect. *)
Definition closed_outcomes : list string := ["denied"; "timed-out"; "cancelled"; "ambiguous"].

Definition optional_digest (o : option string) : bool := match o with None => true | Some d => match_digest d end.

Definition invalid_metadata (r : CodingToolEventRecord) : bool :=
  ((ev_tool r ==? VALIDATION_EXECUTE) && ((ev_before_digest r !=? None) || (ev_after_digest r !=? None)))
  || ((ev_tool r in? [WORKSPACE_READ; WORKSPACE_WRITE]) && ((ev_exit_code r !=? None) || (ev_output_digest r !=? None)))
  || ((ev_tool r ==? WORKSPACE_READ) && (ev_before_digest r !=? None)).

Definition invalid_lifecycle (r : CodingToolEventRecord) : bool :=
  (ev_process_state r ==? COMPLETED) && ((ev_ambiguity_state r !=? CLEAR) || (ev_cancellation_state r !=? NOT_REQUESTED)).

(** [__post_init__] of a record whose fields have the annotated types. *)
Definition event_is_valid (r : CodingToolEventRecord) : bool :=
  (ev_schema r ==? SCHEMA)
  && forallb coding_token [ev_task_id r; ev_implementation_attempt_id r; ev_session_identity r; ev_external_turn_identity r]
  && forallb match_digest [ev_objective_digest r; ev_request_digest r; ev_result_digest r]
  && forallb optional_digest [ev_before_digest r; ev_after_digest r; ev_output_digest r]
  && match_hex 40 (ev_candidate_sha r) && (1 <=? ev_sequence r) && (ev_outcome r in? outcomes)
  && negb ((ev_outcome r in? closed_outcomes)
           && ((ev_before_digest r !=? None) || (ev_after_digest r !=? None) || (ev_exit_code r !=? None)
               || (ev_output_digest r !=? None)))
  && negb (invalid_metadata r) && negb (invalid_lifecycle r).

Definition check_CodingToolEventRecord (r : CodingToolEventRecord) : py unit :=
  coding_ensure (event_is_valid r) "coding tool event is invalid".

Definition jint_opt (o : option Z) : json := match o with None => JNull | Some z => JInt z end.

Definition closed_fields (r : CodingToolEventRecord) : list (string * json) :=
  [("schema", JStr (ev_schema r)); ("task_id", JStr (ev_task_id r)); ("objective_digest", JStr (ev_objective_digest r));
   ("action", JStr (WorkerAction_value (ev_action r)));
   ("implementation_attempt_id", JStr (ev_implementation_attempt_id r)); ("session_identity", JStr (ev_session_identity r));
   ("external_turn_identity", JStr (ev_external_turn_identity r)); ("candidate_sha", JStr (ev_candidate_sha r));
   ("sequence", JInt (ev_sequence r)); ("tool", JStr (WorkerTool_value (ev_tool r)));
   ("request_digest", JStr (ev_request_digest r)); ("result_digest", JStr (ev_result_digest r));
   ("outcome", JStr (ev_outcome r)); ("before_digest", jopt (ev_before_digest r)); ("after_digest", jopt (ev_after_digest r));
   ("exit_code", jint_opt (ev_exit_code r)); ("output_digest", jopt (ev_output_digest r));
   ("process_state", JStr (CodingProcessState_value (ev_process_state r)));
   ("cancellation_state", JStr (CodingCancellationState_value (ev_cancellation_state r)));
   ("ambiguity_state", JStr (CodingAmbiguityState_value (ev_ambiguity_state r)))].

Definition to_closed_dict (r : CodingToolEventRecord) : json := JObj (closed_fields r).

(** Integers of more than 4300 digits have no text. *)
Definition printable_int (z : Z) : bool := (length (int_chars (Z.abs z)) <=? 4300)%nat.

Definition event_text (r : CodingToolEventRecord) : py string :=
  _ ← require (printable_int (ev_sequence r) && match ev_exit_code r with Some z => printable_int z | None => true end)
        ValueError "Exceeds the limit for integer string conversion";
  Ok (dumps (to_closed_dict r)).

Definition record_digest (text : string) : string := String.append "sha256:" (sha256_hex text).

(** A field that may be [None]. *)
Definition optional_item {A} (read : doc → option A) (key : string) (d : dict) : py (option A) :=
  v ← item key d;
  match v with
  | DNull => Ok None
  | _ => match read v with Some a => Ok (Some a) | None => raise TypeError key end
  end.

Definition doc_text (v : doc) : option string := match v with DStr p => narrow p | _ => None end.
Definition doc_int (v : doc) : option Z := match v with DInt z => Some z | _ => None end.

Definition int_item (key : string) (d : dict) : py Z :=
  v ← item key d; match doc_int v with Some z => Ok z | None => raise TypeError key end.

Definition field_names : list string :=
  ["schema"; "task_id"; "objective_digest"; "action"; "implementation_attempt_id"; "session_identity"; "external_turn_identity";
   "candidate_sha"; "sequence"; "tool"; "request_digest"; "result_digest"; "outcome"; "before_digest"; "after_digest"; "exit_code";
   "output_digest"; "process_state"; "cancellation_state"; "ambiguity_state"].

(** [cls] applied to the fields of [copy]: a value of another type is refused by the constructor or by the
    enumeration, with one of the exceptions that are converted. *)
Definition read_fields (d : dict) : py CodingToolEventRecord :=
  action ← enum_item WorkerAction_value actions "action" d;
  tool ← enum_item WorkerTool_value tools "tool" d;
  process ← enum_item CodingProcessState_value process_states "process_state" d;
  cancellation ← enum_item CodingCancellationState_value cancellation_states "cancellation_state" d;
  ambiguity ← enum_item CodingAmbiguityState_value ambiguity_states "ambiguity_state" d;
  schema ← str_item "schema" d;
  task ← str_item "task_id" d;
  objective ← str_item "objective_digest" d;
  attempt ← str_item "implementation_attempt_id" d;
  session ← str_item "session_identity" d;
  turn ← str_item "external_turn_identity" d;
  candidate ← str_item "candidate_sha" d;
  sequence ← int_item "sequence" d;
  request ← str_item "request_digest" d;
  result ← str_item "result_digest" d;
  outcome ← str_item "outcome" d;
  before ← optional_item doc_text "before_digest" d;
  after ← optional_item doc_text "after_digest" d;
  code ← optional_item doc_int "exit_code" d;
  output ← optional_item doc_text "output_digest" d;
  Ok {| ev_schema := schema; ev_task_id := task; ev_objective_digest := objective; ev_action := action;
        ev_implementation_attempt_id := attempt; ev_session_identity := session; ev_external_turn_identity := turn;
        ev_candidate_sha := candidate; ev_sequence := sequence; ev_tool := tool; ev_request_digest := request;
        ev_result_digest := result; ev_outcome := outcome; ev_before_digest := before; ev_after_digest := after;
        ev_exit_code := code; ev_output_digest := output; ev_process_state := process; ev_cancellation_state := cancellation;
        ev_ambiguity_state := ambiguity |}.

Definition from_closed_dict (value : doc) : py CodingToolEventRecord :=
  match value with
  | DObj d =>
      if keys_are field_names d then
        match (r ← read_fields d; _ ← check_CodingToolEventRecord r; Ok r) with
        | Ok r => Ok r
        | Err _ => coding_error "coding tool event is invalid"
        end
      else coding_error "coding tool event is invalid"
  | _ => coding_error "coding tool event is invalid"
  end.

(** ** Statements and sessions

    A session runs one statement after another, each on the committed tables.  A
    statement that the engine refuses ([None]), and one that fails for any other
    reason of the engine, ends the session with the exception its handler raises. *)

Inductive session (T A : Type) :=
  | Finish (r : py A)
  | Statement (failed : exn) (f : T → option (T * session T A)).
Arguments Finish {T A} _.
Arguments Statement {T A} _ _.

(** A session that no other process interrupts. *)
Fixpoint run {T A} (p : session T A) (t : T) : py A * T :=
  match p with
  | Finish r => (r, t)
  | Statement failed f =>
      match f t with
      | Some (t, p) => run p t
      | None => (Err failed, t)
      end
  end.

Fixpoint answer {T A B} (f : A → B) (p : session T A) : session T B :=
  match p with
  | Finish r => Finish (f <$> r)
  | Statement failed g =>
      Statement failed (λ t, match g t with Some (t, p) => Some (t, answer f p) | None => None end)
  end.

Definition finished {T A} (p : session T A) : option (py A) := match p with Finish r => Some r | Statement _ _ => None end.

(** [SELECT], and a write that a constraint may refuse. *)
Definition select {T A X} (failed : exn) (query : T → X) (k : X → session T A) : session T A :=
  Statement failed (λ t, Some (t, k (query t))).

Definition write {T A} (failed : exn) (change : T → option T) (k : session T A) : session T A :=
  Statement failed (λ t, match change t with Some t => Some (t, k) | None => None end).

(** ** The store *)

Abbreviation EventKey := (string * string * string * string * Z)%type.
Abbreviation ClaimKey := (string * string * Z)%type.

(** A row of [coding_tool_events]: candidate, digest and payload. *)
Abbreviation EventRow := (string * string * string)%type.

(** [legacy] holds the attempts of [coding_effect_intents], which nothing writes. *)
Record CodingTables := {
  events : gmap EventKey EventRow;
  legacy : list (string * string);
  claims : gmap ClaimKey string;
  submissions : gmap EventKey (string * option string);
}.

Definition set_events (m : gmap EventKey EventRow) (t : CodingTables) : CodingTables :=
  {| events := m; legacy := legacy t; claims := claims t; submissions := submissions t |}.
Definition set_claims (m : gmap ClaimKey string) (t : CodingTables) : CodingTables :=
  {| events := events t; legacy := legacy t; claims := m; submissions := submissions t |}.
Definition set_submissions (m : gmap EventKey (string * option string)) (t : CodingTables) : CodingTables :=
  {| events := events t; legacy := legacy t; claims := claims t; submissions := m |}.

(** [INSERT] into a table with a primary key. *)
Definition fresh_row `{Countable K} {V} (k : K) (v : V) (m : gmap K V) : option (gmap K V) :=
  match m !! k with Some _ => None | None => Some (<[k := v]> m) end.

Definition STORE_SCHEMA : string * Z := ("roundwright-coding-tool-event-store", 1).

(** The file: the rows of the metadata table, and the other tables. *)
Record CodingFile := { metadata : list (string * Z); tables : CodingTables }.

Definition no_events : CodingTables := {| events := ∅; legacy := []; claims := ∅; submissions := ∅ |}.

(** [CodingToolEventStore.__init__] of a path with or without a file. *)
Definition open_store (is_path parent_is_dir : bool) (w : option CodingFile) : py unit * option CodingFile :=
  if negb (is_path && parent_is_dir) then (coding_error "coding tool store is invalid", w)
  else
    let file := match w with Some file => file | None => {| metadata := []; tables := no_events |} end in
    let rows := if STORE_SCHEMA.1 in? (metadata file).*1 then metadata file else metadata file ++ [STORE_SCHEMA] in
    if rows ==? [STORE_SCHEMA] then (Ok (), Some {| metadata := rows; tables := tables file |})
    else (coding_error "coding tool store is invalid", Some file).

(** An argument that is not an integer of the engine raises before a statement. *)
Definition with_int {T A} (z : Z) (p : session T A) : session T A :=
  match sqlite_int z with Ok _ => p | Err e => Finish (Err e) end.

Definition claim_arguments (task attempt : dyn string) (sequence : dyn Z) (digest : dyn string) : option (string * string * Z * string) :=
  match task, attempt, sequence, digest with
  | Typed task, Typed attempt, Typed sequence, Typed digest =>
      if coding_token task && coding_token attempt && (1 <=? sequence) && match_digest digest
      then Some (task, attempt, sequence, digest) else None
  | _, _, _, _ => None
  end.

Definition claim_effect (task attempt : dyn string) (sequence : dyn Z) (digest : dyn string) : session CodingTables bool :=
  match claim_arguments task attempt sequence digest with
  | None => Finish (coding_error "coding effect intent is invalid")
  | Some (task, attempt, sequence, digest) =>
      let failed := Raised CodingWorkerStateError "coding effect intent checkpoint failed" in
      let key := (task, attempt, sequence) in
      with_int sequence
        (select failed (λ t, claims t !! key) (λ existing,
           match existing with
           | Some old => Finish (if old ==? digest then Ok false else coding_error "coding effect intent replay conflicts")
           | None => write failed (λ t, m ← fresh_row key digest (claims t); Some (set_claims m t)) (Finish (Ok true))
           end))
  end.

Definition of_attempt (task attempt : string) (kv : EventKey * (string * option string)) : bool :=
  (kv.1.1.1.1.1 ==? task) && (kv.1.1.1.1.2 ==? attempt).

Definition open_submission (task attempt : string) (t : CodingTables) : bool :=
  existsb (λ kv, of_attempt task attempt kv && (kv.2.1 in? ["intent"; "uncertain"])) (map_to_list (submissions t)).

Definition claimed_sequences (task attempt : string) (t : CodingTables) : list Z :=
  omap (λ kv : ClaimKey * string, if decide (kv.1.1 = (task, attempt)) then Some kv.1.2 else None) (map_to_list (claims t)).

Definition requires_reconciliation (task attempt : dyn string) (acknowledged : dyn (list (dyn Z))) : session CodingTables bool :=
  match task, attempt, acknowledged with
  | Typed task, Typed attempt, Typed acknowledged =>
      if coding_token task && coding_token attempt
         && forallb (λ a, match a with Typed z => 1 <=? z | Foreign => false end) acknowledged then
        let failed := Raised CodingWorkerStateError "coding reconciliation lookup failed" in
        select failed (open_submission task attempt) (λ submitted : bool,
        select failed (claimed_sequences task attempt) (λ sequences,
        select failed (λ t, (task, attempt) in? legacy t) (λ old : bool,
          Finish (Ok (submitted || old || existsb (λ z, negb (Typed z in? acknowledged)) sequences)))))
      else Finish (coding_error "coding reconciliation lookup is invalid")
  | _, _, _ => Finish (coding_error "coding reconciliation lookup is invalid")
  end.

Definition submission_arguments (task attempt session turn : dyn string) (sequence : dyn Z) (state : string)
    (next : dyn (option string)) : option (EventKey * option string) :=
  match task, attempt, session, turn, sequence with
  | Typed task, Typed attempt, Typed session, Typed turn, Typed sequence =>
      if forallb coding_token [task; attempt; session; turn] && (1 <=? sequence)
         && (state in? ["intent"; "submitted"; "uncertain"]) then
        match next with
        | Typed None => Some ((task, attempt, session, turn, sequence), None)
        | Typed (Some next) =>
            if (state ==? "submitted") && coding_token next
            then Some ((task, attempt, session, turn, sequence), Some next) else None
        | Foreign => None
        end
      else None
  | _, _, _, _, _ => None
  end.

(** After the SELECT, with the row it found. *)
Definition store_submission (failed : exn) (key : EventKey) (state : string) (next : option string)
    (existing : option (string * option string)) : session CodingTables unit :=
  match existing with
  | Some old =>
      if old ==? (state, next) then Finish (Ok ())
      else if (old ==? ("intent", None)) && (state in? ["submitted"; "uncertain"]) then
        write failed (λ t, Some (set_submissions (alter (λ _, (state, next)) key (submissions t)) t)) (Finish (Ok ()))
      else Finish (coding_error "coding submission transition conflicts")
  | None =>
      if state ==? "submitted" then Finish (coding_error "coding submission lacks intent")
      else write failed (λ t, m ← fresh_row key (state, next) (submissions t); Some (set_submissions m t)) (Finish (Ok ()))
  end.

Definition submission_failed : exn := Raised CodingWorkerStateError "coding submission checkpoint failed".

Definition record_submission (task attempt session_id turn : dyn string) (sequence : dyn Z) (state : string)
    (next : dyn (option string)) : session CodingTables unit :=
  match submission_arguments task attempt session_id turn sequence state next with
  | None => Finish (coding_error "coding submission transition is invalid")
  | Some (key, next) =>
      with_int key.2
        (select submission_failed (λ t, submissions t !! key) (store_submission submission_failed key state next))
  end.

Definition event_key (r : CodingToolEventRecord) : EventKey :=
  (ev_task_id r, ev_implementation_attempt_id r, ev_session_identity r, ev_external_turn_identity r, ev_sequence r).

Definition append (record : dyn CodingToolEventRecord) : session CodingTables CodingToolEventRecord :=
  match record with
  | Foreign => Finish (coding_error "coding tool event is invalid")
  | Typed r =>
      match event_text r with
      | Err e => Finish (Err e)
      | Ok text =>
          let failed := Raised CodingWorkerStateError "coding tool store append failed" in
          with_int (ev_sequence r)
            (select failed (λ t, events t !! event_key r) (λ existing,
               match existing with
               | Some (_, digest, payload) =>
                   if (digest ==? record_digest text) && (payload ==? text)
                   then Finish (v ← loads payload; from_closed_dict v)
                   else Finish (coding_error "coding tool event replay conflicts")
               | None =>
                   write failed (λ t, m ← fresh_row (event_key r) (ev_candidate_sha r, record_digest text, text) (events t);
                                      Some (set_events m t)) (Finish (Ok r))
               end))
      end
  end.

(** ** Processes

    A call of a process, its session, and what it answers. *)

Inductive call :=
  | ClaimEffect (task attempt : dyn string) (sequence : dyn Z) (digest : dyn string)
  | RequiresReconciliation (task attempt : dyn string) (acknowledged : dyn (list (dyn Z)))
  | RecordSubmission (task attempt session turn : dyn string) (sequence : dyn Z) (state : string) (next : dyn (option string))
  | AppendEvent (record : dyn CodingToolEventRecord).

Inductive reply := Claimed (granted : bool) | Unresolved (b : bool) | Recorded | Appended (r : CodingToolEventRecord).

Definition code (c : call) : session CodingTables reply :=
  match c with
  | ClaimEffect task attempt sequence digest => answer Claimed (claim_effect task attempt sequence digest)
  | RequiresReconciliation task attempt acknowledged => answer Unresolved (requires_reconciliation task attempt acknowledged)
  | RecordSubmission task attempt session turn sequence state next =>
      answer (λ _, Recorded) (record_submission task attempt session turn sequence state next)
  | AppendEvent record => answer Appended (append record)
  end.

(** What happens next: a process calls, runs its next statement, or that
    statement fails. *)
Inductive event := Call (c : call) | Step (i : nat) | Break (i : nat).

Abbreviation Pool := (list (call * session CodingTables reply)).

Definition perform (e : event) (t : CodingTables) (ps : Pool) : CodingTables * Pool :=
  match e with
  | Call c => (t, ps ++ [(c, code c)])
  | Step i =>
      match ps !! i with
      | Some (c, Statement failed f) =>
          match f t with
          | Some (t, p) => (t, <[i := (c, p)]> ps)
          | None => (t, <[i := (c, Finish (Err failed))]> ps)
          end
      | _ => (t, ps)
      end
  | Break i =>
      match ps !! i with
      | Some (c, Statement failed _) => (t, <[i := (c, Finish (Err failed))]> ps)
      | _ => (t, ps)
      end
  end.

Fixpoint play (es : list event) (t : CodingTables) (ps : Pool) : CodingTables * Pool :=
  match es with
  | [] => (t, ps)
  | e :: es => let (t, ps) := perform e t ps in play es t ps
  end.

(** * A record survives its text *)

Lemma no_duplicate_fields r : no_dup (closed_fields r).*1 = true.
Proof. reflexivity. Qed.

Lemma optional_item_stored {A} (read : doc → option A) (emb : A → json) l key o : no_dup l.*1 = true →
  assoc key l = Some (match o with None => JNull | Some a => emb a end) →
  (∀ a, embed (canon (emb a)) ≠ DNull ∧ read (embed (canon (emb a))) = Some a) →
  optional_item read key (stored l) = Ok o.
Proof.
  intros Hn Hv Hread. unfold optional_item. rewrite (item_stored _ _ _ Hn Hv). cbn [mbind result_bind].
  destruct o as [a|]; [|done]. destruct (Hread a) as [Ha Hr]. destruct (embed (canon (emb a))); try done; by rewrite Hr.
Qed.

Lemma text_item_stored l key o : no_dup l.*1 = true → assoc key l = Some (jopt o) →
  optional_item doc_text key (stored l) = Ok o.
Proof.
  intros Hn Hv. apply (optional_item_stored doc_text JStr); [done| |]; [by destruct o|]. intros s. split; [done|].
  cbn. apply narrow_points.
Qed.

Lemma code_item_stored l key o : no_dup l.*1 = true → assoc key l = Some (jint_opt o) →
  optional_item doc_int key (stored l) = Ok o.
Proof. intros Hn Hv. apply (optional_item_stored doc_int JInt); [done| |done]; by destruct o. Qed.

Lemma int_item_stored l key z : no_dup l.*1 = true → assoc key l = Some (JInt z) → int_item key (stored l) = Ok z.
Proof. intros Hn Hv. unfold int_item. by rewrite (item_stored _ _ _ Hn Hv). Qed.

Lemma read_stored r : read_fields (stored (closed_fields r)) = Ok r.
Proof.
  unfold read_fields. pose proof (no_duplicate_fields r) as Hn.
  rewrite (enum_item_stored WorkerAction_value actions _ "action" (ev_action r) Hn); [|done|by destruct (ev_action r)].
  rewrite (enum_item_stored WorkerTool_value tools _ "tool" (ev_tool r) Hn); [|done|by destruct (ev_tool r)].
  rewrite (enum_item_stored CodingProcessState_value process_states _ "process_state" (ev_process_state r) Hn);
    [|done|by destruct (ev_process_state r)].
  rewrite (enum_item_stored CodingCancellationState_value cancellation_states _ "cancellation_state" (ev_cancellation_state r) Hn);
    [|done|by destruct (ev_cancellation_state r)].
  rewrite (enum_item_stored CodingAmbiguityState_value ambiguity_states _ "ambiguity_state" (ev_ambiguity_state r) Hn);
    [|done|by destruct (ev_ambiguity_state r)].
  cbn [mbind result_bind].
  repeat (erewrite str_item_stored by first [exact Hn|reflexivity]).
  repeat (erewrite text_item_stored by first [exact Hn|reflexivity]).
  erewrite int_item_stored by first [exact Hn|reflexivity]. erewrite code_item_stored by first [exact Hn|reflexivity].
  by destruct r.
Qed.

Lemma closed_dict_reads_back r : event_is_valid r = true → from_closed_dict (embed (canon (to_closed_dict r))) = Ok r.
Proof.
  intros Hr. unfold to_closed_dict, from_closed_dict. rewrite embed_canon_object, keys_stored by reflexivity.
  rewrite read_stored. cbn [mbind result_bind]. unfold check_CodingToolEventRecord, coding_ensure. by rewrite Hr.
Qed.

(** A parsed record passed the constructor. *)
Lemma parsed_is_valid v r : from_closed_dict v = Ok r → event_is_valid r = true.
Proof.
  unfold from_closed_dict. destruct v; try done. case_match; [|done]. destruct (_ ≫= _) as [r'|] eqn:Hd; [|done].
  intros [= <-]. apply bind_ok in Hd as (r0 & _ & Hd). by apply bind_ok in Hd as ([] & Hc%require_ok & [= <-]).
Qed.

Lemma storable_event r : int64 (ev_sequence r) → from_option int64 True (ev_exit_code r) →
  storable (to_closed_dict r) = true.
Proof.
  unfold int64. intros Hs Hc. assert (∀ z, (-2 ^ 63 ≤ z < 2 ^ 63)%Z → storable (JInt z) = true) as Hint.
  { intros z Hz. apply Nat.leb_le, int_chars_length. lia. }
  unfold to_closed_dict. cbn [storable]. rewrite no_duplicate_fields. apply forallb_forall. intros [k v] Hin.
  cbn [snd]. repeat (destruct Hin as [[= <- <-]|Hin]; [try done; try (by apply Hint)|]); [..|done];
    try (by destruct (ev_before_digest r)); try (by destruct (ev_after_digest r)); try (by destruct (ev_output_digest r)).
  destruct (ev_exit_code r); [by apply Hint|done].
Qed.

Lemma event_text_ok r text : event_text r = Ok text → text = dumps (to_closed_dict r).
Proof. unfold event_text. by intros ([] & _ & [= <-])%bind_ok. Qed.

Lemma event_reads_back r text : event_is_valid r = true → int64 (ev_sequence r) → from_option int64 True (ev_exit_code r) →
  event_text r = Ok text → loads text ≫= from_closed_dict = Ok r.
Proof.
  intros Hr Hs Hc ->%event_text_ok. rewrite loads_dumps by (by apply storable_event). by apply closed_dict_reads_back.
Qed.

(** * What a statement does

    [obeys Q p]: every statement that [p] can run changes the tables from [t] to
    [t'] and ends the session with [r] only as [Q t t' r] allows. *)

Fixpoint obeys {T A} (Q : T → T → option (py A) → Prop) (p : session T A) : Prop :=
  match p with
  | Finish _ => True
  | Statement _ f =>
      ∀ t, match f t with Some (t', p) => Q t t' (finished p) ∧ obeys Q p | None => True end
  end.

Definition claim_of (c : call) : option (ClaimKey * string) :=
  match c with
  | ClaimEffect task attempt sequence digest => '(k, d) ← claim_arguments task attempt sequence digest; Some (k, d)
  | _ => None
  end.

Definition submission_of (c : call) : option EventKey :=
  match c with
  | RecordSubmission task attempt session turn sequence state next =>
      '(k, _) ← submission_arguments task attempt session turn sequence state next; Some k
  | _ => None
  end.

(** The row and the answer of an [append]. *)
Definition logged (c : call) (t : CodingTables) (x : CodingToolEventRecord) : Prop :=
  ∃ r text candidate, c = AppendEvent (Typed r) ∧ int64 (ev_sequence r) ∧ event_text r = Ok text
    ∧ events t !! event_key r = Some (candidate, record_digest text, text)
    ∧ (x = r ∨ loads text ≫= from_closed_dict = Ok x).

(** What a finished session says about the tables it leaves. *)
Definition answered (c : call) (t : CodingTables) (r : option (py reply)) : Prop :=
  match r with Some (Ok (Claimed true)) => False | Some (Ok (Appended x)) => logged c t x | _ => True end.

Inductive effect (c : call) (t : CodingTables) : CodingTables → option (py reply) → Prop :=
  | effect_none r : answered c t r → effect c t t r
  | effect_claim k d : claim_of c = Some (k, d) → claims t !! k = None →
      effect c t (set_claims (<[k := d]> (claims t)) t) (Some (Ok (Claimed true)))
  | effect_append r row : events t !! event_key r = None →
      logged c (set_events (<[event_key r := row]> (events t)) t) r →
      effect c t (set_events (<[event_key r := row]> (events t)) t) (Some (Ok (Appended r)))
  | effect_submission k v : submission_of c = Some k →
      effect c t (set_submissions (<[k := v]> (submissions t)) t) (Some (Ok Recorded)).

(** ** Every call *)

Lemma answered_error {A} (f : A → reply) (e : exn) c t : answered c t (finished (Finish (f <$> (Err e : py A)) : session CodingTables reply)).
Proof. done. Qed.

Lemma claim_effects task attempt sequence digest : let c := ClaimEffect task attempt sequence digest in
  obeys (effect c) (code c) ∧ ∀ t, answered c t (finished (code c)).
Proof.
  cbn [code]. unfold claim_effect. destruct (claim_arguments _ _ _ _) as [[[[a b] z] d]|] eqn:Ha; [|done].
  unfold with_int. destruct (sqlite_int z); [|done]. split; [|done]. intros t. cbn [obeys answer select finished].
  split; [constructor; destruct (claims t !! _); [by case_match|done]|]. destruct (claims t !! _) as [old|]; [by case_match|]. cbn [write answer obeys].
  intros t'. unfold fresh_row. cbn. destruct (claims t' !! (a, b, z)) eqn:Hk; [done|]. cbn. split; [|done].
  apply effect_claim; [|done]. cbn [claim_of]. by rewrite Ha.
Qed.

Lemma reconciliation_effects task attempt acknowledged : let c := RequiresReconciliation task attempt acknowledged in
  obeys (effect c) (code c) ∧ ∀ t, answered c t (finished (code c)).
Proof.
  cbn [code]. unfold requires_reconciliation. destruct task, attempt, acknowledged; try done. case_match; [|done].
  split; [|done]. intros t1. split; [by constructor|]. intros t2. split; [by constructor|]. intros t3. by split; [constructor|].
Qed.

Lemma submission_effects task attempt session turn sequence state next :
  let c := RecordSubmission task attempt session turn sequence state next in
  obeys (effect c) (code c) ∧ ∀ t, answered c t (finished (code c)).
Proof.
  cbn [code]. unfold record_submission. destruct (submission_arguments _ _ _ _ _ _ _) as [[k n]|] eqn:Ha; [|done].
  unfold with_int. destruct (sqlite_int k.2); [|done]. split; [|done]. intros t. cbn [obeys answer select finished].
  assert (submission_of (RecordSubmission task attempt session turn sequence state next) = Some k) as Hk
    by (cbn [submission_of]; by rewrite Ha).
  unfold store_submission. split.
  { constructor. destruct (submissions t !! k) as [old|]; [|by case_match]. do 2 (case_match; [done|]). done. }
  destruct (submissions t !! k) as [old|].
  - case_match; [done|]. case_match; [|done]. intros t'. split; [|done].
    destruct (submissions t' !! k) as [v|] eqn:Hv.
    + replace (alter _ k (submissions t')) with (<[k := (state, n)]> (submissions t')); [by constructor|].
      apply map_eq. intros k'. destruct (decide (k = k')) as [<-|Hne]; [by rewrite lookup_insert_eq, lookup_alter_eq, Hv|].
      by rewrite lookup_insert_ne, lookup_alter_ne.
    + rewrite alter_id by (intros x; by rewrite Hv). destruct t'. by constructor.
  - case_match; [done|]. intros t'. unfold fresh_row. cbn. destruct (submissions t' !! k) eqn:Hv; [done|]. cbn.
    split; [by constructor|done].
Qed.

Lemma append_effects record : let c := AppendEvent record in
  obeys (effect c) (code c) ∧ ∀ t, answered c t (finished (code c)).
Proof.
  cbn [code]. unfold append. destruct record as [r|]; [|done]. destruct (event_text r) as [text|] eqn:Htext; [|done].
  unfold with_int. destruct (sqlite_int (ev_sequence r)) as [z|] eqn:Hz; [|done]. apply sqlite_int_ok in Hz as [_ Hz].
  split; [|done]. intros t. cbn [obeys answer select finished]. split.
  - constructor. destruct (events t !! event_key r) as [[[candidate digest] payload]|] eqn:Hrow; [|done].
    case_match eqn:Heq; [|done]. breflect. destruct Heq as [-> ->]. cbn [finished answer].
    destruct (loads text ≫= from_closed_dict) as [x|] eqn:Hx; [|done]. exists r, text, candidate. auto 7.
  - destruct (events t !! event_key r) as [[[candidate digest] payload]|] eqn:Hrow; [by case_match|].
    intros t'. unfold fresh_row. cbn. destruct (events t' !! event_key r) eqn:Hnew; [done|]. cbn. split; [|done].
    apply effect_append; [done|]. exists r, text, (ev_candidate_sha r). split_and!; try done; [|by left].
    cbn. by rewrite lookup_insert_eq.
Qed.

Lemma code_effects c : obeys (effect c) (code c) ∧ ∀ t, answered c t (finished (code c)).
Proof.
  destruct c; [apply claim_effects|apply reconciliation_effects|apply submission_effects|apply append_effects].
Qed.

(** * Any processes, in any order

    What holds after every schedule: of the answers given so far, and of the
    tables against those at the start. *)

(** Process [i] was told that the effect [k] is its own, for the request [d]. *)
Definition granted (ps : Pool) (i : nat) (k : ClaimKey) (d : string) : Prop :=
  ∃ c, ps !! i = Some (c, Finish (Ok (Claimed true))) ∧ claim_of c = Some (k, d).

Record sound (t0 t : CodingTables) (ps : Pool) : Prop := {
  sound_sessions : ∀ i c p, ps !! i = Some (c, p) → obeys (effect c) p;
  sound_claims : claims t0 ⊆ claims t;
  sound_granted : ∀ i k d, granted ps i k d → claims t0 !! k = None ∧ claims t !! k = Some d;
  sound_once : ∀ i j k d e, granted ps i k d → granted ps j k e → i = j;
  sound_events : events t0 ⊆ events t;
  sound_logged : ∀ i c x, ps !! i = Some (c, Finish (Ok (Appended x))) → logged c t x;
  sound_refused : ∀ i c, ps !! i = Some (c, Finish (Ok (Claimed true))) → ∃ k d, claim_of c = Some (k, d);
}.

Lemma sound_start t : sound t t [].
Proof.
  constructor; try done; try (intros *; by rewrite lookup_nil); try (intros * (? & ? & _); by rewrite lookup_nil in *).
Qed.

(** A pool in which the answer of one process is new. *)
Lemma granted_insert ps i j c p q k d : ps !! i = Some (c, q) → granted (<[i := (c, p)]> ps) j k d →
  granted ps j k d ∨ (i = j ∧ p = Finish (Ok (Claimed true)) ∧ claim_of c = Some (k, d)).
Proof.
  intros Hi (c' & Hj & Hc). destruct (decide (i = j)) as [<-|Hne].
  - rewrite list_lookup_insert_eq in Hj by (by eapply lookup_lt_Some). injection Hj as <- ->. by right.
  - rewrite list_lookup_insert_ne in Hj by done. left. by exists c'.
Qed.

Lemma logged_mono c t t' x : events t ⊆ events t' → logged c t x → logged c t' x.
Proof.
  intros Ht (r & text & candidate & ? & ? & ? & He & ?). exists r, text, candidate. split_and!; try done.
  by eapply lookup_weaken.
Qed.

Lemma effect_grows c t t' r : effect c t t' r → claims t ⊆ claims t' ∧ events t ⊆ events t'.
Proof. intros []; split; try done; by apply insert_subseteq. Qed.

Lemma effect_granted c t t' : effect c t t' (Some (Ok (Claimed true))) →
  ∃ k d, claim_of c = Some (k, d) ∧ claims t !! k = None ∧ claims t' !! k = Some d.
Proof.
  inversion 1 as [? Ha|k d Hc Hk| |]; subst; [by destruct Ha|]. exists k, d. split_and!; try done. cbn. by rewrite lookup_insert_eq.
Qed.

Lemma effect_logged c t t' x : effect c t t' (Some (Ok (Appended x))) → logged c t' x.
Proof. by inversion 1. Qed.

Lemma finish_inv {T A} (p : session T A) r : finished p = Some r → p = Finish r.
Proof. by destruct p; intros [= ->]. Qed.

Lemma sound_step t0 t t' ps i c q p : sound t0 t ps → ps !! i = Some (c, q) → obeys (effect c) p →
  effect c t t' (finished p) → sound t0 t' (<[i := (c, p)]> ps).
Proof.
  intros [Hs Hc Hg Ho He Hl Hr] Hi Hp Heff. destruct (effect_grows _ _ _ _ Heff) as [Hclaims Hevents].
  assert (∀ k d, p = Finish (Ok (Claimed true)) → claim_of c = Some (k, d) → claims t !! k = None ∧ claims t' !! k = Some d) as Hnew.
  { intros k d -> Hk. apply effect_granted in Heff as (k' & d' & Hk' & ?). rewrite Hk in Hk'. by injection Hk' as <- <-. }
  assert (∀ j c' p', <[i := (c, p)]> ps !! j = Some (c', p') → ps !! j = Some (c', p') ∨ (c', p') = (c, p)) as Hlook.
  { intros j c' p' Hj. apply list_lookup_insert_Some in Hj as [(_ & Heq & _)|[_ Hj]]; [right|left]; congruence. }
  constructor.
  - intros j c' p' [Hj|[= -> ->]]%Hlook; [by eapply Hs|done].
  - by transitivity (claims t).
  - intros j k d [Hj|(-> & -> & Hk)]%(granted_insert _ _ _ _ _ _ _ _ Hi).
    + destruct (Hg _ _ _ Hj). split; [done|]. by eapply lookup_weaken.
    + destruct (Hnew _ _ eq_refl Hk) as [Hn Hd]. split; [|done]. by eapply lookup_weaken_None.
  - intros j1 j2 k d e [H1|(<- & -> & Hk)]%(granted_insert _ _ _ _ _ _ _ _ Hi)
      [H2|(<- & E2 & Hk2)]%(granted_insert _ _ _ _ _ _ _ _ Hi); try done.
    + by eapply Ho.
    + destruct (Hnew _ _ E2 Hk2) as [Hn _]. destruct (Hg _ _ _ H1). congruence.
    + destruct (Hnew _ _ eq_refl Hk) as [Hn _]. destruct (Hg _ _ _ H2). congruence.
  - by transitivity (events t).
  - intros j c' x [Hj|[= -> <-]]%Hlook; [by eapply logged_mono, Hl|]. by eapply effect_logged.
  - intros j c' [Hj|[= -> <-]]%Hlook; [by eapply Hr|]. apply effect_granted in Heff as (k & d & ? & _). by exists k, d.
Qed.

Lemma sound_call t0 t ps c : sound t0 t ps → sound t0 t (ps ++ [(c, code c)]).
Proof.
  intros [Hs Hc Hg Ho He Hl Hr]. destruct (code_effects c) as [Hcode Hans].
  assert (∀ j c' p', (ps ++ [(c, code c)]) !! j = Some (c', p') → ps !! j = Some (c', p') ∨ (c', p') = (c, code c)) as Hlook.
  { intros j c' p' Hj. apply lookup_app_Some in Hj as [Hj|[_ Hj]]; [by left|right].
    apply list_lookup_singleton_Some in Hj as [_ Hj]. congruence. }
  assert (code c ≠ Finish (Ok (Claimed true))) as Hnot.
  { intros Hf. specialize (Hans t). by rewrite Hf in Hans. }
  assert (∀ j k d, granted (ps ++ [(c, code c)]) j k d → granted ps j k d) as Hold.
  { intros j k d (c' & [Hj|[= -> Hp]]%Hlook & Hk); [by exists c'|done]. }
  constructor; eauto.
  - intros j c' p' [Hj|[= -> ->]]%Hlook; [by eapply Hs|done].
  - intros j c' x [Hj|[= -> Hp]]%Hlook; [by eapply Hl|]. specialize (Hans t). by rewrite <- Hp in Hans.
  - intros j c' [Hj|[= -> Hp]]%Hlook; [by eapply Hr|done].
Qed.

Lemma sound_perform t0 t ps e : sound t0 t ps → sound t0 (perform e t ps).1 (perform e t ps).2.
Proof.
  intros Hs. destruct e as [c|i|i]; cbn [perform fst snd]; [by apply sound_call|..].
  all: destruct (ps !! i) as [[c [r|failed f]]|] eqn:Hi; try done.
  all: pose proof (sound_sessions _ _ _ Hs _ _ _ Hi) as Hp; cbn [obeys] in Hp.
  - specialize (Hp t). destruct (f t) as [[t' p]|]; cbn [fst snd].
    + destruct Hp. by eapply sound_step.
    + eapply sound_step; [exact Hs|exact Hi|done|]. by apply effect_none.
  - eapply sound_step; [exact Hs|exact Hi|done|]. by apply effect_none.
Qed.

Lemma sound_play es t0 t ps : sound t0 t ps → sound t0 (play es t ps).1 (play es t ps).2.
Proof.
  revert t ps. induction es as [|e es IH]; intros t ps Hs; [done|]. cbn [play].
  pose proof (sound_perform _ _ _ e Hs). destruct (perform e t ps). by apply IH.
Qed.

(** C6 : however many processes share the store, in whatever order their
    statements run and wherever they fail, at most one call is ever told that an
    effect is its own to perform: none if the effect was claimed before, and then
    the claim of that call's request stays. *)
Theorem effect_claimed_once es t0 t ps : play es t0 [] = (t, ps) →
  claims t0 ⊆ claims t
  ∧ (∀ i c, ps !! i = Some (c, Finish (Ok (Claimed true))) →
       ∃ k d, claim_of c = Some (k, d) ∧ claims t0 !! k = None ∧ claims t !! k = Some d)
  ∧ (∀ i j k d e, granted ps i k d → granted ps j k e → i = j).
Proof.
  intros Hplay. pose proof (sound_play es _ _ _ (sound_start t0)) as Hs. rewrite Hplay in Hs. destruct Hs as [_ Hc Hg Ho _ _ Hr].
  split_and!; [done| |exact Ho]. intros i c Hi. destruct (Hr _ _ Hi) as (k & d & Hk). exists k, d. split; [done|].
  apply (Hg i). by exists c.
Qed.

(** C39 : the event log only grows, under any interleaving: a row that is there
    stays, and when an append of a constructed record succeeds the store holds
    exactly its text and digest, its answer is that record, and the stored text
    parses back to it. *)
Theorem event_log_append_only es t0 t ps i r x : play es t0 [] = (t, ps) →
  ps !! i = Some (AppendEvent (Typed r), Finish (Ok (Appended x))) → event_is_valid r = true →
  from_option int64 True (ev_exit_code r) →
  events t0 ⊆ events t ∧ x = r
  ∧ ∃ candidate text, events t !! event_key r = Some (candidate, record_digest text, text)
      ∧ loads text ≫= from_closed_dict = Ok r.
Proof.
  intros Hplay Hi Hr Hc. pose proof (sound_play es _ _ _ (sound_start t0)) as Hs. rewrite Hplay in Hs.
  destruct (sound_logged _ _ _ Hs _ _ _ Hi) as (r' & text & candidate & [= <-] & Hz & Htext & Hrow & Hx).
  pose proof (event_reads_back r text Hr Hz Hc Htext) as Hback. split; [apply (sound_events _ _ _ Hs)|].
  split; [destruct Hx as [Hx|Hx]; congruence|]. by exists candidate, text.
Qed.

(** A submission that is not an open intent any more is final when calls run one
    after another. *)
Lemma recording task attempt session_id turn sequence state next k n :
  submission_arguments task attempt session_id turn sequence state next = Some (k, n) → int64 k.2 →
  record_submission task attempt session_id turn sequence state next
  = select submission_failed (λ t, submissions t !! k) (store_submission submission_failed k state n).
Proof.
  intros Ha Hz. unfold record_submission. rewrite Ha. unfold with_int. by rewrite (proj2 (sqlite_int_ok _ k.2) (conj eq_refl Hz)).
Qed.

Lemma submission_is_final task attempt session_id turn sequence state next t k n old :
  submission_arguments task attempt session_id turn sequence state next = Some (k, n) → int64 k.2 →
  submissions t !! k = Some old → old ≠ ("intent", None) → old ≠ (state, n) →
  run (record_submission task attempt session_id turn sequence state next) t
  = (coding_error "coding submission transition conflicts", t).
Proof.
  intros Ha Hz Hold Hi Hv. rewrite (recording _ _ _ _ _ _ _ _ _ Ha Hz). cbn [run select]. rewrite Hold. unfold store_submission.
  by rewrite (bool_decide_eq_false_2 (old = (state, n))), (bool_decide_eq_false_2 (old = ("intent", None))) by done.
Qed.

Definition overwrite (k : EventKey) (v : string * option string) (t : CodingTables) : CodingTables :=
  set_submissions (alter (λ _, v) k (submissions t)) t.

Lemma store_closing k state n : state ∈ ["submitted"; "uncertain"] →
  store_submission submission_failed k state n (Some ("intent", None))
  = write submission_failed (λ t, Some (overwrite k (state, n) t)) (Finish (Ok ())).
Proof.
  intros Hs. unfold store_submission. rewrite (bool_decide_eq_true_2 (("intent", None) = ("intent", None))) by done.
  rewrite (bool_decide_eq_true_2 (state ∈ _)) by done. rewrite bool_decide_eq_false_2; [done|]. intros [= <- _].
  by rewrite !elem_of_cons, elem_of_nil in Hs; destruct Hs as [?|[?|?]].
Qed.

(** C40 : two processes that both read an open intent both succeed, and the one
    that writes last decides what is stored: a submission that was recorded as
    uncertain can become a submitted one, although the same calls one after the
    other are refused. *)
Theorem uncertain_submission_lost task attempt session_id turn sequence next t k n :
  submission_arguments task attempt session_id turn sequence "uncertain" (Typed None) = Some (k, None) →
  submission_arguments task attempt session_id turn sequence "submitted" next = Some (k, n) →
  int64 k.2 → submissions t !! k = Some ("intent", None) →
  let uncertain := RecordSubmission task attempt session_id turn sequence "uncertain" (Typed None) in
  let submitted := RecordSubmission task attempt session_id turn sequence "submitted" next in
  let (t', ps) := play [Call uncertain; Call submitted; Step 0; Step 1; Step 0; Step 1] t [] in
  ps = [(uncertain, Finish (Ok Recorded)); (submitted, Finish (Ok Recorded))]
  ∧ submissions t' !! k = Some ("submitted", n)
  ∧ submissions (run (code uncertain) t).2 !! k = Some ("uncertain", None)
  ∧ (run (code submitted) (run (code uncertain) t).2).1 = coding_error "coding submission transition conflicts".
Proof.
  intros Hu Hs Hz Hk uncertain submitted. subst uncertain submitted. cbn [play perform app code].
  rewrite (recording _ _ _ _ _ _ _ _ _ Hu Hz), (recording _ _ _ _ _ _ _ _ _ Hs Hz).
  cbn [answer select run lookup list_lookup insert list_insert]. rewrite Hk, !store_closing by set_solver.
  cbn [answer write run fst snd lookup list_lookup insert list_insert overwrite set_submissions submissions fmap result_fmap].
  rewrite !lookup_alter_eq, Hk. done.
Qed.

(** * A concrete store *)

Module Sample.

Definition digest_of (c : string) : string := String.append "sha256:" (str_repeat c 64).

Definition claim : call := ClaimEffect (Typed "task-1") (Typed "attempt-1") (Typed 1) (Typed (digest_of "1")).

(** Both processes look before either inserts; the insert that comes second is
    refused by the primary key. *)
Definition claim_race : list event := [Call claim; Call claim; Step 0; Step 1; Step 1; Step 0].

Lemma effect_claimed_once_witness :
  map (λ cp, finished cp.2) (play claim_race no_events []).2
  = [Some (coding_error "coding effect intent checkpoint failed"); Some (Ok (Claimed true))]
  ∧ ∃ k d, claims (play claim_race no_events []).1 !! k = Some d.
Proof.
  split; [vm_compute; reflexivity|].
  destruct (effect_claimed_once claim_race no_events _ _ (surjective_pairing _)) as (_ & H & _).
  destruct (H 1%nat claim eq_refl) as (k & d & _ & _ & Hk). exists k, d. exact Hk.
Defined.

Definition written : CodingToolEventRecord :=
  {| ev_schema := SCHEMA; ev_task_id := "task-1"; ev_objective_digest := digest_of "1"; ev_action := IMPLEMENTATION;
     ev_implementation_attempt_id := "attempt-1"; ev_session_identity := "session-1"; ev_external_turn_identity := "turn-1";
     ev_candidate_sha := str_repeat "c" 40; ev_sequence := 1; ev_tool := WORKSPACE_WRITE; ev_request_digest := digest_of "2";
     ev_result_digest := digest_of "3"; ev_outcome := "allowed"; ev_before_digest := Some (digest_of "4");
     ev_after_digest := Some (digest_of "5"); ev_exit_code := None; ev_output_digest := None; ev_process_state := COMPLETED;
     ev_cancellation_state := NOT_REQUESTED; ev_ambiguity_state := CLEAR |}.

(** Two processes append the same event; the one that inserts second fails, and
    repeats the call. *)
Definition log_race : list event :=
  [Call (AppendEvent (Typed written)); Call (AppendEvent (Typed written)); Step 0; Step 1; Step 0; Step 1;
   Call (AppendEvent (Typed written)); Step 2].

Lemma log_race_answers : map (λ cp, finished cp.2) (play log_race no_events []).2
  = [Some (Ok (Appended written)); Some (coding_error "coding tool store append failed"); Some (Ok (Appended written))].
Proof. vm_compute. reflexivity. Qed.

Lemma third_answer : (play log_race no_events []).2 !! 2%nat = Some (AppendEvent (Typed written), Finish (Ok (Appended written))).
Proof. vm_compute. reflexivity. Qed.

Lemma event_log_append_only_witness : ∃ row, events (play log_race no_events []).1 !! event_key written = Some row.
Proof.
  destruct (event_log_append_only log_race no_events _ _ 2 written written (surjective_pairing _) third_answer eq_refl I)
    as (_ & _ & candidate & text & H & _).
  eexists. exact H.
Defined.

Definition turn_key : EventKey := ("task-1", "attempt-1", "session-1", "turn-1", 1).

Definition intended : CodingTables := set_submissions {[ turn_key := ("intent", None) ]} no_events.

Lemma uncertain_submission_lost_witness :
  (run (code (RequiresReconciliation (Typed "task-1") (Typed "attempt-1") (Typed [Typed 1]))) intended).1 = Ok (Unresolved true)
  ∧ submissions (play [Call (RecordSubmission (Typed "task-1") (Typed "attempt-1") (Typed "session-1") (Typed "turn-1") (Typed 1)
                               "uncertain" (Typed None));
                       Call (RecordSubmission (Typed "task-1") (Typed "attempt-1") (Typed "session-1") (Typed "turn-1") (Typed 1)
                               "submitted" (Typed (Some "turn-2"))); Step 0; Step 1; Step 0; Step 1] intended []).1 !! turn_key
    = Some ("submitted", Some "turn-2").
Proof.
  split; [vm_compute; reflexivity|].
  assert (int64 turn_key.2) as Hz by (split; vm_compute; [discriminate|reflexivity]).
  pose proof (uncertain_submission_lost (Typed "task-1") (Typed "attempt-1") (Typed "session-1") (Typed "turn-1") (Typed 1)
    (Typed (Some "turn-2")) intended turn_key (Some "turn-2") eq_refl eq_refl Hz eq_refl) as H.
  cbv zeta in H. destruct (play _ intended []) as [t ps]. exact (proj1 (proj2 H)).
Defined.

End Sample.
