(* ===== verification/FailureTables.v ===== *)
(** * The tables of the recovery ledger (src/roundwright/state.py, failure_recovery.py)

    The rows that failure_recovery.py reads and writes, and the checks of a
    failure's attempt against the authority that is current in the same
    snapshot.  A column that the schema makes nullable is an [option]; a column
    with a [CHECK] over several columns is one inductive type. *)

From stdpp Require Import gmap.
From S2P Require Import Prelude Sha256 Json JsonParse JsonRead FailureRecovery Sqlite Worktree Migrations StateDb TaskState.
Open Scope Z_scope.

(** ** Rows this module writes *)

Record RecordRow := { rr_digest : string; rr_task : string; rr_json : string; rr_at : Z }.

Record DecisionRow := {
  dr_digest : string;
  dr_task : string;
  dr_record : string;
  dr_command : string;
  dr_kind : string;
  dr_json : string;
  dr_sequence : Z;
  dr_at : Z;
}.

(** [state], [reservation_digest] and [consumed_at] of a route. *)
Inductive RouteState := Issued | Reserving (reservation : string) | Consumed (reservation : string) (at_ : Z).

#[export] Instance RouteState_eq_dec : EqDecision RouteState.
Proof. solve_decision. Defined.

Record RouteRow := {
  ro_task : string;
  ro_repository : string;
  ro_record : string;
  ro_binding : string;
  ro_role : string;
  ro_profile : string;
  ro_target : string;
  ro_coordinate : string;
  ro_budget : string;
  ro_issued : Z;
  ro_state : RouteState;
}.

Record SuccessorRow := {
  su_task : string;
  su_repository : string;
  su_reservation : string;
  su_attempt : string;
  su_request : string;
  su_at : Z;
}.

Record IntentRow := {
  in_task : string;
  in_repository : string;
  in_scope : string;
  in_role : string;
  in_reservation : string;
  in_repository_identity : string;
  in_task_identity : string;
}.

#[export] Instance IntentRow_eq_dec : EqDecision IntentRow.
Proof. solve_decision. Defined.
#[export] Instance SuccessorRow_eq_dec : EqDecision SuccessorRow.
Proof. solve_decision. Defined.

(** ** Rows that other modules write *)

(** A denial command of either kind; [cm_clearance] is a column of revocations. *)
Record CommandRow := {
  cm_task : string;
  cm_repository : string;
  cm_denial : string;
  cm_grant : string;
  cm_candidate : string;
  cm_seal : string;
  cm_scope : string;
  cm_target : string;
  cm_kind : string;
  cm_clearance : string;
  cm_command_digest : string;
  cm_host_result : string;
  cm_result : string;
  cm_state : string;
}.

Record GrantRow := {
  gr_owner : string;
  gr_task : string;
  gr_repository : string;
  gr_candidate : string;
  gr_seal : string;
  gr_scope : string;
  gr_target : string;
  gr_authority : string;
  gr_state : string;
}.

Record SealRow := { se_base : string; se_candidate : string; se_state : string }.
Record RuntimeRow := { ru_schema : string; ru_digest : string; ru_worker : string; ru_supervisors : string }.

Record FailureAdmissionRow := {
  fa_task : string;
  fa_candidate : string;
  fa_policy : string;
  fa_configuration : string;
  fa_scope : string;
  fa_role : string;
  fa_profile : string;
  fa_session : string;
  fa_attempt : string;
}.

#[export] Instance FailureAdmissionRow_eq_dec : EqDecision FailureAdmissionRow.
Proof. solve_decision. Defined.

Record AttemptRow := {
  pa_task : string;
  pa_role : string;
  pa_number : Z;
  pa_profile : string;
  pa_input : string;
  pa_state : string;
  pa_session : option string;
  pa_turn : option string;
  pa_output : option string;
  pa_completion : option string;
  pa_review : option string;
}.

Record ContextRow := {
  pc_task : string;
  pc_repository : string;
  pc_worktree : string;
  pc_branch : string;
  pc_base : string;
  pc_candidate : option string;
  pc_policy : string;
  pc_deployment : string;
  pc_schema : string;
  pc_configuration : string;
  pc_worker : string;
  pc_supervisors : string;
  pc_complete_rounds : Z;
  pc_max_rounds : Z;
  pc_max_attempts : Z;
  pc_on_final_findings : string;
  pc_review_policy : string;
}.

Record HealthRow := {
  ha_commit : string;
  ha_candidate : option string;
  ha_case : string;
  ha_receipt : string;
  ha_ordinal : Z;
  ha_fresh_until : Z;
  ha_contract : string;
  ha_role : string;
  ha_profile : string;
}.

Record CheckpointRow := {
  ck_task : string;
  ck_role : string;
  ck_phase : string;
  ck_attempt : option string;
  ck_fingerprint : string;
}.

#[export] Instance CheckpointRow_eq_dec : EqDecision CheckpointRow.
Proof. solve_decision. Defined.

Record SessionRow := { sc_task : string; sc_session : string; sc_fingerprint : string }.

#[export] Instance SessionRow_eq_dec : EqDecision SessionRow.
Proof. solve_decision. Defined.

Record ReviewAttemptRow := {
  ra_task : string;
  ra_snapshot : string;
  ra_profile : string;
  ra_configuration : string;
  ra_state : string;
}.

Record ReviewClaimRow := { rc_session : option string; rc_state : string }.
Record SubsetRow := { ss_task : string; ss_candidate : string; ss_policy : string; ss_configuration : string }.

(** The tables of the provider, dependency-review and owner-command modules. *)
Record ProviderTables := {
  clearance_commands : gmap string CommandRow;
  revocation_commands : gmap string CommandRow;
  clearance_grants : gmap string GrantRow;
  revocation_grants : gmap string GrantRow;
  candidate_seals : gmap string SealRow;
  runtime_bindings : gmap string RuntimeRow;
  failure_admissions : gmap string FailureAdmissionRow;
  provider_attempts : gmap string AttemptRow;
  attempt_contexts : gmap string ContextRow;
  dispatch_claims : gmap string (string * string);
  health_authorizations : gmap string HealthRow;
  health_seals : gmap string string;
  checkpoints : gmap string CheckpointRow;
  session_checkpoints : gmap string SessionRow;
  completion_outputs : gset string;
  diff_review_providers : gset string;
  review_admissions : gmap string FailureAdmissionRow;
  review_attempts : gmap string ReviewAttemptRow;
  review_claims : gmap string ReviewClaimRow;
  review_subsets : gmap string SubsetRow;
  review_successors : gmap string string;
  review_outcomes : gset string;
}.

(** [failure_recovery_records] and [denial_clearance_decisions] in the order of
    insertion, in which a query without an order reads them. *)
Record RecoveryTables := {
  records : list RecordRow;
  decisions : list DecisionRow;
  routes : gmap string RouteRow;
  successors : gmap string SuccessorRow;
  intents : gmap string IntentRow;
  provider : ProviderTables;
}.

Abbreviation Db := (Database RecoveryTables).

Definition set_records (l : list RecordRow) (t : RecoveryTables) : RecoveryTables :=
  {| records := l; decisions := decisions t; routes := routes t; successors := successors t; intents := intents t;
     provider := provider t |}.
Definition set_decisions (l : list DecisionRow) (t : RecoveryTables) : RecoveryTables :=
  {| records := records t; decisions := l; routes := routes t; successors := successors t; intents := intents t;
     provider := provider t |}.
Definition set_routes (m : gmap string RouteRow) (t : RecoveryTables) : RecoveryTables :=
  {| records := records t; decisions := decisions t; routes := m; successors := successors t; intents := intents t;
     provider := provider t |}.
Definition set_successors (m : gmap string SuccessorRow) (t : RecoveryTables) : RecoveryTables :=
  {| records := records t; decisions := decisions t; routes := routes t; successors := m; intents := intents t;
     provider := provider t |}.
Definition set_intents (m : gmap string IntentRow) (t : RecoveryTables) : RecoveryTables :=
  {| records := records t; decisions := decisions t; routes := routes t; successors := successors t; intents := m;
     provider := provider t |}.

(** A change of the tables of this module. *)
Definition write (f : RecoveryTables → RecoveryTables) (db : Db) : Db := set_evidence (f (evidence db)) db.
