(* ===== verification/FailureAdmission.v ===== *)
(** * The admission of a failure's attempt (src/roundwright/failure_recovery.py)

    A failure record binds an attempt.  These checks compare the binding with
    the rows that admitted the attempt and with the authority of its task, all
    read from one snapshot of the database. *)

From stdpp Require Import gmap.
From S2P Require Import Prelude Sha256 Json JsonParse JsonRead FailureRecovery Sqlite Worktree Migrations StateDb.
From S2P Require Import TaskState FailureTables.
Open Scope Z_scope.

Definition removeprefix (p s : string) : string :=
  if startswith p s then String.substring (String.length p) (String.length s - String.length p) s else s.

(** [str(n)], and ["" if value is None else str(value)]. *)
Definition str_int (z : Z) : string := String.string_of_list_ascii (int_chars z).
Definition str_or_empty (o : option string) : string := default "" o.

(** The columns of an admission that a binding of task [task] is checked with. *)
Definition expected_admission (task : string) (b : FailureBinding) : FailureAdmissionRow :=
  {| fa_task := task; fa_candidate := candidate_sha b; fa_policy := policy_digest b;
     fa_configuration := configuration_digest b; fa_scope := authority_scope b; fa_role := FailureRole_value (role b);
     fa_profile := profile_identity b; fa_session := session_identity b; fa_attempt := attempt_identity b |}.

(** The pre-dispatch identity of the binding's own attempt, whose identity
    passed its constructor. *)
Definition pre_dispatch (b : FailureBinding) : py string :=
  pre_dispatch_failure_identity (Typed (role b)) (Typed (attempt_identity b)).

(** [tuple(json.loads(text))], where the handler catches what [TypeError] and
    [JSONDecodeError] cover. *)
Definition iterate (v : doc) : py (list doc) :=
  match v with
  | DArr l => Ok l
  | DObj d => Ok (map (λ kv, DStr kv.1) d)
  | DStr s => Ok (map (λ n, DStr [n]) s)
  | _ => raise TypeError "object is not iterable"
  end.

Definition loads_tuple (text why : string) : py (list doc) :=
  match (v ← loads text; iterate v) with
  | Err (Raised (TypeError | JSONDecodeError) _) => recovery_error why
  | r => r
  end.

Definition docs_eqb (l k : list doc) : bool := doc_eqb (DArr l) (DArr k).
Definition doc_in (s : string) (l : list doc) : bool := existsb (doc_eqb (DStr (points s))) l.

Definition context_values (c : ContextRow) : list string :=
  [pc_repository c; pc_worktree c; pc_branch c; pc_base c; str_or_empty (pc_candidate c); pc_policy c;
   pc_deployment c; pc_schema c; pc_configuration c; pc_worker c; pc_supervisors c; str_int (pc_complete_rounds c);
   str_int (pc_max_rounds c); str_int (pc_max_attempts c); pc_on_final_findings c; pc_review_policy c].

Definition health_values (h : HealthRow) : list string :=
  [ha_commit h; str_or_empty (ha_candidate h); ha_case h; ha_receipt h; str_int (ha_ordinal h);
   str_int (ha_fresh_until h); ha_contract h; ha_role h; ha_profile h].

Definition drifted : string := "durable failure authority is unavailable or has drifted".

Definition require_current_admission_authority (i : TaskIdentity) (b : FailureBinding) (t : RecoveryTables) : py unit :=
  let p := provider t in
  let attempt := attempt_identity b in
  match candidate_seals p !! task_id i, runtime_bindings p !! task_id i, attempt_contexts p !! attempt,
        health_authorizations p !! attempt, provider_attempts p !! attempt,
        checkpoints p !! String.append attempt ":before-dispatch" with
  | Some seal, Some runtime, Some context, Some health, Some row, Some before =>
      context_supervisors ← loads_tuple (pc_supervisors context) drifted;
      runtime_supervisors ← loads_tuple (ru_supervisors runtime) drifted;
      let expected_profile :=
        match role b with WORKER => Some (ru_worker runtime) | SUPERVISOR => Some (profile_identity b)
        | DEPENDENCY_REVIEW => None end in
      _ ← recovery_ensure (all_true
        [se_base seal ==? base_sha i;
         se_candidate seal ==? candidate_sha b;
         se_state seal !=? "";
         pc_task context ==? task_id i;
         pc_candidate context ==? Some (sha256_hex (candidate_sha b));
         pc_policy context ==? removeprefix "sha256:" (policy_digest b);
         pc_configuration context ==? configuration_digest b;
         pc_worker context ==? ru_worker runtime;
         docs_eqb context_supervisors runtime_supervisors;
         ru_schema runtime ==? "roundwright-runtime/v1";
         ru_digest runtime ==? configuration_digest b;
         pc_schema context ==? ru_schema runtime;
         expected_profile ==? Some (profile_identity b);
         negb ((role b ==? SUPERVISOR) && negb (doc_in (profile_identity b) runtime_supervisors));
         pa_task row ==? task_id i; pa_role row ==? FailureRole_value (role b);
         pa_profile row ==? profile_identity b]) drifted;
      let fingerprint := health_seals p !! attempt in
      _ ← recovery_ensure (all_true
        [match_commit (ha_commit health);
         ha_candidate health ==? Some (candidate_sha b);
         match_token (ha_case health);
         match_digest (ha_receipt health);
         0 <=? ha_ordinal health;
         0 <? ha_fresh_until health;
         match_digest (ha_contract health);
         ha_role health ==? FailureRole_value (role b);
         ha_profile health ==? profile_identity b;
         match fingerprint with
         | Some f => match_hex 64 f && (f ==? sha256_hex (String.concat nul (attempt :: health_values health)))
         | None => false
         end]) drifted;
      let context_identity := sha256_hex (String.concat nul (context_values context)) in
      let expected_checkpoint :=
        sha256_hex (String.concat nul [context_identity; str_or_empty fingerprint]) in
      _ ← recovery_ensure (before ==?
        {| ck_task := task_id i; ck_role := FailureRole_value (role b); ck_phase := "before-dispatch";
           ck_attempt := Some attempt; ck_fingerprint := expected_checkpoint |}) drifted;
      pre ← pre_dispatch b;
      let session := session_checkpoints p !! attempt in
      if session_identity b ==? pre then
        recovery_ensure ((pa_session row ==? None) && (session ==? None) &&
          (dispatch_claims p !! attempt ==? Some (task_id i, pa_input row))) drifted
      else
        recovery_ensure ((session ==? Some {| sc_task := task_id i; sc_session := session_identity b;
                                             sc_fingerprint := expected_checkpoint |}) &&
          (pa_session row ==? Some (session_identity b))) drifted
  | _, _, _, _, _, _ => recovery_error drifted
  end.

Definition require_current_dependency_review_authority (i : TaskIdentity) (b : FailureBinding) (t : RecoveryTables) :
    py unit :=
  recovery_ensure
    match candidate_seals (provider t) !! task_id i, runtime_bindings (provider t) !! task_id i with
    | Some seal, Some runtime => all_true
        [se_base seal ==? base_sha i; se_candidate seal ==? candidate_sha b; se_state seal !=? "";
         ru_schema runtime ==? "roundwright-runtime/v1"; ru_digest runtime ==? configuration_digest b]
    | _, _ => false
    end "dependency review failure authority is unavailable or has drifted".

(** The joined rows of a dependency-review admission. *)
Definition review_admission_rows (attempt : string) (p : ProviderTables) :
    option (FailureAdmissionRow * ReviewAttemptRow * ReviewClaimRow * SubsetRow) :=
  a ← review_admissions p !! attempt;
  r ← review_attempts p !! attempt;
  c ← review_claims p !! attempt;
  s ← review_subsets p !! ra_snapshot r;
  Some (a, r, c, s).

Definition require_dependency_review_admission (i : TaskIdentity) (b : FailureBinding) (t : RecoveryTables) : py unit :=
  let why := "dependency review failure admission is unavailable or has drifted" in
  match review_admission_rows (attempt_identity b) (provider t) with
  | None => recovery_error why
  | Some (a, r, c, s) =>
      _ ← recovery_ensure (a ==? expected_admission (task_id i) b) why;
      _ ← recovery_ensure (all_true
        [ra_task r ==? task_id i; ra_profile r ==? profile_identity b; ra_configuration r ==? configuration_digest b;
         ss_task s ==? task_id i; ss_candidate s ==? candidate_sha b; ss_policy s ==? policy_digest b;
         ss_configuration s ==? configuration_digest b]) why;
      pre ← pre_dispatch_failure_identity (Typed DEPENDENCY_REVIEW) (Typed (attempt_identity b));
      _ ← recovery_ensure
        (((rc_session c ==? Some (session_identity b)) && (rc_state c in? ["session-opened"; "turn-dispatched"])) ||
         ((rc_session c ==? None) && (rc_state c ==? "pre-dispatch") && (session_identity b ==? pre))) why;
      require_current_dependency_review_authority i b t
  end.

(** The joined rows of a provider admission; the claim may be missing. *)
Definition admission_rows (attempt : string) (p : ProviderTables) :
    option (FailureAdmissionRow * AttemptRow * ContextRow * option (string * string)) :=
  a ← failure_admissions p !! attempt;
  r ← provider_attempts p !! attempt;
  c ← attempt_contexts p !! attempt;
  Some (a, r, c, dispatch_claims p !! attempt).

Definition require_attempt_admission (i : TaskIdentity) (b : FailureBinding) (t : RecoveryTables) : py unit :=
  if role b ==? DEPENDENCY_REVIEW then require_dependency_review_admission i b t
  else
    let why := "durable failure admission is unavailable or has drifted" in
    match admission_rows (attempt_identity b) (provider t) with
    | None => recovery_error why
    | Some (a, r, c, claim) =>
        _ ← recovery_ensure (a ==? expected_admission (task_id i) b) why;
        _ ← recovery_ensure (all_true
          [pa_task r ==? task_id i; pa_role r ==? FailureRole_value (role b); pa_profile r ==? profile_identity b;
           pc_task c ==? task_id i; pc_candidate c ==? Some (sha256_hex (candidate_sha b));
           pc_policy c ==? removeprefix "sha256:" (policy_digest b); pc_configuration c ==? configuration_digest b]) why;
        pre ← pre_dispatch b;
        _ ← recovery_ensure
          ((pa_session r ==? Some (session_identity b)) ||
           ((pa_session r ==? None) && (session_identity b ==? pre) && (claim ==? Some (task_id i, pa_input r)))) why;
        require_current_admission_authority i b t
    end.

(** ** What an admission proves *)

(** The admission depends on the provider tables only. *)
Lemma attempt_admission_provider i b t t' :
  provider t = provider t' → require_attempt_admission i b t = require_attempt_admission i b t'.
Proof.
  intros H. unfold require_attempt_admission, require_dependency_review_admission,
    require_current_dependency_review_authority, require_current_admission_authority. by rewrite H.
Qed.

Lemma admission_candidate i b t : require_attempt_admission i b t = Ok () →
  ∃ seal runtime, candidate_seals (provider t) !! task_id i = Some seal ∧
    runtime_bindings (provider t) !! task_id i = Some runtime ∧
    se_base seal = base_sha i ∧ se_candidate seal = candidate_sha b ∧ ru_digest runtime = configuration_digest b.
Proof.
  unfold require_attempt_admission. case_bool_decide as Hr.
  - unfold require_dependency_review_admission. destruct (review_admission_rows _ _) as [[[[a r] c] s]|]; [|done].
    do 2 (intros ([] & _ & H)%bind_ok; revert H). intros (? & _ & H)%bind_ok. apply bind_ok in H as ([] & _ & H).
    unfold require_current_dependency_review_authority, recovery_ensure in H. apply require_ok in H.
    destruct (candidate_seals _ !! _) as [seal|], (runtime_bindings _ !! _) as [runtime|]; try done.
    rewrite !all_true_cons, !bool_decide_eq_true in H. exists seal, runtime. naive_solver.
  - destruct (admission_rows _ _) as [[[[a r] c] claim]|]; [|done].
    do 2 (intros ([] & _ & H)%bind_ok; revert H). intros (? & _ & H)%bind_ok. apply bind_ok in H as ([] & _ & H).
    revert H. unfold require_current_admission_authority.
    destruct (candidate_seals (provider t) !! task_id i) as [seal|]; [|done].
    destruct (runtime_bindings (provider t) !! task_id i) as [runtime|]; [|done].
    destruct (attempt_contexts (provider t) !! attempt_identity b); [|done].
    destruct (health_authorizations (provider t) !! attempt_identity b); [|done].
    destruct (provider_attempts (provider t) !! attempt_identity b); [|done].
    destruct (checkpoints (provider t) !! _); [|done].
    intros (cs & _ & H)%bind_ok. apply bind_ok in H as (rs & _ & H). apply bind_ok in H as ([] & H & _).
    unfold recovery_ensure in H. rewrite require_ok, !all_true_cons, !bool_decide_eq_true in H.
    exists seal, runtime. naive_solver.
Qed.
