(* ===== verification/FailureLedger.v ===== *)
(** * The failure ledger (src/roundwright/failure_recovery.py)

    Durable failure records, the clearances and revocations of security denials,
    and the admission of an effect in a scope.  Each operation is one
    transaction of [StateDb]. *)

From stdpp Require Import gmap.
From S2P Require Import Prelude Sha256 Json JsonParse JsonRead FailureRecovery Sqlite Worktree Migrations StateDb.
From S2P Require Import TaskState FailureTables FailureAdmission.
Open Scope Z_scope.

(** ** Stored records *)

(** [json.loads(text)] under [except (TypeError, json.JSONDecodeError)]. *)
Definition except_undecodable {A} (why : string) (m : py A) : py A :=
  match m with Err (Raised (TypeError | JSONDecodeError) _) => recovery_error why | _ => m end.

Definition record_rows (task : string) (t : RecoveryTables) : list RecordRow :=
  List.filter (λ r, rr_task r ==? task) (records t).

(** The row of a digest, the primary key; and that row if it is the task's. *)
Definition record_row (digest : string) (t : RecoveryTables) : option RecordRow :=
  List.find (λ r, rr_digest r ==? digest) (records t).

Definition task_record (task digest : string) (t : RecoveryTables) : option RecordRow :=
  List.find (λ r, (rr_task r ==? task) && (rr_digest r ==? digest)) (records t).

(** [int(time.time()) if now is None else now], a positive [int]. *)
Definition observed_time (why : string) (system : Z) (now : option Z) : py Z :=
  let observed := match now with Some n => n | None => system end in
  _ ← recovery_ensure (0 <? observed) why; Ok observed.

Definition record_failure (i : TaskIdentity) (r : FailureRecord) (observed : Z) (db : Db) : py Db :=
  let digest := record_digest r in
  _ ← require_matching_task i None db;
  _ ← require_failure_compatibility r;
  _ ← recovery_ensure (record_schema r ==? V3) "legacy failure records cannot be persisted";
  _ ← require_attempt_admission i (binding r) (evidence db);
  match record_row digest (evidence db) with
  | Some row =>
      _ ← recovery_ensure ((rr_task row ==? task_id i) && (rr_json row ==? record_text r))
            "durable failure record conflicts";
      Ok db
  | None =>
      at_ ← sqlite_int observed;
      Ok (write (λ t, set_records
        (records t ++ [{| rr_digest := digest; rr_task := task_id i; rr_json := record_text r; rr_at := at_ |}]) t) db)
  end.

(** [record_durable_failure]; the connection of a caller that passes one is its
    transaction, and then the body is [record_failure].  With a connection of its
    own the reads come before the transaction that the INSERT opens; here they
    are one transaction. *)
Definition record_durable_failure (migrations : list Migration) (i : TaskIdentity) (r : dyn FailureRecord) (system : Z)
    (now : option Z) : World RecoveryTables → py string * World RecoveryTables :=
  match r with
  | Foreign => after (recovery_error "failure record binding is unavailable") (λ w, (Ok "", w))
  | Typed r =>
      λ w, match observed_time "failure record time is invalid" system now with
           | Err e => (Err e, w)
           | Ok observed => transaction migrations (λ db, db ← record_failure i r observed db; Ok (record_digest r, db)) w
           end
  end.

Definition read_failure (i : TaskIdentity) (digest : string) (db : Db) : py FailureRecord :=
  _ ← require_matching_task i None db;
  match task_record (task_id i) digest (evidence db) with
  | None => recovery_error "durable failure record is unavailable"
  | Some row =>
      v ← except_undecodable "durable failure record is malformed" (loads (rr_json row));
      r ← parse_failure_record v;
      _ ← recovery_ensure (record_digest r ==? digest) "durable failure record digest has drifted";
      _ ← require_failure_compatibility r;
      _ ← require_attempt_admission i (binding r) (evidence db);
      Ok r
  end.

Definition read_durable_failure (migrations : list Migration) (i : TaskIdentity) (digest : string)
    (w : World RecoveryTables) : py FailureRecord * World RecoveryTables :=
  transaction migrations (λ db, r ← read_failure i digest db; Ok (r, db)) w.

(** ** Owner commands *)

Inductive DecisionKind := Clear | Revoke.

#[export] Instance DecisionKind_eq_dec : EqDecision DecisionKind.
Proof. solve_decision. Defined.

Definition DecisionKind_value (k : DecisionKind) : string := match k with Clear => "clear" | Revoke => "revoke" end.

Definition command_kind (k : DecisionKind) : string :=
  match k with Clear => "clear-denial" | Revoke => "revoke-denial-clearance" end.

Definition commands_of (k : DecisionKind) (t : RecoveryTables) : gmap string CommandRow :=
  match k with Clear => clearance_commands (provider t) | Revoke => revocation_commands (provider t) end.

Definition grants_of (k : DecisionKind) (t : RecoveryTables) : gmap string GrantRow :=
  match k with Clear => clearance_grants (provider t) | Revoke => revocation_grants (provider t) end.

Definition unit_separator : string := String.String "031"%char "".

Definition OWNER : string := "ythdelmar68".

Definition denial_authority_digest (kind owner task repository candidate seal scope target : string) : py string :=
  text ← encode_ascii (String.concat unit_separator
    ["roundwright-denial-clearance-authority/v1"; kind; owner; task; repository; candidate; seal; scope; target]);
  Ok (sha256_hex text).

(** The joined rows of a command. *)
Definition command_rows (k : DecisionKind) (id : string) (db : Db) : option (CommandRow * GrantRow * SealRow * TaskRow) :=
  c ← commands_of k (evidence db) !! id;
  g ← grants_of k (evidence db) !! cm_grant c;
  s ← candidate_seals (provider (evidence db)) !! cm_task c;
  t ← tasks db !! cm_task c;
  Some (c, g, s, t).

Definition receipt_payload (id : string) (c : CommandRow) (g : GrantRow) : json :=
  let digest s := JStr (String.append "sha256:" s) in
  JObj [("schema", JStr "roundwright-dedicated-denial-command-receipt/v1"); ("command_id", JStr id);
        ("command_kind", JStr (cm_kind c)); ("denial_digest", JStr (cm_denial c)); ("target_digest", JStr (cm_target c));
        ("repository_id", JStr (cm_repository c)); ("candidate_sha", JStr (cm_candidate c));
        ("candidate_seal", JStr (cm_seal c)); ("authority_scope", JStr (cm_scope c));
        ("owner_identity", JStr (gr_owner g)); ("authority_grant_id", JStr (cm_grant c));
        ("authority_digest", digest (gr_authority g)); ("command_digest", digest (cm_command_digest c));
        ("verified_host_result_digest", digest (cm_host_result c)); ("result_digest", digest (cm_result c))].

(** [expected] is the digest of the clearance that a revocation must name.  An
    id that is not a string of the program finds no command. *)
Definition denial_command_receipt (db : Db) (task record : string) (b : FailureBinding) (id : option string)
    (k : DecisionKind) (expected : option string) : py json :=
  _ ← recovery_ensure
        match k, expected with
        | Clear, None => true
        | Clear, Some _ => false
        | Revoke, Some d => match_digest d
        | Revoke, None => false
        end "dedicated denial command clearance is invalid";
  match id ≫= λ id, pair id <$> command_rows k id db with
  | None => recovery_error "dedicated denial command is unavailable"
  | Some (id, (c, g, s, t)) =>
      _ ← recovery_ensure (all_true
        [cm_task c ==? task; cm_repository c ==? t_repository t; cm_denial c ==? record; cm_target c ==? record;
         cm_candidate c ==? candidate_sha b; cm_scope c ==? authority_scope b;
         cm_kind c ==? command_kind k; cm_state c ==? "consumed"; gr_state g ==? "active";
         match k with Revoke => Some (cm_clearance c) ==? expected | Clear => true end;
         gr_task g ==? cm_task c; gr_repository g ==? cm_repository c; gr_candidate g ==? cm_candidate c;
         gr_seal g ==? cm_seal c; gr_scope g ==? cm_scope c; gr_target g ==? cm_target c;
         se_candidate s ==? cm_candidate c; se_state s ==? cm_seal c;
         gr_owner g ==? OWNER;
         match_hex 64 (cm_command_digest c); match_hex 64 (cm_host_result c); match_hex 64 (cm_result c);
         match_hex 64 (gr_authority g)]) "dedicated denial command has drifted";
      authority ← denial_authority_digest (command_kind k) (gr_owner g) (cm_task c) (cm_repository c) (cm_candidate c)
        (cm_seal c) (cm_scope c) (cm_target c);
      _ ← recovery_ensure (gr_authority g ==? authority) "dedicated denial command has drifted";
      Ok (receipt_payload id c g)
  end.

(** ** The decisions about a denial *)

Definition DECISION_SCHEMA : string := "roundwright-failure-clearance-decision/v3".

Definition decision_payload (k : DecisionKind) (record : string) (b : FailureBinding) (receipt : json)
    (predecessor : option string) (sequence : Z) : json :=
  JObj [("schema", JStr DECISION_SCHEMA); ("kind", JStr (DecisionKind_value k)); ("record_digest", JStr record);
        ("binding", binding_payload b); ("conditions", jstrs CLEARANCE_CONDITIONS); ("denial_command", receipt);
        ("predecessor_digest", jopt predecessor); ("sequence", JInt sequence)].

Definition DECISION_KEYS : list string :=
  ["schema"; "kind"; "record_digest"; "binding"; "conditions"; "denial_command"; "predecessor_digest"; "sequence"].

(** The value as one the program can print; a float or a character beyond
    U+00FF is never in a decision that the program wrote. *)
Fixpoint unembed (v : doc) : option json :=
  match v with
  | DNull => Some JNull
  | DBool b => Some (JBool b)
  | DInt z => Some (JInt z)
  | DFloat _ => None
  | DStr s => JStr <$> narrow s
  | DArr l => JArr <$> foldr (λ v r, x ← unembed v; y ← r; Some (x :: y)) (Some []) l
  | DObj l => JObj <$> foldr (λ kv r, k ← narrow kv.1; x ← unembed kv.2; y ← r; Some ((k, x) :: y)) (Some []) l
  end.

Definition by_sequence (x y : DecisionRow) : Prop := dr_sequence x ≤ dr_sequence y.

#[export] Instance by_sequence_dec : RelDecision by_sequence.
Proof. intros x y. unfold by_sequence. apply _. Defined.

Definition decision_rows (task record : string) (t : RecoveryTables) : list DecisionRow :=
  merge_sort by_sequence
    (List.filter (λ d, (dr_task d ==? task) && (dr_record d ==? record)) (decisions t)).

Definition field_is (key : string) (j : json) (d : dict) : bool := doc_eqb (default DNull (get key d)) (embed j).

(** One row of the history, after [predecessor], while the scope is [cleared]. *)
Definition check_decision (db : Db) (task record : string) (b : FailureBinding) (expected : Z)
    (predecessor : option string) (cleared : bool) (row : DecisionRow) : py DecisionKind :=
  _ ← recovery_ensure (dr_sequence row ==? expected) "clearance decision sequence is stale or out of order";
  v ← except_undecodable "durable clearance decision is malformed" (loads (dr_json row));
  match v with
  | DObj d =>
      _ ← recovery_ensure (keys_are DECISION_KEYS d) "durable clearance decision is malformed";
      _ ← recovery_ensure (all_true
        [field_is "schema" (JStr DECISION_SCHEMA) d; field_is "record_digest" (JStr record) d;
         field_is "binding" (binding_payload b) d; field_is "conditions" (jstrs CLEARANCE_CONDITIONS) d;
         field_is "sequence" (JInt (dr_sequence row)) d; field_is "predecessor_digest" (jopt predecessor) d;
         match_digest (dr_digest row); (digest_json <$> unembed v) ==? Some (dr_digest row)])
        "durable clearance decision has drifted";
      let kind := default DNull (get "kind" d) in
      _ ← hashable kind;
      match kind, get "denial_command" d with
      | DStr s, Some (DObj receipt) =>
          match narrow s ≫= of_value DecisionKind_value [Clear; Revoke] with
          | None => recovery_error "durable clearance receipt has drifted"
          | Some k =>
              current ← denial_command_receipt db task record b
                (match get "command_id" receipt with Some (DStr id) => narrow id | _ => None end) k
                (match k with Revoke => predecessor | Clear => None end);
              _ ← recovery_ensure (doc_eqb (DObj receipt) (embed current)) "durable clearance receipt has drifted";
              _ ← recovery_ensure (match k with Clear => negb cleared | Revoke => cleared end)
                    "clearance decision is stale or out of order";
              Ok k
          end
      | _, _ => recovery_error "durable clearance receipt has drifted"
      end
  | _ => recovery_error "durable clearance decision is malformed"
  end.

Fixpoint check_decisions (db : Db) (task record : string) (b : FailureBinding) (expected : Z)
    (predecessor : option string) (cleared : bool) (rows : list DecisionRow) : py (list (string * DecisionKind)) :=
  match rows with
  | [] => Ok []
  | row :: rows =>
      k ← check_decision db task record b expected predecessor cleared row;
      rest ← check_decisions db task record b (expected + 1) (Some (dr_digest row)) (k ==? Clear) rows;
      Ok ((dr_digest row, k) :: rest)
  end.

Definition decision_history (db : Db) (task record : string) (b : FailureBinding) : py (list (string * DecisionKind)) :=
  check_decisions db task record b 1 None false (decision_rows task record (evidence db)).

Definition last_decision (h : list (string * DecisionKind)) : option (string * DecisionKind) := list.last h.

(** ** Clearing and revoking *)

Record Clearance := { cl_record : string; cl_binding : FailureBinding; cl_command : string }.

Definition check_Clearance (c : Clearance) : py unit :=
  recovery_ensure (match_digest (cl_record c) && match_token (cl_command c)) "clearance is invalid".

Record ClearanceRevocation := { re_clearance : string; re_binding : FailureBinding; re_command : string }.

Definition check_ClearanceRevocation (c : ClearanceRevocation) : py unit :=
  recovery_ensure (match_digest (re_clearance c) && match_token (re_command c)) "clearance revocation is invalid".

Definition require_clearance_record (i : TaskIdentity) (digest : string) (b : FailureBinding) (db : Db) : py unit :=
  _ ← require_attempt_admission i b (evidence db);
  match task_record (task_id i) digest (evidence db) with
  | None => recovery_error "durable clearance denial is unavailable"
  | Some row =>
      r ← except_undecodable "durable clearance denial is malformed" (loads (rr_json row) ≫= parse_failure_record);
      _ ← recovery_ensure (all_true
        [record_digest r ==? digest; binding r ==? b; action r ==? STOP_SCOPE; clearance_required r;
         clearance_conditions r ==? Some clearance_condition_set; clearance_provenance r ==? Some b])
        "durable clearance denial has drifted";
      _ ← require_failure_compatibility r;
      recovery_ensure (record_schema r ==? V3) "legacy failure records cannot be cleared"
  end.

(** The constraints of an inserted decision: its key, and one decision per place
    in the sequence of a record and per command. *)
Definition insert_decision (d : DecisionRow) (t : RecoveryTables) : py RecoveryTables :=
  _ ← require (forallb (λ x, negb ((dr_digest x ==? dr_digest d) ||
        ((dr_task x ==? dr_task d) && (dr_record x ==? dr_record d) && (dr_sequence x ==? dr_sequence d)) ||
        ((dr_task x ==? dr_task d) && (dr_kind x ==? dr_kind d) && (dr_command x ==? dr_command d))))
        (decisions t)) IntegrityError "UNIQUE constraint failed";
  Ok (set_decisions (decisions t ++ [d]) t).

Definition append_clearance_decision (i : TaskIdentity) (k : DecisionKind) (record : string) (b : FailureBinding)
    (command : string) (observed : Z) (requested : option string) (db : Db) : py (string * Db) :=
  history ← decision_history db (task_id i) record b;
  let predecessor := fst <$> last_decision history in
  let prior := snd <$> last_decision history in
  _ ← recovery_ensure (match k with Clear => prior in? [None; Some Revoke] | Revoke => prior ==? Some Clear end)
        "clearance decision is stale or out of order";
  _ ← recovery_ensure (match k with Revoke => requested ==? predecessor | Clear => true end)
        "clearance revocation target is stale or substituted";
  receipt ← denial_command_receipt db (task_id i) record b (Some command) k
    (match k with Revoke => predecessor | Clear => None end);
  let sequence := Z.of_nat (length history) + 1 in
  let payload := decision_payload k record b receipt predecessor sequence in
  let digest := digest_json payload in
  match List.find (λ d, dr_digest d ==? digest) (decisions (evidence db)) with
  | Some d =>
      _ ← recovery_ensure ((dr_task d ==? task_id i) && (dr_record d ==? record) && (dr_json d ==? dumps payload))
            "durable clearance decision conflicts";
      Ok (digest, db)
  | None =>
      place ← sqlite_int sequence;
      at_ ← sqlite_int observed;
      t ← insert_decision {| dr_digest := digest; dr_task := task_id i; dr_record := record; dr_command := command;
                             dr_kind := command_kind k; dr_json := dumps payload; dr_sequence := place;
                             dr_at := at_ |} (evidence db);
      Ok (digest, set_evidence t db)
  end.

Definition clear_denial (i : TaskIdentity) (c : Clearance) (observed : Z) (db : Db) : py (string * Db) :=
  _ ← require_matching_task i None db;
  _ ← require_clearance_record i (cl_record c) (cl_binding c) db;
  append_clearance_decision i Clear (cl_record c) (cl_binding c) (cl_command c) observed None db.

Definition record_durable_clearance (migrations : list Migration) (i : TaskIdentity) (c : dyn Clearance) (system : Z)
    (now : option Z) (w : World RecoveryTables) : py string * World RecoveryTables :=
  match c with
  | Foreign => (recovery_error "durable clearance is invalid", w)
  | Typed c =>
      match observed_time "clearance time is invalid" system now with
      | Err e => (Err e, w)
      | Ok observed => transaction migrations (clear_denial i c observed) w
      end
  end.

Definition revoke_clearance (i : TaskIdentity) (c : ClearanceRevocation) (observed : Z) (db : Db) : py (string * Db) :=
  _ ← require_matching_task i None db;
  match List.find (λ d, (dr_task d ==? task_id i) && (dr_digest d ==? re_clearance c) && (dr_kind d ==? "clear-denial"))
          (decisions (evidence db)) with
  | None => recovery_error "clearance revocation clearance is unavailable"
  | Some d =>
      _ ← require_clearance_record i (dr_record d) (re_binding c) db;
      append_clearance_decision i Revoke (dr_record d) (re_binding c) (re_command c) observed
        (Some (re_clearance c)) db
  end.

Definition record_durable_clearance_revocation (migrations : list Migration) (i : TaskIdentity)
    (c : dyn ClearanceRevocation) (system : Z) (now : option Z) (w : World RecoveryTables) :
    py string * World RecoveryTables :=
  match c with
  | Foreign => (recovery_error "clearance revocation is invalid", w)
  | Typed c =>
      match observed_time "clearance revocation time is invalid" system now with
      | Err e => (Err e, w)
      | Ok observed => transaction migrations (revoke_clearance i c observed) w
      end
  end.

(** ** Scopes *)

Definition task_identity (id : string) (t : TaskRow) : TaskIdentity :=
  {| task_id := id; source_id := t_source t; repository_id := t_repository t; branch := t_branch t;
     worktree := t_worktree t; base_sha := t_base t |}.

(** One stored record of the task does not stop the scope. *)
Definition record_leaves_open (db : Db) (task scope : string) (row : RecordRow) : py unit :=
  r ← except_undecodable "durable failure record is malformed" (loads (rr_json row) ≫= parse_failure_record);
  _ ← recovery_ensure (record_digest r ==? rr_digest row) "durable failure record digest has drifted";
  _ ← require_failure_compatibility r;
  if (action r !=? STOP_SCOPE) || (authority_scope (binding r) !=? scope) then Ok ()
  else
    match tasks db !! task with
    | None => recovery_error "failure scope task authority is unavailable"
    | Some t =>
        _ ← require_attempt_admission (task_identity task t) (binding r) (evidence db);
        history ← decision_history db task (rr_digest row) (binding r);
        require (snd <$> last_decision history ==? Some Clear) ScopeAdmissionDenied "failure scope remains stopped"
    end.

Definition require_scope_open (db : Db) (task scope : string) : py unit :=
  for_each (record_leaves_open db task scope) (record_rows task (evidence db)).

Definition require_scope_effect_admission (migrations : list Migration) (i : TaskIdentity) (scope : string)
    (w : World RecoveryTables) : py unit * World RecoveryTables :=
  transaction migrations (λ db,
    _ ← require_matching_task i None db;
    _ ← require_scope_open db (task_id i) scope;
    Ok ((), db)) w.

(** The reservation is a call of the caller's: it writes another ledger [B],
    whose changes an exception does not undo. *)
Definition admit_scope_effect_reservation {A B} (migrations : list Migration) (i : TaskIdentity) (scope : string)
    (reserve : B → py A * B) (w : World RecoveryTables * B) : py A * (World RecoveryTables * B) :=
  match (db ← open_connection migrations w.1;
         _ ← require_matching_task i None db;
         require_scope_open db (task_id i) scope) with
  | Err e => (Err e, w)
  | Ok _ => let r := reserve w.2 in (r.1, (w.1, r.2))
  end.
