(* ===== verification/FailureHistory.v ===== *)
(** * Histories of the failure ledger

    Any sequence of operations of any process: failures recorded, denials
    cleared, clearances revoked, and writes of other modules to their own tables.
    The invariant of these histories, and what it means for a stopped scope. *)

From stdpp Require Import gmap sorting.
From S2P Require Import Prelude Sha256 Json JsonParse JsonRead FailureRecovery Sqlite Worktree Migrations StateDb.
From S2P Require Import TaskState FailureTables FailureAdmission FailureLedger.
Open Scope Z_scope.

(** A record that its constructors accepted; no other exists. *)
Definition constructed (r : FailureRecord) : bool :=
  all_true
    [is_ok (check_FailureRecord r); is_ok (check_FailureBinding (binding r));
     match clearance_provenance r with Some p => is_ok (check_FailureBinding p) | None => true end;
     match clearance_conditions r with Some c => is_ok (check_ClearanceConditionSet c) | None => true end].

Inductive ledger_operation :=
  | RecordFailure (i : TaskIdentity) (r : FailureRecord) (system : Z) (now : option Z)
  | ClearDenial (i : TaskIdentity) (c : Clearance) (system : Z) (now : option Z)
  | RevokeClearance (i : TaskIdentity) (c : ClearanceRevocation) (system : Z) (now : option Z)
  | OtherWrite (db : Db).

(** The state [db'] that another write leaves, with the ledger of [db]. *)
Definition keep_ledger (db db' : Db) : Db :=
  write (λ t, set_decisions (decisions (evidence db)) (set_records (records (evidence db)) t)) db'.

Section System.
Context (migrations : list Migration).

Definition run_ledger (w : World RecoveryTables) (o : ledger_operation) : World RecoveryTables :=
  match o with
  | RecordFailure i r system now =>
      if constructed r then (record_durable_failure migrations i (Typed r) system now w).2 else w
  | ClearDenial i c system now => (record_durable_clearance migrations i (Typed c) system now w).2
  | RevokeClearance i c system now => (record_durable_clearance_revocation migrations i (Typed c) system now w).2
  | OtherWrite db' => db ← w; Some (keep_ledger db db')
  end.

Definition run_history (os : list ledger_operation) (w : World RecoveryTables) : World RecoveryTables :=
  foldl run_ledger w os.

(** A database without failures or decisions. *)
Definition unused (db : Db) : Prop := records (evidence db) = [] ∧ decisions (evidence db) = [].

Definition ledger_reachable (w : World RecoveryTables) : Prop :=
  ∃ db os, unused db ∧ w = run_history os (Some db).

(** One write. *)
Inductive ledger_step (db : Db) : Db → Prop :=
  | step_record i r observed db' :
      constructed r = true → record_failure i r observed db = Ok db' → ledger_step db db'
  | step_clear i c observed digest db' : clear_denial i c observed db = Ok (digest, db') → ledger_step db db'
  | step_revoke i c observed digest db' : revoke_clearance i c observed db = Ok (digest, db') → ledger_step db db'
  | step_other db' :
      records (evidence db') = records (evidence db) → decisions (evidence db') = decisions (evidence db) →
      ledger_step db db'.

Lemma run_ledger_step o db : ∃ db', run_ledger (Some db) o = Some db' ∧ (db' = db ∨ ledger_step db db').
Proof.
  destruct o as [i r system now|i c system now|i c system now|db']; cbn [run_ledger].
  - destruct (constructed r) eqn:Hr; [|by eexists; eauto]. unfold record_durable_failure.
    destruct (observed_time _ _ _) as [t|]; [|by eexists; eauto].
    match goal with |- context [transaction _ ?b ?w] => destruct (transaction_cases migrations b w) as [[e ->]|(x & a & x' & Hw & _ & Hb & ->)] end;
      [by eexists; eauto|]. injection Hw as <-. apply bind_ok in Hb as (y & Hb & [= <- <-]).
    eexists. split; [done|]. right. by eapply step_record.
  - unfold record_durable_clearance. destruct (observed_time _ _ _) as [t|]; [|by eexists; eauto].
    match goal with |- context [transaction _ ?b ?w] => destruct (transaction_cases migrations b w) as [[e ->]|(x & a & x' & Hw & _ & Hb & ->)] end;
      [by eexists; eauto|]. injection Hw as <-. eexists. split; [done|]. right. by eapply step_clear.
  - unfold record_durable_clearance_revocation. destruct (observed_time _ _ _) as [t|]; [|by eexists; eauto].
    match goal with |- context [transaction _ ?b ?w] => destruct (transaction_cases migrations b w) as [[e ->]|(x & a & x' & Hw & _ & Hb & ->)] end;
      [by eexists; eauto|]. injection Hw as <-. eexists. split; [done|]. right. by eapply step_revoke.
  - eexists. split; [done|]. right. by apply step_other.
Qed.

Lemma run_history_steps (P : Db → Prop) os db :
  P db → (∀ db db', P db → ledger_step db db' → P db') → ∃ db', run_history os (Some db) = Some db' ∧ P db'.
Proof.
  intros Hp Hs. revert db Hp. induction os as [|o os IH]; intros db Hp; cbn; [by eexists|].
  destruct (run_ledger_step o db) as (db' & -> & [->|H]); [by apply IH|]. apply IH. by eapply Hs.
Qed.
End System.

(** ** The invariant *)

(** The rows of one record in order: places from [n] on, clearing and revoking
    in turn. *)
Fixpoint in_sequence (n : Z) (cleared : bool) (rows : list DecisionRow) : Prop :=
  match rows with
  | [] => True
  | d :: rows => dr_sequence d = n ∧ dr_kind d = command_kind (if cleared then Revoke else Clear) ∧
                 in_sequence (n + 1) (negb cleared) rows
  end.

(** What the program wrote about a command. *)
Definition decision_stored (d : DecisionRow) : Prop :=
  ∃ k b c g predecessor, int64 (dr_sequence d) ∧
    let payload := decision_payload k (dr_record d) b (receipt_payload (dr_command d) c g) predecessor (dr_sequence d) in
    dr_kind d = command_kind k ∧ dr_json d = dumps payload ∧ dr_digest d = digest_json payload.

Definition record_stored (row : RecordRow) : Prop :=
  ∃ r, constructed r = true ∧ record_schema r = V3 ∧ rr_digest row = record_digest r ∧ rr_json row = record_text r.

Definition rows_of (task record : string) (l : list DecisionRow) : list DecisionRow :=
  List.filter (λ d, (dr_task d ==? task) && (dr_record d ==? record)) l.

Definition command_use (d : DecisionRow) : string * string * string := (dr_task d, dr_kind d, dr_command d).

Record ledger_sound (db : Db) : Prop := {
  records_stored : ∀ row, row ∈ records (evidence db) → record_stored row;
  decisions_stored : ∀ d, d ∈ decisions (evidence db) → decision_stored d;
  decisions_in_sequence : ∀ task record, in_sequence 1 false (rows_of task record (decisions (evidence db)));
  commands_used_once : NoDup (command_use <$> decisions (evidence db));
  records_distinct : NoDup (rr_digest <$> records (evidence db));
}.

Lemma in_sequence_above n cleared rows d : in_sequence n cleared rows → d ∈ rows → n ≤ dr_sequence d.
Proof.
  revert n cleared. induction rows as [|x rows IH]; intros n cleared; cbn; [by intros _ ?%elem_of_nil|].
  intros (Hx & _ & H) [->|Hd]%elem_of_cons; [lia|]. specialize (IH _ _ H Hd). lia.
Qed.

Lemma in_sequence_sorted n cleared rows : in_sequence n cleared rows → StronglySorted by_sequence rows.
Proof.
  revert n cleared. induction rows as [|x rows IH]; intros n cleared; cbn; [constructor|].
  intros (Hx & _ & H). constructor; [by eapply IH|]. apply List.Forall_forall. intros d Hd%list_elem_of_In.
  unfold by_sequence. pose proof (in_sequence_above _ _ _ _ H Hd). lia.
Qed.

Lemma in_sequence_unique n cleared rows d d' :
  in_sequence n cleared rows → d ∈ rows → d' ∈ rows → dr_sequence d = dr_sequence d' → d = d'.
Proof.
  revert n cleared. induction rows as [|x rows IH]; intros n cleared; cbn; [by intros _ ?%elem_of_nil|].
  intros (Hx & _ & H) [->|Hd]%elem_of_cons [->|Hd']%elem_of_cons E; [done| | |by eapply IH].
  - pose proof (in_sequence_above _ _ _ _ H Hd'). lia.
  - pose proof (in_sequence_above _ _ _ _ H Hd). lia.
Qed.

#[local] Instance by_sequence_transitive : Transitive by_sequence.
Proof. intros x y z. unfold by_sequence. lia. Qed.
#[local] Instance by_sequence_total : Total by_sequence.
Proof. intros x y. unfold by_sequence. lia. Qed.

(** So the query with an order reads them in the order of insertion. *)
Lemma decision_rows_in_order task record t :
  in_sequence 1 false (rows_of task record (decisions t)) → decision_rows task record t = rows_of task record (decisions t).
Proof.
  intros H. unfold decision_rows. fold (rows_of task record (decisions t)).
  set (l := rows_of task record (decisions t)) in *.
  apply (StronglySorted_unique_strong by_sequence).
  - intros x y Hx Hy H1 H2. rewrite merge_sort_Permutation in Hx.
    eapply in_sequence_unique; [exact H|done..|]. unfold by_sequence in *. lia.
  - apply StronglySorted_merge_sort; apply _.
  - by eapply in_sequence_sorted.
  - apply merge_sort_Permutation.
Qed.

Lemma in_sequence_snoc n cleared rows d :
  in_sequence n cleared rows → dr_sequence d = n + Z.of_nat (length rows) →
  dr_kind d = command_kind (if match list.last rows with
                               | Some x => dr_kind x ==? command_kind Clear
                               | None => cleared end then Revoke else Clear) →
  in_sequence n cleared (rows ++ [d]).
Proof.
  revert n cleared. induction rows as [|x rows IH]; intros n cleared; cbn [in_sequence app length].
  - intros _ Hs Hk. split; [cbn in Hs; lia|]. split; [done|]. done.
  - intros (Hx & Hxk & H) Hs Hk. split; [done|]. split; [done|]. apply IH; [done|lia|].
    rewrite Hk. f_equal. destruct rows as [|y rows]; [cbn; rewrite Hxk; by destruct cleared|].
    destruct (proj2 (last_is_Some (y :: rows))) as [z Hz]; [done|].
    change (list.last (x :: y :: rows)) with (list.last (y :: rows)). by rewrite Hz.
Qed.

(** ** Checking what was stored *)

Lemma storable_receipt id c g : storable (receipt_payload id c g) = true.
Proof. done. Qed.

Lemma storable_decision k record b id c g pred n :
  (length (int_chars n) <= 4300)%nat → storable (decision_payload k record b (receipt_payload id c g) pred n) = true.
Proof.
  intros Hn. apply Nat.leb_le in Hn.
  assert (storable (JInt n) = true) as Hi by done. unfold decision_payload. revert Hi. generalize (JInt n). intros j Hj.
  assert (storable (jopt pred) = true) as Hp by (by destruct pred). revert Hp. generalize (jopt pred). intros p Hp.
  cbn. by rewrite Hj, Hp.
Qed.

Definition decision_fields (j : json) : list (string * json) := match j with JObj l => l | _ => [] end.

(** A stored decision passes the check only as the decision it is, and only while
    its command still authorizes it. *)
Lemma check_decision_stored db task record b expected pred cleared d k :
  decision_stored d → dr_record d = record →
  check_decision db task record b expected pred cleared d = Ok k →
  dr_kind d = command_kind k ∧ dr_sequence d = expected ∧ cleared = bool_decide (k = Revoke) ∧
  ∃ j, denial_command_receipt db task record b (Some (dr_command d)) k
         (match k with Revoke => pred | Clear => None end) = Ok j.
Proof.
  intros (k0 & b0 & c & g & pred0 & Hint & Hkind & Hjson & Hdigest) Hrec H.
  set (payload := decision_payload _ _ _ _ _ _) in *.
  assert (length (int_chars (dr_sequence d)) ≤ 4300)%nat as Hlen by (apply int_chars_length; unfold int64 in Hint; lia).
  unfold check_decision in H. apply bind_ok in H as ([] & Hseq & H). apply require_ok, bool_decide_eq_true in Hseq.
  rewrite Hjson, loads_dumps in H by (by apply storable_decision).
  assert (embed (canon payload) = DObj (stored (decision_fields payload))) as He by done. rewrite He in H.
  cbn [except_undecodable mbind result_bind] in H.
  apply bind_ok in H as ([] & _ & H). apply bind_ok in H as ([] & _ & H).
  rewrite !get_stored in H by reflexivity.
  replace (assoc "kind" (decision_fields payload)) with (Some (JStr (DecisionKind_value k0))) in H by reflexivity.
  replace (assoc "denial_command" (decision_fields payload)) with (Some (receipt_payload (dr_command d) c g)) in H
    by reflexivity.
  cbn [fmap option_fmap option_map default canon embed hashable id mbind result_bind] in H.
  change (embed (canon (receipt_payload (dr_command d) c g))) with
    (DObj (stored (decision_fields (receipt_payload (dr_command d) c g)))) in H.
  rewrite !narrow_points, get_stored in H by reflexivity.
  replace (assoc "command_id" (decision_fields (receipt_payload (dr_command d) c g))) with (Some (JStr (dr_command d)))
    in H by reflexivity.
  cbn [fmap option_fmap option_map canon embed mbind option_bind] in H.
  assert (of_value DecisionKind_value [Clear; Revoke] (DecisionKind_value k0) = Some k0) as Hk by (by destruct k0).
  rewrite Hk, narrow_points in H. apply bind_ok in H as (j & Hj & H). apply bind_ok in H as ([] & _ & H).
  apply bind_ok in H as ([] & Hc & [= <-]). apply require_ok in Hc.
  split; [done|]. split; [done|]. split; [by destruct k0, cleared|]. by exists j.
Qed.

(** So a checked history is the history that was stored. *)
Lemma check_decisions_stored db task record b n pred cleared rows h :
  (∀ d, d ∈ rows → decision_stored d ∧ dr_record d = record) →
  check_decisions db task record b n pred cleared rows = Ok h →
  h.*1 = dr_digest <$> rows ∧ (command_kind <$> h.*2) = dr_kind <$> rows ∧
  ∀ d k, list.last rows = Some d → dr_kind d = command_kind k → ∃ p j,
    denial_command_receipt db task record b (Some (dr_command d)) k p = Ok j.
Proof.
  revert n pred cleared h. induction rows as [|d rows IH]; intros n pred cleared h Hs; cbn [check_decisions].
  - intros [= <-]. done.
  - intros (k & Hk & H)%bind_ok. apply bind_ok in H as (h' & H & [= <-]).
    destruct (Hs d) as [Hst Hrec]; [by left|].
    destruct (check_decision_stored _ _ _ _ _ _ _ _ _ Hst Hrec Hk) as (Hkind & _ & _ & j & Hj).
    destruct (IH _ _ _ _ (λ x Hx, Hs x (list_elem_of_further _ _ _ Hx)) H) as (H1 & H2 & H3).
    cbn. rewrite H1, H2, Hkind. split; [done|]. split; [done|]. intros x k' Hx Hk'.
    destruct rows as [|y rows]; [|by apply H3].
    injection Hx as <-. rewrite Hkind in Hk'. assert (k = k') as <- by (by destruct k, k'). by eexists _, j.
Qed.

Lemma rows_of_elem task record l d : d ∈ rows_of task record l ↔ d ∈ l ∧ dr_task d = task ∧ dr_record d = record.
Proof.
  unfold rows_of. rewrite !list_elem_of_In, filter_In, andb_true_iff, !bool_decide_eq_true. tauto.
Qed.

Lemma rows_of_app task record l k : rows_of task record (l ++ k) = rows_of task record l ++ rows_of task record k.
Proof. apply filter_app. Qed.

Lemma history_stored db task record b h :
  ledger_sound db → decision_history db task record b = Ok h →
  let rows := rows_of task record (decisions (evidence db)) in
  h.*1 = dr_digest <$> rows ∧ (command_kind <$> h.*2) = dr_kind <$> rows ∧
  ∀ d k, list.last rows = Some d → dr_kind d = command_kind k → ∃ p j,
    denial_command_receipt db task record b (Some (dr_command d)) k p = Ok j.
Proof.
  intros Hs H. unfold decision_history in H.
  rewrite decision_rows_in_order in H by apply (decisions_in_sequence _ Hs).
  eapply check_decisions_stored; [|exact H].
  intros d (Hd & _ & Hr)%rows_of_elem. split; [by apply (decisions_stored _ Hs)|done].
Qed.

Lemma command_kind_inj k k' : command_kind k = command_kind k' → k = k'.
Proof. by destruct k, k'. Qed.

Lemma last_fmap {A B} (f : A → B) l : list.last (f <$> l) = f <$> list.last l.
Proof. induction l as [|x [|y l] IH]; done. Qed.

(** The prior decision in a history is the last row. *)
Lemma history_prior db task record b h :
  ledger_sound db → decision_history db task record b = Ok h →
  let rows := rows_of task record (decisions (evidence db)) in
  length h = length rows ∧ command_kind <$> (snd <$> last_decision h) = dr_kind <$> list.last rows.
Proof.
  intros Hs H. destruct (history_stored _ _ _ _ _ Hs H) as (H1 & H2 & _). cbn zeta. split.
  - apply (f_equal length) in H1. by rewrite !length_fmap in H1.
  - unfold last_decision. rewrite <- !last_fmap. by rewrite <- list_fmap_compose, <- H2, <- list_fmap_compose.
Qed.

(** A command that gives a receipt is the owner's, consumed, under an active
    grant, for this denial and the candidate that is sealed now. *)
Definition authorized_by (db : Db) (record : string) (b : FailureBinding) (k : DecisionKind) (id : string) : Prop :=
  ∃ c g s t, command_rows k id db = Some (c, g, s, t) ∧ cm_denial c = record ∧ cm_state c = "consumed" ∧
    cm_kind c = command_kind k ∧ cm_scope c = authority_scope b ∧ gr_owner g = OWNER ∧ gr_state g = "active" ∧
    gr_target g = record ∧ gr_scope g = authority_scope b ∧
    se_candidate s = candidate_sha b ∧ cm_candidate c = candidate_sha b ∧ se_state s = cm_seal c.

Lemma receipt_authorizes db task record b id k p j :
  denial_command_receipt db task record b (Some id) k p = Ok j →
  authorized_by db record b k id ∧ ∃ c g, j = receipt_payload id c g.
Proof.
  unfold denial_command_receipt. intros ([] & _ & H)%bind_ok. cbn [mbind option_bind] in H.
  destruct (command_rows k id db) as [[[[c g] s] t]|] eqn:Hc; [|done]. cbn [fmap option_fmap option_map] in H.
  apply bind_ok in H as ([] & Ha & H). apply bind_ok in H as (a & _ & H). apply bind_ok in H as ([] & _ & [= <-]).
  unfold recovery_ensure in Ha. rewrite require_ok, !all_true_cons, !bool_decide_eq_true in Ha.
  destruct Ha as (_ & _ & H3 & H4 & H5 & H6 & H7 & H8 & H9 & _ & _ & _ & _ & _ & H15 & H16 & H17 & H18 & H19 & _).
  split; [|by exists c, g]. exists c, g, s, t. repeat split; congruence.
Qed.

Lemma append_spec i k record b command observed requested db digest db' :
  ledger_sound db → append_clearance_decision i k record b command observed requested db = Ok (digest, db') →
  db' = db ∨ ∃ d, db' = write (set_decisions (decisions (evidence db) ++ [d])) db ∧ dr_digest d = digest ∧
    decision_stored d ∧ dr_task d = task_id i ∧ dr_record d = record ∧ dr_kind d = command_kind k ∧ dr_command d = command ∧
    dr_sequence d = Z.of_nat (length (rows_of (task_id i) record (decisions (evidence db)))) + 1 ∧
    dr_kind d = command_kind (if match list.last (rows_of (task_id i) record (decisions (evidence db))) with
                                 | Some x => dr_kind x ==? command_kind Clear | None => false end then Revoke else Clear) ∧
    (∀ x, x ∈ decisions (evidence db) → command_use x ≠ command_use d) ∧
    authorized_by db record b k command.
Proof.
  intros Hs H. unfold append_clearance_decision in H. apply bind_ok in H as (h & Hh & H).
  destruct (history_prior _ _ _ _ _ Hs Hh) as [Hlen Hprior]. set (rows := rows_of _ _ _) in *.
  apply bind_ok in H as ([] & Hkind & H). apply require_ok in Hkind. apply bind_ok in H as ([] & _ & H).
  apply bind_ok in H as (j & Hj & H). destruct (receipt_authorizes _ _ _ _ _ _ _ _ Hj) as (Hauth & c & g & ->).
  destruct (List.find _ _) as [d|]; [apply bind_ok in H as (? & _ & [= <- <-]); by left|right].
  apply bind_ok in H as (place & Hplace & H). apply bind_ok in H as (at_ & _ & H). apply sqlite_int_ok in Hplace as [-> Hint].
  apply bind_ok in H as (t & Ht & [= <- <-]). unfold insert_decision in Ht. apply bind_ok in Ht as ([] & Hu & [= <-]).
  eexists. split; [reflexivity|]. cbn [dr_digest dr_task dr_record dr_command dr_kind dr_sequence]. split; [done|].
  split; [|split; [done|split; [done|split; [done|split; [done|split; [by rewrite Hlen|split; [|split]]]]]]].
  - exists k, b, c, g, (fst <$> last_decision h). split; [exact Hint|]. split; [reflexivity|]. by split.
  - f_equal. destruct (list.last rows) as [x|], (last_decision h) as [[y ky]|]; cbn in Hprior, Hkind; try done.
    + injection Hprior as Hprior. rewrite <- Hprior. destruct k; apply bool_decide_eq_true in Hkind.
      * rewrite !elem_of_cons, elem_of_nil in Hkind. by destruct Hkind as [?|[[= ->]|[]]].
      * by injection Hkind as ->.
    + destruct k; [done|]. by apply bool_decide_eq_true in Hkind.
  - intros x Hx Heq. apply require_ok in Hu. rewrite forallb_elem in Hu. specialize (Hu x Hx).
    unfold command_use in Heq. injection Heq as H1 H2 H3. cbn in Hu, H1, H2, H3.
    apply negb_true_iff, orb_false_iff in Hu as [_ Hu].
    rewrite !andb_false_iff, !bool_decide_eq_false in Hu. tauto.
  - done.
Qed.

Lemma record_failure_spec i r observed db db' :
  record_failure i r observed db = Ok db' →
  (db' = db ∧ ∃ row, row ∈ records (evidence db) ∧ rr_digest row = record_digest r ∧ rr_task row = task_id i ∧
     rr_json row = record_text r) ∨
  (record_schema r = V3 ∧ record_row (record_digest r) (evidence db) = None ∧
   ∃ at_, db' = write (λ t, set_records (records t ++ [{| rr_digest := record_digest r; rr_task := task_id i;
                          rr_json := record_text r; rr_at := at_ |}]) t) db).
Proof.
  unfold record_failure. cbn zeta. intros (s & _ & H)%bind_ok. apply bind_ok in H as ([] & _ & H).
  apply bind_ok in H as ([] & Hs & H). apply require_ok, bool_decide_eq_true in Hs. apply bind_ok in H as ([] & _ & H).
  destruct (record_row _ _) as [row|] eqn:Hrow.
  - left. apply bind_ok in H as ([] & Hc & [= <-]). split; [done|]. apply require_ok, andb_true_iff in Hc as [H1 H2].
    apply bool_decide_eq_true in H1, H2. unfold record_row in Hrow. apply List.find_some in Hrow as [Hi Hd].
    apply bool_decide_eq_true in Hd. exists row. by rewrite list_elem_of_In.
  - right. split; [done|]. split; [done|]. apply bind_ok in H as (at_ & _ & [= <-]). by exists at_.
Qed.

Lemma decisions_write_records f db : decisions (evidence (write (λ t, set_records (f t) t) db)) = decisions (evidence db).
Proof. done. Qed.

Lemma append_sound db db' d :
  ledger_sound db → evidence db' = set_decisions (decisions (evidence db) ++ [d]) (evidence db) →
  decision_stored d →
  dr_sequence d = Z.of_nat (length (rows_of (dr_task d) (dr_record d) (decisions (evidence db)))) + 1 →
  dr_kind d = command_kind (if match list.last (rows_of (dr_task d) (dr_record d) (decisions (evidence db))) with
                               | Some x => dr_kind x ==? command_kind Clear | None => false end then Revoke else Clear) →
  (∀ x, x ∈ decisions (evidence db) → command_use x ≠ command_use d) → ledger_sound db'.
Proof.
  intros [H1 H2 H3 H4 H5] He Hd Hseq Hkind Huse. constructor; rewrite He; cbn [decisions records set_decisions].
  - done.
  - intros x [Hx|[->|[]%elem_of_nil]%elem_of_cons]%elem_of_app; auto.
  - intros task record. rewrite rows_of_app. unfold rows_of at 2. cbn [List.filter].
    destruct ((dr_task d ==? task) && (dr_record d ==? record)) eqn:E; [|rewrite app_nil_r; apply H3].
    apply andb_true_iff in E as [Et Er]. apply bool_decide_eq_true in Et, Er. subst task record.
    apply in_sequence_snoc; [apply H3|lia|done].
  - rewrite fmap_app. apply list.NoDup_app. split; [done|]. split; [|cbn; apply NoDup_singleton].
    intros u (x & -> & Hx)%list_elem_of_fmap. cbn. intros Hu%list_elem_of_singleton. by apply (Huse x).
  - done.
Qed.

Lemma record_row_none digest t : record_row digest t = None → ∀ x, x ∈ records t → rr_digest x ≠ digest.
Proof.
  unfold record_row. intros H x Hx. apply list_elem_of_In in Hx. pose proof (List.find_none _ _ H x Hx) as Hn.
  by apply bool_decide_eq_false in Hn.
Qed.

Lemma step_sound db db' : ledger_sound db → ledger_step db db' → ledger_sound db'.
Proof.
  intros Hs [i r observed db1 Hr H|i c observed digest db1 H|i c observed digest db1 H|db1 Hr Hd].
  - destruct (record_failure_spec _ _ _ _ _ H) as [[-> _]|(Hv & Hnew & at_ & ->)]; [done|].
    destruct Hs as [H1 H2 H3 H4 H5]. constructor; cbn; try done.
    + intros row [Hrow|[->|[]%elem_of_nil]%elem_of_cons]%elem_of_app; [by apply H1|]. by exists r.
    + rewrite fmap_app. apply list.NoDup_app. split; [done|]. split; [|cbn; apply NoDup_singleton].
      intros u (x & -> & Hx)%list_elem_of_fmap. cbn. intros Hu%list_elem_of_singleton.
      apply (record_row_none _ _ Hnew x); done.
  - unfold clear_denial in H. apply bind_ok in H as (? & _ & H). apply bind_ok in H as ([] & _ & H).
    destruct (append_spec _ _ _ _ _ _ _ _ _ _ Hs H) as [->|(d & -> & _ & Hd & Ht & Hr & _ & _ & Hseq & Hk & Hu & _)]; [done|].
    rewrite <- Ht, <- Hr in Hseq, Hk. eapply append_sound; done.
  - unfold revoke_clearance in H. apply bind_ok in H as (? & _ & H). destruct (List.find _ _) as [d0|]; [|done].
    apply bind_ok in H as ([] & _ & H).
    destruct (append_spec _ _ _ _ _ _ _ _ _ _ Hs H) as [->|(d & -> & _ & Hd & Ht & Hr & _ & _ & Hseq & Hk & Hu & _)]; [done|].
    rewrite <- Ht, <- Hr in Hseq, Hk. eapply append_sound; done.
  - destruct Hs as [H1 H2 H3 H4 H5]. constructor; rewrite ?Hr, ?Hd; done.
Qed.

Lemma unused_sound db : unused db → ledger_sound db.
Proof.
  intros [Hr Hd]. constructor; rewrite ?Hr, ?Hd; try (by intros ? ?%elem_of_nil); try (by constructor).
Qed.

Lemma reachable_sound migrations w : ledger_reachable migrations w → ∃ db, w = Some db ∧ ledger_sound db.
Proof.
  intros (db & os & Hu & ->). apply (run_history_steps migrations ledger_sound os db); [by apply unused_sound|].
  apply step_sound.
Qed.

Lemma append_records i k record b command observed requested db digest db' :
  append_clearance_decision i k record b command observed requested db = Ok (digest, db') →
  records (evidence db') = records (evidence db).
Proof.
  unfold append_clearance_decision. intros (h & _ & H)%bind_ok. do 2 apply bind_ok in H as ([] & _ & H).
  apply bind_ok in H as (j & _ & H). destruct (List.find _ _); [by apply bind_ok in H as (? & _ & [= <- <-])|].
  do 2 apply bind_ok in H as (? & _ & H). apply bind_ok in H as (t & Ht & [= <- <-]).
  unfold insert_decision in Ht. by apply bind_ok in Ht as (? & _ & [= <-]).
Qed.

(** No operation takes a record out of the ledger. *)
Lemma step_records db db' row : ledger_step db db' → row ∈ records (evidence db) → row ∈ records (evidence db').
Proof.
  intros [i r observed db1 Hr H|i c observed digest db1 H|i c observed digest db1 H|db1 Hr Hd] Hrow.
  - destruct (record_failure_spec _ _ _ _ _ H) as [[-> _]|(Hv & _ & at_ & ->)]; [done|]. cbn. apply elem_of_app. by left.
  - unfold clear_denial in H. apply bind_ok in H as (? & _ & H). apply bind_ok in H as ([] & _ & H).
    by apply append_records in H as ->.
  - unfold revoke_clearance in H. apply bind_ok in H as (? & _ & H). destruct (List.find _ _) as [d0|]; [|done].
    apply bind_ok in H as ([] & _ & H). by apply append_records in H as ->.
  - by rewrite Hr.
Qed.

Lemma constructed_spec r : constructed r = true → check_FailureRecord r = Ok () ∧ constructed_parts r.
Proof.
  unfold constructed. rewrite !all_true_cons, !is_ok_unit. intros (H1 & H2 & H3 & H4 & _).
  split; [done|]. split; [done|]. split; intros x Hx; rewrite Hx in *; by apply is_ok_unit.
Qed.

Lemma stored_parses r row : constructed r = true → rr_json row = record_text r →
  loads (rr_json row) ≫= parse_failure_record = Ok r.
Proof. intros [Hr Hp]%constructed_spec ->. by apply record_text_parses. Qed.

(** What [require_scope_open] finds in a stored record that stops the scope. *)
Lemma stop_leaves_open db task r row :
  constructed r = true → action r = STOP_SCOPE → rr_digest row = record_digest r → rr_json row = record_text r →
  record_leaves_open db task (authority_scope (binding r)) row = Ok () →
  ∃ t h, tasks db !! task = Some t ∧
    require_attempt_admission (task_identity task t) (binding r) (evidence db) = Ok () ∧
    decision_history db task (record_digest r) (binding r) = Ok h ∧ snd <$> last_decision h = Some Clear.
Proof.
  intros Hc Ha Hd Hj H. unfold record_leaves_open in H. rewrite (stored_parses r row Hc Hj) in H.
  cbn [except_undecodable mbind result_bind] in H. apply bind_ok in H as ([] & _ & H). apply bind_ok in H as ([] & _ & H).
  rewrite Ha, !bool_decide_true in H by done. cbn [negb orb] in H. rewrite Hd in H.
  destruct (tasks db !! task) as [t|]; [|done]. apply bind_ok in H as ([] & Hadm & H). apply bind_ok in H as (h & Hh & H).
  apply require_ok, bool_decide_eq_true in H. by exists t, h.
Qed.

Lemma scope_admission_open migrations i scope w u :
  (require_scope_effect_admission migrations i scope w).1 = Ok u →
  ∃ db, w = Some db ∧ ∀ row, row ∈ records (evidence db) → rr_task row = task_id i →
    record_leaves_open db (task_id i) scope row = Ok ().
Proof.
  unfold require_scope_effect_admission.
  match goal with |- context [transaction _ ?b ?w] => destruct (transaction_cases migrations b w) as [[e ->]|(db & a & db' & -> & _ & Hb & ->)] end;
    [done|]. intros _. exists db. split; [done|]. intros row Hrow Ht.
  apply bind_ok in Hb as (s & _ & Hb). apply bind_ok in Hb as ([] & Hb & _). unfold require_scope_open in Hb.
  apply for_each_ok in Hb. rewrite List.Forall_forall in Hb. apply Hb. unfold record_rows.
  rewrite filter_In, bool_decide_eq_true. by rewrite <- list_elem_of_In.
Qed.

Lemma record_durable_ok migrations i r system now w digest :
  (record_durable_failure migrations i (Typed r) system now w).1 = Ok digest →
  ∃ db observed db', w = Some db ∧ digest = record_digest r ∧ open_connection migrations (Some db) = Ok db ∧
    record_failure i r observed db = Ok db' ∧
    (record_durable_failure migrations i (Typed r) system now w).2 = Some db'.
Proof.
  unfold record_durable_failure, transaction. destruct (observed_time _ _ _) as [t|]; [|done].
  destruct (open_connection migrations w) as [db|] eqn:Ho; [|done]. cbn [mbind result_bind].
  destruct (record_failure i r t db) as [db'|] eqn:Hr; [|done]. cbn. intros [= <-].
  assert (w = Some db) as ->.
  { unfold open_connection in Ho. destruct w as [x|]; [|done]. by apply bind_ok in Ho as (? & _ & [= ->]). }
  by exists db, t, db'.
Qed.

Lemma record_failure_row i r observed db db' : record_failure i r observed db = Ok db' →
  ∃ row, row ∈ records (evidence db') ∧ rr_digest row = record_digest r ∧ rr_task row = task_id i ∧
    rr_json row = record_text r.
Proof.
  intros H. destruct (record_failure_spec _ _ _ _ _ H) as [[-> Hrow]|(_ & _ & at_ & ->)]; [done|].
  eexists. split; [cbn; apply elem_of_app; right; by left|]. done.
Qed.

(** C3 : A stopped scope stays stopped: once a failure that stops its scope is
    durable, no history of recorded failures, clearances, revocations and writes
    of other modules leads to a state that admits an effect in the scope, unless
    the last decision about that very record is a clearance, made by a command
    of the owner that is consumed, under an active grant, for that denial, that
    scope and the candidate that is sealed now. *)
Theorem denial_holds_until_cleared migrations w i r system now digest os i' :
  ledger_reachable migrations w → constructed r = true → action r = STOP_SCOPE →
  (record_durable_failure migrations i (Typed r) system now w).1 = Ok digest → task_id i' = task_id i →
  let w' := run_history migrations os (record_durable_failure migrations i (Typed r) system now w).2 in
  (require_scope_effect_admission migrations i' (authority_scope (binding r)) w').1 = Ok () →
  ∃ db d, w' = Some db ∧ list.last (decision_rows (task_id i) digest (evidence db)) = Some d ∧
    dr_kind d = "clear-denial" ∧ authorized_by db digest (binding r) Clear (dr_command d).
Proof.
  intros Hreach Hc Ha Hrec Hi w' Hadm. subst w'. apply reachable_sound in Hreach as (db0 & -> & Hs0).
  apply record_durable_ok in Hrec as (db & observed & db1 & [= <-] & -> & _ & Hrec & Hw). rewrite Hw in *.
  pose proof (step_sound _ _ Hs0 (step_record _ _ _ _ _ Hc Hrec)) as Hs1.
  destruct (record_failure_row _ _ _ _ _ Hrec) as (row & Hrow & Hd & Ht & Hj).
  destruct (run_history_steps migrations (λ db, ledger_sound db ∧ row ∈ records (evidence db)) os db1)
    as (db & Hdb & Hs & Hin); [done| |].
  { intros x x' [? ?] Hstep. split; [by eapply step_sound|by eapply step_records]. }
  rewrite Hdb in *. apply scope_admission_open in Hadm as (? & [= <-] & Hopen). rewrite Hi in Hopen.
  destruct (stop_leaves_open _ _ _ _ Hc Ha Hd Hj (Hopen row Hin Ht)) as (t & h & _ & _ & Hh & Hlast).
  destruct (history_prior _ _ _ _ _ Hs Hh) as [_ Hprior]. rewrite Hlast in Hprior.
  destruct (history_stored _ _ _ _ _ Hs Hh) as (_ & _ & Hauth).
  destruct (list.last (rows_of _ _ _)) as [d|] eqn:El; [|done]. injection Hprior as Hk.
  exists db, d. split; [done|]. rewrite decision_rows_in_order by apply (decisions_in_sequence _ Hs). split; [done|].
  split; [done|]. destruct (Hauth d Clear eq_refl (eq_sym Hk)) as (p & j & Hj').
  by apply receipt_authorizes in Hj' as [? _].
Qed.

(** C35 : The decisions about a denial form one log in every history: their
    places are 1, 2, ... without gaps, they clear and revoke in turn beginning
    with a clearance, what is stored is what the program signed, and a command
    of the owner is used for one decision only. *)
Theorem decisions_alternate migrations w : ledger_reachable migrations w →
  ∃ db, w = Some db ∧ (∀ task record, in_sequence 1 false (decision_rows task record (evidence db))) ∧
    (∀ d, d ∈ decisions (evidence db) → decision_stored d) ∧ NoDup (command_use <$> decisions (evidence db)).
Proof.
  intros (db & -> & Hs)%reachable_sound. exists db. split; [done|]. split; [|split; apply Hs].
  intros task record. rewrite decision_rows_in_order; apply (decisions_in_sequence _ Hs).
Qed.

(** A denial outlives its candidate: when the candidate sealed for the task
    is not the one a stored stop was recorded for, no effect is admitted in its
    scope, even if the owner cleared the denial. *)
Theorem moved_candidate_closes_scope migrations db i r row s :
  constructed r = true → action r = STOP_SCOPE →
  row ∈ records (evidence db) → rr_task row = task_id i →
  rr_digest row = record_digest r → rr_json row = record_text r →
  candidate_seals (provider (evidence db)) !! task_id i = Some s → se_candidate s ≠ candidate_sha (binding r) →
  is_ok (require_scope_effect_admission migrations i (authority_scope (binding r)) (Some db)).1 = false.
Proof.
  intros Hc Ha Hrow Ht Hd Hj Hseal Hne.
  destruct (require_scope_effect_admission _ _ _ _).1 as [u|] eqn:E; [|done]. exfalso.
  apply scope_admission_open in E as (? & [= <-] & Hopen).
  destruct (stop_leaves_open _ _ _ _ Hc Ha Hd Hj (Hopen _ Hrow Ht)) as (t & h & _ & Hadm & _).
  apply admission_candidate in Hadm as (s' & rt & Hs' & _ & _ & Hcand & _). cbn in Hs'. rewrite Hseal in Hs'.
  injection Hs' as <-. done.
Qed.

Lemma open_write migrations f db :
  open_connection migrations (Some (write f db)) = (λ _, write f db) <$> open_connection migrations (Some db).
Proof.
  unfold open_connection. change (validate_task_ownership (write f db)) with (validate_task_ownership db).
  change (schema (write f db)) with (schema db). by destruct (verify_migrations _ _ _).
Qed.

Lemma task_record_found t row : NoDup (rr_digest <$> records t) → row ∈ records t →
  task_record (rr_task row) (rr_digest row) t = Some row.
Proof.
  unfold task_record. induction (records t) as [|x l IH]; [by intros _ ?%elem_of_nil|].
  cbn. intros [Hx Hn]%list.NoDup_cons [->|Hrow]%elem_of_cons; [by rewrite !bool_decide_true|].
  rewrite (bool_decide_false (rr_digest x = rr_digest row)); [rewrite andb_false_r; auto|].
  intros E. apply Hx. rewrite E. apply list_elem_of_fmap. by exists row.
Qed.

(** Recording leaves the connection, the task and the admissions as they were. *)
Lemma record_failure_keeps migrations i r observed db db' :
  record_failure i r observed db = Ok db' →
  open_connection migrations (Some db) = Ok db → open_connection migrations (Some db') = Ok db' ∧
  (∃ s, require_matching_task i None db' = Ok s) ∧ require_failure_compatibility r = Ok () ∧
  require_attempt_admission i (binding r) (evidence db') = Ok ().
Proof.
  intros H Ho. pose proof (record_failure_spec _ _ _ _ _ H) as Hspec. unfold record_failure in H.
  apply bind_ok in H as (s & Hm & H). apply bind_ok in H as ([] & Hcompat & H). apply bind_ok in H as ([] & _ & H).
  apply bind_ok in H as ([] & Hadm & _).
  destruct Hspec as [[-> _]|(_ & _ & at_ & ->)]; [split; [done|]; split; [by exists s|done]|].
  rewrite open_write, Ho. split; [done|]. split; [by exists s|]. split; [done|].
  rewrite <- Hadm. by apply attempt_admission_provider.
Qed.

(** A durable failure reads back: after a failure was recorded, reading its
    digest for the same task returns exactly that record. *)
Theorem recorded_failure_reads_back migrations w i r system now digest :
  ledger_reachable migrations w → constructed r = true →
  (record_durable_failure migrations i (Typed r) system now w).1 = Ok digest →
  (read_durable_failure migrations i digest (record_durable_failure migrations i (Typed r) system now w).2).1 = Ok r.
Proof.
  intros Hreach Hc Hrec. apply reachable_sound in Hreach as (db0 & -> & Hs0).
  apply record_durable_ok in Hrec as (db & observed & db' & [= <-] & -> & Hopen & Hrec & ->).
  pose proof (step_sound _ _ Hs0 (step_record _ _ _ _ _ Hc Hrec)) as Hs1.
  destruct (record_failure_row _ _ _ _ _ Hrec) as (row & Hrow & Hd & Ht & Hj).
  destruct (record_failure_keeps migrations _ _ _ _ _ Hrec Hopen) as (Ho & [s Hm] & Hcompat & Hadm).
  pose proof (task_record_found _ _ (records_distinct _ Hs1) Hrow) as Hf. rewrite Ht, Hd in Hf.
  pose proof (stored_parses r row Hc Hj) as Hp. apply bind_ok in Hp as (v & Hv & Hp).
  unfold read_durable_failure, transaction. rewrite Ho. cbn [mbind result_bind].
  unfold read_failure. rewrite Hm. cbn [mbind result_bind]. rewrite Hf, Hv. cbn [except_undecodable mbind result_bind].
  rewrite Hp. cbn [mbind result_bind]. unfold recovery_ensure at 1. rewrite bool_decide_true by done.
  cbn [require mbind result_bind]. rewrite Hcompat. cbn [mbind result_bind]. by rewrite Hadm.
Qed.

(** * A concrete history

    A dependency review is denied by the host's security policy; the owner clears
    the denial. *)

Module Sample.

Definition hex (c : string) : string := String.append "sha256:" (str_repeat c 64).

Definition denied : FailureBinding :=
  {| candidate_sha := str_repeat "c" 40; policy_digest := hex "1"; configuration_digest := hex "2";
     authority_scope := "dependency-review:task-1"; role := DEPENDENCY_REVIEW; profile_identity := hex "3";
     session_identity := "session-1"; attempt_identity := "attempt-1" |}.

Definition denial : FailureRecord := matrix_record denied HOST_SECURITY_DENIAL VERIFIED_HOST C_VERIFIED.

Definition denial_digest : string := Eval vm_compute in record_digest denial.

Definition authority : string := Eval vm_compute in
  match denial_authority_digest "clear-denial" OWNER "task-1" "owner/repo" (str_repeat "c" 40) "seal-1"
          "dependency-review:task-1" denial_digest with Ok a => a | Err _ => "" end.

Definition command : CommandRow :=
  {| cm_task := "task-1"; cm_repository := "owner/repo"; cm_denial := denial_digest; cm_grant := "grant-1";
     cm_candidate := str_repeat "c" 40; cm_seal := "seal-1"; cm_scope := "dependency-review:task-1";
     cm_target := denial_digest; cm_kind := "clear-denial"; cm_clearance := "";
     cm_command_digest := str_repeat "4" 64; cm_host_result := str_repeat "5" 64; cm_result := str_repeat "6" 64;
     cm_state := "consumed" |}.

Definition grant : GrantRow :=
  {| gr_owner := OWNER; gr_task := "task-1"; gr_repository := "owner/repo"; gr_candidate := str_repeat "c" 40;
     gr_seal := "seal-1"; gr_scope := "dependency-review:task-1"; gr_target := denial_digest;
     gr_authority := authority; gr_state := "active" |}.

Definition provider_tables (candidate : string) : ProviderTables :=
  {| clearance_commands := {[ "command-1" := command ]}; revocation_commands := ∅;
     clearance_grants := {[ "grant-1" := grant ]}; revocation_grants := ∅;
     candidate_seals := {[ "task-1" := {| se_base := str_repeat "a" 40; se_candidate := candidate; se_state := "seal-1" |} ]};
     runtime_bindings := {[ "task-1" := {| ru_schema := "roundwright-runtime/v1"; ru_digest := hex "2";
                                          ru_worker := hex "7"; ru_supervisors := "[]" |} ]};
     failure_admissions := ∅; provider_attempts := ∅; attempt_contexts := ∅; dispatch_claims := ∅;
     health_authorizations := ∅; health_seals := ∅; checkpoints := ∅; session_checkpoints := ∅;
     completion_outputs := ∅; diff_review_providers := ∅;
     review_admissions := {[ "attempt-1" := expected_admission "task-1" denied ]};
     review_attempts := {[ "attempt-1" := {| ra_task := "task-1"; ra_snapshot := "snapshot-1"; ra_profile := hex "3";
                                             ra_configuration := hex "2"; ra_state := "prepared" |} ]};
     review_claims := {[ "attempt-1" := {| rc_session := Some "session-1"; rc_state := "session-opened" |} ]};
     review_subsets := {[ "snapshot-1" := {| ss_task := "task-1"; ss_candidate := str_repeat "c" 40;
                                             ss_policy := hex "1"; ss_configuration := hex "2" |} ]};
     review_successors := ∅; review_outcomes := ∅ |}.

Definition tables (candidate : string) (rs : list RecordRow) (ds : list DecisionRow) : RecoveryTables :=
  {| records := rs; decisions := ds; routes := ∅; successors := ∅; intents := ∅; provider := provider_tables candidate |}.

Definition identity : TaskIdentity := TaskState.Sample.identity.

(** The admitted task over given tables. *)
Definition sample (t : RecoveryTables) : Db :=
  set_progress {[ "task-1" := admitted_row identity "/work/task-1" ]} []
    (set_admission {[ "source-1" := ("owner/repo", str_repeat "d" 64) ]} ∅ {[ "task-1" := "task-1" ]}
       {[ "/work/task-1" := "task-1" ]} (fresh TaskState.Sample.sample_schema t)).

Definition before : Db := sample (tables (str_repeat "c" 40) [] []).

Definition denial_row : RecordRow :=
  {| rr_digest := denial_digest; rr_task := "task-1"; rr_json := record_text denial; rr_at := 1000 |}.

Definition stopped : Db := sample (tables (str_repeat "c" 40) [denial_row] []).

Definition migrations : list Migration := [TaskState.Sample.migration].

Definition clearance : Clearance := {| cl_record := denial_digest; cl_binding := denied; cl_command := "command-1" |}.

Lemma before_reachable : ledger_reachable migrations (Some before).
Proof. by exists before, []. Qed.

Lemma recorded : record_durable_failure migrations identity (Typed denial) 1000 None (Some before) = (Ok denial_digest, Some stopped).
Proof. vm_compute. reflexivity. Qed.

Lemma scope_denied : is_ok (require_scope_effect_admission migrations identity "dependency-review:task-1" (Some stopped)).1 = false.
Proof. vm_compute. reflexivity. Qed.

Lemma clearance_admits :
  is_ok (require_scope_effect_admission migrations identity "dependency-review:task-1"
    (run_history migrations [ClearDenial identity clearance 1001 None] (Some stopped))).1 = true.
Proof. vm_compute. reflexivity. Qed.

Lemma denial_holds_until_cleared_witness : ∃ db d,
  run_history migrations [ClearDenial identity clearance 1001 None] (Some stopped) = Some db ∧
  list.last (decision_rows "task-1" denial_digest (evidence db)) = Some d ∧
  dr_kind d = "clear-denial" ∧ authorized_by db denial_digest denied Clear (dr_command d).
Proof.
  pose proof (denial_holds_until_cleared migrations _ identity denial 1000 None denial_digest
    [ClearDenial identity clearance 1001 None] identity before_reachable eq_refl eq_refl) as H.
  rewrite recorded in H. apply H; [reflexivity|reflexivity|]. apply is_ok_unit, clearance_admits.
Defined.

Lemma decisions_alternate_witness : ∃ db,
  run_history migrations [RecordFailure identity denial 1000 None; ClearDenial identity clearance 1001 None] (Some before) = Some db ∧
  (∀ task record, in_sequence 1 false (decision_rows task record (evidence db))) ∧
  (∀ d, d ∈ decisions (evidence db) → decision_stored d) ∧ NoDup (command_use <$> decisions (evidence db)).
Proof. apply (decisions_alternate migrations). by eexists before, _. Defined.

Lemma moved_candidate_closes_scope_witness :
  is_ok (require_scope_effect_admission migrations identity "dependency-review:task-1"
    (Some (sample (tables (str_repeat "e" 40) [denial_row] [])))).1 = false.
Proof.
  apply (moved_candidate_closes_scope migrations _ identity denial denial_row
    {| se_base := str_repeat "a" 40; se_candidate := str_repeat "e" 40; se_state := "seal-1" |});
    [reflexivity|reflexivity|left|reflexivity|vm_compute; reflexivity|reflexivity|reflexivity|discriminate].
Defined.

Lemma recorded_failure_reads_back_witness :
  (read_durable_failure migrations identity denial_digest (Some stopped)).1 = Ok denial.
Proof.
  pose proof (recorded_failure_reads_back migrations _ identity denial 1000 None denial_digest before_reachable eq_refl) as H.
  rewrite recorded in H. apply H. reflexivity.
Defined.

End Sample.
