(* ===== verification/RecoveryRoutes.v ===== *)
(** * Recovery routes (src/roundwright/failure_recovery.py)

    The durable one-use authorizations of a fallback, and the intents of
    provider effects.  A route is issued from a persisted fallback decision,
    fenced for one reservation of another ledger (the budget), and consumed when
    a successor exists; a reservation that never became a successor is given
    back.  The budget ledger [B] is reached through the calls the code makes. *)

From stdpp Require Import gmap.
From S2P Require Import Prelude Sha256 Json JsonParse JsonRead FailureRecovery Sqlite Worktree Migrations StateDb.
From S2P Require Import TaskState FailureTables FailureAdmission FailureLedger.
Open Scope Z_scope.

Record DurableRecoveryRouteAuthorization := {
  au_route : string;
  au_record : string;
  au_binding : FailureBinding;
  au_role : FailureRole;
  au_profile : string;
  au_target : string;
  au_coordinate : string;
  au_budget : string;
}.

Definition check_authorization (a : DurableRecoveryRouteAuthorization) : py unit :=
  _ ← recovery_ensure (all_true (map match_digest
        [au_route a; au_record a; au_profile a; au_target a; au_coordinate a; au_budget a]))
      "durable recovery route authorization is invalid";
  recovery_ensure (au_role a ==? role (au_binding a)) "durable recovery route target role is invalid".

Definition route_payload (a : DurableRecoveryRouteAuthorization) : json :=
  JObj [("schema", JStr "roundwright-durable-recovery-route/v1"); ("record_digest", JStr (au_record a));
        ("binding", binding_payload (au_binding a)); ("target_role", JStr (FailureRole_value (au_role a)));
        ("target_profile_digest", JStr (au_profile a)); ("target_route_digest", JStr (au_target a));
        ("coordinate_digest", JStr (au_coordinate a)); ("remaining_budget_digest", JStr (au_budget a))].

Definition binding_text (b : FailureBinding) : string := dumps (binding_payload b).

(** The first eight columns of the row of an authorization. *)
Definition authorized_row (i : TaskIdentity) (a : DurableRecoveryRouteAuthorization) (r : RouteRow) : bool :=
  all_true [ro_repository r ==? repository_id i; ro_record r ==? au_record a; ro_binding r ==? binding_text (au_binding a);
            ro_role r ==? FailureRole_value (au_role a); ro_profile r ==? au_profile a; ro_target r ==? au_target a;
            ro_coordinate r ==? au_coordinate a; ro_budget r ==? au_budget a].

(** [... WHERE route_digest=? AND task_id=?] *)
Definition route_row (i : TaskIdentity) (route : string) (t : RecoveryTables) : option RouteRow :=
  r ← routes t !! route; if ro_task r ==? task_id i then Some r else None.

Definition set_state (s : RouteState) (r : RouteRow) : RouteRow :=
  {| ro_task := ro_task r; ro_repository := ro_repository r; ro_record := ro_record r; ro_binding := ro_binding r;
     ro_role := ro_role r; ro_profile := ro_profile r; ro_target := ro_target r; ro_coordinate := ro_coordinate r;
     ro_budget := ro_budget r; ro_issued := ro_issued r; ro_state := s |}.

(** [UPDATE ... SET state WHERE route_digest=? AND task_id=? AND (from)]: the
    database afterwards if one row was updated. *)
Definition update_route (i : TaskIdentity) (route : string) (from : RouteState → bool) (to : RouteState) (db : Db) :
    option Db :=
  r ← route_row i route (evidence db);
  if from (ro_state r) then Some (write (λ t, set_routes (<[route := set_state to r]> (routes t)) t) db) else None.

Definition read_route_source (i : TaskIdentity) (record : string) (b : FailureBinding) (t : RecoveryTables) :
    py FailureRecord :=
  match task_record (task_id i) record t with
  | None => recovery_error "durable recovery route source is unavailable"
  | Some row =>
      r ← except_undecodable "durable recovery route source is malformed" (loads (rr_json row) ≫= parse_failure_record);
      _ ← recovery_ensure ((record_digest r ==? record) && (binding r ==? b)) "durable recovery route source has drifted";
      _ ← require_failure_compatibility r;
      _ ← recovery_ensure ((record_schema r ==? V3) && (evidence_confidence r ==? C_VERIFIED) && (failure r !=? UNKNOWN))
            "durable recovery route requires current verified evidence";
      _ ← require_attempt_admission i b t;
      Ok r
  end.

(** ** Issuing *)

(** The authorization that inputs describe. *)
Definition make_authorization (record : string) (b : FailureBinding) (target : FailureRole)
    (profile route coordinate budget : string) : DurableRecoveryRouteAuthorization :=
  let a d := {| au_route := d; au_record := record; au_binding := b; au_role := target; au_profile := profile;
                au_target := route; au_coordinate := coordinate; au_budget := budget |} in
  a (digest_json (route_payload (a ""))).

(** The digests of the routes of a record to a target. *)
Definition routes_to (i : TaskIdentity) (record target : string) (t : RecoveryTables) : list string :=
  (List.filter (λ kv : string * RouteRow, (ro_task kv.2 ==? task_id i) && (ro_record kv.2 ==? record) &&
     (ro_target kv.2 ==? target)) (map_to_list (routes t))).*1.

Definition issue_route (i : TaskIdentity) (a : DurableRecoveryRouteAuthorization) (observed : Z) (db : Db) :
    py (DurableRecoveryRouteAuthorization * Db) :=
  _ ← require_matching_task i None db;
  r ← read_route_source i (au_record a) (au_binding a) (evidence db);
  _ ← recovery_ensure ((action r ==? PREBOUND_FALLBACK) && retryable r && (au_role a ==? role (au_binding a)))
        "durable recovery route source is not eligible";
  _ ← recovery_ensure (negb ((failure r ==? FORMAT_INVALID) &&
          ((role (au_binding a) !=? SUPERVISOR) || (au_profile a !=? profile_identity (au_binding a)))))
        "format correction cannot change profiles";
  _ ← recovery_ensure (match tasks db !! task_id i with Some t => t_repository t ==? repository_id i | None => false end)
        "durable recovery route authority has drifted";
  _ ← recovery_ensure (match routes_to i (au_record a) (au_target a) (evidence db) with
                       | [] => true | d :: _ => d ==? au_route a end) "durable recovery route ordering conflicts";
  match routes (evidence db) !! au_route a with
  | Some row =>
      _ ← recovery_ensure ((ro_task row ==? task_id i) && authorized_row i a row) "durable recovery route conflicts";
      Ok (a, db)
  | None =>
      at_ ← sqlite_int observed;
      let row := {| ro_task := task_id i; ro_repository := repository_id i; ro_record := au_record a;
                    ro_binding := binding_text (au_binding a); ro_role := FailureRole_value (au_role a);
                    ro_profile := au_profile a; ro_target := au_target a; ro_coordinate := au_coordinate a;
                    ro_budget := au_budget a; ro_issued := at_; ro_state := Issued |} in
      Ok (a, write (λ t, set_routes (<[au_route a := row]> (routes t)) t) db)
  end.

Definition issue_durable_recovery_route_authorization (migrations : list Migration) (i : TaskIdentity)
    (record : string) (b : dyn FailureBinding) (target : dyn FailureRole) (profile route coordinate budget : string)
    (system : Z) (now : option Z) (w : World RecoveryTables) :
    py DurableRecoveryRouteAuthorization * World RecoveryTables :=
  match b, target with
  | Typed b, Typed target =>
      match (_ ← recovery_ensure (all_true (map match_digest [record; profile; route; coordinate; budget]))
                  "durable recovery route inputs are invalid";
             observed_time "durable recovery route time is invalid" system now) with
      | Err e => (Err e, w)
      | Ok observed =>
          let r := transaction migrations
            (issue_route i (make_authorization record b target profile route coordinate budget) observed) w in
          (a ← r.1; checked_by check_authorization a, r.2)
      end
  | _, _ => (recovery_error "durable recovery route inputs are invalid", w)
  end.

(** ** Reading *)

Definition any_error {A} (why : string) (m : py A) : py A :=
  match m with Err _ => recovery_error why | _ => m end.

(** [FailureBinding( **d )] of the decoded text of a binding. *)
Definition decode_binding (text : string) : py FailureBinding :=
  any_error "durable recovery route is malformed"
    (v ← loads text;
     match v with
     | DObj d => _ ← require (keys_are BINDING_KEYS d) TypeError "unexpected keyword argument"; parse_binding d
     | _ => raise TypeError "not a mapping"
     end).

Definition read_route (i : TaskIdentity) (route : string) (db : Db) : py DurableRecoveryRouteAuthorization :=
  _ ← require_matching_task i None db;
  match (r ← route_row i route (evidence db); if ro_repository r ==? repository_id i then Some r else None) with
  | None => recovery_error "durable recovery route is unavailable"
  | Some r =>
      b ← decode_binding (ro_binding r);
      match of_value FailureRole_value FAILURE_ROLES (ro_role r) with
      | None => raise ValueError "not a valid FailureRole"
      | Some target =>
          let a := {| au_route := route; au_record := ro_record r; au_binding := b; au_role := target;
                      au_profile := ro_profile r; au_target := ro_target r; au_coordinate := ro_coordinate r;
                      au_budget := ro_budget r |} in
          _ ← check_authorization a;
          _ ← recovery_ensure (route ==? digest_json (route_payload a)) "durable recovery route has drifted";
          _ ← read_route_source i (ro_record r) b (evidence db);
          Ok a
      end
  end.

Definition read_durable_recovery_route_authorization (migrations : list Migration) (i : TaskIdentity) (route : string)
    (w : World RecoveryTables) : py DurableRecoveryRouteAuthorization * World RecoveryTables :=
  match recovery_ensure (match_digest route) "durable recovery route digest is invalid" with
  | Err e => (Err e, w)
  | Ok _ => transaction migrations (λ db, a ← read_route i route db; Ok (a, db)) w
  end.

(** ** Consuming and reserving *)

(** What the caller says it spends the authorization on. *)
Record RouteTarget := {
  tg_role : FailureRole;
  tg_profile : string;
  tg_route : string;
  tg_coordinate : string;
  tg_budget : string;
}.

Definition target_matches (g : RouteTarget) (a : DurableRecoveryRouteAuthorization) : bool :=
  all_true [tg_role g ==? au_role a; tg_profile g ==? au_profile a; tg_route g ==? au_target a;
            tg_coordinate g ==? au_coordinate a; tg_budget g ==? au_budget a].

Definition target_digests (reservation : string) (g : RouteTarget) : bool :=
  all_true (map match_digest [reservation; tg_profile g; tg_route g; tg_coordinate g; tg_budget g]).

Definition is_issued (s : RouteState) : bool := s ==? Issued.
Definition is_reserving (d : string) (s : RouteState) : bool := s ==? Reserving d.
Definition is_consumed (d : string) (s : RouteState) : bool :=
  match s with Consumed d' _ => d' ==? d | _ => false end.

Definition consume_route (i : TaskIdentity) (a : DurableRecoveryRouteAuthorization) (reservation : string)
    (g : RouteTarget) (observed : Z) (db : Db) : py (unit * Db) :=
  _ ← require_matching_task i None db;
  _ ← recovery_ensure
        (match route_row i (au_route a) (evidence db) with
         | Some r => authorized_row i a r && is_issued (ro_state r) | None => false end && target_matches g a)
        "durable recovery route consumption has drifted";
  _ ← read_route_source i (au_record a) (au_binding a) (evidence db);
  at_ ← sqlite_int observed;
  match update_route i (au_route a) is_issued (Consumed reservation at_) db with
  | Some db => Ok ((), db)
  | None => recovery_error "durable recovery route is already consumed"
  end.

Definition consume_durable_recovery_route_authorization (migrations : list Migration) (i : TaskIdentity)
    (a : dyn DurableRecoveryRouteAuthorization) (reservation : string) (g : dyn RouteTarget) (system : Z) (now : option Z)
    (w : World RecoveryTables) : py unit * World RecoveryTables :=
  match a, g with
  | Typed a, Typed g =>
      match recovery_ensure (target_digests reservation g) "durable recovery route consumption is invalid" with
      | Err e => (Err e, w)
      | Ok _ => transaction migrations (consume_route i a reservation g (match now with Some n => n | None => system end)) w
      end
  | _, _ => (recovery_error "durable recovery route consumption is invalid", w)
  end.

Definition begin_route (i : TaskIdentity) (a : DurableRecoveryRouteAuthorization) (reservation : string) (g : RouteTarget)
    (db : Db) : py (bool * Db) :=
  _ ← require_matching_task i None db;
  match route_row i (au_route a) (evidence db) with
  | None => recovery_error "durable recovery route reservation has drifted"
  | Some r =>
      _ ← recovery_ensure (authorized_row i a r && target_matches g a) "durable recovery route reservation has drifted";
      _ ← read_route_source i (au_record a) (au_binding a) (evidence db);
      _ ← require_scope_open db (task_id i) (String.concat ":" [FailureRole_value (au_role a); task_id i]);
      if is_issued (ro_state r) then
        match update_route i (au_route a) is_issued (Reserving reservation) db with
        | Some db => Ok (true, db)
        | None => recovery_error "durable recovery route reservation is unavailable"
        end
      else if is_reserving reservation (ro_state r) then Ok (false, db)
      else recovery_error "durable recovery route is already admitted"
  end.

Definition begin_durable_recovery_route_reservation (migrations : list Migration) (i : TaskIdentity)
    (a : dyn DurableRecoveryRouteAuthorization) (reservation : string) (g : dyn RouteTarget) (w : World RecoveryTables) :
    py bool * World RecoveryTables :=
  match a, g with
  | Typed a, Typed g =>
      match recovery_ensure (target_digests reservation g) "durable recovery route reservation is invalid" with
      | Err e => (Err e, w)
      | Ok _ => transaction migrations (begin_route i a reservation g) w
      end
  | _, _ => (recovery_error "durable recovery route reservation is invalid", w)
  end.

Definition commit_route (i : TaskIdentity) (a : DurableRecoveryRouteAuthorization) (reservation : string) (at_ : Z)
    (db : Db) : py Db :=
  match update_route i (au_route a) (is_reserving reservation) (Consumed reservation at_) db with
  | Some db => Ok db
  | None =>
      _ ← recovery_ensure match route_row i (au_route a) (evidence db) with
                          | Some r => is_consumed reservation (ro_state r) | None => false end
            "durable recovery route commit has drifted";
      Ok db
  end.

Definition commit_reservation (i : TaskIdentity) (a : DurableRecoveryRouteAuthorization) (reservation : string)
    (observed : Z) (db : Db) : py (unit * Db) :=
  _ ← require_matching_task i None db;
  _ ← read_route_source i (au_record a) (au_binding a) (evidence db);
  at_ ← sqlite_int observed;
  db ← commit_route i a reservation at_ db;
  Ok ((), db).

Definition commit_durable_recovery_route_reservation (migrations : list Migration) (i : TaskIdentity)
    (a : dyn DurableRecoveryRouteAuthorization) (reservation : string) (system : Z) (now : option Z)
    (w : World RecoveryTables) : py unit * World RecoveryTables :=
  let why := "durable recovery route commit is invalid" in
  match a with
  | Foreign => (recovery_error why, w)
  | Typed a =>
      match (_ ← recovery_ensure (match_digest reservation) why; observed_time why system now) with
      | Err e => (Err e, w)
      | Ok observed => transaction migrations (commit_reservation i a reservation observed) w
      end
  end.

(** The constraints of an inserted successor: its route exists, and one
    successor per attempt and per request of a task. *)
Definition insert_successor (route : string) (s : SuccessorRow) (t : RecoveryTables) : py RecoveryTables :=
  _ ← unique_column (λ x, (su_task x, su_attempt x)) (su_task s, su_attempt s) (successors t);
  _ ← unique_column (λ x, (su_task x, su_request x)) (su_task s, su_request s) (successors t);
  _ ← require (match routes t !! route with Some _ => true | None => false end) IntegrityError
        "FOREIGN KEY constraint failed";
  m ← insert_row route s (successors t);
  Ok (set_successors m t).

Definition same_successor (x y : SuccessorRow) : bool :=
  all_true [su_task x ==? su_task y; su_repository x ==? su_repository y; su_reservation x ==? su_reservation y;
            su_attempt x ==? su_attempt y; su_request x ==? su_request y].

Definition admit_successor (i : TaskIdentity) (a : DurableRecoveryRouteAuthorization) (reservation attempt request : string)
    (observed : Z) (db : Db) : py (unit * Db) :=
  _ ← require_matching_task i None db;
  _ ← read_route_source i (au_record a) (au_binding a) (evidence db);
  let row at_ := {| su_task := task_id i; su_repository := repository_id i; su_reservation := reservation;
                    su_attempt := attempt; su_request := request; su_at := at_ |} in
  db ← match successors (evidence db) !! au_route a with
       | None => at_ ← sqlite_int observed; t ← insert_successor (au_route a) (row at_) (evidence db); Ok (set_evidence t db)
       | Some s =>
           _ ← recovery_ensure (same_successor s (row 0)) "durable recovery successor admission has drifted"; Ok db
       end;
  at_ ← sqlite_int observed;
  db ← commit_route i a reservation at_ db;
  Ok ((), db).

Definition commit_durable_recovery_route_successor_admission (migrations : list Migration) (i : TaskIdentity)
    (a : dyn DurableRecoveryRouteAuthorization) (reservation attempt request : string) (system : Z) (now : option Z)
    (w : World RecoveryTables) : py unit * World RecoveryTables :=
  let why := "durable recovery successor admission is invalid" in
  match a with
  | Foreign => (recovery_error why, w)
  | Typed a =>
      match (_ ← recovery_ensure (match_digest reservation && (attempt !=? "") && match_digest request) why;
             observed_time why system now) with
      | Err e => (Err e, w)
      | Ok observed => transaction migrations (admit_successor i a reservation attempt request observed) w
      end
  end.

(** ** Giving a reservation back *)

(** A later attempt of the same task and role than the failed one. *)
Definition later_attempt (task attempt : string) (p : ProviderTables) : bool :=
  match provider_attempts p !! attempt with
  | Some s => (pa_task s ==? task) &&
      existsb (λ kv : string * AttemptRow, (pa_task kv.2 ==? pa_task s) && (pa_role kv.2 ==? pa_role s) &&
                 (pa_number s <? pa_number kv.2)) (map_to_list (provider_attempts p))
  | None => false
  end.

Definition require_no_recovery_successor (i : TaskIdentity) (a : DurableRecoveryRouteAuthorization) (t : RecoveryTables) :
    py unit :=
  let why := "durable recovery route successor is already admitted" in
  _ ← recovery_ensure (match successors t !! au_route a with Some _ => false | None => true end) why;
  recovery_ensure (match review_successors (provider t) !! attempt_identity (au_binding a) with
                   | Some _ => false | None => true end &&
                   negb (later_attempt (task_id i) (attempt_identity (au_binding a)) (provider t))) why.

(** What is checked before a reservation in [state] is given back. *)
Definition require_unspent (i : TaskIdentity) (a : DurableRecoveryRouteAuthorization) (state : RouteState → bool)
    (why : string) (db : Db) : py unit :=
  _ ← require_matching_task i None db;
  _ ← recovery_ensure match route_row i (au_route a) (evidence db) with
                      | Some r => authorized_row i a r && state (ro_state r) | None => false end why;
  _ ← read_route_source i (au_record a) (au_binding a) (evidence db);
  require_no_recovery_successor i a (evidence db).

Definition restore_route (i : TaskIdentity) (a : DurableRecoveryRouteAuthorization) (state : RouteState → bool)
    (why : string) (db : Db) : py (unit * Db) :=
  match update_route i (au_route a) state Issued db with
  | Some db => Ok ((), db)
  | None => recovery_error why
  end.

(** The refund of the budget runs, and is committed in its own file, while the
    transaction on the product database is open.  [commit] is what the product
    database answers to the statements after the refund, [connection.commit()]
    last; an exception rolls the transaction back, not the other ledger. *)
Definition abandon_durable_recovery_route_reservation {B} (migrations : list Migration) (i : TaskIdentity)
    (a : dyn DurableRecoveryRouteAuthorization) (reservation : string) (refund : option (B → py unit * B))
    (commit : py unit) (w : World RecoveryTables * B) : py unit * (World RecoveryTables * B) :=
  let why := "durable recovery route abandonment has drifted" in
  match a with
  | Foreign => (recovery_error "durable recovery route abandonment is invalid", w)
  | Typed a =>
      match (_ ← recovery_ensure (match_digest reservation) "durable recovery route abandonment is invalid";
             db ← open_connection migrations w.1;
             _ ← require_unspent i a (is_reserving reservation) why db; Ok db) with
      | Err e => (Err e, w)
      | Ok db =>
          let refunded := match refund with Some f => f w.2 | None => (Ok (), w.2) end in
          match (_ ← refunded.1; x ← restore_route i a (is_reserving reservation) why db; _ ← commit; Ok x) with
          | Ok (_, db) => (Ok (), (Some db, refunded.2))
          | Err e => (Err e, (w.1, refunded.2))
          end
      end
  end.

Definition release_route (i : TaskIdentity) (a : DurableRecoveryRouteAuthorization) (reservation : string) (db : Db) :
    py (unit * Db) :=
  let why := "durable recovery route release has drifted" in
  _ ← require_unspent i a (is_consumed reservation) why db;
  restore_route i a (is_consumed reservation) why db.

Definition release_durable_recovery_route_authorization (migrations : list Migration) (i : TaskIdentity)
    (a : dyn DurableRecoveryRouteAuthorization) (reservation : string) (w : World RecoveryTables) :
    py unit * World RecoveryTables :=
  match a with
  | Foreign => (recovery_error "durable recovery route release is invalid", w)
  | Typed a =>
      match recovery_ensure (match_digest reservation) "durable recovery route release is invalid" with
      | Err e => (Err e, w)
      | Ok _ => transaction migrations (release_route i a reservation) w
      end
  end.
