(* ===== verification/RouteHistory.v ===== *)
(** * Histories of the recovery routes

    Any sequence of operations of any process on the routes of a repository,
    with writes of other modules between them.  What one operation returns is
    kept, since a reservation of the budget follows it. *)

From stdpp Require Import gmap.
From S2P Require Import Prelude Sha256 Json JsonParse JsonRead FailureRecovery Sqlite Worktree Migrations StateDb.
From S2P Require Import TaskState FailureTables FailureAdmission FailureLedger FailureHistory RecoveryRoutes.
Open Scope Z_scope.

Section System.
Context {B : Type} (migrations : list Migration).

Inductive route_operation :=
  | IssueRoute (i : TaskIdentity) (record : string) (b : FailureBinding) (target : FailureRole)
      (profile route coordinate budget : string) (system : Z) (now : option Z)
  | ConsumeRoute (i : TaskIdentity) (a : DurableRecoveryRouteAuthorization) (reservation : string) (g : RouteTarget)
      (system : Z) (now : option Z)
  | BeginRoute (i : TaskIdentity) (a : DurableRecoveryRouteAuthorization) (reservation : string) (g : RouteTarget)
  | CommitRoute (i : TaskIdentity) (a : DurableRecoveryRouteAuthorization) (reservation : string) (system : Z)
      (now : option Z)
  | AdmitSuccessor (i : TaskIdentity) (a : DurableRecoveryRouteAuthorization) (reservation attempt request : string)
      (system : Z) (now : option Z)
  | AbandonRoute (i : TaskIdentity) (a : DurableRecoveryRouteAuthorization) (reservation : string)
      (refund : option (B → py unit * B)) (commit : py unit)
  | ReleaseRoute (i : TaskIdentity) (a : DurableRecoveryRouteAuthorization) (reservation : string)
  | OtherWrite (db : Db) (new : list RecordRow) (budget : B).

Abbreviation State := (World RecoveryTables * B)%type.

(** Another write: it leaves the routes and their successors alone and may append
    failure records. *)
Definition keep_routes (db db' : Db) (new : list RecordRow) : Db :=
  write (λ t, set_routes (routes (evidence db)) (set_successors (successors (evidence db))
                (set_records (records (evidence db) ++ new) t))) db'.

(** What an operation does with the reservation of its route. *)
Inductive outcome := Grants | Returns | Neither.

Definition on_ok {A} (r : py A) (o : outcome) : outcome := if is_ok r then o else Neither.

Definition run (o : route_operation) (w : State) : outcome * State :=
  match o with
  | IssueRoute i record b target profile route coordinate budget system now =>
      let r := issue_durable_recovery_route_authorization migrations i record (Typed b) (Typed target) profile route
                 coordinate budget system now w.1 in
      (Neither, (r.2, w.2))
  | ConsumeRoute i a reservation g system now =>
      let r := consume_durable_recovery_route_authorization migrations i (Typed a) reservation (Typed g) system now w.1 in
      (on_ok r.1 Grants, (r.2, w.2))
  | BeginRoute i a reservation g =>
      let r := begin_durable_recovery_route_reservation migrations i (Typed a) reservation (Typed g) w.1 in
      (match r.1 with Ok true => Grants | _ => Neither end, (r.2, w.2))
  | CommitRoute i a reservation system now =>
      let r := commit_durable_recovery_route_reservation migrations i (Typed a) reservation system now w.1 in
      (Neither, (r.2, w.2))
  | AdmitSuccessor i a reservation attempt request system now =>
      let r := commit_durable_recovery_route_successor_admission migrations i (Typed a) reservation attempt request
                 system now w.1 in
      (Neither, (r.2, w.2))
  | AbandonRoute i a reservation refund commit =>
      let r := abandon_durable_recovery_route_reservation migrations i (Typed a) reservation refund commit w in
      (on_ok r.1 Returns, r.2)
  | ReleaseRoute i a reservation =>
      let r := release_durable_recovery_route_authorization migrations i (Typed a) reservation w.1 in
      (on_ok r.1 Returns, (r.2, w.2))
  | OtherWrite db new budget => (Neither, (x ← w.1; Some (keep_routes x db new), budget))
  end.

(** The route an operation names. *)
Definition subject (o : route_operation) : option string :=
  match o with
  | ConsumeRoute _ a _ _ _ _ | BeginRoute _ a _ _ | CommitRoute _ a _ _ _ | AdmitSuccessor _ a _ _ _ _ _
  | AbandonRoute _ a _ _ _ | ReleaseRoute _ a _ => Some (au_route a)
  | IssueRoute _ _ _ _ _ _ _ _ _ _ | OtherWrite _ _ _ => None
  end.

Definition run_routes (os : list route_operation) (w : State) : State := foldl (λ w o, (run o w).2) w os.

(** What an operation adds to the reservations held for a route. *)
Definition effect (route : string) (o : route_operation) (w : State) : Z :=
  if subject o ==? Some route then match (run o w).1 with Grants => 1 | Returns => -1 | Neither => 0 end else 0.

Fixpoint balance (route : string) (os : list route_operation) (w : State) : Z :=
  match os with
  | [] => 0
  | o :: os => effect route o w + balance route os (run o w).2
  end.

Definition route_state (route : string) (w : State) : option RouteState :=
  db ← w.1; r ← routes (evidence db) !! route; Some (ro_state r).

(** The reservations held for a route: one while it is not spendable. *)
Definition held (route : string) (w : State) : Z :=
  match route_state route w with
  | None | Some Issued => 0
  | Some (Reserving _) | Some (Consumed _ _) => 1
  end.

(** ** One operation *)

(** The changes of the tables by an operation with this outcome. *)
Inductive route_change (o : route_operation) (t : RecoveryTables) : outcome → RecoveryTables → Prop :=
  | change_none t' :
      routes t' = routes t → successors t' = successors t → records t `prefix_of` records t' → route_change o t Neither t'
  | change_issued i a observed db db' :
      t = evidence db → issue_route i a observed db = Ok (a, db') → route_change o t Neither (evidence db')
  | change_granted route r s :
      subject o = Some route → routes t !! route = Some r → ro_state r = Issued → s ≠ Issued →
      route_change o t Grants (set_routes (<[route := set_state s r]> (routes t)) t)
  | change_committed route r d at_ :
      subject o = Some route → routes t !! route = Some r → ro_state r = Reserving d →
      route_change o t Neither (set_routes (<[route := set_state (Consumed d at_) r]> (routes t)) t)
  | change_admitted route r d at_ s m :
      subject o = Some route → successors t !! route = None → routes t !! route = Some r → su_reservation s = d →
      (ro_state r = Reserving d ∧ m = <[route := set_state (Consumed d at_) r]> (routes t) ∨
       ro_state r = Consumed d at_ ∧ m = routes t) →
      route_change o t Neither (set_routes m (set_successors (<[route := s]> (successors t)) t))
  | change_returned route r :
      subject o = Some route → routes t !! route = Some r → ro_state r ≠ Issued → successors t !! route = None →
      route_change o t Returns (set_routes (<[route := set_state Issued r]> (routes t)) t).

Lemma update_route_ok i route from to db db' : update_route i route from to db = Some db' →
  ∃ r, routes (evidence db) !! route = Some r ∧ from (ro_state r) = true ∧
       evidence db' = set_routes (<[route := set_state to r]> (routes (evidence db))) (evidence db).
Proof.
  unfold update_route, route_row. destruct (routes (evidence db) !! route) as [r|] eqn:Hr; [|done]. cbn.
  case_bool_decide; [|done]. cbn. destruct (from (ro_state r)) eqn:Hf; [|done]. intros [= <-]. by exists r.
Qed.
Lemma commit_route_ok i a d at_ db db' : commit_route i a d at_ db = Ok db' →
  ∃ r, routes (evidence db) !! au_route a = Some r ∧
    (ro_state r = Reserving d ∧
       evidence db' = set_routes (<[au_route a := set_state (Consumed d at_) r]> (routes (evidence db))) (evidence db) ∨
     db' = db ∧ ∃ at_', ro_state r = Consumed d at_').
Proof.
  unfold commit_route. destruct (update_route i (au_route a) (is_reserving d) (Consumed d at_) db) as [x|] eqn:H.
  - intros [= <-]. apply update_route_ok in H as (r & Hr & Hs & H). exists r. split; [done|left].
    unfold is_reserving in Hs. by breflect.
  - intros ([] & Hs & [= ->])%bind_ok. unfold recovery_ensure in Hs. apply require_ok in Hs. unfold route_row in Hs.
    destruct (routes (evidence db') !! au_route a) as [r|] eqn:Hr; [|done]. cbn in Hs.
    case_bool_decide; [|done]. exists r. split; [done|right]. split; [done|].
    unfold is_consumed in Hs. destruct (ro_state r) as [| |d' at_']; try done. breflect. subst. by exists at_'.
Qed.

Lemma unspent_ok i a state why db : require_unspent i a state why db = Ok () →
  successors (evidence db) !! au_route a = None.
Proof.
  unfold require_unspent. intros (? & _ & H)%bind_ok. apply bind_ok in H as ([] & _ & H).
  apply bind_ok in H as (? & _ & H). unfold require_no_recovery_successor in H. apply bind_ok in H as ([] & H & _).
  unfold recovery_ensure in H. apply require_ok in H. by destruct (successors _ !! _).
Qed.

Lemma restore_route_ok i a state why db x : restore_route i a state why db = Ok x →
  ∃ r, routes (evidence db) !! au_route a = Some r ∧ state (ro_state r) = true ∧
       evidence x.2 = set_routes (<[au_route a := set_state Issued r]> (routes (evidence db))) (evidence db).
Proof.
  unfold restore_route. destruct (update_route _ _ _ _ _) as [db'|] eqn:H; [|done]. intros [= <-].
  by apply update_route_ok in H.
Qed.

Lemma transaction_world {A} (body : Db → py (A * Db)) db :
  ∃ db', (transaction migrations body (Some db)).2 = Some db' ∧
    ((∃ e, (transaction migrations body (Some db)).1 = Err e) ∧ db' = db ∨
     ∃ a, (transaction migrations body (Some db)).1 = Ok a ∧ body db = Ok (a, db')).
Proof.
  destruct (transaction_cases migrations body (Some db)) as [[e ->]|(x & a & x' & [= <-] & _ & Hb & ->)]; cbn;
    [exists db; eauto|exists x'; eauto].
Qed.

Lemma change_same o t : route_change o t Neither t.
Proof. by apply change_none. Qed.

Lemma consume_route_change o i a d g n db db' :
  subject o = Some (au_route a) → consume_route i a d g n db = Ok ((), db') →
  route_change o (evidence db) Grants (evidence db').
Proof.
  intros Ho. unfold consume_route. intros (? & _ & H)%bind_ok. do 2 apply bind_ok in H as (? & _ & H).
  apply bind_ok in H as (at_ & _ & H). destruct (update_route _ _ _ _ _) as [u|] eqn:Hu; [|done]. injection H as <-.
  apply update_route_ok in Hu as (r & Hr & Hs & ->). unfold is_issued in Hs. breflect. by apply change_granted.
Qed.

Lemma begin_route_change o i a d g db b db' :
  subject o = Some (au_route a) → begin_route i a d g db = Ok (b, db') →
  route_change o (evidence db) (if b then Grants else Neither) (evidence db').
Proof.
  intros Ho. unfold begin_route. intros (? & _ & H)%bind_ok. destruct (route_row _ _ _) as [row|]; [|done].
  do 3 apply bind_ok in H as (? & _ & H). destruct (is_issued _).
  - destruct (update_route _ _ _ _ _) as [u|] eqn:Hu; [|done]. injection H as <- <-.
    apply update_route_ok in Hu as (r & Hr & Hs & ->). unfold is_issued in Hs. breflect. by apply change_granted.
  - destruct (is_reserving _ _); [|done]. injection H as <- <-. apply change_same.
Qed.

Lemma commit_route_change o i a d at_ db db' :
  subject o = Some (au_route a) → commit_route i a d at_ db = Ok db' →
  route_change o (evidence db) Neither (evidence db').
Proof.
  intros Ho (r & Hr & [[Hs ->]|[-> _]])%commit_route_ok; [|apply change_same]. by eapply change_committed.
Qed.

Lemma commit_reservation_change o i a d n db db' :
  subject o = Some (au_route a) → commit_reservation i a d n db = Ok ((), db') →
  route_change o (evidence db) Neither (evidence db').
Proof.
  intros Ho. unfold commit_reservation. intros (? & _ & H)%bind_ok. apply bind_ok in H as (? & _ & H).
  apply bind_ok in H as (at_ & _ & H). apply bind_ok in H as (u & H & [= ->]). by eapply commit_route_change.
Qed.

Lemma insert_successor_ok route s t t' : insert_successor route s t = Ok t' →
  successors t !! route = None ∧ t' = set_successors (<[route := s]> (successors t)) t.
Proof.
  unfold insert_successor. intros (? & _ & H)%bind_ok. do 2 apply bind_ok in H as (? & _ & H).
  by apply bind_ok in H as (m & [? ->]%insert_row_ok & [= <-]).
Qed.

(** The successor row and the state of the route after its admission. *)
Lemma admit_successor_ok i a d attempt request n db db' : admit_successor i a d attempt request n db = Ok ((), db') →
  ∃ at_ s, su_reservation s = d ∧ su_attempt s = attempt ∧ su_request s = request ∧ su_task s = task_id i ∧
    ((successors (evidence db) !! au_route a = Some s ∧ commit_route i a d at_ db = Ok db') ∨
     (successors (evidence db) !! au_route a = None ∧
      commit_route i a d at_ (set_evidence (set_successors (<[au_route a := s]> (successors (evidence db))) (evidence db)) db)
        = Ok db')).
Proof.
  unfold admit_successor. intros (? & _ & H)%bind_ok. apply bind_ok in H as (? & _ & H).
  apply bind_ok in H as (u & Hx & H). apply bind_ok in H as (at_ & _ & H). apply bind_ok in H as (v & H & [= <-]).
  destruct (successors (evidence db) !! au_route a) as [s|] eqn:Hs.
  - apply bind_ok in Hx as ([] & He & [= <-]). unfold recovery_ensure, same_successor in He. cbn in He.
    apply require_ok in He. breflect. exists at_, s. naive_solver.
  - apply bind_ok in Hx as (at' & _ & Hx). apply bind_ok in Hx as (t & [_ ->]%insert_successor_ok & [= <-]).
    eexists at_, _. split_and!; [..|right; split; [done|exact H]]; done.
Qed.

Lemma admit_successor_change o i a d attempt request n db db' :
  subject o = Some (au_route a) → admit_successor i a d attempt request n db = Ok ((), db') →
  route_change o (evidence db) Neither (evidence db').
Proof.
  intros Ho (at_ & s & <- & _ & _ & _ & [[Hs H]|[Hs H]])%admit_successor_ok; [by eapply commit_route_change|].
  apply commit_route_ok in H as (r & Hr & [[Hst ->]|[-> [at' Hst]]]); cbn in *.
  - eapply (change_admitted o _ (au_route a) r _ at_ s); eauto.
  - eapply (change_admitted o (evidence db) (au_route a) r _ at' s (routes (evidence db))); eauto.
Qed.

Lemma returned_change o i a state why db x :
  subject o = Some (au_route a) → (∀ s, state s = true → s ≠ Issued) →
  require_unspent i a state why db = Ok () → restore_route i a state why db = Ok x →
  route_change o (evidence db) Returns (evidence x.2).
Proof.
  intros Ho Hst Hu%unspent_ok (r & Hr & Hs & ->)%restore_route_ok. apply change_returned; auto.
Qed.
Lemma open_connection_same (db x : Db) : open_connection migrations (Some db) = Ok x → x = db.
Proof. unfold open_connection. by intros (? & _ & [= ->])%bind_ok. Qed.

(** Both states of a transaction whose body changes the routes as said. *)
Lemma transaction_change {A} o (body : Db → py (A * Db)) (out : py A → outcome) db :
  (∀ e, out (Err e) = Neither) →
  (∀ a db', body db = Ok (a, db') → route_change o (evidence db) (out (Ok a)) (evidence db')) →
  ∃ db', (transaction migrations body (Some db)).2 = Some db' ∧
    route_change o (evidence db) (out (transaction migrations body (Some db)).1) (evidence db').
Proof.
  intros Hout Hbody. destruct (transaction_world body db) as (db' & Hw & [[[e He] ->]|(a & He & Hb)]); rewrite He;
    eexists; (split; [exact Hw|]); [rewrite Hout; apply change_same|by apply Hbody].
Qed.

Lemma issue_route_same i a observed db a' db' : issue_route i a observed db = Ok (a', db') → a' = a.
Proof.
  unfold issue_route. intros (? & _ & H)%bind_ok. do 5 apply bind_ok in H as (? & _ & H).
  destruct (routes _ !! _); by apply bind_ok in H as (? & _ & [= <- _]).
Qed.

Lemma run_change o db b : ∃ db', (run o (Some db, b)).2.1 = Some db' ∧
  route_change o (evidence db) (run o (Some db, b)).1 (evidence db').
Proof.
  assert (∃ db', Some db = Some db' ∧ route_change o (evidence db) Neither (evidence db')) as Hsame
    by (eexists; split; [done|apply change_same]).
  destruct o as [i record fb target profile route coordinate budget system now|i a d g system now|i a d g
                |i a d system now|i a d attempt request system now|i a d refund commit|i a d|db' new b']; cbn [run fst snd].
  - unfold issue_durable_recovery_route_authorization. destruct (_ ← _; _) as [observed|]; [|done]. cbn [fst snd].
    match goal with |- context [transaction migrations ?f (Some db)] => apply (transaction_change _ f (λ _, Neither) db) end;
      [done|]. intros u db' H. apply (change_issued _ _ i u observed db); [done|].
    pose proof (issue_route_same _ _ _ _ _ _ H) as ->. exact H.
  - unfold consume_durable_recovery_route_authorization. case_match; [|done].
    apply (transaction_change _ _ (λ r, on_ok r Grants)); [done|]. intros [] db'. by apply consume_route_change.
  - unfold begin_durable_recovery_route_reservation. case_match; [|done].
    apply (transaction_change _ _ (λ r, match r with Ok true => Grants | _ => Neither end)); [done|].
    intros r db' Hb. apply (begin_route_change (BeginRoute i a d g)) in Hb; [|done]. by destruct r.
  - unfold commit_durable_recovery_route_reservation. case_match; [|done].
    apply (transaction_change _ _ (λ _, Neither)); [done|]. intros [] db'. by apply commit_reservation_change.
  - unfold commit_durable_recovery_route_successor_admission. case_match; [|done].
    apply (transaction_change _ _ (λ _, Neither)); [done|]. intros [] db'. by apply admit_successor_change.
  - unfold abandon_durable_recovery_route_reservation. cbn [fst snd].
    destruct (_ ← _; _) as [x|e] eqn:Hc; [|done].
    apply bind_ok in Hc as (? & _ & Hc). apply bind_ok in Hc as (x' & Ho & Hc).
    apply open_connection_same in Ho as ->. apply bind_ok in Hc as ([] & Hu & [= <-]).
    generalize match refund with Some f => f b | None => (Ok (), b) end. intros rf.
    destruct (_ ← _; _) as [[u db']|e] eqn:Hr; [|done]. apply bind_ok in Hr as (? & _ & Hr).
    apply bind_ok in Hr as (u' & Hr & Hx). apply bind_ok in Hx as (? & _ & [= ->]).
    exists db'. split; [done|]. eapply (returned_change _ i a (is_reserving d) _ db (u, db')); [done| |done..].
    unfold is_reserving. intros s. breflect. congruence.
  - unfold release_durable_recovery_route_authorization. case_match; [|done].
    apply (transaction_change _ _ (λ r, on_ok r Returns)); [done|]. intros [] db' Hb. unfold release_route in Hb.
    apply bind_ok in Hb as ([] & Hu & Hb). eapply (returned_change _ i a (is_consumed d) _ db ((), db')); [done| |done..].
    by intros [].
  - eexists. split; [done|]. apply change_none; [done..|]. cbn. by eexists.
Qed.
Lemma run_without_database o b : (run o (None, b)).1 = Neither ∧ (run o (None, b)).2.1 = None.
Proof.
  destruct o; cbn [run fst snd]; unfold issue_durable_recovery_route_authorization,
    consume_durable_recovery_route_authorization, begin_durable_recovery_route_reservation,
    commit_durable_recovery_route_reservation, commit_durable_recovery_route_successor_admission,
    abandon_durable_recovery_route_reservation, release_durable_recovery_route_authorization; cbn;
    try (by repeat (done || case_match)).
  by destruct (recovery_ensure _ _).
Qed.

(** ** Held reservations *)

Definition row_held (o : option RouteRow) : Z :=
  match ro_state <$> o with None | Some Issued => 0 | _ => 1 end.

Lemma held_row route w db : w.1 = Some db → held route w = row_held (routes (evidence db) !! route).
Proof. destruct w as [w b]. cbn. intros ->. unfold held, row_held, route_state. cbn. by destruct (routes (evidence db) !! route). Qed.

Lemma held_none route w : w.1 = None → held route w = 0.
Proof. destruct w as [w b]. cbn. by intros ->. Qed.

Lemma issue_route_routes i a observed db a' db' route : issue_route i a observed db = Ok (a', db') →
  routes (evidence db') !! route = routes (evidence db) !! route ∨
  routes (evidence db) !! route = None ∧ ∃ r, routes (evidence db') !! route = Some r ∧ ro_state r = Issued.
Proof.
  unfold issue_route. intros (? & _ & H)%bind_ok. do 5 apply bind_ok in H as (? & _ & H).
  destruct (routes (evidence db) !! au_route a) eqn:Hr; apply bind_ok in H as (? & _ & [= _ <-]); [by left|].
  destruct (decide (au_route a = route)) as [<-|Hn].
  - right. split; [done|]. eexists. cbn. by rewrite lookup_insert_eq.
  - left. cbn. by rewrite lookup_insert_ne.
Qed.

Lemma change_held o t out t' route : route_change o t out t' →
  row_held (routes t' !! route) = row_held (routes t !! route) +
    (if subject o ==? Some route then match out with Grants => 1 | Returns => -1 | Neither => 0 end else 0).
Proof.
  intros [t2 -> _ _|i a observed db db' -> Hi|r0 r s -> Hr Hs Hn|r0 r d at_ -> Hr Hs|r0 r d at_ s m -> _ Hr _ Hm|r0 r -> Hr Hs _];
    cbn.
  - destruct (bool_decide _); lia.
  - apply (issue_route_routes _ _ _ _ _ _ route) in Hi as [->|(-> & r & -> & Hs)];
      [|unfold row_held; cbn; rewrite Hs]; destruct (bool_decide _); lia.
  - case_bool_decide as He; [injection He as ->; rewrite lookup_insert_eq, Hr|rewrite lookup_insert_ne by congruence; lia].
    unfold row_held. cbn. rewrite Hs. by destruct s.
  - case_bool_decide as He; [injection He as ->; rewrite lookup_insert_eq, Hr|rewrite lookup_insert_ne by congruence; lia].
    unfold row_held. cbn. by rewrite Hs.
  - destruct Hm as [[Hs ->]|[Hs ->]]; [|by destruct (bool_decide _); lia].
    case_bool_decide as He; [injection He as ->; rewrite lookup_insert_eq, Hr|rewrite lookup_insert_ne by congruence; lia].
    unfold row_held. cbn. by rewrite Hs.
  - case_bool_decide as He; [injection He as ->; rewrite lookup_insert_eq, Hr|rewrite lookup_insert_ne by congruence; lia].
    unfold row_held. cbn. by destruct (ro_state r).
Qed.

(** The same of a state that is not taken apart. *)
Lemma run_cases o w :
  (run o w).1 = Neither ∧ w.1 = None ∧ (run o w).2.1 = None ∨
  ∃ db db', w.1 = Some db ∧ (run o w).2.1 = Some db' ∧ route_change o (evidence db) (run o w).1 (evidence db').
Proof.
  destruct w as [[db|] b].
  - right. destruct (run_change o db b) as (db' & ? & ?). by exists db, db'.
  - left. destruct (run_without_database o b). done.
Qed.

Lemma held_step route o w : held route (run o w).2 = held route w + effect route o w.
Proof.
  unfold effect. destruct (run_cases o w) as [(Ho & Hw & Hw')|(db & db' & Hw & Hw' & Hc)].
  - rewrite (held_none _ _ Hw), (held_none _ _ Hw'), Ho. by case_match.
  - apply (change_held _ _ _ _ route) in Hc. by rewrite (held_row _ _ _ Hw), (held_row _ _ _ Hw'), Hc.
Qed.

(** C10 : the reservations of a route are counted exactly.  Over any sequence of
    operations of any process, the calls that granted a reservation of the route
    (the only ones after which the budget is debited) less those that gave one
    back is the change of what its row says is held, which is none or one.  So a
    route never has two reservations, and none is given back twice. *)
Theorem reservations_balance route os w :
  held route (run_routes os w) = held route w + balance route os w ∧
  0 ≤ held route w + balance route os w ≤ 1.
Proof.
  assert (held route (run_routes os w) = held route w + balance route os w) as H.
  { revert w. induction os as [|o os IH]; intros w; cbn; [lia|]. fold (run_routes os (run o w).2).
    rewrite IH, held_step. lia. }
  rewrite <- H. split; [done|]. unfold held. by repeat case_match.
Qed.
(** ** A route with a successor *)

Definition frozen (route : string) (d : string) (s : SuccessorRow) (t : RecoveryTables) : Prop :=
  successors t !! route = Some s ∧ ∃ r at_, routes t !! route = Some r ∧ ro_state r = Consumed d at_.

Lemma issue_route_others i a observed db a' db' : issue_route i a observed db = Ok (a', db') →
  successors (evidence db') = successors (evidence db) ∧ records (evidence db') = records (evidence db).
Proof.
  unfold issue_route. intros (? & _ & H)%bind_ok. do 5 apply bind_ok in H as (? & _ & H).
  destruct (routes (evidence db) !! au_route a); by apply bind_ok in H as (? & _ & [= _ <-]).
Qed.

(** Nothing changes at a route with a successor, and no operation on it grants
    or returns its reservation. *)
Lemma change_frozen o t out t' route d s : route_change o t out t' → frozen route d s t →
  frozen route d s t' ∧ (subject o = Some route → out = Neither).
Proof.
  intros Hc (Hf & r1 & at1 & Hr1 & Hs1).
  assert (∀ route0 r0 r' m, routes t !! route0 = Some r0 → ro_state r0 ≠ Consumed d at1 → m = successors t →
    frozen route d s (set_routes (<[route0 := r']> (routes t)) (set_successors m t)) ∧ route0 ≠ route) as Hother.
  { intros route0 r0 r' m Hr0 Hn ->. assert (route0 ≠ route) as Hne by (intros ->; congruence). split; [|done].
    split; [done|]. exists r1, at1. cbn. by rewrite lookup_insert_ne. }
  destruct Hc as [t2 Hr Hs _|i a observed db db' -> Hi|r0 r s' Ho Hr Hs Hn|r0 r d' at_ Ho Hr Hs
                 |r0 r d' at_ s' m Ho Hs' Hr _ Hm|r0 r Ho Hr Hs Hs'].
  - split; [|done]. split; [by rewrite Hs|]. exists r1, at1. by rewrite Hr.
  - split; [|done]. pose proof (issue_route_others _ _ _ _ _ _ Hi) as [Hs _]. split; [by rewrite Hs|]. exists r1, at1.
    destruct (issue_route_routes _ _ _ _ _ _ route Hi) as [->|[Hx _]]; [done|congruence].
  - destruct (Hother r0 r (set_state s' r) _ Hr ltac:(congruence) eq_refl). split; [done|rewrite Ho; by intros [= ->]].
  - destruct (Hother r0 r (set_state (Consumed d' at_) r) _ Hr ltac:(congruence) eq_refl). split; [done|rewrite Ho; by intros [= ->]].
  - assert (r0 ≠ route) as Hne by (intros ->; congruence). split; [|done]. split; [cbn; by rewrite lookup_insert_ne|].
    exists r1, at1. destruct Hm as [[_ ->]|[_ ->]]; cbn; [by rewrite lookup_insert_ne|done].
  - assert (r0 ≠ route) as Hne by (intros ->; congruence). split; [|intros; congruence]. split; [done|].
    exists r1, at1. cbn. by rewrite lookup_insert_ne.
Qed.

Lemma run_frozen o (w : State) db route d s : w.1 = Some db → frozen route d s (evidence db) →
  effect route o w = 0 ∧ ∃ db', (run o w).2.1 = Some db' ∧ frozen route d s (evidence db').
Proof.
  intros Hw Hf. destruct (run_cases o w) as [(_ & Hn & _)|(x & db' & Hx & Hw' & Hc)];
    [by rewrite Hw in Hn|]. rewrite Hw in Hx. injection Hx as <-. destruct (change_frozen _ _ _ _ _ _ _ Hc Hf) as [Hf' Hout].
  split; [|by exists db']. unfold effect. case_bool_decide as Hs; [|done]. by rewrite Hout.
Qed.

Lemma routes_frozen os (w : State) db route d s : w.1 = Some db → frozen route d s (evidence db) →
  ∃ db', (run_routes os w).1 = Some db' ∧ frozen route d s (evidence db').
Proof.
  revert w db. induction os as [|o os IH]; intros w db Hw Hf; cbn; [by exists db|].
  destruct (run_frozen o _ _ _ _ _ Hw Hf) as (_ & db' & Hw' & Hf'). by apply (IH _ db').
Qed.

(** C13 : a route that has a successor is spent for good.  Once the call that
    admits the successor has returned, then after any operations of any process
    the successor's row is still that of this attempt and request, the route is
    consumed by this reservation, and no operation grants or returns a
    reservation of it. *)
Theorem admitted_route_stays_spent i a d attempt request system now w os :
  let admitted := commit_durable_recovery_route_successor_admission migrations i (Typed a) d attempt request system now
                    w.1 in
  is_ok admitted.1 = true →
  let w' := run_routes os (admitted.2, w.2) in
  ∃ db s r at_, w'.1 = Some db ∧ successors (evidence db) !! au_route a = Some s ∧
    su_attempt s = attempt ∧ su_request s = request ∧ su_reservation s = d ∧
    routes (evidence db) !! au_route a = Some r ∧ ro_state r = Consumed d at_ ∧
    ∀ o, effect (au_route a) o w' = 0.
Proof.
  cbn zeta. unfold commit_durable_recovery_route_successor_admission. destruct (_ ← _; _) as [observed|]; [|done].
  match goal with |- context [transaction _ ?f w.1] => destruct (transaction_cases migrations f w.1)
    as [[e ->]|(db & [] & db' & _ & _ & Hb & ->)] end; [done|]. intros _.
  apply admit_successor_ok in Hb as (at_ & s & <- & <- & <- & _ & Hb). cbn [fst snd].
  assert (frozen (au_route a) (su_reservation s) s (evidence db')) as Hf.
  { destruct Hb as [[Hs H]|[Hs H]]; apply commit_route_ok in H as (r & Hr & [[Hst H]|[-> [at' Hst]]]).
    - rewrite H. split; [done|]. eexists _, _. split; [apply lookup_insert_eq|done].
    - split; [done|]. by exists r, at'.
    - rewrite H. split; [cbn; apply lookup_insert_eq|]. eexists _, _. split; [apply lookup_insert_eq|done].
    - split; [cbn; apply lookup_insert_eq|]. by exists r, at'. }
  destruct (routes_frozen os (Some db', w.2) db' _ _ _ eq_refl Hf) as (x & Hw & Hx).
  pose proof Hx as (Hs & r & at' & Hr & Hst). exists x, s, r, at'. split_and!; try done.
  intros o. by apply (run_frozen o _ x (au_route a) (su_reservation s) s).
Qed.
(** ** What routes come from *)

(** A stored record of the route's task that verified evidence made a retryable
    fallback, of the attempt that the route names. *)
Definition justified (t : RecoveryTables) (r : RouteRow) : Prop :=
  ∃ row f, row ∈ records t ∧ rr_task row = ro_task r ∧ rr_digest row = ro_record r ∧
    (loads (rr_json row) ≫= parse_failure_record) = Ok f ∧ record_digest f = ro_record r ∧
    require_failure_compatibility f = Ok () ∧ record_schema f = V3 ∧ evidence_confidence f = C_VERIFIED ∧
    failure f ≠ UNKNOWN ∧ action f = PREBOUND_FALLBACK ∧ retryable f = true ∧
    ro_binding r = binding_text (binding f) ∧ ro_role r = FailureRole_value (role (binding f)) ∧
    (failure f = FORMAT_INVALID → role (binding f) = SUPERVISOR ∧ ro_profile r = profile_identity (binding f)).

Lemma except_undecodable_ok {A} why (m : py A) x : except_undecodable why m = Ok x → m = Ok x.
Proof. unfold except_undecodable. by repeat case_match. Qed.

Lemma read_route_source_ok i record b t f : read_route_source i record b t = Ok f →
  ∃ row, row ∈ records t ∧ rr_task row = task_id i ∧ rr_digest row = record ∧
    (loads (rr_json row) ≫= parse_failure_record) = Ok f ∧ record_digest f = record ∧ binding f = b ∧
    require_failure_compatibility f = Ok () ∧ record_schema f = V3 ∧ evidence_confidence f = C_VERIFIED ∧
    failure f ≠ UNKNOWN ∧ require_attempt_admission i b t = Ok ().
Proof.
  unfold read_route_source, task_record. destruct (List.find _ (records t)) as [row|] eqn:Hrow; [|done].
  intros (x & Hx%except_undecodable_ok & H)%bind_ok. apply bind_ok in H as ([] & H1 & H).
  apply bind_ok in H as ([] & H2 & H). apply bind_ok in H as ([] & H3 & H). apply bind_ok in H as ([] & H4 & [= <-]).
  unfold recovery_ensure in H1, H3. apply require_ok in H1, H3. apply List.find_some in Hrow as [Hin Heq].
  apply list_elem_of_In in Hin. exists row. breflect. naive_solver.
Qed.

Lemma justified_grows t t' r : records t `prefix_of` records t' → justified t r → justified t' r.
Proof.
  intros [l Hl] (row & f & Hin & H). exists row, f. split; [|done]. rewrite Hl. by apply elem_of_app; left.
Qed.

Lemma justified_state t r s : justified t r → justified t (set_state s r).
Proof. done. Qed.

Lemma issue_route_justified i a observed db a' db' : issue_route i a observed db = Ok (a', db') →
  ∃ r, justified (evidence db) r ∧
    (routes (evidence db') = routes (evidence db) ∨
     routes (evidence db') = <[au_route a := r]> (routes (evidence db))).
Proof.
  unfold issue_route. intros (? & _ & H)%bind_ok. apply bind_ok in H as (f & Hf & H).
  apply bind_ok in H as ([] & He & H). apply bind_ok in H as ([] & Hfmt & H). do 2 apply bind_ok in H as (? & _ & H).
  unfold recovery_ensure in He, Hfmt. apply require_ok in He, Hfmt. rewrite negb_true_iff in Hfmt.
  breflect. destruct He as [[Ha Hr] Hrole].
  apply read_route_source_ok in Hf as (row & Hin & Ht & Hd & Hp & Hrd & Hb & Hc & Hs & Hv & Hu & _).
  assert (∀ at_ st, justified (evidence db)
    {| ro_task := task_id i; ro_repository := repository_id i; ro_record := au_record a;
       ro_binding := binding_text (au_binding a); ro_role := FailureRole_value (au_role a); ro_profile := au_profile a;
       ro_target := au_target a; ro_coordinate := au_coordinate a; ro_budget := au_budget a; ro_issued := at_;
       ro_state := st |}) as Hj.
  { intros at_ st. exists row, f. cbn. rewrite Hrole, Hb. naive_solver. }
  destruct (routes (evidence db) !! au_route a); apply bind_ok in H as (at_ & _ & [= _ <-]);
    eexists; [split; [apply (Hj 0 Issued)|by left]|split; [apply (Hj at_ Issued)|by right]].
Qed.

Definition all_justified (t : RecoveryTables) : Prop := map_Forall (λ _, justified t) (routes t).

Lemma change_justified o t out t' : route_change o t out t' → all_justified t → all_justified t'.
Proof.
  intros [t2 Hr _ Hp|i a observed db db' -> Hi|r0 r s _ Hr Hs Hn|r0 r d at_ _ Hr Hs
    |r0 r d at_ s m _ _ Hr _ Hm|r0 r _ Hr Hs _] Hj;
    unfold all_justified in *; cbn.
  - rewrite Hr. eapply map_Forall_impl; [exact Hj|]. intros k x. by apply justified_grows.
  - pose proof (issue_route_others _ _ _ _ _ _ Hi) as [_ Hrec].
    apply issue_route_justified in Hi as (r & Hx & Hroutes).
    assert (∀ x, justified (evidence db) x → justified (evidence db') x) as Hg
      by (intros x; apply justified_grows; by rewrite Hrec).
    destruct Hroutes as [->| ->]; [|apply map_Forall_insert_2; [by apply Hg|]];
      (eapply map_Forall_impl; [exact Hj|]); auto.
  - apply map_Forall_insert_2; [|done]. apply justified_state. by apply (Hj r0).
  - apply map_Forall_insert_2; [|done]. apply justified_state. by apply (Hj r0).
  - destruct Hm as [[_ ->]|[_ ->]]; [|done]. apply map_Forall_insert_2; [|done]. apply justified_state. by apply (Hj r0).
  - apply map_Forall_insert_2; [|done]. apply justified_state. by apply (Hj r0).
Qed.

(** every route of a repository that had none comes from a decision.
    After any operations of any process, the row of a route names a stored record
    of its own task that verified evidence made a retryable fallback, and carries
    the binding and the role of the attempt that failed; a format correction is a
    supervisor's and keeps its profile. *)
Theorem routes_are_justified db b os db' route r :
  routes (evidence db) = ∅ → (run_routes os (Some db, b)).1 = Some db' →
  routes (evidence db') !! route = Some r → justified (evidence db') r.
Proof.
  intros Hempty. assert (all_justified (evidence db)) as Hj by (unfold all_justified; rewrite Hempty; apply map_Forall_empty).
  clear Hempty. intros Hw Hr. revert db b Hj Hw. induction os as [|o os IH]; intros db b Hj; cbn.
  - intros [= <-]. by apply (Hj route).
  - destruct (run_change o db b) as (x & Hx & Hc). destruct (run o (Some db, b)) as [out [w1 b1]]. cbn in Hx |- *. subst w1.
    apply IH. by eapply change_justified.
Qed.
End System.
Arguments route_operation : clear implicits.

Module Sample.

Import FailureHistory.Sample.

Definition failed : FailureRecord := matrix_record denied TRANSIENT_SERVICE VERIFIED_SERVICE C_VERIFIED.
Definition failed_digest : string := Eval vm_compute in record_digest failed.

Definition failed_row : RecordRow :=
  {| rr_digest := failed_digest; rr_task := "task-1"; rr_json := record_text failed; rr_at := 1000 |}.

Definition start : Db := sample (tables (str_repeat "c" 40) [failed_row] []).

Definition route : DurableRecoveryRouteAuthorization := Eval vm_compute in
  make_authorization failed_digest denied DEPENDENCY_REVIEW (hex "3") (hex "8") (hex "9") (hex "a").

Definition target : RouteTarget :=
  {| tg_role := DEPENDENCY_REVIEW; tg_profile := hex "3"; tg_route := hex "8"; tg_coordinate := hex "9"; tg_budget := hex "a" |}.

Definition issue : route_operation unit :=
  IssueRoute identity failed_digest denied DEPENDENCY_REVIEW (hex "3") (hex "8") (hex "9") (hex "a") 1000 None.

Definition begun : World RecoveryTables * unit :=
  run_routes migrations [issue; BeginRoute identity route (hex "b") target] (Some start, ()).

Lemma admitted_route_stays_spent_witness :
  let w' := run_routes migrations [ReleaseRoute identity route (hex "b")]
              ((commit_durable_recovery_route_successor_admission migrations identity (Typed route) (hex "b") "attempt-2" (hex "e")
                 1001 None begun.1).2, begun.2) in
  ∃ db s r at_, w'.1 = Some db ∧ successors (evidence db) !! au_route route = Some s ∧
    su_attempt s = "attempt-2" ∧ su_request s = hex "e" ∧ su_reservation s = hex "b" ∧
    routes (evidence db) !! au_route route = Some r ∧ ro_state r = Consumed (hex "b") at_ ∧
    ∀ o, effect migrations (au_route route) o w' = 0.
Proof.
  apply (admitted_route_stays_spent migrations identity route (hex "b") "attempt-2" (hex "e") 1001 None begun).
  vm_compute. reflexivity.
Defined.

Definition issued : World RecoveryTables * unit := run_routes migrations [issue] (Some start, ()).

Lemma issued_route : is_Some (db ← issued.1; r ← routes (evidence db) !! au_route route; Some (db, r)).
Proof. vm_compute. by eexists. Qed.

Lemma routes_are_justified_witness : ∃ db' r, issued.1 = Some db' ∧ routes (evidence db') !! au_route route = Some r ∧
  justified (evidence db') r.
Proof.
  destruct issued_route as [[x r] (db' & Hdb & (r' & Hr & _)%bind_Some)%bind_Some]. exists db', r'. split_and!; [done|done|].
  exact (routes_are_justified migrations start () _ db' (au_route route) r' eq_refl Hdb Hr).
Defined.

End Sample.
