(* ===== verification/ProviderIntents.v ===== *)
(** * Reservation intents of provider effects (src/roundwright/failure_recovery.py)

    Before a provider attempt that no recovery route authorizes debits the
    budget, an intent with the reservation's digest is written; it is retired
    when the attempt exists, and given back with the debit when it never will.
    The budget ledger [B] is reached through the call the code makes. *)

From stdpp Require Import gmap.
From S2P Require Import Prelude Sha256 Json JsonParse JsonRead FailureRecovery Sqlite Worktree Migrations StateDb.
From S2P Require Import TaskState FailureTables FailureAdmission FailureLedger.
Open Scope Z_scope.

Definition intent_scope (r : FailureRole) (i : TaskIdentity) : string :=
  String.concat ":" [FailureRole_value r; task_id i].

Definition provider_intent_role (i : TaskIdentity) (scope : string) : option FailureRole :=
  List.find (λ r, scope ==? intent_scope r i) [SUPERVISOR; DEPENDENCY_REVIEW].

(** The attempt row that the code compares with a tuple: a supervisor attempt
    that was prepared and has no results yet. *)
Definition fresh_attempt (i : TaskIdentity) (a : AttemptRow) : bool :=
  all_true [pa_task a ==? task_id i; pa_role a ==? "supervisor"; pa_state a ==? "prepared"; pa_session a ==? None;
            pa_turn a ==? None; pa_output a ==? None; pa_completion a ==? None; pa_review a ==? None].

Definition prepared_attempt (i : TaskIdentity) (a : AttemptRow) : bool :=
  all_true [pa_task a ==? task_id i; pa_role a ==? "supervisor"; pa_state a ==? "prepared"].

Definition prepared_review (i : TaskIdentity) (a : ReviewAttemptRow) : bool :=
  (ra_task a ==? task_id i) && (ra_state a ==? "prepared").

Definition present {V} (o : option V) : bool := match o with Some _ => true | None => false end.

(** The claim of an attempt, in the table of its role. *)
Definition claimed (r : FailureRole) (attempt : string) (p : ProviderTables) : bool :=
  match r with
  | SUPERVISOR => present (dispatch_claims p !! attempt)
  | _ => present (review_claims p !! attempt)
  end.

Definition satisfies {V} (absent : bool) (f : V → bool) (o : option V) : bool :=
  match o with Some v => f v | None => absent end.

(** [successor is not None and successor != expected] fails. *)
Definition no_other_successor (i : TaskIdentity) (r : FailureRole) (attempt : string) (p : ProviderTables) : bool :=
  match r with
  | SUPERVISOR => satisfies true (fresh_attempt i) (provider_attempts p !! attempt)
  | _ => satisfies true (prepared_review i) (review_attempts p !! attempt)
  end.

Definition prepared_successor (i : TaskIdentity) (r : FailureRole) (attempt : string) (p : ProviderTables) : bool :=
  match r with
  | SUPERVISOR => satisfies false (prepared_attempt i) (provider_attempts p !! attempt)
  | _ => satisfies false (prepared_review i) (review_attempts p !! attempt)
  end.

(** Any row of the attempt in the tables the release looks at. *)
Definition occupied (r : FailureRole) (attempt : string) (p : ProviderTables) : bool :=
  match r with
  | SUPERVISOR =>
      existsb id [present (provider_attempts p !! attempt); present (dispatch_claims p !! attempt);
                  present (session_checkpoints p !! attempt); bool_decide (attempt ∈ completion_outputs p);
                  bool_decide (attempt ∈ diff_review_providers p)]
  | _ =>
      existsb id [present (review_attempts p !! attempt); present (review_claims p !! attempt);
                  bool_decide (attempt ∈ review_outcomes p); present (review_admissions p !! attempt)]
  end.

(** The constraint of an inserted intent besides its key. *)
Definition insert_intent (attempt : string) (n : IntentRow) (t : RecoveryTables) : py RecoveryTables :=
  _ ← unique_column (λ x, (in_task x, in_reservation x)) (in_task n, in_reservation n) (intents t);
  m ← insert_row attempt n (intents t);
  Ok (set_intents m t).

Definition delete_intent (attempt : string) : Db → Db := write (λ t, set_intents (delete attempt (intents t)) t).

Definition begin_intent (i : TaskIdentity) (scope : string) (r : FailureRole) (attempt reservation repository task : string)
    (db : Db) : py (bool * Db) :=
  let why := "provider effect reservation already has a successor" in
  _ ← require_matching_task i None db;
  _ ← require_scope_open db (task_id i) scope;
  _ ← recovery_ensure (no_other_successor i r attempt (provider (evidence db))) why;
  _ ← recovery_ensure (negb (claimed r attempt (provider (evidence db)))) why;
  let expected := {| in_task := task_id i; in_repository := repository_id i; in_scope := scope;
                     in_role := FailureRole_value r; in_reservation := reservation;
                     in_repository_identity := repository; in_task_identity := task |} in
  match intents (evidence db) !! attempt with
  | None => t ← insert_intent attempt expected (evidence db); Ok (true, set_evidence t db)
  | Some n =>
      _ ← recovery_ensure (n ==? expected) "provider effect reservation intent has drifted";
      Ok (false, db)
  end.

Definition begin_provider_effect_reservation_intent (migrations : list Migration) (i : TaskIdentity)
    (scope attempt reservation repository task : string) (w : World RecoveryTables) : py bool * World RecoveryTables :=
  let why := "provider effect reservation intent is invalid" in
  match provider_intent_role i scope with
  | None => (recovery_error why, w)
  | Some r =>
      match recovery_ensure (all_true [attempt !=? ""; match_digest reservation; match_digest repository;
                                       match_token task]) why with
      | Err e => (Err e, w)
      | Ok _ => transaction migrations (begin_intent i scope r attempt reservation repository task) w
      end
  end.

Definition commit_intent (i : TaskIdentity) (scope : string) (r : FailureRole) (attempt reservation : string) (db : Db) :
    py (unit * Db) :=
  _ ← require_matching_task i None db;
  _ ← recovery_ensure (prepared_successor i r attempt (provider (evidence db)) &&
                       negb (claimed r attempt (provider (evidence db))))
        "provider effect reservation successor has drifted";
  match intents (evidence db) !! attempt with
  | None => Ok ((), db)
  | Some n =>
      _ ← recovery_ensure (all_true [in_task n ==? task_id i; in_repository n ==? repository_id i; in_scope n ==? scope;
                                     in_role n ==? FailureRole_value r; in_reservation n ==? reservation])
            "provider effect reservation commit has drifted";
      Ok ((), delete_intent attempt db)
  end.

Definition commit_provider_effect_reservation_intent (migrations : list Migration) (i : TaskIdentity)
    (scope attempt reservation : string) (w : World RecoveryTables) : py unit * World RecoveryTables :=
  let why := "provider effect reservation commit is invalid" in
  match provider_intent_role i scope with
  | None => (recovery_error why, w)
  | Some r =>
      match recovery_ensure ((attempt !=? "") && match_digest reservation) why with
      | Err e => (Err e, w)
      | Ok _ => transaction migrations (commit_intent i scope r attempt reservation) w
      end
  end.

(** What the release reads of a sealed reservation; [ef_role] is the value of
    its advisory role. *)
Record EffectReservation := {
  ef_role : string;
  ef_repository : string;
  ef_task : string;
  ef_request : string;
  ef_digest : string;
}.

Definition require_unused (i : TaskIdentity) (scope : string) (r : FailureRole) (attempt : string) (e : EffectReservation)
    (db : Db) : py unit :=
  _ ← require_matching_task i None db;
  _ ← recovery_ensure (intents (evidence db) !! attempt ==? Some
        {| in_task := task_id i; in_repository := repository_id i; in_scope := scope; in_role := FailureRole_value r;
           in_reservation := ef_digest e; in_repository_identity := ef_repository e; in_task_identity := ef_task e |})
        "unused provider reservation has drifted";
  recovery_ensure (negb (occupied r attempt (provider (evidence db)))) "unused provider reservation has a durable successor".

(** As for a route, the refund is committed while the transaction is open, and
    [commit] is the answer of the product database to what comes after it. *)
Definition release_unused_provider_effect_reservation {B} (migrations : list Migration) (i : TaskIdentity)
    (scope attempt : string) (e : dyn EffectReservation) (refund : EffectReservation → B → py unit * B)
    (commit : py unit) (w : World RecoveryTables * B) : py unit * (World RecoveryTables * B) :=
  match e with
  | Foreign => (recovery_error "unused provider reservation is invalid", w)
  | Typed e =>
      match (_ ← recovery_ensure (attempt !=? "") "unused provider reservation is invalid";
             match provider_intent_role i scope with
             | Some r =>
                 _ ← recovery_ensure (all_true [ef_role e ==? FailureRole_value r; ef_request e ==? attempt;
                                                scope ==? String.concat ":" [ef_role e; task_id i]])
                       "unused provider reservation has drifted";
                 db ← open_connection migrations w.1;
                 _ ← require_unused i scope r attempt e db;
                 Ok db
             | None => recovery_error "unused provider reservation has drifted"
             end) with
      | Err x => (Err x, w)
      | Ok db =>
          let refunded := refund e w.2 in
          match (_ ← refunded.1; commit) with
          | Ok _ => (Ok (), (Some (delete_intent attempt db), refunded.2))
          | Err x => (Err x, (w.1, refunded.2))
          end
      end
  end.
