(* ===== verification/RoleBudgets.v ===== *)
(** * The role budget ledger (src/roundwright/role_capability_policy.py)

    [DurableRoleBudgetLedger]: what one admitted grant may still spend on one
    execution.  A file holds a row per key; a ledger object names its key by the
    grant and the execution, and has the budget of the role.  Every operation is
    one transaction of the file. *)

From stdpp Require Import gmap.
From S2P Require Import Prelude Sha256 Json.
Open Scope Z_scope.

Definition role_error {A} (why : string) : py A := raise RoleCapabilityError why.
Definition role_ensure (b : bool) (why : string) : py unit := require b RoleCapabilityError why.

Record RoleBudget := { max_calls : Z; max_duration_seconds : Z; max_tokens : Z }.

#[export] Instance RoleBudget_eq_dec : EqDecision RoleBudget.
Proof. solve_decision. Defined.

Definition within (limit x : Z) : bool := (1 <=? x) && (x <=? limit).

Definition check_RoleBudget (b : RoleBudget) : py unit :=
  role_ensure (all_true [within 3 (max_calls b); within 300 (max_duration_seconds b); within 8000 (max_tokens b)])
    "role budget is invalid".

Definition budget_identity (b : RoleBudget) : string :=
  digest_json (JObj [("schema", JStr "roundwright-advisory-role-budget/v1"); ("calls", JInt (max_calls b));
                     ("seconds", JInt (max_duration_seconds b)); ("tokens", JInt (max_tokens b))]).

Record RoleBudgetUsage := { u_calls : Z; u_duration_seconds : Z; u_tokens : Z }.

#[export] Instance RoleBudgetUsage_eq_dec : EqDecision RoleBudgetUsage.
Proof. solve_decision. Defined.

(** A row of [role_budget_usage]; SQLite lets other writers store any value in
    an INTEGER column. *)
Record UsageRow := {
  us_schema : string;
  us_grant : string;
  us_binding : string;
  us_calls : dyn Z;
  us_duration_seconds : dyn Z;
  us_tokens : dyn Z;
}.

(** The file of the ledger; no table before the first [consume]. *)
Definition BudgetFile : Type := option (gmap string UsageRow).

(** The ledger object; [lg_binding] is the digest of the execution. *)
Record RoleBudgetLedger := { lg_grant : string; lg_binding : string; lg_budget : RoleBudget }.

Definition LEDGER_SCHEMA : string := "roundwright-role-budget-ledger/v1".

Definition make_ledger (grant binding : string) (b : RoleBudget) : py RoleBudgetLedger :=
  _ ← role_ensure (match_digest grant) "role budget grant is invalid";
  Ok {| lg_grant := grant; lg_binding := binding; lg_budget := b |}.

Definition ledger_key (l : RoleBudgetLedger) : string :=
  digest_json (JObj [("schema", JStr LEDGER_SCHEMA); ("grant", JStr (lg_grant l)); ("binding", JStr (lg_binding l))]).

Definition ledger_matches (l : RoleBudgetLedger) (grant binding : string) (b : RoleBudget) : bool :=
  (grant ==? lg_grant l) && (binding ==? lg_binding l) && (b ==? lg_budget l).

Definition natural (d : dyn Z) : option Z :=
  match d with Typed z => if 0 <=? z then Some z else None | Foreign => None end.

(** The usage a row of this ledger records. *)
Definition row_usage (l : RoleBudgetLedger) (r : UsageRow) : option RoleBudgetUsage :=
  if (us_schema r ==? LEDGER_SCHEMA) && (us_grant r ==? lg_grant l) && (us_binding r ==? lg_binding l) then
    c ← natural (us_calls r); d ← natural (us_duration_seconds r); t ← natural (us_tokens r);
    Some {| u_calls := c; u_duration_seconds := d; u_tokens := t |}
  else None.

Definition usage_row (l : RoleBudgetLedger) (u : RoleBudgetUsage) : UsageRow :=
  {| us_schema := LEDGER_SCHEMA; us_grant := lg_grant l; us_binding := lg_binding l; us_calls := Typed (u_calls u);
     us_duration_seconds := Typed (u_duration_seconds u); us_tokens := Typed (u_tokens u) |}.

Definition no_usage : RoleBudgetUsage := {| u_calls := 0; u_duration_seconds := 0; u_tokens := 0 |}.
Definition budget_usage (b : RoleBudget) : RoleBudgetUsage :=
  {| u_calls := max_calls b; u_duration_seconds := max_duration_seconds b; u_tokens := max_tokens b |}.

Definition add_usage (u v : RoleBudgetUsage) : RoleBudgetUsage :=
  {| u_calls := u_calls u + u_calls v; u_duration_seconds := u_duration_seconds u + u_duration_seconds v;
     u_tokens := u_tokens u + u_tokens v |}.
Definition sub_usage (u v : RoleBudgetUsage) : RoleBudgetUsage :=
  {| u_calls := u_calls u - u_calls v; u_duration_seconds := u_duration_seconds u - u_duration_seconds v;
     u_tokens := u_tokens u - u_tokens v |}.

Definition usage_leb (u v : RoleBudgetUsage) : bool :=
  (u_calls u <=? u_calls v) && (u_duration_seconds u <=? u_duration_seconds v) && (u_tokens u <=? u_tokens v).

(** An exception leaves the file as it was: the transaction is not committed. *)
Definition consume (l : RoleBudgetLedger) (amount : RoleBudgetUsage) (f : BudgetFile) : py RoleBudgetUsage * BudgetFile :=
  match
    _ ← role_ensure (usage_leb no_usage amount && (amount !=? no_usage)) "role budget consumption is invalid";
    let table := default ∅ f in
    used ← match table !! ledger_key l with
           | None => Ok no_usage
           | Some r => match row_usage l r with Some u => Ok u | None => role_error "role budget persistence is ambiguous" end
           end;
    let next := add_usage used amount in
    _ ← role_ensure (usage_leb next (budget_usage (lg_budget l))) "role budget is exhausted";
    Ok (next, <[ledger_key l := usage_row l next]> table)
  with
  | Ok (next, table) => (Ok next, Some table)
  | Err e => (Err e, f)
  end.

Definition reserve_effect (l : RoleBudgetLedger) (exposure : option (dyn RoleBudget)) (f : BudgetFile) :
    py RoleBudgetUsage * BudgetFile :=
  match default (Typed {| max_calls := 1; max_duration_seconds := 1; max_tokens := 1 |}) exposure with
  | Foreign => (role_error "role budget exposure is invalid", f)
  | Typed e =>
      if usage_leb (budget_usage e) (budget_usage (lg_budget l)) then consume l (budget_usage e) f
      else (role_error "role budget exposure exceeds admission", f)
  end.

Definition require_reserved (l : RoleBudgetLedger) (exposure : dyn RoleBudget) (f : BudgetFile) : py RoleBudgetUsage :=
  match exposure, f with
  | Typed e, Some table =>
      match r ← table !! ledger_key l; row_usage l r with
      | None => role_error "role budget reservation is ambiguous"
      | Some u =>
          _ ← role_ensure (u ==? budget_usage e) "role budget reservation has drifted";
          Ok u
      end
  | _, _ => role_error "role budget reservation is unavailable"
  end.

#[export] Instance UsageRow_eq_dec : EqDecision UsageRow.
Proof. solve_decision. Defined.

(** [authorized]: the caller holds the seal of the recovery transaction. *)
Definition release_exact_reservation (l : RoleBudgetLedger) (exposure : dyn RoleBudget) (authorized : bool)
    (f : BudgetFile) : py unit * BudgetFile :=
  match
    _ ← role_ensure authorized "role budget reservation release requires durable exclusive authorization";
    match exposure with
    | Foreign => role_error "role budget exposure is invalid"
    | Typed e =>
        let why := "role budget reservation cannot be released" in
        match f with
        | None => role_error why
        | Some table =>
            _ ← role_ensure (table !! ledger_key l ==? Some (usage_row l (budget_usage e))) why;
            Ok (delete (ledger_key l) table)
        end
    end
  with
  | Ok table => (Ok (), Some table)
  | Err e => (Err e, f)
  end.

(** ** Histories *)

Inductive budget_operation :=
  | Consume (l : RoleBudgetLedger) (amount : RoleBudgetUsage)
  | Reserve (l : RoleBudgetLedger) (exposure : option (dyn RoleBudget))
  | Release (l : RoleBudgetLedger) (exposure : dyn RoleBudget) (authorized : bool).

Definition operator (o : budget_operation) : RoleBudgetLedger :=
  match o with Consume l _ | Reserve l _ | Release l _ _ => l end.

Definition run_budget (o : budget_operation) (f : BudgetFile) : BudgetFile :=
  match o with
  | Consume l amount => (consume l amount f).2
  | Reserve l exposure => (reserve_effect l exposure f).2
  | Release l exposure authorized => (release_exact_reservation l exposure authorized f).2
  end.

Definition exposed (exposure : option (dyn RoleBudget)) : RoleBudgetUsage :=
  match exposure with
  | None => {| u_calls := 1; u_duration_seconds := 1; u_tokens := 1 |}
  | Some (Typed e) => budget_usage e
  | Some Foreign => no_usage
  end.

(** What an operation adds to the usage at a key. *)
Definition charge (key : string) (o : budget_operation) (f : BudgetFile) : RoleBudgetUsage :=
  if ledger_key (operator o) ==? key then
    match o with
    | Consume l amount => if is_ok (consume l amount f).1 then amount else no_usage
    | Reserve l exposure => if is_ok (reserve_effect l exposure f).1 then exposed exposure else no_usage
    | Release l (Typed e) authorized =>
        if is_ok (release_exact_reservation l (Typed e) authorized f).1 then sub_usage no_usage (budget_usage e)
        else no_usage
    | Release _ Foreign _ => no_usage
    end
  else no_usage.

Fixpoint charges (key : string) (os : list budget_operation) (f : BudgetFile) : RoleBudgetUsage :=
  match os with
  | [] => no_usage
  | o :: os => add_usage (charge key o f) (charges key os (run_budget o f))
  end.

Definition run_budgets (os : list budget_operation) (f : BudgetFile) : BudgetFile := foldl (λ f o, run_budget o f) f os.

(** The usage a file records at a key. *)
Definition spent (key : string) (f : BudgetFile) : RoleBudgetUsage :=
  match t ← f; t !! key with
  | None => no_usage
  | Some r =>
      let number d := match d with Typed z => z | Foreign => 0 end in
      {| u_calls := number (us_calls r); u_duration_seconds := number (us_duration_seconds r);
         u_tokens := number (us_tokens r) |}
  end.

(** ** Accounting *)

Lemma add_no_usage u : add_usage u no_usage = u.
Proof. destruct u. unfold add_usage. cbn. f_equal; lia. Qed.
Lemma add_no_usage_l u : add_usage no_usage u = u.
Proof. destruct u. unfold add_usage. cbn. f_equal; lia. Qed.
Lemma add_usage_assoc u v w : add_usage u (add_usage v w) = add_usage (add_usage u v) w.
Proof. unfold add_usage. cbn. f_equal; lia. Qed.
Lemma add_usage_sub u : add_usage u (sub_usage no_usage u) = no_usage.
Proof. unfold add_usage, sub_usage, no_usage. cbn. f_equal; lia. Qed.

Lemma natural_some d z : natural d = Some z ↔ d = Typed z ∧ 0 ≤ z.
Proof. unfold natural. destruct d as [x|]; [|naive_solver]. destruct (0 <=? x) eqn:H; breflect; naive_solver lia. Qed.

Lemma row_usage_spent key l r u t : t !! key = Some r → row_usage l r = Some u → spent key (Some t) = u.
Proof.
  intros Ht. unfold row_usage, spent. cbn. rewrite Ht. destruct (_ && _); [|done].
  intros (c & [-> _]%natural_some & H)%bind_Some. apply bind_Some in H as (d & [-> _]%natural_some & H).
  by apply bind_Some in H as (t' & [-> _]%natural_some & [= <-]).
Qed.

Lemma row_usage_natural l r u : row_usage l r = Some u → usage_leb no_usage u = true.
Proof.
  unfold row_usage. destruct (_ && _); [|done].
  intros (c & [_ Hc]%natural_some & H)%bind_Some. apply bind_Some in H as (d & [_ Hd]%natural_some & H).
  apply bind_Some in H as (t & [_ Ht]%natural_some & [= <-]). unfold usage_leb. cbn. breflect. lia.
Qed.

Lemma row_usage_of l u : usage_leb no_usage u = true → row_usage l (usage_row l u) = Some u.
Proof.
  unfold usage_leb, no_usage, row_usage. cbn. intros [[Hc Hd]%andb_true_iff Ht]%andb_true_iff.
  rewrite !bool_decide_eq_true_2 by done. cbn. rewrite Hc. cbn. rewrite Hd. cbn. rewrite Ht. by destruct u.
Qed.

Lemma spent_usage_row key l u t : spent key (Some (<[key := usage_row l u]> t)) = u.
Proof. unfold spent. cbn. rewrite lookup_insert_eq. by destruct u. Qed.

Lemma consume_cases l a f :
  (∃ e, consume l a f = (Err e, f)) ∨
  let next := add_usage (spent (ledger_key l) f) a in
  usage_leb next (budget_usage (lg_budget l)) = true ∧
  usage_leb no_usage a = true ∧ a ≠ no_usage ∧ usage_leb no_usage (spent (ledger_key l) f) = true ∧
  consume l a f = (Ok next, Some (<[ledger_key l := usage_row l next]> (default ∅ f))).
Proof.
  unfold consume. match goal with |- context [match ?m with Ok _ => _ | Err _ => _ end] => destruct m as [[next t]|e] eqn:H end;
    [right|by left; eexists].
  apply bind_ok in H as ([] & Ha & H). apply bind_ok in H as (used & Hu & H).
  apply bind_ok in H as ([] & Hb & [= <- <-]). unfold role_ensure in Ha, Hb. apply require_ok in Ha, Hb.
  apply andb_true_iff in Ha as [Ha Hn]. breflect.
  assert (spent (ledger_key l) f = used ∧ usage_leb no_usage used = true) as [-> Hpos]; [|done].
  destruct f as [f|]; cbn in Hu |- *; [|by injection Hu as <-].
  destruct (f !! ledger_key l) as [r|] eqn:Hr; [|injection Hu as <-; unfold spent; cbn; by rewrite Hr].
  destruct (row_usage l r) as [u|] eqn:Hx; [|done]. injection Hu as <-. split; [by eapply row_usage_spent|].
  by eapply row_usage_natural.
Qed.

Lemma release_cases l e b f :
  (∃ x, release_exact_reservation l (Typed e) b f = (Err x, f)) ∨
  ∃ t, b = true ∧ f = Some t ∧ t !! ledger_key l = Some (usage_row l (budget_usage e)) ∧
    release_exact_reservation l (Typed e) b f = (Ok (), Some (delete (ledger_key l) t)).
Proof.
  unfold release_exact_reservation. match goal with |- context [match ?m with Ok _ => _ | Err _ => _ end] =>
    destruct m as [t'|x] eqn:H end; [right|by left; eexists].
  apply bind_ok in H as ([] & Hb & H). destruct f as [t|]; [|done]. apply bind_ok in H as ([] & Ht & [= <-]).
  unfold role_ensure in Hb, Ht. apply require_ok in Hb, Ht. breflect. by exists t.
Qed.

Lemma spent_other key key' r t : key' ≠ key → spent key (Some (<[key' := r]> t)) = spent key (Some t).
Proof. intros Hn. unfold spent. cbn. by rewrite lookup_insert_ne. Qed.

Lemma spent_default key f : spent key (Some (default ∅ f)) = spent key f.
Proof. by destruct f. Qed.

Lemma consume_charge key l a f :
  spent key (consume l a f).2 =
    add_usage (spent key f) (if (ledger_key l ==? key) && is_ok (consume l a f).1 then a else no_usage).
Proof.
  destruct (consume_cases l a f) as [[e ->]|(_ & _ & _ & _ & ->)]; cbn [fst snd is_ok]; rewrite ?andb_true_r, ?andb_false_r;
    [by rewrite add_no_usage|]. case_bool_decide as Hk.
  - subst key. by rewrite spent_usage_row.
  - by rewrite spent_other, spent_default, add_no_usage.
Qed.

Lemma reserve_effect_cases l exposure f :
  (∃ e, reserve_effect l exposure f = (Err e, f)) ∨ reserve_effect l exposure f = consume l (exposed exposure) f.
Proof.
  unfold reserve_effect. destruct exposure as [[e|]|]; cbn; [|by left; eexists|]; (destruct (usage_leb _ _); [by right|by left; eexists]).
Qed.

Lemma spent_step key o f : spent key (run_budget o f) = add_usage (spent key f) (charge key o f).
Proof.
  destruct o as [l a|l exposure|l [e|] b]; cbn [run_budget]; unfold charge; cbn [operator].
  - rewrite consume_charge. by destruct (_ ==? _).
  - destruct (reserve_effect_cases l exposure f) as [[e ->]| ->]; cbn [fst snd is_ok].
    + destruct (_ ==? _); by rewrite add_no_usage.
    + rewrite consume_charge. by destruct (_ ==? _).
  - destruct (release_cases l e b f) as [[x ->]|(t & -> & -> & Ht & ->)]; cbn [fst snd is_ok].
    + destruct (_ ==? _); by rewrite add_no_usage.
    + case_bool_decide as Hk.
      * subst key. unfold spent at 1 2. cbn. rewrite lookup_delete_eq, Ht. cbn. unfold add_usage. cbn. f_equal; lia.
      * unfold spent. cbn. rewrite lookup_delete_ne by done. by rewrite add_no_usage.
  - unfold release_exact_reservation. destruct b; cbn; destruct (_ ==? _); by rewrite add_no_usage.
Qed.

Lemma usage_leb_refl u : usage_leb u u = true.
Proof. unfold usage_leb. rewrite !Z.leb_refl. done. Qed.

(** One operation of a ledger with budget [b] at the key keeps within it. *)
Lemma within_step key b o f :
  (ledger_key (operator o) = key → lg_budget (operator o) = b) →
  usage_leb no_usage (budget_usage b) = true →
  usage_leb (spent key f) (budget_usage b) = true → usage_leb (spent key (run_budget o f)) (budget_usage b) = true.
Proof.
  intros Hb Hpos Hf.
  assert (∀ l a, (ledger_key l = key → lg_budget l = b) →
    usage_leb (spent key (consume l a f).2) (budget_usage b) = true) as Hc.
  { intros l a Hl. destruct (consume_cases l a f) as [[e ->]|(Hle & _ & _ & _ & ->)]; [done|]. cbn [snd].
    destruct (decide (ledger_key l = key)) as [Hk|Hk].
    - rewrite Hk in *. by rewrite spent_usage_row, <- Hl.
    - by rewrite spent_other, spent_default. }
  destruct o as [l a|l exposure|l [e|] authorized]; cbn [run_budget operator] in *.
  - by apply Hc.
  - destruct (reserve_effect_cases l exposure f) as [[e ->]| ->]; [done|by apply Hc].
  - destruct (release_cases l e authorized f) as [[x ->]|(t & _ & -> & Ht & ->)]; [done|]. cbn [snd].
    destruct (decide (ledger_key l = key)) as [Hk|Hk].
    + subst key. unfold spent. cbn. by rewrite lookup_delete_eq.
    + revert Hf. unfold spent. cbn. by rewrite lookup_delete_ne.
  - unfold release_exact_reservation. by destruct authorized.
Qed.

(** C37 : the budget ledger accounts for every effect and never overspends.
    After any operations of any process on the file, the usage recorded at a key
    is what was there plus everything granted less everything released; and if
    the ledgers of that key have one budget and the usage was within it, it still
    is, in calls, seconds and tokens. *)
Theorem budget_accounts key b os f :
  usage_leb no_usage (budget_usage b) = true → usage_leb (spent key f) (budget_usage b) = true →
  (∀ o, o ∈ os → ledger_key (operator o) = key → lg_budget (operator o) = b) →
  spent key (run_budgets os f) = add_usage (spent key f) (charges key os f) ∧
  usage_leb (spent key (run_budgets os f)) (budget_usage b) = true.
Proof.
  intros Hpos. revert f. induction os as [|o os IH]; intros f Hf Hos; cbn [run_budgets foldl charges].
  - by rewrite add_no_usage.
  - destruct (IH (run_budget o f)) as [Ha Hl].
    + apply within_step; [|done..]. apply Hos. by left.
    + intros o' Ho'. apply Hos. by right.
    + fold (run_budgets os (run_budget o f)). split; [|done]. by rewrite Ha, spent_step, add_usage_assoc.
Qed.

(** ** A full reservation *)

Definition releases (key : string) (o : budget_operation) : bool :=
  match o with Release l _ _ => ledger_key l ==? key | _ => false end.

(** The row of a reservation at its key. *)
Definition reserved (l : RoleBudgetLedger) (e : RoleBudget) (f : BudgetFile) : Prop :=
  ∃ t, f = Some t ∧ t !! ledger_key l = Some (usage_row l (budget_usage e)).

(** A consumption, which is of something, does not fit in a budget that is used. *)
Lemma consume_exhausted l a f : spent (ledger_key l) f = budget_usage (lg_budget l) → is_ok (consume l a f).1 = false.
Proof.
  intros Hs. destruct (consume_cases l a f) as [[e ->]|(Hle & Ha & Hn & _ & _)]; [done|]. destruct Hn.
  rewrite Hs in Hle. unfold usage_leb, add_usage, no_usage in *. cbn in *. destruct a. cbn in *.
  rewrite !andb_true_iff, !Z.leb_le in *. f_equal; lia.
Qed.

Lemma reserved_spent l e f : reserved l e f → spent (ledger_key l) f = budget_usage e.
Proof. intros (t & -> & Ht). unfold spent. cbn. by rewrite Ht. Qed.

Lemma reserved_step l o f :
  (ledger_key (operator o) = ledger_key l → lg_budget (operator o) = lg_budget l) → releases (ledger_key l) o = false →
  reserved l (lg_budget l) f → reserved l (lg_budget l) (run_budget o f).
Proof.
  intros Hb Hr Hf.
  assert (∀ l' a, (ledger_key l' = ledger_key l → lg_budget l' = lg_budget l) → reserved l (lg_budget l) (consume l' a f).2) as Hc.
  { intros l' a Hl. destruct (consume_cases l' a f) as [[e ->]|(_ & _ & _ & _ & Hok)]; [done|].
    destruct (decide (ledger_key l' = ledger_key l)) as [Hk|Hk].
    - pose proof (consume_exhausted l' a f) as H. rewrite Hok, Hk, Hl in H by done.
      discriminate H. by apply reserved_spent.
    - rewrite Hok. cbn. destruct Hf as (t & -> & Ht). eexists. split; [done|]. cbn. by rewrite lookup_insert_ne. }
  destruct o as [l' a|l' exposure|l' [e|] authorized]; cbn [run_budget operator releases] in *.
  - by apply Hc.
  - destruct (reserve_effect_cases l' exposure f) as [[e ->]| ->]; [done|by apply Hc].
  - breflect. destruct (release_cases l' e authorized f) as [[x ->]|(t & _ & -> & _ & ->)]; [done|]. cbn.
    destruct Hf as (t' & [= <-] & Ht). eexists. split; [done|]. by rewrite lookup_delete_ne.
  - unfold release_exact_reservation. by destruct authorized.
Qed.

(** A ledger whose reservation of its whole budget stands. *)
Lemma reserve_effect_reserved l f : is_ok (reserve_effect l (Some (Typed (lg_budget l))) f).1 = true →
  usage_leb no_usage (budget_usage (lg_budget l)) = true ∧
  reserved l (lg_budget l) (reserve_effect l (Some (Typed (lg_budget l))) f).2.
Proof.
  destruct (reserve_effect_cases l (Some (Typed (lg_budget l))) f) as [[e ->]| ->]; [done|]. cbn [exposed].
  destruct (consume_cases l (budget_usage (lg_budget l)) f) as [[e ->]|(Hle & Hpos & _ & Hs & ->)]; [done|].
  intros _. split; [done|]. eexists. split; [done|].
  assert (spent (ledger_key l) f = no_usage) as ->; [|rewrite add_no_usage_l; apply lookup_insert_eq].
  unfold usage_leb, add_usage, no_usage in *. cbn in *. destruct (spent _ _). cbn in *.
  rewrite !andb_true_iff, !Z.leb_le in *. f_equal; lia.
Qed.

Lemma reserved_steps l os f :
  (∀ o, o ∈ os → ledger_key (operator o) = ledger_key l → lg_budget (operator o) = lg_budget l) →
  (∀ o, o ∈ os → releases (ledger_key l) o = false) →
  reserved l (lg_budget l) f → reserved l (lg_budget l) (run_budgets os f).
Proof.
  revert f. induction os as [|o os IH]; intros f Hb Hr Hres; cbn [run_budgets foldl]; [done|].
  apply IH; [intros o' Ho'; apply Hb; by right|intros o' Ho'; apply Hr; by right|].
  apply reserved_step; [apply Hb; by left|apply Hr; by left|done].
Qed.

Module Sample.

Definition ledger : RoleBudgetLedger :=
  {| lg_grant := String.append "sha256:" (str_repeat "1" 64); lg_binding := String.append "sha256:" (str_repeat "2" 64);
     lg_budget := {| max_calls := 2; max_duration_seconds := 60; max_tokens := 4000 |} |}.

Definition unit_effect : RoleBudgetUsage := {| u_calls := 1; u_duration_seconds := 30; u_tokens := 1000 |}.

(** The second unit fits, the third does not. *)
Definition effects : list budget_operation := [Consume ledger unit_effect; Consume ledger unit_effect; Consume ledger unit_effect].

Lemma budget_accounts_witness :
  spent (ledger_key ledger) (run_budgets effects None) = add_usage no_usage (charges (ledger_key ledger) effects None) ∧
  usage_leb (spent (ledger_key ledger) (run_budgets effects None)) (budget_usage (lg_budget ledger)) = true.
Proof.
  apply (budget_accounts (ledger_key ledger) (lg_budget ledger) effects None); [reflexivity|reflexivity|].
  intros o Ho _. unfold effects in Ho. do 3 (apply elem_of_cons in Ho as [->|Ho]; [reflexivity|]). by apply elem_of_nil in Ho.
Defined.

End Sample.
