(* ===== verification/RoleCapabilities.v ===== *)
(** * Role capabilities (src/roundwright/role_capability_policy.py)

    The data of role admission: roles, capabilities, scopes, instances, grants
    and expectations, with the checks of their constructors and the digests that
    name them.  Strings hold characters below 256 ([unicodedata] and [casefold]
    are what they are for those). *)

From S2P Require Import Prelude Sha256 Json Worktree RoleBudgets.
Open Scope Z_scope.

(** ** Enumerations *)

(** [AdvisoryRole], [GuidanceView] and [RoleExecutionSeam] have the same members. *)
Inductive AdvisoryRole :=
  R_WORKER | R_SUPERVISOR | R_DEPENDENCY_REVIEW | R_RECOVERY_ADVISOR | R_OWNER_INTENT_INTERPRETER.

#[export] Instance AdvisoryRole_eq_dec : EqDecision AdvisoryRole.
Proof. solve_decision. Defined.

Definition ADVISORY_ROLES : list AdvisoryRole :=
  [R_WORKER; R_SUPERVISOR; R_DEPENDENCY_REVIEW; R_RECOVERY_ADVISOR; R_OWNER_INTENT_INTERPRETER].

Definition AdvisoryRole_value (r : AdvisoryRole) : string :=
  match r with
  | R_WORKER => "worker" | R_SUPERVISOR => "supervisor" | R_DEPENDENCY_REVIEW => "dependency-review"
  | R_RECOVERY_ADVISOR => "recovery-advisor" | R_OWNER_INTENT_INTERPRETER => "owner-intent-interpreter"
  end.

(** In the order of their values. *)
Inductive RoleCapability :=
  BOUNDED_CODING | OWNER_COMMAND_INTERPRETATION | READ_ONLY_REVIEW | READ_TRUSTED_GUIDANCE | RENDER_OWNER_SAFE_ADVICE.

#[export] Instance RoleCapability_eq_dec : EqDecision RoleCapability.
Proof. solve_decision. Defined.

Definition ROLE_CAPABILITIES : list RoleCapability :=
  [BOUNDED_CODING; OWNER_COMMAND_INTERPRETATION; READ_ONLY_REVIEW; READ_TRUSTED_GUIDANCE; RENDER_OWNER_SAFE_ADVICE].

Definition RoleCapability_value (c : RoleCapability) : string :=
  match c with
  | READ_TRUSTED_GUIDANCE => "read-trusted-guidance" | RENDER_OWNER_SAFE_ADVICE => "render-owner-safe-advice"
  | BOUNDED_CODING => "bounded-coding" | READ_ONLY_REVIEW => "read-only-review"
  | OWNER_COMMAND_INTERPRETATION => "owner-command-interpretation"
  end.

(** A [frozenset] of capabilities: its members in the order of their values, so
    equal sets are equal lists. *)
Definition frozenset (l : list RoleCapability) : list RoleCapability := List.filter (λ c, c in? l) ROLE_CAPABILITIES.

Definition subset (l k : list RoleCapability) : bool := forallb (λ c, c in? k) l.

Inductive ScopeKind := K_PATH | K_PROCESS | K_TEST_INPUT_SET | K_NETWORK | K_RESOURCE.

#[export] Instance ScopeKind_eq_dec : EqDecision ScopeKind.
Proof. solve_decision. Defined.

Definition SCOPE_KINDS : list ScopeKind := [K_PATH; K_PROCESS; K_TEST_INPUT_SET; K_NETWORK; K_RESOURCE].

Definition ScopeKind_value (k : ScopeKind) : string :=
  match k with
  | K_PATH => "path" | K_PROCESS => "process" | K_TEST_INPUT_SET => "test-input-set" | K_NETWORK => "network"
  | K_RESOURCE => "resource"
  end.

Definition SEAM_CAPABILITIES (seam : AdvisoryRole) : RoleCapability :=
  match seam with
  | R_WORKER => BOUNDED_CODING
  | R_SUPERVISOR | R_DEPENDENCY_REVIEW | R_RECOVERY_ADVISOR => READ_ONLY_REVIEW
  | R_OWNER_INTENT_INTERPRETER => OWNER_COMMAND_INTERPRETATION
  end.

(** ** Texts *)

Definition match_sha (s : string) : bool := match_hex 40 s.

Definition match_identity (s : string) : bool :=
  match_ident is_lower (λ c, is_lower c || is_digit c || one_of "._/-" c) 127 s.

Definition require_digests (l : list (string * string)) : py unit :=
  for_each (λ x, role_ensure (match_digest x.1) (String.append x.2 " is invalid")) l.

Definition require_identity (s label : string) : py unit :=
  role_ensure (match_identity s) (String.append label " is invalid").

(** The characters below 256 that NFKC changes. *)
Definition compatibility (c : ascii) : bool :=
  N_of_ascii c in? [160; 168; 170; 175; 178; 179; 180; 181; 184; 185; 186; 188; 189; 190]%N.

Definition WINDOWS_RESERVED : list string :=
  ["con"; "prn"; "aux"; "nul"; "clock$"; "conin$"; "conout$";
   "com1"; "com2"; "com3"; "com4"; "com5"; "com6"; "com7"; "com8"; "com9";
   "lpt1"; "lpt2"; "lpt3"; "lpt4"; "lpt5"; "lpt6"; "lpt7"; "lpt8"; "lpt9"].

Fixpoint drop_while (p : ascii → bool) (l : list ascii) : list ascii :=
  match l with [] => [] | c :: l' => if p c then drop_while p l' else l end.

Definition rstrip (p : ascii → bool) (s : string) : string :=
  String.string_of_list_ascii (rev (drop_while p (rev (chars s)))).

Definition dot_or_space (c : ascii) : bool := one_of ". " c.

(** [part.split(".", 1)[0].rstrip(". ").casefold()] *)
Definition device_stem (part : string) : string :=
  str_map to_lower (rstrip dot_or_space (default "" (head (split_on "."%char part)))).

Definition safe_part (part : string) : bool :=
  all_true
    [negb (existsb compatibility (chars part)); negb (existsb (one_of ":*?<>|") (chars part));
     negb (existsb (Ascii.eqb quote_mark) (chars part)); forallb (λ c, (32 <=? N_of_ascii c)%N) (chars part);
     rstrip dot_or_space part ==? part; negb (device_stem part in? WINDOWS_RESERVED)].

(** The path is its parts joined again only when no part is empty or ["."],
    except for ["."] itself, which has no parts. *)
Definition relative_path (s : string) : bool :=
  all_true
    [s !=? ""; negb (str_contains "\" s);
     negb (match chars s with c :: d :: _ => (is_lower c || is_upper c) && Ascii.eqb d ":"%char | _ => false end);
     (s ==? ".") || forallb (λ part, negb (part in? [""; "."; ".."]) && safe_part part) (split_on "/"%char s)].

(** ** Descriptors and scopes *)

Record ScopedDescriptor := { d_kind : ScopeKind; d_root : string; d_value : string }.

#[export] Instance ScopedDescriptor_eq_dec : EqDecision ScopedDescriptor.
Proof. solve_decision. Defined.

Definition check_ScopedDescriptor (d : ScopedDescriptor) : py unit :=
  _ ← require_digests [(d_root d, "scope root identity")];
  match d_kind d with
  | K_PATH => role_ensure (relative_path (d_value d)) "relative path is invalid"
  | K_PROCESS | K_TEST_INPUT_SET | K_RESOURCE => role_ensure (match_hex 64 (d_value d)) "scope descriptor value is invalid"
  | K_NETWORK => role_ensure (d_value d ==? "network-disabled") "scope descriptor value is invalid"
  end.

Definition serialized (d : ScopedDescriptor) : list string := [ScopeKind_value (d_kind d); d_root d; d_value d].

Record RoleScope := { actions : list RoleCapability; descriptors : list ScopedDescriptor }.

#[export] Instance RoleScope_eq_dec : EqDecision RoleScope.
Proof. solve_decision. Defined.

(** [tuple(sorted(set(serialized))) == serialized] *)
Definition canonical_order (l : list (list string)) : bool := (sorted_by id l ==? l) && no_dup l.

Definition check_RoleScope (s : RoleScope) : py unit :=
  _ ← role_ensure (actions s !=? []) "role scope is invalid";
  role_ensure (canonical_order (map serialized (descriptors s))) "role scope descriptors are not canonical".

Definition scope_identity (s : RoleScope) : string :=
  digest_json (JObj [("schema", JStr "roundwright-role-capability-scope/v2");
                     ("actions", jstrs (map RoleCapability_value (actions s)));
                     ("descriptors", JArr (map (λ d, jstrs (serialized d)) (descriptors s)))]).

Definition scope_require (s : RoleScope) (action : RoleCapability) (ds : list ScopedDescriptor) : py unit :=
  _ ← role_ensure (action in? actions s) "role scope denies the requested action";
  role_ensure (forallb (λ d, serialized d in? map serialized (descriptors s)) ds) "role scope denies the requested bound".

(** ** Profiles *)

Inductive ReasoningEffort := LOW | MEDIUM | HIGH | XHIGH | MAX | ULTRA.

#[export] Instance ReasoningEffort_eq_dec : EqDecision ReasoningEffort.
Proof. solve_decision. Defined.

Definition ReasoningEffort_value (e : ReasoningEffort) : string :=
  match e with LOW => "low" | MEDIUM => "medium" | HIGH => "high" | XHIGH => "xhigh" | MAX => "max" | ULTRA => "ultra" end.

Record ProviderProfile := { model : string; reasoning_effort : ReasoningEffort; profile_name : option string }.

#[export] Instance ProviderProfile_eq_dec : EqDecision ProviderProfile.
Proof. solve_decision. Defined.

Definition REVIEWED_SDK_CODES (c : RoleCapability) : string :=
  match c with
  | READ_TRUSTED_GUIDANCE => "guidance.read/v1" | RENDER_OWNER_SAFE_ADVICE => "advice.render-owner-safe/v1"
  | BOUNDED_CODING => "coding.bounded/v1" | READ_ONLY_REVIEW => "review.read-only/v1"
  | OWNER_COMMAND_INTERPRETATION => "intent.interpret-owner-command/v1"
  end.

Definition sdk_adapter : string := digest_json (JStr "roundwright-advisory-sdk-adapter/v1").

Definition sdk_mapping_digest : string :=
  digest_json (JObj [("sdk_version", JStr "1.0.0"); ("adapter", JStr sdk_adapter);
    ("codes", JObj (map (λ c, (RoleCapability_value c, JStr (REVIEWED_SDK_CODES c))) ROLE_CAPABILITIES))]).

(** [SdkAdapterMapping.identity]: the constructor accepts the reviewed mapping
    only, so it is one value. *)
Definition sdk_mapping_identity : string :=
  digest_json (JObj [("schema", JStr "roundwright-advisory-sdk-mapping/v2"); ("sdk_version", JStr "1.0.0");
                     ("adapter_identity", JStr sdk_adapter); ("mapping_digest", JStr sdk_mapping_digest)]).

Record RoleCapabilityProfile := {
  p_role : AdvisoryRole;
  p_provider : ProviderProfile;
  p_capabilities : list RoleCapability;
  p_budget : RoleBudget;
  p_dedicated : bool;
  p_always_on : bool;
}.

(** The reviewed mapping supports every capability. *)
Definition check_RoleCapabilityProfile (p : RoleCapabilityProfile) : py unit :=
  role_ensure ((p_capabilities p !=? []) && p_dedicated p && negb (p_always_on p)) "role capability profile is invalid".

Definition profile_identity (p : RoleCapabilityProfile) : string :=
  digest_json (JObj [("schema", JStr "roundwright-advisory-role-capability-profile/v3");
    ("role", JStr (AdvisoryRole_value (p_role p))); ("model", JStr (model (p_provider p)));
    ("reasoning_effort", JStr (ReasoningEffort_value (reasoning_effort (p_provider p))));
    ("capabilities", jstrs (map RoleCapability_value (p_capabilities p))); ("budget", JStr (budget_identity (p_budget p)));
    ("sdk_mapping", JStr sdk_mapping_identity); ("dedicated", JBool true); ("always_on", JBool false)]).
