(* ===== verification/RoleAdmission.v ===== *)
(** * Role admission (src/roundwright/role_capability_policy.py)

    An advisory role acts only under an admission that an independent record in
    the authoritative repository grants: the record is read again before every
    effect, must be canonical, have the pinned digest, and agree with the pinned
    expectation field by field.  What [git show] prints is an argument. *)

From S2P Require Import Prelude Sha256 Json JsonParse JsonRead Worktree RoleBudgets RoleCapabilities.
Open Scope Z_scope.

(** ** Instances *)

Record DedicatedRoleInstance := {
  i_instance : string;
  i_role : AdvisoryRole;
  i_profile : string;
  i_guidance : string;
  i_repository : string;
  i_task : string;
  i_state : string;
  i_deployment : string;
  i_host : string;
  i_epoch : Z;
  i_fence : string;
  i_candidate : string;
}.

#[export] Instance DedicatedRoleInstance_eq_dec : EqDecision DedicatedRoleInstance.
Proof. solve_decision. Defined.

Definition check_DedicatedRoleInstance (i : DedicatedRoleInstance) : py unit :=
  _ ← require_digests [(i_profile i, "profile identity"); (i_guidance i, "guidance receipt");
        (i_repository i, "repository identity"); (i_state i, "state identity"); (i_deployment i, "deployment identity");
        (i_host i, "host identity")];
  _ ← require_identity (i_instance i) "dedicated instance identity";
  _ ← require_identity (i_task i) "task identity";
  _ ← require_identity (i_fence i) "replacement fence";
  role_ensure ((1 <=? i_epoch i) && match_sha (i_candidate i)) "dedicated instance admission is invalid".

Definition instance_digest (i : DedicatedRoleInstance) : string :=
  digest_json (JObj [("schema", JStr "roundwright-dedicated-advisory-role-instance/v3"); ("instance", JStr (i_instance i));
    ("role", JStr (AdvisoryRole_value (i_role i))); ("profile", JStr (i_profile i)); ("guidance", JStr (i_guidance i));
    ("repository", JStr (i_repository i)); ("task", JStr (i_task i)); ("state", JStr (i_state i));
    ("deployment", JStr (i_deployment i)); ("host", JStr (i_host i)); ("epoch", JInt (i_epoch i));
    ("fence", JStr (i_fence i)); ("candidate", JStr (i_candidate i))]).

Inductive Continuity := SameInstanceRestart | FencedGenerationReplacement.

Definition validate_instance_continuity (previous current : DedicatedRoleInstance) : py Continuity :=
  if instance_digest current ==? instance_digest previous then Ok SameInstanceRestart
  else
    _ ← role_ensure (all_true
          [i_role previous ==? i_role current; i_profile previous ==? i_profile current;
           i_guidance previous ==? i_guidance current; i_repository previous ==? i_repository current;
           i_task previous ==? i_task current; i_state previous ==? i_state current;
           i_deployment previous ==? i_deployment current; i_host previous ==? i_host current;
           i_candidate previous ==? i_candidate current; i_instance current !=? i_instance previous;
           i_fence current !=? i_fence previous; i_epoch current =? i_epoch previous + 1])
          "role generation replacement is invalid";
    Ok FencedGenerationReplacement.

(** ** Authority, grant and expectation *)

Record TrustedRoleAuthorityReceipt := {
  a_repository : string;
  a_task : string;
  a_deployment : string;
  a_epoch : Z;
  a_issuer : string;
  a_expires : Z;
  a_revocation : string;
}.

Definition check_TrustedRoleAuthorityReceipt (a : TrustedRoleAuthorityReceipt) : py unit :=
  _ ← require_digests [(a_repository a, "authority repository"); (a_deployment a, "authority deployment");
        (a_issuer a, "authority issuer"); (a_revocation a, "authority revocation")];
  _ ← require_identity (a_task a) "authority task";
  role_ensure ((1 <=? a_epoch a) && (1 <=? a_expires a)) "authority receipt is invalid".

Definition authority_digest (a : TrustedRoleAuthorityReceipt) : string :=
  digest_json (JObj [("schema", JStr "roundwright-trusted-role-authority/v1"); ("repository", JStr (a_repository a));
    ("task", JStr (a_task a)); ("deployment", JStr (a_deployment a)); ("epoch", JInt (a_epoch a));
    ("issuer", JStr (a_issuer a)); ("expires_at", JInt (a_expires a)); ("revocation", JStr (a_revocation a))]).

Record RoleCapabilityGrant := {
  g_authority : string;
  g_instance : string;
  g_scope : string;
  g_issued : Z;
  g_expires : Z;
}.

Definition check_RoleCapabilityGrant (g : RoleCapabilityGrant) : py unit :=
  _ ← require_digests [(g_authority g, "grant authority receipt"); (g_instance g, "grant instance receipt");
        (g_scope g, "grant scope")];
  role_ensure ((0 <=? g_issued g) && (g_issued g <=? g_expires g)) "role capability grant is invalid".

Definition grant_digest (g : RoleCapabilityGrant) : string :=
  digest_json (JObj [("schema", JStr "roundwright-advisory-role-capability-grant/v2"); ("authority", JStr (g_authority g));
    ("instance", JStr (g_instance g)); ("scope", JStr (g_scope g)); ("issued_at", JInt (g_issued g));
    ("expires_at", JInt (g_expires g))]).

Record RoleAdmissionExpectation := {
  e_store : string;
  e_record : string;
  e_reference : string;
  e_authority : string;
  e_instance : string;
  e_repository : string;
  e_task : string;
  e_state : string;
  e_deployment : string;
  e_host : string;
  e_epoch : Z;
  e_candidate : string;
  e_scope : string;
  e_actions : list RoleCapability;
  e_valid_from : Z;
  e_valid_until : Z;
  e_revocation : string;
}.

Definition check_RoleAdmissionExpectation (e : RoleAdmissionExpectation) : py unit :=
  _ ← require_digests [(e_store e, "admission store"); (e_record e, "admission record"); (e_authority e, "expected authority");
        (e_instance e, "expected instance"); (e_repository e, "expected repository"); (e_state e, "expected state");
        (e_deployment e, "expected deployment"); (e_host e, "expected host"); (e_scope e, "expected scope");
        (e_revocation e, "expected revocation read-back")];
  _ ← require_identity (e_reference e) "grant reference";
  _ ← require_identity (e_task e) "expected task";
  role_ensure (all_true [1 <=? e_epoch e; match_sha (e_candidate e); e_actions e !=? []; e_valid_from e <=? e_valid_until e])
    "role admission expectation is invalid".

(** ** The store *)

(** The value of a decoded text in the strings and numbers of [json].  A record
    that carries a float or text outside Latin-1, in a key the parser does not
    look at, is refused here and accepted by the program. *)
Fixpoint doc_json (v : doc) : option json :=
  match v with
  | DNull => Some JNull
  | DBool b => Some (JBool b)
  | DInt z => Some (JInt z)
  | DFloat _ => None
  | DStr p => JStr <$> narrow p
  | DArr l => JArr <$> (fix all (l : list doc) := match l with
                        | [] => Some []
                        | v :: l => j ← doc_json v; js ← all l; Some (j :: js)
                        end) l
  | DObj d => JObj <$> (fix all (d : list (list N * doc)) := match d with
                        | [] => Some []
                        | kv :: d => k ← narrow kv.1; j ← doc_json kv.2; js ← all d; Some ((k, j) :: js)
                        end) d
  end.

(** With the accepted main and the task candidate of its sealed runtime. *)
Record FileRoleAdmissionStore := { st_identity : string; st_main : string; st_candidate : string }.

(** [shown]: what [git show] prints of the record, in the runtime that was
    resolved again and compared with the store's. *)
Definition store_read (shown : py string) : py (list (string * json)) :=
  match (raw ← shown; v ← loads raw; Ok (raw, v)) with
  | Err (Raised (ValueError | JSONDecodeError | RoleCapabilityError) _) =>
      role_error "independent admission record is unavailable"
  | Err e => Err e
  | Ok (raw, v) =>
      match doc_json v with
      | Some (JObj d) =>
          _ ← role_ensure (dumps (JObj d) ==? raw) "independent admission record is not canonical";
          Ok d
      | _ => role_error "independent admission record is not canonical"
      end
  end.

(** ** Parsing the record *)

Definition some_or {A} (o : option A) : py A :=
  match o with Some a => Ok a | None => raise ValueError "independent admission record has invalid values" end.

Definition keys_exactly (keys : list string) (d : list (string * json)) : py unit :=
  require (same_elements d.*1 keys) TypeError "unexpected keyword argument".

Definition checked_role {A} (check : A → py unit) (a : A) : py A := _ ← check a; Ok a.

Definition parse_authority (d : list (string * json)) : py TrustedRoleAuthorityReceipt :=
  _ ← keys_exactly ["repository_identity"; "task_identity"; "deployment_identity"; "authority_epoch"; "issuer_identity";
                    "expires_at"; "revocation_identity"] d;
  repository ← some_or (str_field "repository_identity" d);
  task ← some_or (str_field "task_identity" d);
  deployment ← some_or (str_field "deployment_identity" d);
  epoch ← some_or (int_field "authority_epoch" d);
  issuer ← some_or (str_field "issuer_identity" d);
  expires ← some_or (int_field "expires_at" d);
  revocation ← some_or (str_field "revocation_identity" d);
  checked_role check_TrustedRoleAuthorityReceipt
    {| a_repository := repository; a_task := task; a_deployment := deployment; a_epoch := epoch; a_issuer := issuer;
       a_expires := expires; a_revocation := revocation |}.

Definition parse_instance (d : list (string * json)) : py DedicatedRoleInstance :=
  _ ← keys_exactly ["instance_identity"; "role"; "profile_identity"; "guidance_receipt_digest"; "repository_identity";
                    "task_identity"; "state_identity"; "deployment_identity"; "host_identity"; "authority_epoch";
                    "replacement_fence"; "candidate_sha"] d;
  instance ← some_or (str_field "instance_identity" d);
  role ← some_or (str_field "role" d ≫= of_value AdvisoryRole_value ADVISORY_ROLES);
  profile ← some_or (str_field "profile_identity" d);
  guidance ← some_or (str_field "guidance_receipt_digest" d);
  repository ← some_or (str_field "repository_identity" d);
  task ← some_or (str_field "task_identity" d);
  state ← some_or (str_field "state_identity" d);
  deployment ← some_or (str_field "deployment_identity" d);
  host ← some_or (str_field "host_identity" d);
  epoch ← some_or (int_field "authority_epoch" d);
  fence ← some_or (str_field "replacement_fence" d);
  candidate ← some_or (str_field "candidate_sha" d);
  checked_role check_DedicatedRoleInstance
    {| i_instance := instance; i_role := role; i_profile := profile; i_guidance := guidance; i_repository := repository;
       i_task := task; i_state := state; i_deployment := deployment; i_host := host; i_epoch := epoch; i_fence := fence;
       i_candidate := candidate |}.

Definition parse_descriptor (j : json) : py ScopedDescriptor :=
  match j with
  | JObj d =>
      kind ← some_or (str_field "kind" d ≫= of_value ScopeKind_value SCOPE_KINDS);
      root ← some_or (str_field "root_identity" d);
      value ← some_or (str_field "value" d);
      checked_role check_ScopedDescriptor {| d_kind := kind; d_root := root; d_value := value |}
  | _ => raise TypeError "descriptor"
  end.

(** A list of JSON, whose elements a comprehension takes in order; iterating over
    a text or a mapping yields texts, which are no descriptors, and no text of
    one character names a capability. *)
Definition parse_scope (d : list (string * json)) : py RoleScope :=
  ds ← match field "descriptors" d with
       | Some (JArr l) => mapM parse_descriptor l
       | Some (JStr "") | Some (JObj []) => Ok []
       | _ => raise TypeError "descriptors"
       end;
  cs ← match field "actions" d with
       | Some (JArr l) =>
           mapM (λ j, some_or (str_value j ≫= of_value RoleCapability_value ROLE_CAPABILITIES)) l
       | Some (JObj l) => mapM (λ kv, some_or (of_value RoleCapability_value ROLE_CAPABILITIES kv.1)) l
       | Some (JStr "") => Ok []
       | _ => raise TypeError "actions"
       end;
  checked_role check_RoleScope {| actions := frozenset cs; descriptors := ds |}.

Definition parse_grant (d : list (string * json)) : py RoleCapabilityGrant :=
  _ ← keys_exactly ["authority_receipt_digest"; "instance_receipt_digest"; "scope_identity"; "issued_at"; "expires_at"] d;
  authority ← some_or (str_field "authority_receipt_digest" d);
  instance ← some_or (str_field "instance_receipt_digest" d);
  scope ← some_or (str_field "scope_identity" d);
  issued ← some_or (int_field "issued_at" d);
  expires ← some_or (int_field "expires_at" d);
  checked_role check_RoleCapabilityGrant
    {| g_authority := authority; g_instance := instance; g_scope := scope; g_issued := issued; g_expires := expires |}.

Record AdmissionRecord := {
  r_authority : TrustedRoleAuthorityReceipt;
  r_instance : DedicatedRoleInstance;
  r_scope : RoleScope;
  r_grant : RoleCapabilityGrant;
  r_revoked : bool;
  r_reference : string;
  r_revocation : string;
}.

(** Every error of the values is one error. *)
Definition parse_guarded {A} (m : py A) : py A :=
  match m with
  | Err (Raised (KeyError | TypeError | ValueError | RoleCapabilityError) _) =>
      role_error "independent admission record has invalid values"
  | _ => m
  end.

Definition parse_record (d : list (string * json)) : py AdmissionRecord :=
  let why := "independent admission record has an invalid schema" in
  _ ← role_ensure (same_elements d.*1 ["schema"; "grant_reference"; "authority"; "instance"; "scope"; "grant"; "revoked";
                                        "revocation_readback_digest"]) why;
  match str_field "schema" d, dict_field "authority" d, dict_field "instance" d, dict_field "scope" d,
        dict_field "grant" d, bool_field "revoked" d with
  | Some schema, Some authority, Some instance, Some scope, Some grant, Some revoked =>
      _ ← role_ensure (schema ==? "roundwright-independent-role-admission/v1") why;
      parse_guarded
        (authority ← parse_authority authority;
         instance ← parse_instance instance;
         scope ← parse_scope scope;
         grant ← parse_grant grant;
         reference ← some_or (str_field "grant_reference" d);
         _ ← require_identity reference "grant reference";
         revocation ← some_or (str_field "revocation_readback_digest" d);
         _ ← require_digests [(revocation, "revocation read-back")];
         Ok {| r_authority := authority; r_instance := instance; r_scope := scope; r_grant := grant; r_revoked := revoked;
               r_reference := reference; r_revocation := revocation |})
  | _, _, _, _, _, _ => role_error why
  end.

(** ** Reading an admission *)

(** Only [read_verified_admission] makes one. *)
Record VerifiedRoleAdmission := {
  v_authority : TrustedRoleAuthorityReceipt;
  v_grant : RoleCapabilityGrant;
  v_scope : RoleScope;
  v_time : Z;
  v_revoked : bool;
  v_reference : string;
}.

Definition matches_expectation (e : RoleAdmissionExpectation) (s : FileRoleAdmissionStore) (time : Z)
    (r : AdmissionRecord) : bool :=
  let a := r_authority r in let i := r_instance r in let g := r_grant r in
  all_true
    [r_reference r ==? e_reference e; authority_digest a ==? e_authority e; instance_digest i ==? e_instance e;
     i_candidate i ==? e_candidate e; i_candidate i ==? st_candidate s; g_authority g ==? authority_digest a;
     g_instance g ==? instance_digest i; g_scope g ==? scope_identity (r_scope r);
     scope_identity (r_scope r) ==? e_scope e; actions (r_scope r) ==? e_actions e; r_revocation r ==? e_revocation e;
     a_revocation a ==? r_revocation r; i_repository i ==? e_repository e; i_task i ==? e_task e; i_state i ==? e_state e;
     i_deployment i ==? e_deployment e; i_host i ==? e_host e; i_epoch i =? e_epoch e; a_repository a ==? e_repository e;
     a_task a ==? e_task e; a_deployment a ==? e_deployment e; a_epoch a =? e_epoch e; g_issued g =? e_valid_from e;
     g_expires g =? e_valid_until e; g_issued g <=? time; time <=? g_expires g; time <=? a_expires a; negb (r_revoked r)].

(** [time]: [int(time.time())]. *)
Definition read_verified_admission (e : RoleAdmissionExpectation) (s : FileRoleAdmissionStore) (shown : py string) (time : Z) :
    py (VerifiedRoleAdmission * DedicatedRoleInstance) :=
  _ ← role_ensure (st_identity s ==? e_store e) "admission read-back context is invalid";
  d ← store_read shown;
  _ ← role_ensure (digest_json (JObj d) ==? e_record e) "independent admission record digest has drifted";
  r ← parse_record d;
  _ ← role_ensure (matches_expectation e s time r) "independent role admission does not match its pinned expectation";
  Ok ({| v_authority := r_authority r; v_grant := r_grant r; v_scope := r_scope r; v_time := time;
         v_revoked := r_revoked r; v_reference := r_reference r |}, r_instance r).

(** ** Contracts *)

Record TrustedGuidance := {
  t_expectation : string;
  t_view : AdvisoryRole;
  t_paths : list string;
  t_digest : string;
}.

Definition guidance_digest (g : TrustedGuidance) : string :=
  digest_json (JObj [("schema", JStr "roundwright-trusted-guidance-receipt/v3"); ("expectation", JStr (t_expectation g));
    ("view", JStr (AdvisoryRole_value (t_view g))); ("selected_paths", jstrs (t_paths g));
    ("guidance_digest", JStr (t_digest g))]).

Record AdvisoryRoleContract := {
  c_profile : RoleCapabilityProfile;
  c_guidance : TrustedGuidance;
  c_instance : DedicatedRoleInstance;
  c_admission : option VerifiedRoleAdmission;
}.

Inductive AdvisoryRoleStatus := DISABLED | READY.

#[export] Instance AdvisoryRoleStatus_eq_dec : EqDecision AdvisoryRoleStatus.
Proof. solve_decision. Defined.

Definition contract_status (c : AdvisoryRoleContract) : py AdvisoryRoleStatus :=
  match c_admission c with
  | None => Ok DISABLED
  | Some v =>
      let g := v_grant v in
      _ ← role_ensure (all_true
        [negb (v_revoked v); g_issued g <=? v_time v; v_time v <=? g_expires g; v_time v <=? a_expires (v_authority v);
         i_role (c_instance c) ==? p_role (c_profile c); i_profile (c_instance c) ==? profile_identity (c_profile c);
         i_guidance (c_instance c) ==? guidance_digest (c_guidance c); g_instance g ==? instance_digest (c_instance c);
         g_authority g ==? authority_digest (v_authority v); g_scope g ==? scope_identity (v_scope v);
         subset (actions (v_scope v)) (p_capabilities (c_profile c))])
        "role admission is missing, stale, revoked, or mismatched";
      Ok READY
  end.

Record RoleReceipt := {
  rr_role : AdvisoryRole;
  rr_profile : string;
  rr_guidance : string;
  rr_instance : string;
  rr_admission : option string;
  rr_capabilities : list RoleCapability;
  rr_status : AdvisoryRoleStatus;
}.

Definition public_receipt (c : AdvisoryRoleContract) : py RoleReceipt :=
  status ← contract_status c;
  Ok {| rr_role := p_role (c_profile c); rr_profile := profile_identity (c_profile c);
        rr_guidance := guidance_digest (c_guidance c); rr_instance := instance_digest (c_instance c);
        rr_admission := (λ v, grant_digest (v_grant v)) <$> c_admission c;
        rr_capabilities := match c_admission c with Some v => actions (v_scope v) | None => [] end; rr_status := status |}.

Definition require_verified_role_admission (c : AdvisoryRoleContract) (seam : AdvisoryRole) (s : FileRoleAdmissionStore)
    (e : RoleAdmissionExpectation) (shown : py string) (time : Z) : py RoleReceipt :=
  _ ← role_ensure (seam ==? p_role (c_profile c)) "role is not admitted for this execution seam";
  fresh ← read_verified_admission e s shown time;
  _ ← role_ensure match c_admission c with
                  | Some v => (fresh.2 ==? c_instance c) && (grant_digest (v_grant fresh.1) ==? grant_digest (v_grant v))
                  | None => false
                  end "role admission changed after contract construction";
  receipt ← public_receipt c;
  _ ← role_ensure (rr_status receipt ==? READY) "advisory role is disabled without verified admission";
  _ ← role_ensure (SEAM_CAPABILITIES seam in? p_capabilities (c_profile c))
        "role profile does not support its execution seam";
  _ ← match c_admission c with
      | Some v => scope_require (v_scope v) (SEAM_CAPABILITIES seam) []
      | None => raise AssertionError ""
      end;
  Ok receipt.

(** [render_grant_draft]'s conditions and the fields of its draft. *)
Definition render_grant_draft (i : DedicatedRoleInstance) (s : RoleScope) (e : RoleAdmissionExpectation) (reason : string)
    (b : RoleBudget) (valid_from valid_until : Z) (revocation : string) : py json :=
  let strip := rstrip is_space (String.string_of_list_ascii (drop_while is_space (chars reason))) in
  _ ← role_ensure (strip !=? "") "grant draft is invalid";
  _ ← role_ensure (all_true
        [valid_from <=? valid_until; match_digest revocation; valid_from =? e_valid_from e; valid_until =? e_valid_until e;
         revocation ==? e_revocation e; instance_digest i ==? e_instance e; i_candidate i ==? e_candidate e;
         i_repository i ==? e_repository e; i_task i ==? e_task e; i_state i ==? e_state e;
         i_deployment i ==? e_deployment e; i_host i ==? e_host e; i_epoch i =? e_epoch e;
         scope_identity s ==? e_scope e; actions s ==? e_actions e]) "grant draft bindings are invalid";
  Ok (JObj [("schema", JStr "roundwright-advisory-grant-draft/v3"); ("role", JStr (AdvisoryRole_value (i_role i)));
    ("task", JStr (i_task i)); ("instance", JStr (i_instance i)); ("repository", JStr (i_repository i));
    ("state", JStr (i_state i)); ("deployment", JStr (i_deployment i)); ("host", JStr (i_host i));
    ("epoch", JInt (i_epoch i)); ("fence", JStr (i_fence i)); ("candidate", JStr (i_candidate i));
    ("profile", JStr (i_profile i)); ("guidance", JStr (i_guidance i));
    ("requested_actions", jstrs (map RoleCapability_value (actions s)));
    ("scope", JArr (map (λ d, JObj [("kind", JStr (ScopeKind_value (d_kind d))); ("root", JStr (d_root d));
                                    ("value", JStr (d_value d))]) (descriptors s)));
    ("budget", JObj [("max_calls", JInt (max_calls b)); ("max_duration_seconds", JInt (max_duration_seconds b));
                     ("max_tokens", JInt (max_tokens b))]);
    ("validity", JObj [("not_before", JInt valid_from); ("not_after", JInt valid_until)]);
    ("authority", JStr (e_authority e)); ("grant", JStr (e_reference e)); ("store", JStr (e_store e));
    ("record", JStr (e_record e)); ("revocation_readback", JStr revocation);
    ("evidence", JStr "independent owner/deployment record required"); ("reason", JStr strip);
    ("owner_action", JStr "Select the listed existing grant reference; do not calculate replacement identifiers.")]).
