(* ===== verification/RoleExecution.v ===== *)
(** * Role executions and effect reservations (src/roundwright/role_capability_policy.py)

    A sealed execution carries the one effect an admission is for.  The effect
    derives its own binding from the request at hand, compares it with the sealed
    one, reads the admission again and reserves the whole budget of the role
    before anything else happens; recovery can give the reservation back only
    under the lock of the product ledger. *)

From stdpp Require Import gmap.
From S2P Require Import Prelude Sha256 Json JsonParse JsonRead FailureRecovery Sqlite Worktree Migrations StateDb.
From S2P Require Import TaskState FailureTables FailureAdmission FailureLedger FailureHistory RecoveryRoutes.
From S2P Require Import RouteHistory ProviderIntents RoleBudgets RoleCapabilities RoleAdmission.
Open Scope Z_scope.

(** ** Bindings *)

Record ExecutionInstanceBinding := {
  b_repository : string;
  b_task : string;
  b_candidate : string;
  b_instance : string;
  b_host : string;
  b_deployment : string;
  b_epoch : Z;
  b_fence : string;
  b_role : AdvisoryRole;
  b_profile : ProviderProfile;
  b_execution : string;
  b_preflight : string;
}.

Definition check_ExecutionInstanceBinding (b : ExecutionInstanceBinding) : py unit :=
  _ ← require_digests (map (λ s, (s, "execution binding"))
        [b_repository b; b_instance b; b_host b; b_deployment b; b_preflight b]);
  role_ensure (all_true [match_identity (b_task b); match_sha (b_candidate b); 1 <=? b_epoch b; match_identity (b_fence b);
                         match_identity (b_execution b)]) "execution binding is invalid".

Definition binding_json (b : ExecutionInstanceBinding) : json :=
  JObj [("schema", JStr "roundwright-execution-instance-binding/v1"); ("repository", JStr (b_repository b));
    ("task", JStr (b_task b)); ("candidate", JStr (b_candidate b)); ("instance", JStr (b_instance b));
    ("host", JStr (b_host b)); ("deployment", JStr (b_deployment b)); ("epoch", JInt (b_epoch b));
    ("fence", JStr (b_fence b)); ("role", JStr (AdvisoryRole_value (b_role b)));
    ("profile", JObj [("model", JStr (model (b_profile b)));
                      ("reasoning_effort", JStr (ReasoningEffort_value (reasoning_effort (b_profile b))));
                      ("name", jopt (profile_name (b_profile b)))]);
    ("execution", JStr (b_execution b)); ("preflight", JStr (b_preflight b))].

Definition binding_digest (b : ExecutionInstanceBinding) : string := digest_json (binding_json b).

Record TrustedExecutionHostInputs := {
  h_repository : string;
  h_task : string;
  h_candidate : string;
  h_instance : string;
  h_host : string;
  h_deployment : string;
  h_epoch : Z;
  h_fence : string;
}.

Definition check_TrustedExecutionHostInputs (h : TrustedExecutionHostInputs) : py unit :=
  _ ← require_digests (map (λ s, (s, "trusted execution host input")) [h_repository h; h_instance h; h_host h; h_deployment h]);
  role_ensure (all_true [match_identity (h_task h); match_sha (h_candidate h); 1 <=? h_epoch h; match_identity (h_fence h)])
    "trusted execution host input is invalid".

Definition derive (h : TrustedExecutionHostInputs) (r : AdvisoryRole) (p : ProviderProfile) (execution preflight : string) :
    py ExecutionInstanceBinding :=
  checked_role check_ExecutionInstanceBinding
    {| b_repository := h_repository h; b_task := h_task h; b_candidate := h_candidate h; b_instance := h_instance h;
       b_host := h_host h; b_deployment := h_deployment h; b_epoch := h_epoch h; b_fence := h_fence h; b_role := r;
       b_profile := p; b_execution := execution; b_preflight := preflight |}.

(** The request or attempt of an effect, and what is known before it. *)
Record Effect := {
  f_identity : string;
  f_request : list (string * json);
  f_preflight : list (string * json);
}.

Definition effect_request_digest (f : Effect) : string :=
  digest_json (JObj [("schema", JStr "roundwright-effect-request/v1"); ("identity", JStr (f_identity f));
                     ("request", JObj (f_request f))]).

Definition effect_preflight_digest (f : Effect) : string :=
  digest_json (JObj [("schema", JStr "roundwright-effect-preflight/v1"); ("request", JStr (effect_request_digest f));
                     ("preflight", JObj (f_preflight f))]).

Definition effect_execution_identity (f : Effect) : string :=
  String.append "effect-" (String.substring 0 32 (sha256_hex (effect_request_digest f))).

Definition derive_for_effect (h : TrustedExecutionHostInputs) (r : AdvisoryRole) (p : ProviderProfile) (f : Effect) :
    py ExecutionInstanceBinding :=
  _ ← require_identity (f_identity f) "effect request identity";
  derive h r p (effect_execution_identity f) (effect_preflight_digest f).

(** ** Sealed executions *)

Record ProviderGuidanceEvidence := {
  w_view : AdvisoryRole;
  w_receipt : string;
  w_main : string;
  w_candidate : string;
}.

Record SealedRoleExecution := {
  x_contract : AdvisoryRoleContract;
  x_seam : AdvisoryRole;
  x_store : FileRoleAdmissionStore;
  x_expectation : RoleAdmissionExpectation;
  x_evidence : ProviderGuidanceEvidence;
  x_binding : ExecutionInstanceBinding;
}.

Definition require_before_effect (x : SealedRoleExecution) (expected : option ExecutionInstanceBinding) (shown : py string)
    (time : Z) : py RoleReceipt :=
  let b := x_binding x in let c := x_contract x in let e := x_expectation x in let w := x_evidence x in
  _ ← role_ensure (all_true
        [w_view w ==? x_seam x; w_receipt w ==? guidance_digest (c_guidance c); w_main w ==? st_main (x_store x);
         w_candidate w ==? st_candidate (x_store x); e_candidate e ==? st_candidate (x_store x);
         b_repository b ==? e_repository e; b_task b ==? e_task e; b_candidate b ==? st_candidate (x_store x);
         b_instance b ==? instance_digest (c_instance c); b_host b ==? e_host e; b_deployment b ==? e_deployment e;
         b_epoch b =? e_epoch e; b_fence b ==? i_fence (c_instance c); b_role b ==? p_role (c_profile c);
         b_profile b ==? p_provider (c_profile c);
         match expected with Some d => binding_digest d ==? binding_digest b | None => true end])
        "provider guidance evidence does not match the role seam";
  require_verified_role_admission c (x_seam x) (x_store x) e shown time.

Definition require_execution_for_profile (x : SealedRoleExecution) (p : ProviderProfile) (shown : py string) (time : Z) :
    py RoleReceipt :=
  _ ← role_ensure (b_profile (x_binding x) ==? p) "sealed execution profile does not match the provider effect";
  require_before_effect x (Some (x_binding x)) shown time.

Definition derive_and_require_execution_for_effect (x : SealedRoleExecution) (h : TrustedExecutionHostInputs)
    (p : ProviderProfile) (f : Effect) (shown : py string) (time : Z) : py (RoleReceipt * ExecutionInstanceBinding) :=
  _ ← role_ensure (b_profile (x_binding x) ==? p) "trusted effect execution is invalid";
  derived ← derive_for_effect h (p_role (c_profile (x_contract x))) p f;
  receipt ← require_before_effect x (Some derived) shown time;
  Ok (receipt, derived).

(** ** Reservations *)

Record TrustedRoleEffectReservation := {
  y_ledger : RoleBudgetLedger;
  y_binding : ExecutionInstanceBinding;
  y_exposure : RoleBudget;
  y_profile : ProviderProfile;
  y_effect : Effect;
}.

Definition reserved_request_digest (f : Effect) : string :=
  digest_json (JObj [("schema", JStr "roundwright-reserved-effect-request/v1"); ("material", JObj (f_request f))]).
Definition reserved_preflight_digest (f : Effect) : string :=
  digest_json (JObj [("schema", JStr "roundwright-reserved-effect-preflight/v1"); ("material", JObj (f_preflight f))]).

Definition recovery_reservation_digest (b : ExecutionInstanceBinding) (e : RoleBudget) (p : ProviderProfile) (f : Effect) :
    string :=
  digest_json (JObj [("schema", JStr "roundwright-recovery-effect-reservation/v1");
    ("execution_binding", JStr (binding_digest b));
    ("budget", JObj [("max_calls", JInt (max_calls e)); ("max_duration_seconds", JInt (max_duration_seconds e));
                     ("max_tokens", JInt (max_tokens e))]);
    ("profile", JObj [("model", JStr (model p)); ("reasoning_effort", JStr (ReasoningEffort_value (reasoning_effort p)));
                      ("name", jopt (profile_name p))]);
    ("request_identity", JStr (f_identity f)); ("request_digest", JStr (reserved_request_digest f));
    ("preflight_digest", JStr (reserved_preflight_digest f))]).

Definition recovery_digest (y : TrustedRoleEffectReservation) : string :=
  recovery_reservation_digest (y_binding y) (y_exposure y) (y_profile y) (y_effect y).

(** What the reservation of an execution's effect would be. *)
Definition effect_reservation (x : SealedRoleExecution) (v : VerifiedRoleAdmission) (b : ExecutionInstanceBinding)
    (p : ProviderProfile) (f : Effect) : TrustedRoleEffectReservation :=
  let budget := p_budget (c_profile (x_contract x)) in
  {| y_ledger := {| lg_grant := grant_digest (v_grant v); lg_binding := binding_digest b; lg_budget := budget |};
     y_binding := b; y_exposure := budget; y_profile := p; y_effect := f |}.

(** [s[7:]] of a digest. *)
Definition hex_part (s : string) : string := String.substring 7 (String.length s - 7) s.

Definition seam_descriptors (c : AdvisoryRoleContract) : list ScopedDescriptor :=
  let at_ k v := {| d_kind := k; d_root := i_repository (c_instance c); d_value := v |} in
  [at_ K_TEST_INPUT_SET (hex_part (guidance_digest (c_guidance c))); at_ K_NETWORK "network-disabled";
   at_ K_RESOURCE (hex_part (instance_digest (c_instance c)))].

Definition admitted_effect (x : SealedRoleExecution) (h : TrustedExecutionHostInputs) (p : ProviderProfile) (f : Effect)
    (shown : py string) (time : Z) : py (VerifiedRoleAdmission * ExecutionInstanceBinding) :=
  rb ← derive_and_require_execution_for_effect x h p f shown time;
  _ ← role_ensure (rr_status rb.1 ==? READY) "role effect admission is unavailable";
  match c_admission (x_contract x) with
  | None => role_error "role effect admission is unavailable"
  | Some v => Ok (v, rb.2)
  end.

Definition reserve_role_effect (x : SealedRoleExecution) (h : TrustedExecutionHostInputs) (p : ProviderProfile) (f : Effect)
    (shown : py string) (time : Z) (file : BudgetFile) : py TrustedRoleEffectReservation * BudgetFile :=
  match (vb ← admitted_effect x h p f shown time;
         _ ← match (_ ← for_each check_ScopedDescriptor (seam_descriptors (x_contract x));
                    scope_require (v_scope vb.1) (SEAM_CAPABILITIES (x_seam x)) (seam_descriptors (x_contract x))) with
             | Err (Raised RoleCapabilityError _) => role_error "role effect descriptors are not admitted"
             | r => r
             end;
         let y := effect_reservation x vb.1 vb.2 p f in
         _ ← make_ledger (lg_grant (y_ledger y)) (lg_binding (y_ledger y)) (lg_budget (y_ledger y));
         Ok y) with
  | Err e => (Err e, file)
  | Ok y =>
      let r := reserve_effect (y_ledger y) (Some (Typed (y_exposure y))) file in
      (_ ← r.1; Ok y, r.2)
  end.

Definition recover_role_effect_reservation (x : SealedRoleExecution) (h : TrustedExecutionHostInputs) (p : ProviderProfile)
    (f : Effect) (shown : py string) (time : Z) (file : BudgetFile) : py TrustedRoleEffectReservation :=
  vb ← admitted_effect x h p f shown time;
  let y := effect_reservation x vb.1 vb.2 p f in
  _ ← make_ledger (lg_grant (y_ledger y)) (lg_binding (y_ledger y)) (lg_budget (y_ledger y));
  _ ← require_reserved (y_ledger y) (Typed (y_exposure y)) file;
  Ok y.

Definition reservation_before_effect (y : TrustedRoleEffectReservation) (x : SealedRoleExecution)
    (h : TrustedExecutionHostInputs) (p : ProviderProfile) (f : Effect) (shown : py string) (time : Z) (file : BudgetFile) :
    py RoleReceipt :=
  _ ← role_ensure (all_true [p ==? y_profile y; f_identity f ==? f_identity (y_effect y);
        reserved_request_digest f ==? reserved_request_digest (y_effect y);
        reserved_preflight_digest f ==? reserved_preflight_digest (y_effect y)])
        "trusted role effect reservation has drifted";
  rb ← derive_and_require_execution_for_effect x h p f shown time;
  _ ← role_ensure (binding_digest rb.2 ==? binding_digest (y_binding y)) "trusted role effect binding has drifted";
  _ ← require_reserved (y_ledger y) (Typed (y_exposure y)) file;
  Ok rb.1.

Definition require_recovery_route (y : TrustedRoleEffectReservation) (x : SealedRoleExecution) (shown : py string) (time : Z)
    (file : BudgetFile) : py ExecutionInstanceBinding :=
  _ ← require_before_effect x (Some (y_binding y)) shown time;
  _ ← require_reserved (y_ledger y) (Typed (y_exposure y)) file;
  Ok (y_binding y).

(** [_release_exclusive_recovery_reservation], which only the transactions of
    the product ledger call; [usable] is false when the budget file cannot be
    opened, locked or committed, which changes nothing of it. *)
Definition release_exclusive (y : TrustedRoleEffectReservation) (reservation : string) (usable : bool) (file : BudgetFile) :
    py unit * BudgetFile :=
  if reservation ==? recovery_digest y then
    if usable then release_exact_reservation (y_ledger y) (Typed (y_exposure y)) true file
    else (role_error "role budget reservation cannot be released", file)
  else (role_error "trusted recovery reservation release is unauthorized", file).

(** What the release of an unused reservation reads of it. *)
Definition reservation_view (y : TrustedRoleEffectReservation) : EffectReservation :=
  {| ef_role := AdvisoryRole_value (b_role (y_binding y)); ef_repository := b_repository (y_binding y);
     ef_task := b_task (y_binding y); ef_request := f_identity (y_effect y); ef_digest := recovery_digest y |}.

Definition refund_reservation (y : TrustedRoleEffectReservation) (usable : bool) (e : EffectReservation) :
    BudgetFile → py unit * BudgetFile :=
  release_exclusive y (ef_digest e) usable.

(** ** Admission *)

Lemma read_verified_admission_ok e s shown time v i : read_verified_admission e s shown time = Ok (v, i) →
  ∃ raw d r, shown = Ok raw ∧ dumps (JObj d) = raw ∧ String.append "sha256:" (sha256_hex raw) = e_record e ∧
    parse_record d = Ok r ∧ r_instance r = i ∧ v_grant v = r_grant r ∧ v_scope v = r_scope r ∧
    matches_expectation e s time r = true.
Proof.
  unfold read_verified_admission. intros ([] & _ & H)%bind_ok. apply bind_ok in H as (d & Hd & H).
  apply bind_ok in H as ([] & He & H). apply bind_ok in H as (r & Hr & H). apply bind_ok in H as ([] & Hm & [= <- <-]).
  unfold role_ensure in He, Hm. apply require_ok in He, Hm. breflect.
  unfold store_read in Hd. destruct (_ ← shown; _) as [[raw j]|[[] ?]] eqn:Hs; try done.
  apply bind_ok in Hs as (raw' & -> & Hs). apply bind_ok in Hs as (j' & _ & [= -> ->]).
  destruct (doc_json j) as [[]|]; try done. apply bind_ok in Hd as ([] & Hd & [= ->]).
  unfold role_ensure in Hd. apply require_ok in Hd. breflect. subst raw.
  eexists _, d, r. by rewrite <- He.
Qed.

(** C14 : no role acts without a current grant.  When an effect is admitted, the
    text read for this very call hashes to the pinned digest and parses to a
    record that is not revoked, whose grant and authority hold at this time, for
    the pinned repository, task, candidate and epoch; its grant is the one of the
    contract, which grants the action that this seam performs within the
    capabilities of its profile; and the binding derived from the request is the
    sealed one. *)
Theorem admitted_effect_is_granted x h p f shown time v b :
  admitted_effect x h p f shown time = Ok (v, b) →
  let c := x_contract x in let e := x_expectation x in
  ∃ raw d r, shown = Ok raw ∧ raw = dumps (JObj d) ∧ String.append "sha256:" (sha256_hex raw) = e_record e ∧
    parse_record d = Ok r ∧ r_revoked r = false ∧
    g_issued (r_grant r) ≤ time ≤ g_expires (r_grant r) ∧ time ≤ a_expires (r_authority r) ∧
    r_instance r = c_instance c ∧ i_repository (r_instance r) = e_repository e ∧ i_task (r_instance r) = e_task e ∧
    i_candidate (r_instance r) = e_candidate e ∧ i_epoch (r_instance r) = e_epoch e ∧
    c_admission c = Some v ∧ grant_digest (r_grant r) = grant_digest (v_grant v) ∧
    SEAM_CAPABILITIES (p_role (c_profile c)) ∈ actions (v_scope v) ∧
    (∀ a, a ∈ actions (v_scope v) → a ∈ p_capabilities (c_profile c)) ∧
    binding_digest b = binding_digest (x_binding x) ∧ b_profile (x_binding x) = p.
Proof.
  cbn zeta. unfold admitted_effect. intros ([receipt b'] & H & Hv)%bind_ok. apply bind_ok in Hv as ([] & _ & Hv).
  destruct (c_admission (x_contract x)) as [v'|] eqn:Ha; [|done]. injection Hv as -> <-. cbn [snd].
  unfold derive_and_require_execution_for_effect in H. apply bind_ok in H as ([] & Hp & H).
  apply bind_ok in H as (b0 & _ & H). apply bind_ok in H as (r0 & H & [= -> ->]).
  unfold require_before_effect in H. apply bind_ok in H as ([] & Hb & H).
  unfold role_ensure in Hp, Hb. apply require_ok in Hp, Hb. rewrite !all_true_cons in Hb. breflect.
  unfold require_verified_role_admission in H. apply bind_ok in H as ([] & Hseam & H).
  apply bind_ok in H as ([fresh i] & Hf & H). apply bind_ok in H as ([] & Hsame & H).
  apply bind_ok in H as (rc & Hst & H). rewrite Ha in *. apply bind_ok in H as ([] & _ & H).
  apply bind_ok in H as ([] & _ & H). apply bind_ok in H as ([] & Hact & _).
  unfold role_ensure in Hseam, Hsame. apply require_ok in Hseam, Hsame. cbn in Hsame. breflect.
  destruct Hsame as [-> Hg].
  unfold scope_require in Hact. apply bind_ok in Hact as ([] & Hact & _). unfold role_ensure in Hact. apply require_ok in Hact.
  unfold public_receipt in Hst. apply bind_ok in Hst as (st & Hst & _). unfold contract_status in Hst. rewrite Ha in Hst.
  apply bind_ok in Hst as ([] & Hst & _). unfold role_ensure in Hst. apply require_ok in Hst. rewrite !all_true_cons in Hst.
  do 10 (destruct Hst as [_ Hst]). destruct Hst as [Hsub _].
  apply read_verified_admission_ok in Hf as (raw & d & r & -> & <- & Hd & Hr & Hi & Hgr & _ & Hm).
  unfold matches_expectation in Hm. rewrite !all_true_cons in Hm. breflect.
  exists (dumps (JObj d)), d, r. rewrite <- Hgr.
  destruct_and!. split_and!; try done; try congruence; try lia.
  intros a Hin. unfold subset in Hsub. rewrite forallb_elem in Hsub. specialize (Hsub a Hin). by breflect.
Qed.

(** ** Reservations *)

Lemma admitted_effect_binding x h p f shown time v b : admitted_effect x h p f shown time = Ok (v, b) →
  c_admission (x_contract x) = Some v ∧ derive_for_effect h (p_role (c_profile (x_contract x))) p f = Ok b.
Proof.
  unfold admitted_effect. intros ([receipt b'] & H & Hv)%bind_ok. apply bind_ok in Hv as ([] & _ & Hv).
  destruct (c_admission (x_contract x)) as [v'|]; [|done]. injection Hv as -> <-. split; [done|].
  unfold derive_and_require_execution_for_effect in H. apply bind_ok in H as ([] & _ & H).
  apply bind_ok in H as (b0 & Hb & H). by apply bind_ok in H as (r0 & _ & [= _ ->]).
Qed.

Lemma reserve_role_effect_ok x h p f shown time file y file' : reserve_role_effect x h p f shown time file = (Ok y, file') →
  ∃ v b, admitted_effect x h p f shown time = Ok (v, b) ∧ y = effect_reservation x v b p f ∧
    is_ok (make_ledger (lg_grant (y_ledger y)) (lg_binding (y_ledger y)) (lg_budget (y_ledger y))) = true ∧
    is_ok (reserve_effect (y_ledger y) (Some (Typed (lg_budget (y_ledger y)))) file).1 = true ∧
    file' = (reserve_effect (y_ledger y) (Some (Typed (lg_budget (y_ledger y)))) file).2.
Proof.
  unfold reserve_role_effect. destruct (vb ← _; _) as [y'|] eqn:H; [|done]. intros [= Hr <-].
  apply bind_ok in Hr as (u & Hr & [= ->]). apply bind_ok in H as ([v b] & Ha & H).
  apply bind_ok in H as (? & _ & H). apply bind_ok in H as (l & Hl & [= <-]).
  cbn [fst snd] in *. exists v, b. split_and!; [done|done|by rewrite Hl| |done].
  cbn [effect_reservation y_ledger y_exposure lg_budget] in *. by rewrite Hr.
Qed.

(** C4 : an admitted effect is reserved once.  After a role effect was reserved,
    and until recovery releases that reservation, whatever other processes do on
    the budget file: a process that repeats the call for the same effect, at any
    time, is refused a second reservation, and whenever the admission still
    holds, reading the first one back returns exactly that reservation. *)
Theorem effect_is_reserved_once x h p f shown time file y file' os shown' time' :
  reserve_role_effect x h p f shown time file = (Ok y, file') →
  (∀ o, o ∈ os → ledger_key (operator o) = ledger_key (y_ledger y) → lg_budget (operator o) = lg_budget (y_ledger y)) →
  (∀ o, o ∈ os → releases (ledger_key (y_ledger y)) o = false) →
  is_ok (reserve_role_effect x h p f shown' time' (run_budgets os file')).1 = false ∧
  (is_ok (admitted_effect x h p f shown' time') = true →
   recover_role_effect_reservation x h p f shown' time' (run_budgets os file') = Ok y).
Proof.
  intros (v & b & Ha & -> & Hl & Hok & ->)%reserve_role_effect_ok Hb Hr.
  apply reserve_effect_reserved in Hok as [Hpos Hres]. pose proof (reserved_steps _ os _ Hb Hr Hres) as Hf.
  set (file2 := run_budgets os _) in *. pose proof (reserved_spent _ _ _ Hf) as Hs.
  apply admitted_effect_binding in Ha as [Hv Hbind].
  assert (∀ s t v' b', admitted_effect x h p f s t = Ok (v', b') → v' = v ∧ b' = b) as Hsame.
  { intros s t v' b' [Hv' Hb']%admitted_effect_binding. rewrite Hv in Hv'. rewrite Hbind in Hb'. by simplify_eq. }
  split.
  - destruct (reserve_role_effect x h p f shown' time' file2) as [[y'|] f'] eqn:He; [|done]. exfalso.
    apply reserve_role_effect_ok in He as (v' & b' & [-> ->]%Hsame & -> & _ & Hok & _).
    destruct (reserve_effect_cases (y_ledger (effect_reservation x v b p f))
      (Some (Typed (lg_budget (y_ledger (effect_reservation x v b p f))))) file2) as [[e He]|He]; rewrite He in Hok; [done|].
    by rewrite consume_exhausted in Hok.
  - intros [[v' b'] Ha']%is_ok_spec. unfold recover_role_effect_reservation. rewrite Ha'. cbn.
    apply Hsame in Ha' as [-> ->]. apply is_ok_spec in Hl as [l Hl].
    cbn [effect_reservation y_ledger y_exposure lg_grant lg_binding lg_budget] in *. rewrite Hl. cbn.
    destruct Hf as (t & -> & Ht). cbn. rewrite Ht. cbn. rewrite row_usage_of by done. cbn.
    by rewrite bool_decide_eq_true_2.
Qed.

(** ** Refunds *)

Lemma release_exclusive_cases y d usable f :
  (∃ e, release_exclusive y d usable f = (Err e, f)) ∨
  ∃ t, d = recovery_digest y ∧ usable = true ∧ f = Some t ∧
    t !! ledger_key (y_ledger y) = Some (usage_row (y_ledger y) (budget_usage (y_exposure y))) ∧
    release_exclusive y d usable f = (Ok (), Some (delete (ledger_key (y_ledger y)) t)).
Proof.
  unfold release_exclusive. case_bool_decide as Hd; [|by left; eexists]. destruct usable; [|by left; eexists].
  destruct (release_cases (y_ledger y) (y_exposure y) true f) as [[e ->]|(t & _ & -> & Ht & ->)]; [by left; eexists|right].
  by exists t.
Qed.

(** What passed the check before a refund can be restored after it. *)
Lemma unspent_restores i a state why why' db : require_unspent i a state why db = Ok () →
  ∃ r, routes (evidence db) !! au_route a = Some r ∧ state (ro_state r) = true ∧
    restore_route i a state why' db =
      Ok ((), write (λ t, set_routes (<[au_route a := set_state Issued r]> (routes t)) t) db).
Proof.
  unfold require_unspent. intros (? & _ & H)%bind_ok. apply bind_ok in H as ([] & H & _).
  unfold recovery_ensure in H. apply require_ok in H. unfold restore_route, update_route.
  destruct (route_row i (au_route a) (evidence db)) as [r|] eqn:Hr; [|done]. apply andb_true_iff in H as [_ H].
  exists r. cbn. rewrite H. split_and!; [|done|done]. unfold route_row in Hr.
  destruct (routes (evidence db) !! au_route a); [|done]. cbn in Hr. by case_match; simplify_eq.
Qed.

(** The abandonment of a route by a caller that holds its reservation: it is
    refused with nothing changed, or the budget is refunded and the product
    database follows [commit]. *)
Lemma abandonment_cases migrations i a d y usable (w : World RecoveryTables * BudgetFile) :
  let abandon commit := abandon_durable_recovery_route_reservation migrations i (Typed a) d
                          (Some (release_exclusive y d usable)) commit w in
  (∃ e, ∀ commit, abandon commit = (Err e, w)) ∨
  ∃ db row t, w = (Some db, Some t) ∧ d = recovery_digest y ∧
    routes (evidence db) !! au_route a = Some row ∧ ro_state row = Reserving d ∧
    successors (evidence db) !! au_route a = None ∧
    t !! ledger_key (y_ledger y) = Some (usage_row (y_ledger y) (budget_usage (y_exposure y))) ∧
    let db' := write (λ t, set_routes (<[au_route a := set_state Issued row]> (routes t)) t) db in
    ∀ f : BudgetFile, abandon_durable_recovery_route_reservation migrations i (Typed a) d None (Ok ()) (Some db, f) =
           (Ok (), (Some db', f)) ∧
    ∀ commit, abandon commit =
      (commit, (match commit with Ok _ => Some db' | Err _ => Some db end, Some (delete (ledger_key (y_ledger y)) t))).
Proof.
  cbn zeta. unfold abandon_durable_recovery_route_reservation. cbn [fst snd].
  destruct (_ ← _; _) as [db|e] eqn:Hc; [|by left; exists e].
  apply bind_ok in Hc as ([] & Hm & Hc). apply bind_ok in Hc as (db' & Ho & Hc). apply bind_ok in Hc as ([] & Hu & [= <-]).
  destruct w as [[db0|] f]; [|done]. cbn [fst snd] in *. pose proof (open_connection_same _ _ _ Ho) as ->.
  destruct (unspent_restores _ _ _ _ "durable recovery route abandonment has drifted" _ Hu) as (row & Hrow & Hst & Hre).
  destruct (release_exclusive_cases y d usable f) as [[e ->]|(t & Hd & _ & -> & Ht & ->)]; [by left; exists e|right].
  pose proof (unspent_ok _ _ _ _ _ Hu) as Hs. unfold is_reserving in Hst. breflect.
  exists db0, row, t. split_and!; try done. intros f. split.
  - rewrite Hm. cbn [mbind result_bind]. rewrite Ho. cbn [mbind result_bind]. rewrite Hu. cbn [mbind result_bind]. by rewrite Hre.
  - intros commit. cbn [mbind result_bind fst snd]. rewrite Hre. by destruct commit as [[]|e].
Qed.

(** The same for the release of an unused reservation. *)
Lemma unused_release_cases migrations i scope attempt y usable (w : World RecoveryTables * BudgetFile) :
  let release commit := release_unused_provider_effect_reservation migrations i scope attempt (Typed (reservation_view y))
                          (refund_reservation y usable) commit w in
  (∃ e, ∀ commit, release commit = (Err e, w)) ∨
  ∃ db n role t, w = (Some db, Some t) ∧ f_identity (y_effect y) = attempt ∧
    intents (evidence db) !! attempt = Some n ∧ in_reservation n = recovery_digest y ∧ in_task n = task_id i ∧
    occupied role attempt (provider (evidence db)) = false ∧ AdvisoryRole_value (b_role (y_binding y)) = FailureRole_value role ∧
    t !! ledger_key (y_ledger y) = Some (usage_row (y_ledger y) (budget_usage (y_exposure y))) ∧
    ∀ commit, release commit =
      (commit, (match commit with Ok _ => Some (delete_intent attempt db) | Err _ => Some db end,
                Some (delete (ledger_key (y_ledger y)) t))).
Proof.
  cbn zeta. unfold release_unused_provider_effect_reservation. destruct (_ ← _; _) as [db|e] eqn:Hc; [|by left; exists e].
  apply bind_ok in Hc as ([] & _ & Hc). destruct (provider_intent_role i scope) as [role|]; [|done].
  apply bind_ok in Hc as ([] & Hv & Hc). apply bind_ok in Hc as (db' & Ho & Hc). apply bind_ok in Hc as ([] & Hu & [= <-]).
  destruct w as [[db0|] f]; [|done]. apply open_connection_same in Ho as ->. cbn [fst snd]. unfold refund_reservation.
  destruct (release_exclusive_cases y (ef_digest (reservation_view y)) usable f)
    as [[e ->]|(t & Hd & _ & -> & Ht & ->)]; [by left; exists e|right].
  unfold require_unused in Hu. apply bind_ok in Hu as (? & _ & Hu). apply bind_ok in Hu as ([] & Hn & Ho).
  unfold recovery_ensure in Hv, Hn, Ho. apply require_ok in Hv, Hn, Ho. rewrite !all_true_cons in Hv. breflect.
  cbn [reservation_view ef_role ef_request] in Hv. destruct Hv as (Hrole & Hreq & _).
  eexists db0, _, role, t. rewrite Hn. split_and!; try done. by intros [[]|e].
Qed.

(** The whole debit of a reservation is gone from the budget file, and nothing
    else of the file has changed. *)
Definition debit_refunded (y : TrustedRoleEffectReservation) (before after : BudgetFile) : Prop :=
  let key := ledger_key (y_ledger y) in
  ∃ t, before = Some t ∧ t !! key = Some (usage_row (y_ledger y) (budget_usage (y_exposure y))) ∧
    after = Some (delete key t).

(** C12 : a refund is committed before what it frees.  Recovery gives a reservation
    back by writing the budget file and then the product database, which commit
    separately.  When the call returns, the reservation it names was the one
    sealed, its whole debit is gone from the budget, and the product database has
    either the route open again, which nothing had succeeded, or no intent for
    the attempt, which had left no row behind.  When the call raises, the product
    database is as before.  The budget is too, unless it is the product database
    that failed after the refund: then the debit is gone while the route or the
    intent still stands.  Such a refund is not repeated: the same call raises and
    changes nothing.  For a route, the abandonment without a reservation, which a
    restart falls back on, completes the interrupted one exactly. *)
Theorem refund_precedes_reopening migrations i a d scope attempt y usable commit (w : World RecoveryTables * BudgetFile) :
  let abandon := abandon_durable_recovery_route_reservation migrations i (Typed a) d in
  let refund := Some (release_exclusive y d usable) in
  let release := release_unused_provider_effect_reservation migrations i scope attempt (Typed (reservation_view y))
                   (refund_reservation y usable) in
  let abandoned := abandon refund commit w in
  let released := release commit w in
  (is_ok abandoned.1 = true →
     d = recovery_digest y ∧ debit_refunded y w.2 abandoned.2.2 ∧
     ∃ db db' row, w.1 = Some db ∧ abandoned.2.1 = Some db' ∧ routes (evidence db) !! au_route a = Some row ∧
       ro_state row = Reserving d ∧ successors (evidence db) !! au_route a = None ∧
       routes (evidence db') = <[au_route a := set_state Issued row]> (routes (evidence db))) ∧
  (is_ok released.1 = true →
     debit_refunded y w.2 released.2.2 ∧
     ∃ db db' n role, w.1 = Some db ∧ released.2.1 = Some db' ∧ intents (evidence db) !! attempt = Some n ∧
       in_reservation n = recovery_digest y ∧ occupied role attempt (provider (evidence db)) = false ∧
       intents (evidence db') = delete attempt (intents (evidence db))) ∧
  (is_ok abandoned.1 = false → abandoned.2 = w ∨
     is_ok commit = false ∧ abandoned.2.1 = w.1 ∧ debit_refunded y w.2 abandoned.2.2 ∧
     (∀ again, is_ok (abandon refund again abandoned.2).1 = false ∧ (abandon refund again abandoned.2).2 = abandoned.2) ∧
     abandon None (Ok ()) abandoned.2 = abandon refund (Ok ()) w ∧ is_ok (abandon refund (Ok ()) w).1 = true) ∧
  (is_ok released.1 = false → released.2 = w ∨
     is_ok commit = false ∧ released.2.1 = w.1 ∧ debit_refunded y w.2 released.2.2 ∧
     (∀ again, is_ok (release again released.2).1 = false ∧ (release again released.2).2 = released.2) ∧
     is_ok (release (Ok ()) w).1 = true).
Proof.
  cbn zeta. pose proof (abandonment_cases migrations i a d y usable) as Ha.
  pose proof (unused_release_cases migrations i scope attempt y usable) as Hr. cbn zeta in Ha, Hr.
  split_and!; intros Hf.
  - destruct (Ha w) as [[e He]|(db & row & t & -> & Hd & Hrow & Hst & Hs & Ht & Hb)]; [by rewrite He in Hf|].
    destruct (Hb (Some t)) as [_ ->]. rewrite (proj2 (Hb None)) in Hf. destruct commit as [[]|e]; [|done].
    split_and!; [done|by exists t|]. eexists db, _, row. by split_and!.
  - destruct (Hr w) as [[e He]|(db & n & role & t & -> & _ & Hin & Hres & _ & Hocc & _ & Ht & Hb)]; [by rewrite He in Hf|].
    rewrite Hb in Hf |- *. destruct commit as [[]|e]; [|done].
    split_and!; [by exists t|]. eexists db, _, n, role. by split_and!.
  - destruct (Ha w) as [[e He]|(db & row & t & -> & Hd & Hrow & Hst & Hs & Ht & Hb)]; [left; by rewrite He|right].
    destruct (Hb (Some (delete (ledger_key (y_ledger y)) t))) as [Hn Hc]. rewrite !Hc in Hf |- *.
    destruct commit as [[]|e]; [done|]. cbn [fst snd].
    rewrite (Hc (Ok ())). split_and!; [done|done|by exists t| |exact Hn|done].
    intros again. destruct (Ha (Some db, Some (delete (ledger_key (y_ledger y)) t)))
      as [[e' He]|(? & ? & t' & [= <- <-] & _ & _ & _ & _ & Ht' & _)]; [by rewrite He|by rewrite lookup_delete_eq in Ht'].
  - destruct (Hr w) as [[e He]|(db & n & role & t & -> & _ & Hin & Hres & _ & Hocc & _ & Ht & Hb)]; [left; by rewrite He|right].
    rewrite !Hb in Hf |- *. destruct commit as [[]|e]; [done|]. cbn [fst snd].
    rewrite (Hb (Ok ())). split_and!; [done|done|by exists t| |done].
    intros again. destruct (Hr (Some db, Some (delete (ledger_key (y_ledger y)) t)))
      as [[e' He]|(? & ? & ? & t' & [= <- <-] & _ & _ & _ & _ & _ & _ & Ht' & _)];
      [by rewrite He|by rewrite lookup_delete_eq in Ht'].
Qed.

Module Sample.

Definition hex (c : string) : string := String.append "sha256:" (str_repeat c 64).
Definition candidate : string := str_repeat "c" 40.
Definition budget : RoleBudget := {| max_calls := 1; max_duration_seconds := 60; max_tokens := 4000 |}.
Definition provider : ProviderProfile := {| model := "reviewer-1"; reasoning_effort := HIGH; profile_name := None |}.

Definition profile : RoleCapabilityProfile :=
  {| p_role := R_SUPERVISOR; p_provider := provider; p_capabilities := [READ_ONLY_REVIEW; READ_TRUSTED_GUIDANCE];
     p_budget := budget; p_dedicated := true; p_always_on := false |}.

Definition guidance : TrustedGuidance :=
  {| t_expectation := hex "1"; t_view := R_SUPERVISOR; t_paths := ["AGENTS.md"]; t_digest := hex "2" |}.

Definition guidance_receipt : string := Eval vm_compute in guidance_digest guidance.

Definition instance : DedicatedRoleInstance := Eval vm_compute in
  {| i_instance := "instance-1"; i_role := R_SUPERVISOR; i_profile := profile_identity profile;
     i_guidance := guidance_receipt; i_repository := hex "3"; i_task := "task-1"; i_state := hex "4";
     i_deployment := hex "5"; i_host := hex "6"; i_epoch := 1; i_fence := "fence-1"; i_candidate := candidate |}.

Definition instance_receipt : string := Eval vm_compute in instance_digest instance.

Definition authority : TrustedRoleAuthorityReceipt :=
  {| a_repository := hex "3"; a_task := "task-1"; a_deployment := hex "5"; a_epoch := 1; a_issuer := hex "7";
     a_expires := 2000; a_revocation := hex "8" |}.

Definition contract_sketch : AdvisoryRoleContract :=
  {| c_profile := profile; c_guidance := guidance; c_instance := instance; c_admission := None |}.

Definition scope : RoleScope := Eval vm_compute in
  {| actions := [READ_ONLY_REVIEW]; descriptors := sorted_by serialized (seam_descriptors contract_sketch) |}.

Definition grant : RoleCapabilityGrant := Eval vm_compute in
  {| g_authority := authority_digest authority; g_instance := instance_receipt; g_scope := scope_identity scope;
     g_issued := 1000; g_expires := 1500 |}.

(** The admission record as the authority would write it. *)
Definition record : list (string * json) :=
  [("authority", JObj [("authority_epoch", JInt 1); ("deployment_identity", JStr (hex "5")); ("expires_at", JInt 2000);
                       ("issuer_identity", JStr (hex "7")); ("repository_identity", JStr (hex "3"));
                       ("revocation_identity", JStr (hex "8")); ("task_identity", JStr "task-1")]);
   ("grant", JObj [("authority_receipt_digest", JStr (g_authority grant)); ("expires_at", JInt 1500);
                   ("instance_receipt_digest", JStr instance_receipt); ("issued_at", JInt 1000);
                   ("scope_identity", JStr (g_scope grant))]);
   ("grant_reference", JStr "grant-1");
   ("instance", JObj [("authority_epoch", JInt 1); ("candidate_sha", JStr candidate); ("deployment_identity", JStr (hex "5"));
                      ("guidance_receipt_digest", JStr guidance_receipt); ("host_identity", JStr (hex "6"));
                      ("instance_identity", JStr "instance-1"); ("profile_identity", JStr (i_profile instance));
                      ("replacement_fence", JStr "fence-1"); ("repository_identity", JStr (hex "3"));
                      ("role", JStr "supervisor"); ("state_identity", JStr (hex "4")); ("task_identity", JStr "task-1")]);
   ("revocation_readback_digest", JStr (hex "8")); ("revoked", JBool false);
   ("schema", JStr "roundwright-independent-role-admission/v1");
   ("scope", JObj [("actions", jstrs ["read-only-review"]);
                   ("descriptors", JArr (map (λ d, JObj [("kind", JStr (ScopeKind_value (d_kind d)));
                      ("root_identity", JStr (d_root d)); ("value", JStr (d_value d))]) (descriptors scope)))])].

Definition shown : string := Eval vm_compute in dumps (JObj record).

Definition expectation : RoleAdmissionExpectation := Eval vm_compute in
  {| e_store := hex "9"; e_record := String.append "sha256:" (sha256_hex shown); e_reference := "grant-1";
     e_authority := g_authority grant; e_instance := instance_receipt; e_repository := hex "3"; e_task := "task-1";
     e_state := hex "4"; e_deployment := hex "5"; e_host := hex "6"; e_epoch := 1; e_candidate := candidate;
     e_scope := g_scope grant; e_actions := [READ_ONLY_REVIEW]; e_valid_from := 1000; e_valid_until := 1500;
     e_revocation := hex "8" |}.

Definition store : FileRoleAdmissionStore :=
  {| st_identity := hex "9"; st_main := str_repeat "a" 40; st_candidate := candidate |}.

Definition admission : VerifiedRoleAdmission :=
  {| v_authority := authority; v_grant := grant; v_scope := scope; v_time := 1100; v_revoked := false;
     v_reference := "grant-1" |}.

Definition host : TrustedExecutionHostInputs :=
  {| h_repository := hex "3"; h_task := "task-1"; h_candidate := candidate; h_instance := instance_receipt;
     h_host := hex "6"; h_deployment := hex "5"; h_epoch := 1; h_fence := "fence-1" |}.

Definition effect : Effect :=
  {| f_identity := "attempt-9"; f_request := [("prompt", JStr "review")]; f_preflight := [("round", JInt 1)] |}.

Definition binding : ExecutionInstanceBinding := Eval vm_compute in
  {| b_repository := hex "3"; b_task := "task-1"; b_candidate := candidate; b_instance := instance_receipt;
     b_host := hex "6"; b_deployment := hex "5"; b_epoch := 1; b_fence := "fence-1"; b_role := R_SUPERVISOR;
     b_profile := provider; b_execution := effect_execution_identity effect; b_preflight := effect_preflight_digest effect |}.

Definition execution : SealedRoleExecution :=
  {| x_contract := {| c_profile := profile; c_guidance := guidance; c_instance := instance; c_admission := Some admission |};
     x_seam := R_SUPERVISOR; x_store := store; x_expectation := expectation;
     x_evidence := {| w_view := R_SUPERVISOR; w_receipt := guidance_receipt; w_main := str_repeat "a" 40;
                      w_candidate := candidate |};
     x_binding := binding |}.

Definition reservation : TrustedRoleEffectReservation := effect_reservation execution admission binding provider effect.

Lemma admitted : admitted_effect execution host provider effect (Ok shown) 1200 = Ok (admission, binding).
Proof. vm_compute. reflexivity. Qed.

Definition key : string := Eval vm_compute in ledger_key (y_ledger reservation).

Definition file : BudgetFile := Some {[ key := usage_row (y_ledger reservation) (budget_usage budget) ]}.

Lemma admitted_effect_is_granted_witness : r_revoked {| r_authority := authority; r_instance := instance; r_scope := scope;
    r_grant := grant; r_revoked := false; r_reference := "grant-1"; r_revocation := hex "8" |} = false ∧
  SEAM_CAPABILITIES R_SUPERVISOR ∈ actions scope.
Proof.
  destruct (admitted_effect_is_granted _ _ _ _ _ _ _ _ admitted) as
    (raw & d & r & _ & _ & _ & _ & _ & _ & _ & _ & _ & _ & _ & _ & _ & _ & H & _). by split.
Defined.

Lemma reserved_file : reserve_role_effect execution host provider effect (Ok shown) 1200 None = (Ok reservation, file).
Proof. unfold reserve_role_effect. rewrite admitted. vm_compute. reflexivity. Qed.

Lemma none_of {A} (P : A → Prop) : ∀ o, o ∈ [] → P o.
Proof. by intros o ?%elem_of_nil. Qed.

Lemma effect_is_reserved_once_witness :
  is_ok (reserve_role_effect execution host provider effect (Ok shown) 1300 (run_budgets [] file)).1 = false ∧
  (is_ok (admitted_effect execution host provider effect (Ok shown) 1300) = true →
   recover_role_effect_reservation execution host provider effect (Ok shown) 1300 (run_budgets [] file) = Ok reservation).
Proof.
  exact (effect_is_reserved_once execution host provider effect (Ok shown) 1200 None reservation file [] (Ok shown) 1300
    reserved_file (none_of _) (none_of _)).
Defined.

(** The intent of the attempt, next to its reservation. *)
Definition intent : IntentRow := Eval vm_compute in
  {| in_task := "task-1"; in_repository := "owner/repo"; in_scope := "supervisor:task-1"; in_role := "supervisor";
     in_reservation := recovery_digest reservation; in_repository_identity := hex "3"; in_task_identity := "task-1" |}.

Definition product : Db :=
  write (set_intents {[ "attempt-9" := intent ]}) FailureHistory.Sample.before.

Lemma refund_precedes_reopening_witness :
  let release := release_unused_provider_effect_reservation FailureHistory.Sample.migrations FailureHistory.Sample.identity
    "supervisor:task-1" "attempt-9" (Typed (reservation_view reservation)) (refund_reservation reservation true) in
  let locked := release (raise OSError "database is locked") (Some product, file) in
  debit_refunded reservation file (release (Ok ()) (Some product, file)).2.2 ∧
  locked.2.1 = Some product ∧ debit_refunded reservation file locked.2.2.
Proof.
  pose proof (λ commit, refund_precedes_reopening FailureHistory.Sample.migrations FailureHistory.Sample.identity
    RouteHistory.Sample.route (hex "b") "supervisor:task-1" "attempt-9" reservation true commit (Some product, file)) as H.
  cbv zeta in H |- *. split.
  - destruct (H (Ok ())) as (_ & Hok & _). apply Hok. vm_compute. reflexivity.
  - destruct (H (raise OSError "database is locked")) as (_ & _ & _ & Hf).
    destruct Hf as [Hsame|(_ & Hp & Hb & _)]; [vm_compute; reflexivity| |by split].
    apply (f_equal (λ w, spent key w.2)) in Hsame. vm_compute in Hsame. discriminate.
Defined.

End Sample.
